(** * Particle swarms of Parthenon: pool, attribute store and boundary exchange

    A shallow embedding of [src/interface/swarm.cpp] and the properties of
    its particle pool (allocation, deferred removal, defragmentation), of its
    attribute store (Add / Remove) and of its boundary exchange
    (Send / Receive).

    Conventions of the embedding.
    - A C++ [int] is a [Z]; the pool sizes at hand are far from 2^31 and no
      wrap-around is modelled.
    - [Real] (a C++ [double]) is modelled by the rationals [Q]: a value is
      the rational it stands for and is copied exactly; a sum or difference
      of doubles is the exact result rounded to the nearest double
      ([round_binary64]).  Infinities, NaN and the sign of zero have no
      counterpart in [Q]: the values at hand are finite and far from the
      largest double.
    - A Kokkos array is a [list]; it is read with [zget] and written with
      [zset], both indexed by a [Z].
    - [std::list<int>] and [std::vector] are lists, [std::map] is a [gmap].
    - A failed [PARTHENON_REQUIRE], a thrown exception and an access outside
      an array (undefined behaviour in C++) are the three kinds of [Error]. *)

From Stdlib Require Import ZArith QArith Qabs Qround Lqa Lia.
From stdpp Require Import base tactics option list numbers strings gmap sorting.

Local Open Scope Z_scope.

(** ** Errors and results *)

Inductive Error : Type :=
| invalid_argument (msg : string)   (* [throw std::invalid_argument(msg)] *)
| require_failed (msg : string)     (* a failed [PARTHENON_REQUIRE] *)
| out_of_bounds (what : string)     (* access outside an array or container *)
| fuel_exhausted.                   (* the bound of a modelled [while] loop *)

Inductive Result (A : Type) : Type :=
| Ok (a : A)
| Err (e : Error).
Arguments Ok {A} a.
Arguments Err {A} e.

(** [Result] is an error monad; sequencing uses stdpp's [x ← r; k]. *)
#[global] Instance Result_ret : MRet Result := λ A a, Ok a.
#[global] Instance Result_bind : MBind Result := λ A B k r,
  match r with
  | Ok a => k a
  | Err e => Err e
  end.

Definition is_Ok {A : Type} (r : Result A) : Prop := ∃ a, r = Ok a.

(** Monadic left fold: the body of a sequential [for] loop that may fail. *)
Fixpoint foldM {A B : Type} (f : B → A → Result B) (l : list A) (b : B) : Result B :=
  match l with
  | [] => Ok b
  | a :: l' => b' ← f b a; foldM f l' b'
  end.

(** ** Arrays indexed by a C++ [int] *)

Definition zget {A : Type} (l : list A) (i : Z) : option A :=
  if decide (0 ≤ i) then l !! Z.to_nat i else None.

Definition zset {A : Type} (l : list A) (i : Z) (v : A) : list A :=
  if decide (0 ≤ i) then <[Z.to_nat i := v]> l else l.

(** A read whose index the pool invariant keeps in range; [d] stands for the
    unspecified value outside the array. *)
Definition zget_def {A : Type} (d : A) (l : list A) (i : Z) : A :=
  default d (zget l i).

Abbreviation zlength l := (Z.of_nat (length l)) (only parsing).

(** [Resize(n)] of a Kokkos view: the old entries are kept, the new ones are
    value-initialised. *)
Definition resize_to {A : Type} (d : A) (n : Z) (l : list A) : list A :=
  take (Z.to_nat n) l ++ replicate (Z.to_nat n - length l)%nat d.

(** ** Metadata and particle variables *)

Inductive MetadataFlag : Type := Integer | Real | Boolean | NoType.

Record Metadata : Type := { Type_ : MetadataFlag }.

Record ParticleVariable (T : Type) : Type := {
  label : string;
  metadata : Metadata;
  data : list T;
}.
Arguments label {T} _.
Arguments metadata {T} _.
Arguments data {T} _.

(** [std::make_shared<ParticleVariable<T>>(label, npool, metadata)]: one
    entry per slot of the pool. *)
Definition make_ParticleVariable {T : Type} (d : T) (lbl : string) (npool : Z)
    (m : Metadata) : ParticleVariable T :=
  {| label := lbl; metadata := m; data := replicate (Z.to_nat npool) d |}.

(** The [shared_ptr] kept in [intMap_] / [realMap_] is never dereferenced in
    swarm.cpp: the maps are asked [count], [erase] and assigned only.  The
    vectors own the variables; a map entry records which variable it points
    to: its label and the pool size it was allocated with. *)
Record VarPtr : Type := { ptr_label : string; ptr_extent : Z }.

Definition ptr_of {T : Type} (v : ParticleVariable T) : VarPtr :=
  {| ptr_label := label v; ptr_extent := zlength (data v) |}.

(** Constants of swarm.hpp. *)
Definition this_block_ : Z := -1.
Definition unset_index_ : Z := -1.

(** ** The swarm *)

Record Swarm : Type := {
  label_ : string;
  m_ : Metadata;
  nmax_pool_ : Z;
  mask_ : list bool;
  marked_for_removal_ : list bool;
  neighbor_send_index_ : list Z;
  blockIndex_ : list Z;
  free_indices_ : list Z;
  num_active_ : Z;
  max_active_index_ : Z;
  num_particles_sent_ : Z;
  intVector_ : list (ParticleVariable Z);
  realVector_ : list (ParticleVariable Q);
  intMap_ : gmap string VarPtr;
  realMap_ : gmap string VarPtr;
}.

Definition get_num_active (s : Swarm) : Z := num_active_ s.

Definition set_pool (s : Swarm) (nmax : Z) (mask marked : list bool) (nsi bidx fr : list Z)
    (na mai : Z) : Swarm :=
  {| label_ := label_ s; m_ := m_ s; nmax_pool_ := nmax; mask_ := mask;
     marked_for_removal_ := marked; neighbor_send_index_ := nsi;
     blockIndex_ := bidx; free_indices_ := fr; num_active_ := na;
     max_active_index_ := mai; num_particles_sent_ := num_particles_sent_ s;
     intVector_ := intVector_ s; realVector_ := realVector_ s;
     intMap_ := intMap_ s; realMap_ := realMap_ s |}.

Definition set_vars (s : Swarm) (iv : list (ParticleVariable Z))
    (rv : list (ParticleVariable Q)) (im rm : gmap string VarPtr) : Swarm :=
  {| label_ := label_ s; m_ := m_ s; nmax_pool_ := nmax_pool_ s; mask_ := mask_ s;
     marked_for_removal_ := marked_for_removal_ s;
     neighbor_send_index_ := neighbor_send_index_ s;
     blockIndex_ := blockIndex_ s; free_indices_ := free_indices_ s;
     num_active_ := num_active_ s; max_active_index_ := max_active_index_ s;
     num_particles_sent_ := num_particles_sent_ s;
     intVector_ := iv; realVector_ := rv; intMap_ := im; realMap_ := rm |}.

(** ** Attribute store *)

(** [Swarm::Add(label, metadata)] *)
Definition Add (lbl : string) (md : Metadata) (s : Swarm) : Result Swarm :=
  if bool_decide (is_Some (intMap_ s !! lbl) ∨ is_Some (realMap_ s !! lbl)) then
    Err (invalid_argument ("swarm variable " +:+ lbl +:+ " already enrolled during Add()!"))
  else
    match Type_ md with
    | Integer =>
        let var := make_ParticleVariable 0 lbl (nmax_pool_ s) md in
        Ok (set_vars s (intVector_ s ++ [var]) (realVector_ s)
              (<[lbl := ptr_of var]> (intMap_ s)) (realMap_ s))
    | Real =>
        let var := make_ParticleVariable 0%Q lbl (nmax_pool_ s) md in
        Ok (set_vars s (intVector_ s) (realVector_ s ++ [var])
              (intMap_ s) (<[lbl := ptr_of var]> (realMap_ s)))
    | _ =>
        Err (invalid_argument
               ("swarm variable " +:+ lbl +:+ " does not have a valid type during Add()"))
    end.

(** The search loop of [Remove]: [(found, idx)] when the loop is left. *)
Fixpoint find_label {T : Type} (lbl : string) (v : list (ParticleVariable T)) (idx : Z)
    : bool * Z :=
  match v with
  | [] => (false, idx)
  | x :: v' => if bool_decide (lbl = label x) then (true, idx) else find_label lbl v' (idx + 1)
  end.

(** [v[idx].reset(); if (v.size() > 1) v[idx] = std::move(v.back()); v.pop_back();] *)
Definition swap_pop {T : Type} (v : list T) (idx : Z) : Result (list T) :=
  match zget v idx, last v with
  | Some _, Some b =>
      Ok (removelast (if bool_decide (1 < zlength v) then zset v idx b else v))
  | _, _ => Err (out_of_bounds "vector element in Remove()")
  end.

(** [Swarm::Remove(label)] *)
Definition Remove (lbl : string) (s : Swarm) : Result Swarm :=
  let '(found, idx) := find_label lbl (intVector_ s) 0 in
  s1 ← (if found then
          iv ← swap_pop (intVector_ s) idx ;
          Ok (set_vars s iv (realVector_ s) (delete lbl (intMap_ s)) (realMap_ s))
        else Ok s) ;
  let '(found, idx) := if found then (found, idx) else find_label lbl (realVector_ s1) 0 in
  s2 ← (if found then
          rv ← swap_pop (realVector_ s1) idx ;
          Ok (set_vars s1 (intVector_ s1) rv (intMap_ s1) (delete lbl (realMap_ s1)))
        else Ok s1) ;
  if found then Ok s2 else Err (invalid_argument "swarm variable not found in Remove()").

(** ** The particle pool *)

(** The members as the constructor's initialiser list leaves them: the
    arrays have [nmax_pool_] entries, the free list is empty. *)
Definition Swarm_members (lbl : string) (md : Metadata) (nmax_pool_in : Z) : Swarm :=
  {| label_ := lbl; m_ := md; nmax_pool_ := nmax_pool_in;
     mask_ := replicate (Z.to_nat nmax_pool_in) false;
     marked_for_removal_ := replicate (Z.to_nat nmax_pool_in) false;
     neighbor_send_index_ := replicate (Z.to_nat nmax_pool_in) 0;
     blockIndex_ := replicate (Z.to_nat nmax_pool_in) 0;
     free_indices_ := []; num_active_ := 0; max_active_index_ := 0;
     num_particles_sent_ := 0;
     intVector_ := []; realVector_ := []; intMap_ := ∅; realMap_ := ∅ |}.

(** One turn of the constructor's loop over the slots. *)
Definition init_slot (s : Swarm) (n : Z) : Swarm :=
  set_pool s (nmax_pool_ s) (zset (mask_ s) n false) (zset (marked_for_removal_ s) n false)
    (neighbor_send_index_ s) (blockIndex_ s) (free_indices_ s ++ [n])
    (num_active_ s) (max_active_index_ s).

(** [Swarm::Swarm(label, metadata, nmax_pool_in)] *)
Definition Swarm_new (lbl : string) (md : Metadata) (nmax_pool_in : Z) : Result Swarm :=
  s ← Add "x" {| Type_ := Real |} (Swarm_members lbl md nmax_pool_in);
  s ← Add "y" {| Type_ := Real |} s;
  s ← Add "z" {| Type_ := Real |} s;
  let s := set_pool s (nmax_pool_ s) (mask_ s) (marked_for_removal_ s)
             (neighbor_send_index_ s) (blockIndex_ s) (free_indices_ s) 0 0 in
  Ok (fold_left init_slot (seqZ 0 (nmax_pool_ s)) s).

(** Modelled from the spec: [SwarmDeviceContext::MarkParticleForRemoval] is
    declared in a header that is not part of the sources; it "sets the
    removal flag" of slot [n]. *)
Definition MarkParticleForRemoval (n : Z) (s : Swarm) : Swarm :=
  set_pool s (nmax_pool_ s) (mask_ s) (zset (marked_for_removal_ s) n true)
    (neighbor_send_index_ s) (blockIndex_ s) (free_indices_ s)
    (num_active_ s) (max_active_index_ s).

(** The [par_for] of [setPoolMax] that copies the old entries of a variable
    into its enlarged replacement. *)
Definition regrow {T : Type} (d : T) (nmax_old nmax_new : Z) (oldvar : ParticleVariable T)
    : ParticleVariable T :=
  let newvar := make_ParticleVariable d (label oldvar) nmax_new (metadata oldvar) in
  {| label := label newvar; metadata := metadata newvar;
     data := fold_left (λ nd m, zset nd m (zget_def d (data oldvar) m))
               (seqZ 0 nmax_old) (data newvar) |}.

Definition remap {T : Type} (m : gmap string VarPtr) (vs : list (ParticleVariable T))
    : gmap string VarPtr :=
  fold_left (λ m newvar, <[label newvar := ptr_of newvar]> m) vs m.

(** [Swarm::setPoolMax(nmax_pool)] *)
Definition setPoolMax (nmax_pool : Z) (s : Swarm) : Result Swarm :=
  if bool_decide (nmax_pool > nmax_pool_ s) then
    let n_new_begin := nmax_pool_ s in
    let n_new := nmax_pool - nmax_pool_ s in
    let fr := fold_left (λ fr n, fr ++ [n + n_new_begin]) (seqZ 0 n_new) (free_indices_ s) in
    let mask := fold_left (λ m n, zset m n false) (seqZ (nmax_pool_ s) n_new)
                  (resize_to false nmax_pool (mask_ s)) in
    let marked := fold_left (λ m n, zset m n false) (seqZ (nmax_pool_ s) n_new)
                    (resize_to false nmax_pool (marked_for_removal_ s)) in
    let nsi := resize_to 0 nmax_pool (neighbor_send_index_ s) in
    let bidx := resize_to 0 nmax_pool (blockIndex_ s) in
    let iv := regrow 0 (nmax_pool_ s) nmax_pool <$> intVector_ s in
    let rv := regrow 0%Q (nmax_pool_ s) nmax_pool <$> realVector_ s in
    let s := set_pool s nmax_pool mask marked nsi bidx fr
               (num_active_ s) (max_active_index_ s) in
    Ok (set_vars s iv rv (remap (intMap_ s) iv) (remap (realMap_ s) rv))
  else Err (require_failed "Must request larger pool size!").

(** [Swarm::RemoveMarkedParticles()]: one turn of the descending loop. *)
Definition remove_slot (s : Swarm) (n : Z) : Swarm :=
  if zget_def false (mask_ s) n then
    if zget_def false (marked_for_removal_ s) n then
      set_pool s (nmax_pool_ s) (zset (mask_ s) n false)
        (zset (marked_for_removal_ s) n false)
        (neighbor_send_index_ s) (blockIndex_ s) (n :: free_indices_ s)
        (num_active_ s - 1)
        (if bool_decide (n = max_active_index_ s) then max_active_index_ s - 1
         else max_active_index_ s)
    else s
  else s.

Definition RemoveMarkedParticles (s : Swarm) : Swarm :=
  fold_left remove_slot (reverse (seqZ 0 (max_active_index_ s + 1))) s.

Section Pool.

(** Modelled from the spec: [increasePoolMax] is declared in swarm.hpp, which
    is not part of the sources.  It "grows capacity first" through
    [setPoolMax] ("Resize(newCapacity)"); the requested capacity is a
    function of the current one, left open here. *)
Variable increase_target : Z → Z.

Definition increasePoolMax (s : Swarm) : Result Swarm :=
  setPoolMax (increase_target (nmax_pool_ s)) s.

(** [while (free_indices_.size() < num_to_add) increasePoolMax();]
    The second component counts the calls of [increasePoolMax]. *)
Fixpoint grow_pool (fuel : nat) (num_to_add : Z) (s : Swarm) : Result (Swarm * nat) :=
  if bool_decide (zlength (free_indices_ s) < num_to_add) then
    match fuel with
    | O => Err fuel_exhausted
    | S fuel' =>
        s' ← increasePoolMax s;
        '(s'', k) ← grow_pool fuel' num_to_add s';
        Ok (s'', S k)
    end
  else Ok (s, O).

(** The state of the allocation loop of [AddEmptyParticles]. *)
Record AddLoop : Type := {
  al_mask : list bool;
  al_new_mask : list bool;
  al_blockIndex : list Z;
  al_max_active : Z;
  al_new_indices : list Z;
  al_free : list Z;
}.

Definition add_slot (st : AddLoop) (n : Z) : Result AddLoop :=
  match al_free st with
  | [] => Err (out_of_bounds "free_indices_.end() dereferenced")
  | free_index :: rest =>
      Ok {| al_mask := zset (al_mask st) free_index true;
            al_new_mask := zset (al_new_mask st) free_index true;
            al_blockIndex := zset (al_blockIndex st) free_index this_block_;
            al_max_active := Z.max (al_max_active st) free_index;
            al_new_indices := zset (al_new_indices st) n free_index;
            al_free := rest |}
  end.

(** [Swarm::AddEmptyParticles(num_to_add, new_indices)]: the new state, the
    returned mask of new particles and [new_indices]. *)
Definition AddEmptyParticles (num_to_add : Z) (s : Swarm)
    : Result (Swarm * list bool * list Z) :=
  if bool_decide (num_to_add > 0) then
    '(s, _) ← grow_pool (Z.to_nat num_to_add) num_to_add s;
    let st := {| al_mask := mask_ s;
                 al_new_mask := replicate (Z.to_nat (nmax_pool_ s)) false;
                 al_blockIndex := blockIndex_ s;
                 al_max_active := max_active_index_ s;
                 al_new_indices := replicate (Z.to_nat num_to_add) 0;
                 al_free := free_indices_ s |} in
    st ← foldM add_slot (seqZ 0 num_to_add) st;
    Ok (set_pool s (nmax_pool_ s) (al_mask st) (marked_for_removal_ s)
          (neighbor_send_index_ s) (al_blockIndex st) (al_free st)
          (num_active_ s + num_to_add) (al_max_active st),
        al_new_mask st, al_new_indices st)
  else Err (require_failed "Attempting to add fewer than 1 new particles!").

End Pool.

(** ** Defragmentation *)

(** [while (mask_h(index) == false) index--;] the slot where the loop stops.
    The loop leaves the array below index 0 when no active slot is left. *)
Fixpoint scan_down (fuel : nat) (mask_h : list bool) (index : Z) : Result Z :=
  match zget mask_h index with
  | Some true => Ok index
  | Some false =>
      match fuel with
      | O => Err (out_of_bounds "mask_h below index 0 in Defrag()")
      | S fuel' => scan_down fuel' mask_h (index - 1)
      end
  | None => Err (out_of_bounds "mask_h in Defrag()")
  end.

(** The state of the planning loop of [Defrag]. *)
Record DefragPlan : Type := {
  dp_index : Z;
  dp_free : list Z;
  dp_new_free : list Z;
  dp_from_to : list Z;
}.

(** [for (int n = 0; n < num_to_move; n++) { ... }] with its [break]. *)
Fixpoint plan_moves (num_to_move : nat) (mask_h : list bool) (num_active : Z)
    (st : DefragPlan) : Result DefragPlan :=
  match num_to_move with
  | O => Ok st
  | S k =>
      index_to_move_from ← scan_down (Z.to_nat (dp_index st)) mask_h (dp_index st);
      let index := index_to_move_from - 1 in
      if bool_decide (index_to_move_from < num_active) then
        Ok {| dp_index := index; dp_free := dp_free st;
              dp_new_free := dp_new_free st; dp_from_to := dp_from_to st |}
      else
        match dp_free st with
        | [] => Err (out_of_bounds "free_indices_.front() of an empty list")
        | index_to_move_to :: rest =>
            plan_moves k mask_h num_active
              {| dp_index := index; dp_free := rest;
                 dp_new_free := dp_new_free st ++ [index_to_move_from];
                 dp_from_to := zset (dp_from_to st) index_to_move_from index_to_move_to |}
        end
  end.

(** The body of the [par_for] "Swarm::DefragMask". *)
Definition defrag_mask (from_to : list Z) (mask : list bool) (n : Z) : list bool :=
  if bool_decide (zget_def unset_index_ from_to n >= 0) then
    zset (zset mask (zget_def unset_index_ from_to n) (zget_def false mask n)) n false
  else mask.

(** [v(i, to) = v(i, n)] for one variable of a pack. *)
Definition move_slot {T : Type} (d : T) (n to : Z) (v : ParticleVariable T)
    : ParticleVariable T :=
  {| label := label v; metadata := metadata v;
     data := zset (data v) to (zget_def d (data v) n) |}.

(** The body of the [par_for] "Swarm::DefragVariables". *)
Definition defrag_vars {T : Type} (d : T) (from_to : list Z)
    (vs : list (ParticleVariable T)) (n : Z) : list (ParticleVariable T) :=
  if bool_decide (zget_def unset_index_ from_to n >= 0) then
    move_slot d n (zget_def unset_index_ from_to n) <$> vs
  else vs.

(** [Swarm::Defrag()] *)
Definition Defrag (s : Swarm) : Result Swarm :=
  if bool_decide (get_num_active s = 0) then Ok s
  else
    let num_free := (max_active_index_ s + 1) - num_active_ s in
    let from_to_indices_h :=
      fold_left (λ ft n, zset ft n unset_index_) (seqZ 0 (max_active_index_ s + 1))
        (replicate (Z.to_nat (max_active_index_ s + 1)) 0) in
    let num_to_move := Z.min num_free (num_active_ s) in
    st ← plan_moves (Z.to_nat num_to_move) (mask_ s) (num_active_ s)
           {| dp_index := max_active_index_ s; dp_free := free_indices_ s;
              dp_new_free := []; dp_from_to := from_to_indices_h |};
    let fr := list_merge Z.le (merge_sort Z.le (dp_free st))
                (merge_sort Z.le (dp_new_free st)) in
    let from_to_indices := dp_from_to st in
    let mask := fold_left (defrag_mask from_to_indices)
                  (seqZ 0 (max_active_index_ s + 1)) (mask_ s) in
    let rv := fold_left (defrag_vars 0%Q from_to_indices)
                (seqZ 0 (max_active_index_ s + 1)) (realVector_ s) in
    let iv := fold_left (defrag_vars 0 from_to_indices)
                (seqZ 0 (max_active_index_ s + 1)) (intVector_ s) in
    let s' := set_pool s (nmax_pool_ s) mask (marked_for_removal_ s)
                (neighbor_send_index_ s) (blockIndex_ s) fr
                (num_active_ s) (num_active_ s - 1) in
    Ok (set_vars s' iv rv (intMap_ s) (realMap_ s)).

(** ** Variable packs *)

(** [vreal(i, n)] and [vint(i, n)]: entry [n] of the [i]-th variable of the
    pack.  [PackAllVariablesReal] / [PackAllVariablesInt] build the pack from
    [realVector_] / [intVector_] in their order ([MakeVarListAll_] walks the
    vector backwards and pushes to the front). *)
Definition vget {T : Type} (d : T) (vs : list (ParticleVariable T)) (i n : Z) : T :=
  match zget vs i with
  | Some v => zget_def d (data v) n
  | None => d
  end.

Definition vset {T : Type} (vs : list (ParticleVariable T)) (i n : Z) (x : T)
    : list (ParticleVariable T) :=
  match zget vs i with
  | Some v => zset vs i {| label := label v; metadata := metadata v;
                           data := zset (data v) n x |}
  | None => vs
  end.

(** Modelled from the spec: [PackIndexMap] and [MakeSwarmPack] are declared in
    headers that are not part of the sources.  The map is the "order-stable
    (name → offset,count) view" of the pack: [rmap[lbl].first] is the position
    of the variable labelled [lbl]; a [std::map] yields the value-initialised
    pair, hence 0, for a label it does not hold. *)
Definition pack_index {T : Type} (lbl : string) (vs : list (ParticleVariable T)) : Z :=
  let '(found, idx) := find_label lbl vs 0 in
  if found then idx else 0.

(** Modelled from the spec: [GetParticleDataSize] is declared in swarm.hpp,
    which is not part of the sources.  A record is the "concatenation of all
    real attributes then all integer attributes", one entry each. *)
Definition GetParticleDataSize (s : Swarm) : Z :=
  zlength (realVector_ s) + zlength (intVector_ s).

(** [static_cast<int>(Real)]: truncation towards zero. *)
Definition Qtrunc (q : Q) : Z := Z.quot (Qnum q) (Zpos (Qden q)).

(** ** Mesh block, neighbours and boundary buffers *)

Inductive BoundaryStatus : Type := waiting | arrived | completed.

#[global] Instance BoundaryStatus_eq_dec : EqDecision BoundaryStatus.
Proof. solve_decision. Defined.

Record NeighborBlock : Type := { snb_rank : Z; bufid : Z }.

(** What [Send] and [Receive] read of the mesh block, of its mesh and of
    [Globals]. *)
Record MeshBlock : Type := {
  nneighbor : Z;
  neighbor : list NeighborBlock;
  x1min : Q; x1max : Q;
  x2min : Q; x2max : Q;
  x3min : Q; x3max : Q;
  my_rank : Z;
}.

(** [vbswarm->bd_var_] *)
Record BoundaryData : Type := {
  nbmax : Z;
  flag : list BoundaryStatus;
  send : list (list Q);
  recv : list (list Q);
}.

(** [vbswarm], the [BoundarySwarm] of the swarm. *)
Record BoundarySwarm : Type := {
  bd_var_ : BoundaryData;
  send_size : list Z;
  recv_size : list Z;
  particle_size : Z;
}.

Definition set_send (vb : BoundarySwarm) (sendbufs : list (list Q)) (sizes : list Z)
    (psize : Z) : BoundarySwarm :=
  {| bd_var_ := {| nbmax := nbmax (bd_var_ vb); flag := flag (bd_var_ vb);
                   send := sendbufs; recv := recv (bd_var_ vb) |};
     send_size := sizes; recv_size := recv_size vb; particle_size := psize |}.

Definition set_flag (vb : BoundarySwarm) (flags : list BoundaryStatus) : BoundarySwarm :=
  {| bd_var_ := {| nbmax := nbmax (bd_var_ vb); flag := flags;
                   send := send (bd_var_ vb); recv := recv (bd_var_ vb) |};
     send_size := send_size vb; recv_size := recv_size vb;
     particle_size := particle_size vb |}.

(** ** Periodic boundary *)

(** *** Arithmetic of [double]

    IEEE 754 binary64 with the default rounding: the result of an operation
    is the exact result rounded to the nearest number [m * 2^e] with
    [|m| < 2^53] and [-1074 <= e], the one with an even [m] when two are
    equally near. *)

(** [floor (log2 |q|)], for [q] other than zero. *)
Definition Qlog2 (q : Q) : Z :=
  let n := Z.abs (Qnum q) in
  let d := Zpos (Qden q) in
  let k := Z.log2 n - Z.log2 d in
  if n * 2 ^ Z.max 0 (- k) <? d * 2 ^ Z.max 0 k then k - 1 else k.

(** The integer nearest to [q], the even one of the two when [q] lies
    half-way. *)
Definition round_half_even (q : Q) : Z :=
  let f := Qfloor q in
  match (q - inject_Z f ?= 1 # 2)%Q with
  | Lt => f
  | Gt => f + 1
  | Eq => if Z.even f then f else f + 1
  end.

(** Rounding to binary64: 53 significant bits, or fewer below [2^-1022]
    (subnormal numbers), where the exponent stays at [-1074]. *)
Definition round_binary64 (q : Q) : Q :=
  let q := Qred q in
  if Qeq_bool q 0 then 0%Q
  else
    let e := Z.max (Qlog2 q - 52) (-1074) in
    Qred (inject_Z (round_half_even (q / Qpower 2 e)) * Qpower 2 e).

(** The largest finite double, [(2^53 - 1) * 2^971]. *)
Definition max_double : Q := inject_Z ((2 ^ 53 - 1) * 2 ^ 971).

(** [q] is a finite double. *)
Definition binary64 (q : Q) : Prop :=
  (round_binary64 q == q)%Q ∧ (Qabs q <= max_double)%Q.

(** [a - b] and [a + b] on doubles. *)
Definition double_sub (a b : Q) : Q := round_binary64 (a - b).
Definition double_add (a b : Q) : Q := round_binary64 (a + b).

(** A double of a size (at most [2^1022]) that keeps the sums and
    differences of the periodic folding below the largest double. *)
Definition moderate (q : Q) : Prop :=
  (round_binary64 q == q)%Q ∧ (Qabs q <= inject_Z (2 ^ 1022))%Q.

(** [if (x < min) x = max - (min - x); if (x > max) x = min + (x - max);] *)
Definition periodic_fold (lo hi x : Q) : Q :=
  let x := if Qlt_le_dec x lo then double_sub hi (double_sub lo x) else x in
  if Qlt_le_dec hi x then double_add lo (double_sub x hi) else x.

(** The folding of [x], [y] and [z] of slot [n], as [Send] and [Receive]
    apply it through the references [vreal(ix, n)], [vreal(iy, n)] and
    [vreal(iz, n)]. *)
Definition apply_periodic (pmb : MeshBlock) (ix iy iz n : Z)
    (vreal : list (ParticleVariable Q)) : list (ParticleVariable Q) :=
  let vreal := vset vreal ix n (periodic_fold (x1min pmb) (x1max pmb) (vget 0%Q vreal ix n)) in
  let vreal := vset vreal iy n (periodic_fold (x2min pmb) (x2max pmb) (vget 0%Q vreal iy n)) in
  vset vreal iz n (periodic_fold (x3min pmb) (x3max pmb) (vget 0%Q vreal iz n)).

(** ** Send *)

(** The tally of [Send]: [(num_particles_to_send_h, max_indices_size)]. *)
Definition tally_slot (mask_h : list bool) (blockIndex_h : list Z)
    (st : list Z * Z) (n : Z) : Result (list Z * Z) :=
  let '(num, max_indices_size) := st in
  if zget_def false mask_h n then
    let b := zget_def 0 blockIndex_h n in
    if bool_decide (b >= 0) then
      match zget num b with
      | Some c =>
          Ok (zset num b (c + 1),
              if bool_decide (max_indices_size < c + 1) then c + 1 else max_indices_size)
      | None => Err (out_of_bounds "num_particles_to_send_h(blockIndex_h(n))")
      end
    else Ok st
  else Ok st.

(** The second pass of [Send]: the rows of [particle_indices_to_send_h] and
    the [counter] of every neighbour. *)
Definition index_slot (mask_h : list bool) (blockIndex_h : list Z)
    (st : list (list Z) * list Z) (n : Z) : list (list Z) * list Z :=
  let '(rows, counter) := st in
  if zget_def false mask_h n then
    let b := zget_def 0 blockIndex_h n in
    if bool_decide (b >= 0) then
      (zset rows b (zset (zget_def [] rows b) (zget_def 0 counter b) n),
       zset counter b (zget_def 0 counter b + 1))
    else st
  else st.

(** The state of the loop that sizes the send buffers. *)
Record SizeLoop : Type := {
  sl_send : list (list Q);
  sl_send_size : list Z;
  sl_sent : Z;
}.

Definition size_buffer (num : list Z) (psize : Z) (st : SizeLoop) (n : Z) : SizeLoop :=
  let want := zget_def 0 num n * psize in
  let sendbuf := zget_def [] (sl_send st) n in
  {| sl_send := if bool_decide (zlength sendbuf < want)
                then zset (sl_send st) n (replicate (Z.to_nat want) 0%Q)
                else sl_send st;
     sl_send_size := zset (sl_send_size st) n want;
     sl_sent := sl_sent st + zget_def 0 num n |}.

(** The state of the [par_for] "Pack Buffers". *)
Record PackLoop : Type := {
  pl_send : list (list Q);
  pl_marked : list bool;
  pl_vreal : list (ParticleVariable Q);
}.

(** [bdvar.send[m](buffer_index) = value; buffer_index++;] for every value. *)
Definition write_values (values : list Q) (st : list Q * Z) : list Q * Z :=
  fold_left (λ '(buf, buffer_index) x, (zset buf buffer_index x, buffer_index + 1))
    values st.

(** The body of "Pack Buffers" for particle number [n] of neighbour [m]. *)
Definition pack_particle (pmb : MeshBlock) (num : list Z) (rows : list (list Z))
    (psize : Z) (vint : list (ParticleVariable Z)) (nrank : list Z) (ix iy iz : Z)
    (n : Z) (st : PackLoop) (m : Z) : PackLoop :=
  if bool_decide (n < zget_def 0 num m) then
    let sidx := zget_def 0 (zget_def [] rows m) n in
    let buffer_index := n * psize in
    let marked := zset (pl_marked st) sidx true in
    let buf := zget_def [] (pl_send st) m in
    let '(buf, buffer_index) :=
      write_values ((λ v, zget_def 0%Q (data v) sidx) <$> pl_vreal st) (buf, buffer_index) in
    let '(buf, buffer_index) :=
      write_values ((λ v, inject_Z (zget_def 0 (data v) sidx)) <$> vint) (buf, buffer_index) in
    {| pl_send := zset (pl_send st) m buf;
       pl_marked := marked;
       pl_vreal := if bool_decide (zget_def 0 nrank m = my_rank pmb)
                   then apply_periodic pmb ix iy iz sidx (pl_vreal st)
                   else pl_vreal st |}
  else st.

(** The first pass over the slots: how many particles go to each neighbour,
    and the largest of these numbers. *)
Definition tally (s : Swarm) (nbmax : Z) : Result (list Z * Z) :=
  foldM (tally_slot (mask_ s) (blockIndex_ s)) (seqZ 0 (max_active_index_ s + 1))
    (replicate (Z.to_nat nbmax) 0, 0).

(** The second pass: [particle_indices_to_send_h]. *)
Definition index_rows (s : Swarm) (nbmax max_indices_size : Z) : list (list Z) :=
  (fold_left (index_slot (mask_ s) (blockIndex_ s)) (seqZ 0 (max_active_index_ s + 1))
     (replicate (Z.to_nat nbmax) (replicate (Z.to_nat max_indices_size) 0),
      replicate (Z.to_nat nbmax) 0)).1.

(** The [par_for] "Pack Buffers" over [n] and its inner loop over [m]. *)
Definition pack_buffers (pmb : MeshBlock) (s : Swarm) (nbmax : Z)
    (num : list Z) (rows : list (list Z)) (psize max_indices_size : Z)
    (sendbufs : list (list Q)) : PackLoop :=
  let ix := pack_index "x" (realVector_ s) in
  let iy := pack_index "y" (realVector_ s) in
  let iz := pack_index "z" (realVector_ s) in
  let nrank := (λ n, snb_rank (zget_def {| snb_rank := 0; bufid := 0 |} (neighbor pmb) n))
                 <$> seqZ 0 nbmax in
  fold_left
    (λ st n, fold_left
               (pack_particle pmb num rows psize (intVector_ s) nrank ix iy iz n)
               (seqZ 0 nbmax) st)
    (seqZ 0 (max_indices_size + 1))
    {| pl_send := sendbufs; pl_marked := marked_for_removal_ s;
       pl_vreal := realVector_ s |}.

(** [Swarm::Send(phase)], up to the call of the transport
    ([vbswarm->Send(phase)]), which is outside the sources. *)
Definition Send (pmb : MeshBlock) (s : Swarm) (vb : BoundarySwarm)
    : Result (bool * Swarm * BoundarySwarm) :=
  let nbmax := nbmax (bd_var_ vb) in
  let particle_size := GetParticleDataSize s in
  '(num_particles_to_send, max_indices_size) ← tally s nbmax;
  let max_indices_size := Z.max 1 max_indices_size in
  let particle_indices_to_send := index_rows s nbmax max_indices_size in
  let sz := fold_left (size_buffer num_particles_to_send particle_size) (seqZ 0 nbmax)
              {| sl_send := send (bd_var_ vb); sl_send_size := send_size vb;
                 sl_sent := 0 |} in
  let packed := pack_buffers pmb s nbmax num_particles_to_send particle_indices_to_send
                  particle_size max_indices_size (sl_send sz) in
  let s := set_pool s (nmax_pool_ s) (mask_ s) (pl_marked packed)
             (neighbor_send_index_ s) (blockIndex_ s) (free_indices_ s)
             (num_active_ s) (max_active_index_ s) in
  let s := set_vars s (intVector_ s) (pl_vreal packed) (intMap_ s) (realMap_ s) in
  let s := {| label_ := label_ s; m_ := m_ s; nmax_pool_ := nmax_pool_ s;
              mask_ := mask_ s; marked_for_removal_ := marked_for_removal_ s;
              neighbor_send_index_ := neighbor_send_index_ s;
              blockIndex_ := blockIndex_ s; free_indices_ := free_indices_ s;
              num_active_ := num_active_ s; max_active_index_ := max_active_index_ s;
              num_particles_sent_ := sl_sent sz;
              intVector_ := intVector_ s; realVector_ := realVector_ s;
              intMap_ := intMap_ s; realMap_ := realMap_ s |} in
  Ok (true, RemoveMarkedParticles s,
      set_send vb (pl_send packed) (sl_send_size sz) particle_size).

(** ** Receive *)

(** The first loop of [Receive] for neighbour [n]:
    [(neighbor_received_particles, total_received_particles)]. *)
Definition count_received (pmb : MeshBlock) (vb : BoundarySwarm)
    (st : list Z * Z) (n : Z) : Result (list Z * Z) :=
  let '(received, total) := st in
  match zget (neighbor pmb) n with
  | None => Err (out_of_bounds "pmb->pbval->neighbor[n]")
  | Some nb =>
      match zget (flag (bd_var_ vb)) (bufid nb) with
      | None => Err (out_of_bounds "bd_var_.flag[bufid]")
      | Some f =>
          if bool_decide (f = arrived) then
            match zget (recv_size vb) n with
            | None => Err (out_of_bounds "recv_size[n]")
            | Some size =>
                if bool_decide (particle_size vb = 0) then
                  Err (require_failed "division by a particle size of zero")
                else if bool_decide (Z.rem size (particle_size vb) = 0) then
                  let count := Z.quot size (particle_size vb) in
                  Ok (zset received n count, total + count)
                else
                  Err (require_failed "Receive buffer is not divisible by particle size!")
            end
          else Ok (zset received n 0, total)
      end
  end.

(** [neighbor_index_h] and [buffer_index_h], entry by entry. *)
Definition received_slots (maxneighbor : Z) (received : list Z) : list (Z * Z) :=
  n ← seqZ 0 maxneighbor;
  m ← seqZ 0 (zget_def 0 received n);
  [(n, m)].

Definition read_recv (recvbufs : list (list Q)) (nid i : Z) : Result Q :=
  match zget recvbufs nid with
  | None => Err (out_of_bounds "bdvar.recv[nid]")
  | Some buf =>
      match zget buf i with
      | None => Err (out_of_bounds "bdvar.recv[nid](i)")
      | Some x => Ok x
      end
  end.

(** The state of the [par_for] "Unpack buffers". *)
Record UnpackLoop : Type := {
  ul_vreal : list (ParticleVariable Q);
  ul_vint : list (ParticleVariable Z);
}.

(** The body of "Unpack buffers" for received particle number [n]. *)
Definition unpack_particle (pmb : MeshBlock) (recvbufs : list (list Q))
    (new_indices : list Z) (slots : list (Z * Z))
    (psize real_vars_size int_vars_size ix iy iz : Z)
    (st : UnpackLoop) (n : Z) : Result UnpackLoop :=
  let sid := zget_def 0 new_indices n in
  let '(nid, bid) := zget_def (0, 0) slots n in
  vreal ← foldM (λ vreal i, x ← read_recv recvbufs nid (bid * psize + i);
                             Ok (vset vreal i sid x))
             (seqZ 0 real_vars_size) (ul_vreal st);
  vint ← foldM (λ vint i, x ← read_recv recvbufs nid ((real_vars_size + bid) * psize + i);
                           Ok (vset vint i sid (Qtrunc x)))
            (seqZ 0 int_vars_size) (ul_vint st);
  Ok {| ul_vreal := apply_periodic pmb ix iy iz sid vreal; ul_vint := vint |}.

(** The last loop of [Receive] for neighbour [n]:
    [(bdvar.flag, all_boundaries_received)]. *)
Definition settle_flag (pmb : MeshBlock) (st : list BoundaryStatus * bool) (n : Z)
    : Result (list BoundaryStatus * bool) :=
  let '(flags, all_boundaries_received) := st in
  match zget (neighbor pmb) n with
  | None => Err (out_of_bounds "pmb->pbval->neighbor[n]")
  | Some nb =>
      match zget flags (bufid nb) with
      | None => Err (out_of_bounds "bdvar.flag[nb.bufid]")
      | Some f =>
          if bool_decide (f = arrived) then
            Ok (zset flags (bufid nb) completed, all_boundaries_received)
          else if bool_decide (f = waiting) then Ok (flags, false)
          else Ok st
      end
  end.

Section Exchange.

Variable increase_target : Z → Z.

(** The transport, an external collaborator: [vbswarm->Receive(phase)] polls
    it and updates the receive buffers, their sizes and the flags. *)
Variable vbswarm_Receive : BoundarySwarm → BoundarySwarm.

(** [Swarm::Receive(phase)] *)
Definition Receive (pmb : MeshBlock) (s : Swarm) (vb : BoundarySwarm)
    : Result (bool * Swarm * BoundarySwarm) :=
  let vb := vbswarm_Receive vb in
  let maxneighbor := nbmax (bd_var_ vb) in
  '(neighbor_received_particles, total_received_particles) ←
    foldM (count_received pmb vb) (seqZ 0 maxneighbor)
      (replicate (Z.to_nat maxneighbor) 0, 0);
  s ← (if bool_decide (total_received_particles > 0) then
         '(s, new_mask, new_indices) ←
           AddEmptyParticles increase_target total_received_particles s;
         let real_vars_size := zlength (realVector_ s) in
         let int_vars_size := zlength (intVector_ s) in
         let ix := pack_index "x" (realVector_ s) in
         let iy := pack_index "y" (realVector_ s) in
         let iz := pack_index "z" (realVector_ s) in
         let slots := received_slots maxneighbor neighbor_received_particles in
         let particle_size := GetParticleDataSize s in
         st ← foldM (unpack_particle pmb (recv (bd_var_ vb)) new_indices slots
                       particle_size real_vars_size int_vars_size ix iy iz)
                (seqZ 0 total_received_particles)
                {| ul_vreal := realVector_ s; ul_vint := intVector_ s |};
         Ok (set_vars s (ul_vint st) (ul_vreal st) (intMap_ s) (realMap_ s))
       else Ok s);
  '(flags, all_boundaries_received) ←
    foldM (settle_flag pmb) (seqZ 0 (nneighbor pmb)) (flag (bd_var_ vb), true);
  Ok (all_boundaries_received, s, set_flag vb flags).

End Exchange.

(** ** Pool invariant and reachable states *)

(** The indices of the active slots, in ascending order. *)
Definition active_indices (s : Swarm) : list Z :=
  filter (λ i, zget (mask_ s) i = Some true) (seqZ 0 (nmax_pool_ s)).

(** The slot bookkeeping every operation keeps. *)
Record pool_inv (s : Swarm) : Prop := {
  inv_cap : 0 < nmax_pool_ s;
  inv_mask : zlength (mask_ s) = nmax_pool_ s;
  inv_marked : zlength (marked_for_removal_ s) = nmax_pool_ s;
  inv_nodup : NoDup (free_indices_ s);
  inv_free : ∀ i, i ∈ free_indices_ s ↔ zget (mask_ s) i = Some false;
  inv_count : num_active_ s + zlength (free_indices_ s) = nmax_pool_ s;
  inv_max : -1 ≤ max_active_index_ s < nmax_pool_ s;
}.

(** The states of a pool that its public operations lead to, from a
    construction with a positive capacity.  Attribute registration and any
    write to attribute data or slot ownership leave the bookkeeping alone;
    [Send] and [Receive] change it through the operations before them. *)
Inductive reachable (increase_target : Z → Z) : Swarm → Prop :=
| reach_new lbl md nmax_pool_in s :
    0 < nmax_pool_in →
    Swarm_new lbl md nmax_pool_in = Ok s →
    reachable increase_target s
| reach_AddEmptyParticles s num_to_add s' new_mask new_indices :
    reachable increase_target s →
    AddEmptyParticles increase_target num_to_add s = Ok (s', new_mask, new_indices) →
    reachable increase_target s'
| reach_Mark s n :
    reachable increase_target s →
    reachable increase_target (MarkParticleForRemoval n s)
| reach_RemoveMarkedParticles s :
    reachable increase_target s →
    reachable increase_target (RemoveMarkedParticles s)
| reach_Defrag s s' :
    reachable increase_target s →
    Defrag s = Ok s' →
    reachable increase_target s'
| reach_setPoolMax s nmax_pool s' :
    reachable increase_target s →
    setPoolMax nmax_pool s = Ok s' →
    reachable increase_target s'
| reach_vars s iv rv im rm :
    reachable increase_target s →
    reachable increase_target (set_vars s iv rv im rm)
| reach_owner s bidx :
    reachable increase_target s →
    reachable increase_target
      (set_pool s (nmax_pool_ s) (mask_ s) (marked_for_removal_ s)
         (neighbor_send_index_ s) bidx (free_indices_ s)
         (num_active_ s) (max_active_index_ s))
| reach_Send s pmb vb b s' vb' :
    reachable increase_target s →
    Send pmb s vb = Ok (b, s', vb') →
    reachable increase_target s'
| reach_Receive s vbswarm_Receive pmb vb b s' vb' :
    reachable increase_target s →
    Receive increase_target vbswarm_Receive pmb s vb = Ok (b, s', vb') →
    reachable increase_target s'.

(** No slot up to [max_active_index_] is both active and marked. *)
Definition no_pending_marks (s : Swarm) : Prop :=
  ∀ n, 0 ≤ n ≤ max_active_index_ s →
       zget_def false (mask_ s) n && zget_def false (marked_for_removal_ s) n = false.

(** * Notions used in the statements *)

(** The three coordinate variables a new swarm holds. *)
Definition coordinate_vars (nmax_pool_in : Z) : list (ParticleVariable Q) :=
  [make_ParticleVariable 0%Q "x" nmax_pool_in {| Type_ := Real |};
   make_ParticleVariable 0%Q "y" nmax_pool_in {| Type_ := Real |};
   make_ParticleVariable 0%Q "z" nmax_pool_in {| Type_ := Real |}].

Definition pending (s : Swarm) (n : Z) : bool :=
  zget_def false (mask_ s) n && zget_def false (marked_for_removal_ s) n.

(** What the planning loop of [Defrag] maintains, for the mask [M] and the
    free list [F] it started from: [j] slots were taken from the front of
    [F]; the table sends the slots to vacate, all active, one-to-one onto
    these [j] free slots. *)
Record plan_ok (M : list bool) (F : list Z) (X : Z) (st : DefragPlan) (j : nat)
    : Prop := {
  po_free : dp_free st = drop j F;
  po_len : (j ≤ length F)%nat;
  po_taken : length (dp_new_free st) = j;
  po_size : zlength (dp_from_to st) = X + 1;
  po_index : dp_index st ≤ X;
  po_nodup : NoDup (dp_new_free st);
  po_from : ∀ n, n ∈ dp_new_free st ↔ zget_def unset_index_ (dp_from_to st) n >= 0;
  po_active : ∀ n, zget_def unset_index_ (dp_from_to st) n >= 0 →
                   zget M n = Some true ∧ dp_index st < n;
  po_to : ∀ i, i ∈ take j F ↔
               ∃ n, zget_def unset_index_ (dp_from_to st) n >= 0 ∧
                    zget_def unset_index_ (dp_from_to st) n = i;
  po_inj : ∀ n n', zget_def unset_index_ (dp_from_to st) n >= 0 →
                   zget_def unset_index_ (dp_from_to st) n =
                   zget_def unset_index_ (dp_from_to st) n' → n = n';
}.

(** The status of the channel of neighbour [n]. *)
Definition channel (pmb : MeshBlock) (flags : list BoundaryStatus) (n : Z)
    : option BoundaryStatus :=
  nb ← zget (neighbor pmb) n; zget flags (bufid nb).

(** The label and the extent of every variable of a pack. *)
Definition shape {T : Type} (vs : list (ParticleVariable T)) : list (string * nat) :=
  (λ v, (label v, length (data v))) <$> vs.

(** Entry [n] of variable [i] exists. *)
Definition slot_ok {T : Type} (vs : list (ParticleVariable T)) (i n : Z) : Prop :=
  ∃ v, zget vs i = Some v ∧ 0 ≤ n < zlength (data v).

(** Every variable of the pack has one entry per slot of the pool. *)
Definition sized {T : Type} (cap : Z) (vs : list (ParticleVariable T)) : Prop :=
  Forall (λ v, zlength (data v) = cap) vs.

Definition zsum (l : list Z) : Z := foldr Z.add 0 l.

(** The number of records [Receive] counts for neighbour [n]. *)
Definition arrivals (pmb : MeshBlock) (vb : BoundarySwarm) (n : Z) : Z :=
  match channel pmb (flag (bd_var_ vb)) n with
  | Some arrived => Z.quot (zget_def 0 (recv_size vb) n) (particle_size vb)
  | _ => 0
  end.

(** Slot [n] is active and goes to neighbour [m]. *)
Definition goes_to (mask_h : list bool) (blockIndex_h : list Z) (m n : Z) : Prop :=
  zget_def false mask_h n = true ∧ zget_def 0 blockIndex_h n = m.

#[global] Instance goes_to_dec mask_h blockIndex_h m n :
  Decision (goes_to mask_h blockIndex_h m n).
Proof. unfold goes_to. apply _. Defined.

(** The slots [Send] packs for neighbour [m], in ascending order. *)
Definition destined (s : Swarm) (m : Z) : list Z :=
  filter (goes_to (mask_ s) (blockIndex_ s) m) (seqZ 0 (max_active_index_ s + 1)).

(** One step of the packing loops of [Send], on the pair of the particle
    number [p.1] and the neighbour [p.2]. *)
Definition pack_step (pmb : MeshBlock) (num : list Z) (rows : list (list Z)) (psize : Z)
    (vint : list (ParticleVariable Z)) (nrank : list Z) (ix iy iz : Z)
    (st : PackLoop) (p : Z * Z) : PackLoop :=
  pack_particle pmb num rows psize vint nrank ix iy iz p.1 st p.2.

(** The slot [Send] packs as particle [p.1] of neighbour [p.2]. *)
Definition slot_of (rows : list (list Z)) (p : Z * Z) : Z :=
  zget_def 0 (zget_def [] rows p.2) p.1.

(** Particle [p.1] of neighbour [p.2] exists. *)
Definition packed_pair (num : list Z) (p : Z * Z) : Prop := p.1 < zget_def 0 num p.2.

(** Modelled from the spec: the transport is outside the sources.  What it
    guarantees once channel [nid] of the receiver [to] carries the message
    sent on channel [m] of [from]: the record size travels with the
    message, the received size is the sent size, and the receive buffer
    starts with the entries that were sent. *)
Definition delivered (from : BoundarySwarm) (m : Z) (to : BoundarySwarm) (nid : Z) : Prop :=
  let size := Z.to_nat (zget_def 0 (send_size from) m) in
  particle_size to = particle_size from ∧
  zget (recv_size to) nid = zget (send_size from) m ∧
  take size (zget_def [] (recv (bd_var_ to)) nid) =
    take size (zget_def [] (send (bd_var_ from)) m).

Definition labels {T : Type} (vs : list (ParticleVariable T)) : list string := label <$> vs.

(** [Swarm::Add(labelArray, metadata)], with one metadata per label to cover
    successive calls. *)
Definition Add_all (vars : list (string * Metadata)) (s : Swarm) : Result Swarm :=
  foldM (λ s '(lbl, md), Add lbl md s) vars s.

(** * Scenarios *)

(** A growth policy for the examples: the capacity is doubled. *)
Definition double_pool (nmax_pool : Z) : Z := 2 * nmax_pool.

Definition from_Ok (r : Result Swarm) : Swarm :=
  match r with
  | Ok s => s
  | Err _ => Swarm_members "" {| Type_ := NoType |} 0
  end.

(** Attribute [x] of slot [n] is set to [100 + n], to follow the particles. *)
Definition tag_slots (s : Swarm) : Swarm :=
  set_vars s (intVector_ s)
    (fold_left (λ vreal n, vset vreal 0 n (inject_Z (100 + n)))
       (seqZ 0 (nmax_pool_ s)) (realVector_ s))
    (intMap_ s) (realMap_ s).

(** Capacity 10. *)
Definition pool0 : Swarm := from_Ok (Swarm_new "swarm" {| Type_ := NoType |} 10).

(** Slots 0..4 allocated. *)
Definition pool1 : Swarm :=
  tag_slots (from_Ok ('(s, _, _) ← AddEmptyParticles double_pool 5 pool0; Ok s)).

(** Slot 0 marked and removed, then slot 4 marked and removed. *)
Definition pool2 : Swarm := RemoveMarkedParticles (MarkParticleForRemoval 0 pool1).

Definition pool3 : Swarm := RemoveMarkedParticles (MarkParticleForRemoval 4 pool2).

(** Defragmented. *)
Definition pool4 : Swarm := from_Ok (Defrag pool3).

(** One more slot allocated. *)
Definition pool5 : Swarm :=
  from_Ok ('(s, _, _) ← AddEmptyParticles double_pool 1 pool4; Ok s).

(** Slots 1 and 2 marked and removed, four slots allocated, slots 0, 1 and 2
    marked and removed. *)
Definition pool6 : Swarm :=
  RemoveMarkedParticles (MarkParticleForRemoval 2 (MarkParticleForRemoval 1 pool4)).

Definition pool7 : Swarm :=
  from_Ok ('(s, _, _) ← AddEmptyParticles double_pool 4 pool6; Ok s).

Definition pool8 : Swarm :=
  RemoveMarkedParticles
    (MarkParticleForRemoval 0 (MarkParticleForRemoval 1 (MarkParticleForRemoval 2 pool7))).

(** Slots 0, 1, 2 allocated; slot 1, then slot 2 marked and removed. *)
Definition pool_a : Swarm :=
  from_Ok ('(s, _, _) ← AddEmptyParticles double_pool 3 pool0; Ok s).

Definition pool_b : Swarm := RemoveMarkedParticles (MarkParticleForRemoval 1 pool_a).

Definition pool_c : Swarm := RemoveMarkedParticles (MarkParticleForRemoval 2 pool_b).

(** A new swarm with an integer attribute [id] registered after the
    coordinates, and one with four integer attributes. *)
Definition store_id : Swarm := from_Ok (Add "id" {| Type_ := Integer |} pool0).

Definition store_abcd : Swarm :=
  from_Ok (s ← Add "a" {| Type_ := Integer |} pool0;
           s ← Add "b" {| Type_ := Integer |} s;
           s ← Add "c" {| Type_ := Integer |} s;
           Add "d" {| Type_ := Integer |} s).

(** Modelled from the spec: the transport ([BoundarySwarm::Send] and
    [BoundarySwarm::Receive]) is outside the sources.  It "hands buffers to
    the external transport" and reports the status of a channel: the first
    [send_size] entries of the send buffer of channel [m] of [from] reach the
    receive buffer of channel [n], whose flag (at [bufid] = [n]) becomes
    [arrived]; a receive buffer that is large enough is reused. *)
Definition deliver (from : BoundarySwarm) (m n : Z) (vb : BoundarySwarm) : BoundarySwarm :=
  let size := zget_def 0 (send_size from) m in
  let sent := take (Z.to_nat size) (zget_def [] (send (bd_var_ from)) m) in
  let old := zget_def [] (recv (bd_var_ vb)) n in
  {| bd_var_ := {| nbmax := nbmax (bd_var_ vb);
                   flag := zset (flag (bd_var_ vb)) n arrived;
                   send := send (bd_var_ vb);
                   recv := zset (recv (bd_var_ vb)) n (sent ++ drop (Z.to_nat size) old) |};
     send_size := send_size vb;
     recv_size := zset (recv_size vb) n size;
     particle_size := particle_size from |}.

(** A block with two neighbours on its own rank, in the periodic domain
    [0, 10] x [0, 10] x [0, 10]. *)
Definition pmb_demo : MeshBlock :=
  {| nneighbor := 2;
     neighbor := [{| snb_rank := 0; bufid := 0 |}; {| snb_rank := 0; bufid := 1 |}];
     x1min := 0; x1max := 10; x2min := 0; x2max := 10; x3min := 0; x3max := 10;
     my_rank := 0 |}.

(** Two channels, nothing sent or received yet. *)
Definition vb_idle : BoundarySwarm :=
  {| bd_var_ := {| nbmax := 2; flag := [waiting; waiting]; send := [[]; []];
                   recv := [[]; []] |};
     send_size := [0; 0]; recv_size := [0; 0]; particle_size := 0 |}.

(** The same with receive buffers of 16 entries kept from earlier rounds. *)
Definition vb_roomy : BoundarySwarm :=
  {| bd_var_ := {| nbmax := 2; flag := [waiting; waiting]; send := [[]; []];
                   recv := [replicate 16 0%Q; replicate 16 0%Q] |};
     send_size := [0; 0]; recv_size := [0; 0]; particle_size := 0 |}.

(** The particle of slot [n] gets the coordinates [x], [y], [z] and the
    destination [dest]. *)
Definition place (n : Z) (x y z : Q) (dest : Z) (s : Swarm) : Swarm :=
  let s := set_vars s (intVector_ s)
             (vset (vset (vset (realVector_ s) 0 n x) 1 n y) 2 n z)
             (intMap_ s) (realMap_ s) in
  set_pool s (nmax_pool_ s) (mask_ s) (marked_for_removal_ s) (neighbor_send_index_ s)
    (zset (blockIndex_ s) n dest) (free_indices_ s) (num_active_ s) (max_active_index_ s).

(** Two particles: slot 0 left the domain through [x1min] by a tenth of its
    width and goes to neighbour 1; slot 1 stays. *)
Definition sender_xyz : Swarm :=
  place 1 3 4 5 this_block_
    (place 0 (-1) 5 5 1
       (from_Ok ('(s, _, _) ← AddEmptyParticles double_pool 2 pool0; Ok s))).

(** The same with the integer attribute [id], 7 for slot 0 and 8 for slot 1. *)
Definition sender_id : Swarm :=
  let s := place 1 3 4 5 this_block_
             (place 0 (-1) 5 5 1
                (from_Ok ('(s, _, _) ← AddEmptyParticles double_pool 2 store_id; Ok s))) in
  set_vars s (vset (vset (intVector_ s) 0 0 7) 0 1 8) (realVector_ s)
    (intMap_ s) (realMap_ s).

Definition sent_of (r : Result (bool * Swarm * BoundarySwarm)) : BoundarySwarm :=
  match r with
  | Ok (_, _, vb) => vb
  | Err _ => vb_idle
  end.

Definition swarm_of (r : Result (bool * Swarm * BoundarySwarm)) : Swarm :=
  match r with
  | Ok (_, s, _) => s
  | Err _ => pool0
  end.

Definition sent_xyz : BoundarySwarm := sent_of (Send pmb_demo sender_xyz vb_idle).

Definition sent_id : BoundarySwarm := sent_of (Send pmb_demo sender_id vb_idle).

Definition received_xyz : Result (bool * Swarm * BoundarySwarm) :=
  Receive double_pool (deliver sent_xyz 1 0) pmb_demo pool0 vb_idle.

(** A wide domain, [0 <= x <= 10 * (2^50 + 1)], and a particle that left it
    through [x1min] by a tenth of its width, bound for neighbour 1 on the
    same rank.  The bounds and the coordinate are doubles; nine tenths of
    the width, [9 * (2^50 + 1)], is odd and above [2^53], so it is not. *)
Definition pmb_wide : MeshBlock :=
  {| nneighbor := 2;
     neighbor := [{| snb_rank := 0; bufid := 0 |}; {| snb_rank := 0; bufid := 1 |}];
     x1min := 0; x1max := inject_Z (10 * (2 ^ 50 + 1));
     x2min := 0; x2max := 10; x3min := 0; x3max := 10;
     my_rank := 0 |}.

Definition sender_wide : Swarm :=
  place 0 (inject_Z (- (2 ^ 50 + 1))) 5 5 1
    (from_Ok ('(s, _, _) ← AddEmptyParticles double_pool 1 pool0; Ok s)).

Definition sent_wide : BoundarySwarm := sent_of (Send pmb_wide sender_wide vb_idle).

Definition received_wide : Result (bool * Swarm * BoundarySwarm) :=
  Receive double_pool (deliver sent_wide 1 0) pmb_wide pool0 vb_idle.

(** * The rest of swarm.cpp *)

(** ** Attribute store: the other entry points *)

(** [Swarm::Add(labelArray, metadata)]: [Add] for every label, in order.  An
    exception leaves the loop; the swarm then keeps the attributes added
    before it, which the error result does not show. *)
Definition Add_labelArray (labelArray : list string) (md : Metadata) (s : Swarm)
    : Result Swarm :=
  foldM (λ s lbl, Add lbl md s) labelArray s.

(** [Swarm::AllocateCopy(allocComms, pmb)]: a swarm constructed from the
    label, the metadata and the capacity of this one. *)
Definition AllocateCopy (allocComms : bool) (s : Swarm) : Result Swarm :=
  Swarm_new (label_ s) (m_ s) (nmax_pool_ s).

(** [Swarm::MakeVarListAll_(variables)]: the vector is walked backwards and
    every variable is pushed to the front of the list. *)
Definition MakeVarListAll_ {T : Type} (variables : list (ParticleVariable T))
    : list (ParticleVariable T) :=
  fold_left (λ vars v, v :: vars) (reverse variables) [].

(** ** Neighbour indices *)

(** Modelled from the spec: [BoundaryFlag] is declared in a header that is
    not part of the sources; swarm.cpp names its member [periodic] only, and
    "any non-periodic boundary fails construction". *)
Inductive BoundaryFlag : Type := periodic | non_periodic.

#[global] Instance BoundaryFlag_eq_dec : EqDecision BoundaryFlag.
Proof. solve_decision. Defined.

(** [nb.ni]: the offsets of a neighbour block along the three axes. *)
Record NeighborIndexes : Type := { ox1 : Z; ox2 : Z; ox3 : Z }.

#[global] Instance NeighborIndexes_eq_dec : EqDecision NeighborIndexes.
Proof. solve_decision. Defined.

(** [neighborIndices_], a 4 x 4 x 4 array read as [neighborIndices_(k, j, i)]. *)
Definition get3 (t : list (list (list Z))) (k j i : Z) : option Z :=
  p ← zget t k; r ← zget p j; zget r i.

Definition set3 (t : list (list (list Z))) (k j i : Z) (v : Z) : list (list (list Z)) :=
  match zget t k with
  | Some p =>
      match zget p j with
      | Some r => zset t k (zset p j (zset r i v))
      | None => t
      end
  | None => t
  end.

(** The array as the constructor allocates it. *)
Definition neighborIndices_new : list (list (list Z)) :=
  replicate 4 (replicate 4 (replicate 4 0)).

(** [PARTHENON_REQUIRE(mesh_bcs[n] == BoundaryFlag::periodic, ...)] *)
Definition require_periodic (mesh_bcs : list BoundaryFlag) (_ : unit) (n : Z) : Result unit :=
  match zget mesh_bcs n with
  | Some periodic => Ok ()
  | Some non_periodic => Err (require_failed "Only periodic boundaries supported right now!")
  | None => Err (out_of_bounds "mesh_bcs[n]")
  end.

(** The cells [(k, j, i)] of [neighborIndices_h] that the cascade of
    [SetupPersistentMPI] assigns for a neighbour with the offsets
    [i = ox1], [j = ox2], [k = ox3], in the order of the assignments. *)
Definition neighbor_cells (ndim i j k : Z) : list (Z * Z * Z) :=
  if bool_decide (ndim = 1) then
    if bool_decide (i = -1) then
      [(0, 0, 0)]
    else if bool_decide (i = 0) then
      [(0, 0, 1); (0, 0, 2)]
    else
      [(0, 0, 3)]
  else if bool_decide (ndim = 2) then
    if bool_decide (i = -1) then
      if bool_decide (j = -1) then
        [(0, 0, 0)]
      else if bool_decide (j = 0) then
        [(0, 1, 0); (0, 2, 0)]
      else if bool_decide (j = 1) then
        [(0, 3, 0)]
      else []
    else if bool_decide (i = 0) then
      if bool_decide (j = -1) then
        [(0, 0, 1); (0, 0, 2)]
      else if bool_decide (j = 1) then
        [(0, 3, 1); (0, 3, 2)]
      else []
    else if bool_decide (i = 1) then
      if bool_decide (j = -1) then
        [(0, 0, 3)]
      else if bool_decide (j = 0) then
        [(0, 1, 3); (0, 2, 3)]
      else if bool_decide (j = 1) then
        [(0, 3, 3)]
      else []
    else []
  else if bool_decide (ndim = 3) then
    if bool_decide (i = -1) then
      if bool_decide (j = -1) then
        if bool_decide (k = -1) then
          [(0, 0, 0)]
        else if bool_decide (k = 0) then
          [(1, 0, 0); (2, 0, 0)]
        else if bool_decide (k = 1) then
          [(3, 0, 0)]
        else []
      else if bool_decide (j = 0) then
        if bool_decide (k = -1) then
          [(0, 1, 0); (0, 2, 0)]
        else if bool_decide (k = 0) then
          [(1, 1, 0); (1, 2, 0); (2, 1, 0); (2, 2, 0)]
        else if bool_decide (k = 1) then
          [(3, 1, 0); (3, 2, 0)]
        else []
      else if bool_decide (j = 1) then
        if bool_decide (k = -1) then
          [(0, 3, 0)]
        else if bool_decide (k = 0) then
          [(1, 3, 0); (2, 3, 0)]
        else if bool_decide (k = 1) then
          [(3, 3, 0)]
        else []
      else []
    else if bool_decide (i = 0) then
      if bool_decide (j = -1) then
        if bool_decide (k = -1) then
          [(0, 0, 1); (0, 0, 2)]
        else if bool_decide (k = 0) then
          [(1, 0, 1); (1, 0, 2); (2, 0, 1); (2, 0, 2)]
        else if bool_decide (k = 1) then
          [(3, 0, 1); (3, 0, 2)]
        else []
      else if bool_decide (j = 0) then
        if bool_decide (k = -1) then
          [(0, 1, 1); (0, 1, 2); (0, 2, 1); (0, 2, 2)]
        else if bool_decide (k = 1) then
          [(3, 1, 1); (3, 1, 2); (3, 2, 1); (3, 2, 2)]
        else []
      else if bool_decide (j = 1) then
        if bool_decide (k = -1) then
          [(0, 3, 1); (0, 3, 2)]
        else if bool_decide (k = 0) then
          [(1, 3, 1); (1, 3, 2); (2, 3, 1); (2, 3, 2)]
        else if bool_decide (k = 1) then
          [(3, 3, 1); (3, 3, 2)]
        else []
      else []
    else if bool_decide (i = 1) then
      if bool_decide (j = -1) then
        if bool_decide (k = -1) then
          [(0, 0, 3)]
        else if bool_decide (k = 0) then
          [(1, 0, 3); (2, 0, 3)]
        else if bool_decide (k = 1) then
          [(3, 0, 3)]
        else []
      else if bool_decide (j = 0) then
        if bool_decide (k = -1) then
          [(0, 1, 3); (0, 2, 3)]
        else if bool_decide (k = 0) then
          [(1, 1, 3); (1, 2, 3); (2, 1, 3); (2, 2, 3)]
        else if bool_decide (k = 1) then
          [(3, 1, 3); (3, 2, 3)]
        else []
      else if bool_decide (j = 1) then
        if bool_decide (k = -1) then
          [(0, 3, 3)]
        else if bool_decide (k = 0) then
          [(1, 3, 3); (2, 3, 3)]
        else if bool_decide (k = 1) then
          [(3, 3, 3)]
        else []
      else []
    else []
  else [].

(** One turn of the loop over the neighbours. *)
Definition index_neighbor (ndim : Z) (neighbor_ni : list NeighborIndexes)
    (neighborIndices_h : list (list (list Z))) (n : Z) : Result (list (list (list Z))) :=
  match zget neighbor_ni n with
  | None => Err (out_of_bounds "pmb->pbval->neighbor[n]")
  | Some nb =>
      let i := ox1 nb in
      let j := ox2 nb in
      let k := ox3 nb in
      Ok (fold_left (λ h '(ck, cj, ci), set3 h ck cj ci n) (neighbor_cells ndim i j k)
            neighborIndices_h)
  end.

(** [Swarm::SetupPersistentMPI()], after the call of the transport's own
    setup, which is outside the sources.  [ndim] and [mesh_bcs] are those of
    the mesh, [nneighbor] is [pmb->pbval->nneighbor] and [neighbor_ni] lists
    [pmb->pbval->neighbor[n].ni].  [neighborIndices_h] is the host mirror
    the function starts from ([GetHostMirror] does not copy: it is the array
    itself in a host build and a fresh array otherwise); the result is what
    [DeepCopy] leaves in [neighborIndices_]. *)
Definition SetupPersistentMPI (ndim : Z) (mesh_bcs : list BoundaryFlag)
    (nneighbor : Z) (neighbor_ni : list NeighborIndexes)
    (neighborIndices_h : list (list (list Z))) : Result (list (list (list Z))) :=
  _ ← foldM (require_periodic mesh_bcs) (seqZ 0 (2 * ndim)) ();
  let '(kmin, kmax, jmin, jmax) :=
    if bool_decide (ndim < 3) then
      if bool_decide (ndim < 2) then (0, 4, 0, 4) else (0, 4, 1, 3)
    else (1, 3, 1, 3) in
  let imin := 1 in
  let imax := 3 in
  let neighborIndices_h :=
    fold_left
      (λ h k, fold_left
                (λ h j, fold_left (λ h i, set3 h k j i this_block_)
                          (seqZ imin (imax - imin)) h)
                (seqZ jmin (jmax - jmin)) h)
      (seqZ kmin (kmax - kmin)) neighborIndices_h in
  foldM (index_neighbor ndim neighbor_ni) (seqZ 0 nneighbor) neighborIndices_h.

(** ** Notions used in the statements on the neighbour indices *)

(** Every cell [(k, j, i)] with indices in [0, 4) exists. *)
Definition cube (t : list (list (list Z))) : Prop :=
  ∀ k j i, 0 ≤ k < 4 → 0 ≤ j < 4 → 0 ≤ i < 4 → is_Some (get3 t k j i).

(** The offset a bucket of an axis stands for: bucket 0 lies below the
    block, buckets 1 and 2 inside it, bucket 3 above it. *)
Definition bucket_offset (b : Z) : Z :=
  if bool_decide (b = 0) then -1 else if bool_decide (b = 3) then 1 else 0.

(** The neighbour with the offsets [nb] is the one of the cell [(k, j, i)]:
    on every axis in use the offset is the one of the bucket, and the
    neighbour is not the block itself.  In one dimension every offset other
    than -1 and 0 counts as above. *)
Definition names_cell (ndim : Z) (nb : NeighborIndexes) (c : Z * Z * Z) : bool :=
  let '(k, j, i) := c in
  if bool_decide (ndim = 3) then
    bool_decide (ox3 nb = bucket_offset k ∧ ox2 nb = bucket_offset j ∧
                 ox1 nb = bucket_offset i ∧
                 ¬ (ox1 nb = 0 ∧ ox2 nb = 0 ∧ ox3 nb = 0))
  else if bool_decide (ndim = 2) then
    bool_decide (k = 0 ∧ ox2 nb = bucket_offset j ∧ ox1 nb = bucket_offset i ∧
                 ¬ (ox1 nb = 0 ∧ ox2 nb = 0))
  else if bool_decide (ndim = 1) then
    bool_decide (k = 0 ∧ j = 0 ∧
                 (i = 0 ∧ ox1 nb = -1 ∨ (i = 1 ∨ i = 2) ∧ ox1 nb = 0 ∨
                  i = 3 ∧ ox1 nb ≠ -1 ∧ ox1 nb ≠ 0))
  else false.

(** The cells of the block itself: the inner buckets on every axis in use,
    any bucket on the others. *)
Definition interior_cell (ndim : Z) (c : Z * Z * Z) : bool :=
  let '(k, j, i) := c in
  bool_decide (1 ≤ i ≤ 2 ∧ (ndim < 2 ∨ 1 ≤ j ≤ 2) ∧ (ndim < 3 ∨ 1 ≤ k ≤ 2)).

(** An offset as the cascade of [SetupPersistentMPI] sees it: the cascade
    tests an offset against -1, 0 and 1 only, so that every other value
    behaves like 2. *)
Definition clamp (o : Z) : Z :=
  if bool_decide (o = -1) then -1
  else if bool_decide (o = 0) then 0
  else if bool_decide (o = 1) then 1 else 2.

(** ** Scenarios for the neighbour indices *)

(** The 26 neighbours of a block in a periodic mesh of three dimensions,
    the offset along the first axis running fastest. *)
Definition offsets_3d : list NeighborIndexes :=
  filter (λ nb, ¬ (ox1 nb = 0 ∧ ox2 nb = 0 ∧ ox3 nb = 0))
    (k ← [-1; 0; 1]; j ← [-1; 0; 1]; i ← [-1; 0; 1];
     [{| ox1 := i; ox2 := j; ox3 := k |}]).

Definition table_of (r : Result (list (list (list Z)))) : list (list (list Z)) :=
  match r with
  | Ok t => t
  | Err _ => []
  end.

Definition table_3d : list (list (list Z)) :=
  table_of (SetupPersistentMPI 3 (replicate 6 periodic) 26 offsets_3d neighborIndices_new).

(** ** Notions used in the statements on the attribute store *)

(** The maps and the vectors of the attribute store agree: no label is
    registered twice, and the keys of each map are the labels of its
    vector.  [Add] looks a label up in the maps, [Remove] searches the
    vectors. *)
Record store_ok (s : Swarm) : Prop := {
  so_nodup : NoDup (labels (intVector_ s) ++ labels (realVector_ s));
  so_int : ∀ l, is_Some (intMap_ s !! l) ↔ l ∈ labels (intVector_ s);
  so_real : ∀ l, is_Some (realMap_ s !! l) ↔ l ∈ labels (realVector_ s);
}.

(** ** Scenarios for the attribute store *)

(** A swarm with the real attribute [w] and the integer attribute [id]
    besides the coordinates, and two active particles. *)
Definition store_w_id : Swarm :=
  from_Ok (s ← Add_labelArray ["w"] {| Type_ := Real |} pool0;
           s ← Add "id" {| Type_ := Integer |} s;
           '(s, _, _) ← AddEmptyParticles double_pool 2 s; Ok s).

(** ** Scenarios for the exchange of a real attribute *)

(** A swarm with the real attribute [w] besides the coordinates. *)
Definition store_w : Swarm := from_Ok (Add "w" {| Type_ := Real |} pool0).

(** Two particles; the one of slot 0 lies inside the domain, carries
    [w = 42] and goes to neighbour 1, the one of slot 1 stays. *)
Definition sender_w : Swarm :=
  let s := place 0 2 5 5 1
             (from_Ok ('(s, _, _) ← AddEmptyParticles double_pool 2 store_w; Ok s)) in
  set_vars s (intVector_ s) (vset (realVector_ s) 3 0 42%Q) (intMap_ s) (realMap_ s).

Definition sent_w : BoundarySwarm := sent_of (Send pmb_demo sender_w vb_idle).

Definition received_w : Result (bool * Swarm * BoundarySwarm) :=
  Receive double_pool (deliver sent_w 1 0) pmb_demo store_w vb_idle.

(** ** The history of a swarm

    The swarms that the operations of swarm.cpp lead to from [s0] while no
    coordinate is taken out: [Add] of one label or of an array, [Remove] of
    a label other than [x], [y], [z] that no integer attribute carries,
    [setPoolMax], [AddEmptyParticles], [MarkParticleForRemoval],
    [RemoveMarkedParticles], [Defrag], [Send], [Receive], and writes to the
    value of an attribute or to the block index of a slot.  [Remove] of the
    label of an integer attribute is left out: it drops a real attribute by
    mistake (C5). *)
Inductive evolves (increase_target : Z → Z)
    (vbswarm_Receive : BoundarySwarm → BoundarySwarm) (s0 : Swarm) : Swarm → Prop :=
| ev_start :
    evolves increase_target vbswarm_Receive s0 s0
| ev_Add s lbl md s' :
    evolves increase_target vbswarm_Receive s0 s →
    Add lbl md s = Ok s' →
    evolves increase_target vbswarm_Receive s0 s'
| ev_Add_labelArray s labelArray md s' :
    evolves increase_target vbswarm_Receive s0 s →
    Add_labelArray labelArray md s = Ok s' →
    evolves increase_target vbswarm_Receive s0 s'
| ev_Remove s lbl s' :
    evolves increase_target vbswarm_Receive s0 s →
    lbl ∉ ["x"; "y"; "z"] → lbl ∉ labels (intVector_ s) →
    Remove lbl s = Ok s' →
    evolves increase_target vbswarm_Receive s0 s'
| ev_setPoolMax s nmax_pool s' :
    evolves increase_target vbswarm_Receive s0 s →
    setPoolMax nmax_pool s = Ok s' →
    evolves increase_target vbswarm_Receive s0 s'
| ev_AddEmptyParticles s num_to_add s' new_mask new_indices :
    evolves increase_target vbswarm_Receive s0 s →
    AddEmptyParticles increase_target num_to_add s = Ok (s', new_mask, new_indices) →
    evolves increase_target vbswarm_Receive s0 s'
| ev_Mark s n :
    evolves increase_target vbswarm_Receive s0 s →
    evolves increase_target vbswarm_Receive s0 (MarkParticleForRemoval n s)
| ev_RemoveMarkedParticles s :
    evolves increase_target vbswarm_Receive s0 s →
    evolves increase_target vbswarm_Receive s0 (RemoveMarkedParticles s)
| ev_Defrag s s' :
    evolves increase_target vbswarm_Receive s0 s →
    Defrag s = Ok s' →
    evolves increase_target vbswarm_Receive s0 s'
| ev_Send s pmb vb b s' vb' :
    evolves increase_target vbswarm_Receive s0 s →
    Send pmb s vb = Ok (b, s', vb') →
    evolves increase_target vbswarm_Receive s0 s'
| ev_Receive s pmb vb b s' vb' :
    evolves increase_target vbswarm_Receive s0 s →
    Receive increase_target vbswarm_Receive pmb s vb = Ok (b, s', vb') →
    evolves increase_target vbswarm_Receive s0 s'
| ev_write_real s i n x :
    evolves increase_target vbswarm_Receive s0 s →
    evolves increase_target vbswarm_Receive s0
      (set_vars s (intVector_ s) (vset (realVector_ s) i n x) (intMap_ s) (realMap_ s))
| ev_write_int s i n x :
    evolves increase_target vbswarm_Receive s0 s →
    evolves increase_target vbswarm_Receive s0
      (set_vars s (vset (intVector_ s) i n x) (realVector_ s) (intMap_ s) (realMap_ s))
| ev_owner s bidx :
    evolves increase_target vbswarm_Receive s0 s →
    evolves increase_target vbswarm_Receive s0
      (set_pool s (nmax_pool_ s) (mask_ s) (marked_for_removal_ s)
         (neighbor_send_index_ s) bidx (free_indices_ s)
         (num_active_ s) (max_active_index_ s)).

(** * Properties *)

(** ** Arrays *)

Section Arrays.
Context {A : Type}.
Implicit Types (l : list A) (i j : Z) (v : A).

Lemma length_zset l i v : length (zset l i v) = length l.
Proof. unfold zset. case_decide; [by rewrite length_insert | done]. Qed.

Lemma zget_Some_range l i v : zget l i = Some v → 0 ≤ i < zlength l.
Proof.
  unfold zget. case_decide; [|done].
  intros H1%lookup_lt_Some. lia.
Qed.

Lemma zget_in_range l i : 0 ≤ i < zlength l → is_Some (zget l i).
Proof.
  unfold zget. intros ?. case_decide; [|lia].
  apply lookup_lt_is_Some. lia.
Qed.


Lemma zget_zset_eq l i v : 0 ≤ i < zlength l → zget (zset l i v) i = Some v.
Proof.
  unfold zget, zset. intros ?. case_decide; [|lia].
  apply list_lookup_insert_eq. lia.
Qed.

Lemma zget_zset_ne l i j v : i ≠ j → zget (zset l i v) j = zget l j.
Proof.
  unfold zget, zset. intros ?. repeat case_decide; try done.
  apply list_lookup_insert_ne. lia.
Qed.

Lemma zget_zset l i j v :
  zget (zset l i v) j = if decide (i = j ∧ 0 ≤ i < zlength l) then Some v else zget l j.
Proof.
  case_decide as H.
  - destruct H as [-> ?]. by apply zget_zset_eq.
  - destruct (decide (i = j)) as [->|]; [|by apply zget_zset_ne].
    unfold zget, zset in *. case_decide; [|done].
    rewrite list_insert_ge; [done | lia].
Qed.

Lemma zset_same l i v : zget l i = Some v → zset l i v = l.
Proof.
  unfold zget, zset. case_decide; [|done]. apply list_insert_id.
Qed.

Lemma zget_app_l l l' i : i < zlength l → zget (l ++ l') i = zget l i.
Proof.
  unfold zget. intros ?. case_decide; [|done].
  apply lookup_app_l. lia.
Qed.

Lemma zget_app_r l l' i : zlength l ≤ i → zget (l ++ l') i = zget l' (i - zlength l).
Proof.
  unfold zget. intros ?. repeat case_decide; try lia.
  rewrite lookup_app_r by lia. f_equal. lia.
Qed.

Lemma zget_replicate (n : nat) v i :
  zget (replicate n v) i = if decide (0 ≤ i < Z.of_nat n) then Some v else None.
Proof.
  unfold zget. repeat case_decide; try lia; try done.
  - apply lookup_replicate_2. lia.
  - apply lookup_ge_None. rewrite length_replicate. lia.
Qed.

Lemma resize_to_grow (d : A) n l :
  zlength l ≤ n → resize_to d n l = l ++ replicate (Z.to_nat (n - zlength l)) d.
Proof.
  unfold resize_to. intros ?.
  rewrite take_ge by lia. f_equal. f_equal. lia.
Qed.

Lemma zget_def_Some (d : A) l i v : zget l i = Some v → zget_def d l i = v.
Proof. unfold zget_def. by intros ->. Qed.

End Arrays.

Lemma elem_of_seqZ0 (n i : Z) : i ∈ seqZ 0 n ↔ 0 ≤ i < n.
Proof. rewrite elem_of_seqZ. lia. Qed.

Lemma fold_left_zset_same {A : Type} (v : A) (idx : list Z) (l : list A) :
  (∀ i, i ∈ idx → zget l i = Some v) →
  fold_left (λ m n, zset m n v) idx l = l.
Proof.
  induction idx as [|i idx IH]; intros H; [done|]. cbn.
  rewrite zset_same by (apply H; left). apply IH. intros. apply H. by right.
Qed.

Lemma fold_left_snoc_map {A B : Type} (f : A → B) (xs : list A) (l : list B) :
  fold_left (λ acc x, acc ++ [f x]) xs l = l ++ (f <$> xs).
Proof.
  revert l. induction xs as [|x xs IH]; intros l; cbn.
  - by rewrite app_nil_r.
  - rewrite IH. by rewrite <- app_assoc.
Qed.

(** ** Construction *)

Lemma fold_init_slot (l : list Z) (s : Swarm) :
  fold_left init_slot l s =
  set_pool s (nmax_pool_ s)
    (fold_left (λ m n, zset m n false) l (mask_ s))
    (fold_left (λ m n, zset m n false) l (marked_for_removal_ s))
    (neighbor_send_index_ s) (blockIndex_ s) (free_indices_ s ++ l)
    (num_active_ s) (max_active_index_ s).
Proof.
  revert s. induction l as [|n l IH]; intros s; cbn.
  - rewrite app_nil_r. by destruct s.
  - rewrite IH. unfold init_slot, set_pool; cbn. by rewrite <- app_assoc.
Qed.

Lemma Add_Real_fresh (lbl : string) (md : Metadata) (s : Swarm) :
  intMap_ s !! lbl = None → realMap_ s !! lbl = None → Type_ md = Real →
  Add lbl md s =
  Ok (set_vars s (intVector_ s)
        (realVector_ s ++ [make_ParticleVariable 0%Q lbl (nmax_pool_ s) md])
        (intMap_ s)
        (<[lbl := ptr_of (make_ParticleVariable 0%Q lbl (nmax_pool_ s) md)]> (realMap_ s))).
Proof.
  intros Hi Hr Hmd. unfold Add. rewrite bool_decide_eq_false_2.
  - by rewrite Hmd.
  - rewrite Hi, Hr. intros [[? ?]|[? ?]]; done.
Qed.

Lemma Swarm_new_eq (lbl : string) (md : Metadata) (nmax_pool_in : Z) :
  Swarm_new lbl md nmax_pool_in =
  Ok {| label_ := lbl; m_ := md; nmax_pool_ := nmax_pool_in;
        mask_ := replicate (Z.to_nat nmax_pool_in) false;
        marked_for_removal_ := replicate (Z.to_nat nmax_pool_in) false;
        neighbor_send_index_ := replicate (Z.to_nat nmax_pool_in) 0;
        blockIndex_ := replicate (Z.to_nat nmax_pool_in) 0;
        free_indices_ := seqZ 0 nmax_pool_in;
        num_active_ := 0; max_active_index_ := 0; num_particles_sent_ := 0;
        intVector_ := []; realVector_ := coordinate_vars nmax_pool_in;
        intMap_ := ∅;
        realMap_ := <["z" := ptr_of (make_ParticleVariable 0%Q "z" nmax_pool_in
                                       {| Type_ := Real |})]>
                    (<["y" := ptr_of (make_ParticleVariable 0%Q "y" nmax_pool_in
                                        {| Type_ := Real |})]>
                     (<["x" := ptr_of (make_ParticleVariable 0%Q "x" nmax_pool_in
                                         {| Type_ := Real |})]> ∅)) |}.
Proof.
  unfold Swarm_new.
  rewrite Add_Real_fresh by done. cbn.
  rewrite Add_Real_fresh; [| done | cbn; by rewrite lookup_insert_ne | done]. cbn.
  rewrite Add_Real_fresh;
    [| done | cbn; rewrite !lookup_insert_ne by done; done | done]. cbn.
  rewrite fold_init_slot. unfold set_pool; cbn.
  assert (Hfalse : ∀ i, i ∈ seqZ 0 nmax_pool_in →
            zget (replicate (Z.to_nat nmax_pool_in) false) i = Some false).
  { intros i Hi%elem_of_seqZ0. rewrite zget_replicate. case_decide; [done | lia]. }
  rewrite !fold_left_zset_same by done. done.
Qed.

Lemma Swarm_new_inv (lbl : string) (md : Metadata) (nmax_pool_in : Z) (s : Swarm) :
  0 < nmax_pool_in → Swarm_new lbl md nmax_pool_in = Ok s → pool_inv s.
Proof.
  intros Hpos. rewrite Swarm_new_eq. intros [= <-].
  split; cbn; try (rewrite ?length_replicate; lia).
  - apply NoDup_seqZ.
  - intros i. rewrite elem_of_seqZ0, zget_replicate. case_decide; split; try done; lia.
  - rewrite length_seqZ. lia.
Qed.

(** ** Marking and attribute writes *)

Lemma Mark_inv (n : Z) (s : Swarm) : pool_inv s → pool_inv (MarkParticleForRemoval n s).
Proof. intros []. split; cbn; try done. by rewrite length_zset. Qed.

Lemma set_vars_inv (s : Swarm) iv rv im rm : pool_inv s → pool_inv (set_vars s iv rv im rm).
Proof. intros []. by split. Qed.

Lemma set_owner_inv (s : Swarm) (bidx : list Z) :
  pool_inv s →
  pool_inv (set_pool s (nmax_pool_ s) (mask_ s) (marked_for_removal_ s)
              (neighbor_send_index_ s) bidx (free_indices_ s)
              (num_active_ s) (max_active_index_ s)).
Proof. intros []. by split. Qed.

(** ** setPoolMax *)

Lemma setPoolMax_pool (nmax_pool : Z) (s s' : Swarm) :
  zlength (mask_ s) = nmax_pool_ s →
  zlength (marked_for_removal_ s) = nmax_pool_ s →
  setPoolMax nmax_pool s = Ok s' →
  nmax_pool_ s < nmax_pool ∧
  nmax_pool_ s' = nmax_pool ∧
  mask_ s' = mask_ s ++ replicate (Z.to_nat (nmax_pool - nmax_pool_ s)) false ∧
  marked_for_removal_ s' =
    marked_for_removal_ s ++ replicate (Z.to_nat (nmax_pool - nmax_pool_ s)) false ∧
  free_indices_ s' = free_indices_ s ++ seqZ (nmax_pool_ s) (nmax_pool - nmax_pool_ s) ∧
  num_active_ s' = num_active_ s ∧
  max_active_index_ s' = max_active_index_ s.
Proof.
  intros Hm Hr. unfold setPoolMax. case_bool_decide as Hgt; [|done].
  intros [= <-]. cbn.
  assert (Hnew : ∀ (l : list bool), zlength l = nmax_pool_ s →
            fold_left (λ m n, zset m n false)
              (seqZ (nmax_pool_ s) (nmax_pool - nmax_pool_ s))
              (resize_to false nmax_pool l)
            = l ++ replicate (Z.to_nat (nmax_pool - nmax_pool_ s)) false).
  { intros l Hl. rewrite resize_to_grow by lia. rewrite Hl.
    apply fold_left_zset_same. intros i Hi%elem_of_seqZ.
    rewrite zget_app_r by lia. rewrite zget_replicate.
    case_decide; [done | lia]. }
  rewrite !Hnew by done.
  rewrite (fold_left_snoc_map (λ n, n + nmax_pool_ s)).
  repeat split; try done; try lia.
  f_equal. rewrite <- (Z.add_0_r (nmax_pool_ s)) at 2.
  rewrite <- fmap_add_seqZ. apply list_fmap_ext. intros; lia.
Qed.

Lemma setPoolMax_inv (nmax_pool : Z) (s s' : Swarm) :
  pool_inv s → setPoolMax nmax_pool s = Ok s' → pool_inv s'.
Proof.
  intros [] H.
  destruct (setPoolMax_pool _ _ _ inv_mask0 inv_marked0 H)
    as (Hlt & Hcap & Hmask & Hmarked & Hfree & Hna & Hmai).
  split; rewrite ?Hcap, ?Hmask, ?Hmarked, ?Hfree, ?Hna, ?Hmai.
  - lia.
  - rewrite length_app, length_replicate. lia.
  - rewrite length_app, length_replicate. lia.
  - apply NoDup_app. split_and!; [done | | apply NoDup_seqZ].
    intros i Hi%inv_free0%zget_Some_range Hi'%elem_of_seqZ. lia.
  - intros i. rewrite elem_of_app, inv_free0, elem_of_seqZ.
    destruct (decide (i < nmax_pool_ s)).
    + rewrite zget_app_l by lia. split; [intros [?|?]; [done | lia] | by left].
    + rewrite zget_app_r by lia. rewrite zget_replicate.
      case_decide; split; try done; try lia; intros [Hi%zget_Some_range|?]; lia.
  - rewrite length_app, length_seqZ. lia.
  - lia.
Qed.

(** ** RemoveMarkedParticles *)

Lemma zget_def_true (l : list bool) (n : Z) :
  zget_def false l n = true ↔ zget l n = Some true.
Proof.
  unfold zget_def. destruct (zget l n) as [[]|]; cbn; split; congruence.
Qed.

Lemma zget_def_zset_false (l : list bool) (n m : Z) :
  zget_def false (zset l n false) m = true → zget_def false l m = true.
Proof.
  rewrite !zget_def_true, zget_zset. case_decide; [done | done].
Qed.

Lemma zget_def_zset_false_eq (l : list bool) (n : Z) :
  zget_def false (zset l n false) n = false.
Proof.
  destruct (zget_def false (zset l n false) n) eqn:E; [|done].
  apply zget_def_true in E. rewrite zget_zset in E.
  case_decide as H; [done|].
  apply zget_Some_range in E as ?. destruct H. lia.
Qed.

Lemma remove_slot_id (s : Swarm) (n : Z) : pending s n = false → remove_slot s n = s.
Proof.
  unfold pending, remove_slot.
  destruct (zget_def false (mask_ s) n), (zget_def false (marked_for_removal_ s) n); done.
Qed.

Lemma remove_slot_pending (s : Swarm) (n m : Z) :
  pending (remove_slot s n) m = true → pending s m = true ∧ m ≠ n.
Proof.
  unfold remove_slot.
  destruct (zget_def false (mask_ s) n) eqn:E1;
    [destruct (zget_def false (marked_for_removal_ s) n) eqn:E2|].
  - unfold pending; cbn. intros [H1 H2]%andb_true_iff. split.
    + apply zget_def_zset_false in H1, H2. by rewrite H1, H2.
    + intros ->. by rewrite zget_def_zset_false_eq in H1.
  - intros H. split; [done|]. intros ->. unfold pending in H. by rewrite E1, E2 in H.
  - intros H. split; [done|]. intros ->. unfold pending in H. by rewrite E1 in H.
Qed.

Lemma remove_slot_max (s : Swarm) (n : Z) :
  max_active_index_ (remove_slot s n) ≤ max_active_index_ s.
Proof.
  unfold remove_slot.
  destruct (zget_def false (mask_ s) n); [|lia].
  destruct (zget_def false (marked_for_removal_ s) n); [|lia].
  cbn. case_bool_decide; lia.
Qed.

Lemma fold_remove_slot_pending (l : list Z) (s : Swarm) (m : Z) :
  pending (fold_left remove_slot l s) m = true → pending s m = true ∧ m ∉ l.
Proof.
  revert s. induction l as [|n l IH]; intros s; cbn.
  - intros. split; [done | apply not_elem_of_nil].
  - intros [[H1 H2]%remove_slot_pending H3]%IH. split; [done|].
    rewrite not_elem_of_cons. done.
Qed.

Lemma fold_remove_slot_max (l : list Z) (s : Swarm) :
  max_active_index_ (fold_left remove_slot l s) ≤ max_active_index_ s.
Proof.
  revert s. induction l as [|n l IH]; intros s; cbn; [lia|].
  etrans; [apply IH | apply remove_slot_max].
Qed.

Lemma fold_remove_slot_id (l : list Z) (s : Swarm) :
  (∀ n, n ∈ l → pending s n = false) → fold_left remove_slot l s = s.
Proof.
  induction l as [|n l IH]; intros H; cbn; [done|].
  rewrite remove_slot_id by (apply H; left). apply IH. intros. apply H. by right.
Qed.

Lemma RemoveMarkedParticles_no_pending (s : Swarm) :
  no_pending_marks s → RemoveMarkedParticles s = s.
Proof.
  intros H. apply fold_remove_slot_id.
  intros n Hn%elem_of_reverse%elem_of_seqZ0. apply H. lia.
Qed.

Lemma RemoveMarkedParticles_clears (s : Swarm) :
  no_pending_marks (RemoveMarkedParticles s).
Proof.
  intros n Hn. destruct (pending (RemoveMarkedParticles s) n) eqn:E; [|done].
  apply fold_remove_slot_pending in E as [_ E]. destruct E.
  apply elem_of_reverse, elem_of_seqZ0.
  pose proof (fold_remove_slot_max (reverse (seqZ 0 (max_active_index_ s + 1))) s).
  unfold RemoveMarkedParticles in Hn. lia.
Qed.

Lemma remove_slot_inv (s : Swarm) (n : Z) : pool_inv s → pool_inv (remove_slot s n).
Proof.
  intros []. unfold remove_slot.
  destruct (zget_def false (mask_ s) n) eqn:E1; [|by split].
  destruct (zget_def false (marked_for_removal_ s) n) eqn:E2; [|by split].
  apply zget_def_true in E1. apply zget_Some_range in E1 as Hn.
  split; cbn; rewrite ?length_zset; try done.
  - apply NoDup_cons. split; [|done]. rewrite inv_free0. congruence.
  - intros i. rewrite elem_of_cons, inv_free0, zget_zset.
    case_decide as Hi; [split; [done | intros _; left; by destruct Hi]|].
    split; [|by right].
    intros [->|?]; [|done]. destruct Hi. lia.
  - lia.
  - case_bool_decide; lia.
Qed.

Lemma RemoveMarkedParticles_inv (s : Swarm) :
  pool_inv s → pool_inv (RemoveMarkedParticles s).
Proof.
  unfold RemoveMarkedParticles.
  generalize (reverse (seqZ 0 (max_active_index_ s + 1))). intros l. revert s.
  induction l as [|n l IH]; intros s Hs; cbn; [done|].
  apply IH. by apply remove_slot_inv.
Qed.

(** ** The error monad *)

Lemma bind_Ok {A B : Type} (r : Result A) (k : A → Result B) (b : B) :
  (r ≫= k) = Ok b ↔ ∃ a, r = Ok a ∧ k a = Ok b.
Proof.
  destruct r as [a|e]; cbn; split.
  - eauto.
  - by intros (? & [= <-] & ?).
  - done.
  - by intros (? & ? & _).
Qed.

Lemma foldM_app {A B : Type} (f : B → A → Result B) (l1 l2 : list A) (b : B) :
  foldM f (l1 ++ l2) b = (foldM f l1 b ≫= foldM f l2).
Proof.
  revert b. induction l1 as [|a l1 IH]; intros b; cbn; [done|].
  destruct (f b a) as [b'|e]; cbn; [apply IH | done].
Qed.

(** ** AddEmptyParticles *)

Lemma zget_fold_zset {A : Type} (v : A) (idx : list Z) (l : list A) (j : Z) :
  zget (fold_left (λ m i, zset m i v) idx l) j =
  if decide (j ∈ idx ∧ 0 ≤ j < zlength l) then Some v else zget l j.
Proof.
  revert l. induction idx as [|i idx IH]; intros l; cbn.
  - case_decide as H; [|done]. destruct H as [H _]. by apply elem_of_nil in H.
  - rewrite IH, length_zset, zget_zset.
    destruct (decide (j ∈ idx ∧ 0 ≤ j < zlength l)) as [[H1 H2]|H1];
      destruct (decide (i = j ∧ 0 ≤ i < zlength l)) as [[H3 H3']|H3];
      destruct (decide (j ∈ i :: idx ∧ 0 ≤ j < zlength l)) as [[H4 H5]|H4];
      try done; exfalso.
    + apply H4. split; [by right | done].
    + apply H4. split; [by right | done].
    + apply H4. subst. split; [by left | done].
    + apply elem_of_cons in H4 as [->|H4]; [apply H3 | apply H1]; done.
Qed.

Lemma length_fold_zset {A : Type} (v : A) (idx : list Z) (l : list A) :
  length (fold_left (λ m i, zset m i v) idx l) = length l.
Proof.
  revert l. induction idx as [|i idx IH]; intros l; cbn; [done|].
  by rewrite IH, length_zset.
Qed.

Lemma fold_max_bounds (idx : list Z) (m lo hi : Z) :
  lo ≤ m < hi → (∀ i, i ∈ idx → lo ≤ i < hi) →
  lo ≤ fold_left Z.max idx m < hi.
Proof.
  revert m. induction idx as [|i idx IH]; intros m Hm H; cbn; [done|].
  apply IH; [|intros; apply H; by right].
  pose proof (H i ltac:(left)). lia.
Qed.

Lemma foldM_add_slot (l : list Z) (st : AddLoop) :
  (length l ≤ length (al_free st))%nat →
  ∃ st', foldM add_slot l st = Ok st' ∧
         al_free st' = drop (length l) (al_free st) ∧
         al_mask st' = fold_left (λ m i, zset m i true)
                         (take (length l) (al_free st)) (al_mask st) ∧
         al_new_mask st' = fold_left (λ m i, zset m i true)
                             (take (length l) (al_free st)) (al_new_mask st) ∧
         al_blockIndex st' = fold_left (λ m i, zset m i this_block_)
                               (take (length l) (al_free st)) (al_blockIndex st) ∧
         al_max_active st' = fold_left Z.max (take (length l) (al_free st))
                               (al_max_active st).
Proof.
  revert st. induction l as [|n l IH]; intros st Hlen.
  - eexists. split; [done|]. by rewrite drop_0.
  - cbn [foldM length].
    destruct (add_slot st n) as [st1|e] eqn:E1; unfold add_slot in E1;
      destruct (al_free st) as [|i rest] eqn:E; cbn in Hlen; try lia; try done.
    injection E1 as <-. cbn [mbind Result_bind].
    edestruct IH as (st' & -> & ? & ? & ? & ? & ?); [|eexists; split; [done|]; done].
    cbn. lia.
Qed.

Lemma foldM_add_slot_Err (l : list Z) (st : AddLoop) (e : Error) :
  foldM add_slot l st = Err e → (length (al_free st) < length l)%nat.
Proof.
  intros H. destruct (decide (length l ≤ length (al_free st))%nat) as [Hle|]; [|lia].
  destruct (foldM_add_slot l st Hle) as (? & ? & _). congruence.
Qed.

Section PoolProperties.
Variable increase_target : Z → Z.

Lemma grow_pool_inv (fuel : nat) (num_to_add : Z) (s s' : Swarm) (k : nat) :
  pool_inv s → grow_pool increase_target fuel num_to_add s = Ok (s', k) →
  pool_inv s' ∧ num_to_add ≤ zlength (free_indices_ s').
Proof.
  revert s k. induction fuel as [|fuel IH]; intros s k Hs; cbn.
  - case_bool_decide; [done|]. intros [= <- <-]. split; [done | lia].
  - case_bool_decide; [|intros [= <- <-]; split; [done | lia]].
    intros (s1 & H1 & Hk)%bind_Ok.
    apply bind_Ok in Hk as ([s2 k2] & H2 & [= <- <-]).
    eapply IH; [|done]. by eapply setPoolMax_inv.
Qed.

Lemma grow_pool_fuel (fuel : nat) (num_to_add : Z) (s : Swarm) :
  zlength (mask_ s) = nmax_pool_ s →
  zlength (marked_for_removal_ s) = nmax_pool_ s →
  num_to_add - zlength (free_indices_ s) ≤ Z.of_nat fuel →
  grow_pool increase_target fuel num_to_add s ≠ Err fuel_exhausted.
Proof.
  revert s. induction fuel as [|fuel IH]; intros s Hm Hr Hf; cbn.
  - case_bool_decide; [lia | done].
  - case_bool_decide; [|done].
    unfold increasePoolMax.
    destruct (setPoolMax (increase_target (nmax_pool_ s)) s) as [s1|e] eqn:E1; cbn.
    + destruct (setPoolMax_pool _ _ _ Hm Hr E1) as (? & Hc & Hm1 & Hr1 & Hf1 & _).
      specialize (IH s1). 
      destruct (grow_pool increase_target fuel num_to_add s1) as [[s2 k2]|e2]; cbn; [done|].
      intros [= ->]. apply IH; try done.
      * rewrite Hm1, Hc, length_app, length_replicate. lia.
      * rewrite Hr1, Hc, length_app, length_replicate. lia.
      * rewrite Hf1, length_app, length_seqZ. lia.
    + unfold setPoolMax in E1. case_bool_decide; [done|]. by injection E1 as <-.
Qed.

Lemma AddEmptyParticles_inv (num_to_add : Z) (s s' : Swarm) new_mask new_indices :
  pool_inv s →
  AddEmptyParticles increase_target num_to_add s = Ok (s', new_mask, new_indices) →
  pool_inv s'.
Proof.
  intros Hs. unfold AddEmptyParticles. case_bool_decide as Hpos; [|done].
  intros ([s1 k] & Hg & H)%bind_Ok.
  apply grow_pool_inv in Hg as [[] Hlen]; [|done].
  apply bind_Ok in H as (st & Hst & [= <- _ _]).
  edestruct (foldM_add_slot (seqZ 0 num_to_add)) as (st' & Hst' & Hfr & Hmk & _ & _ & Hmx);
    [|rewrite Hst in Hst'; injection Hst' as <-].
  { cbn. rewrite length_seqZ. lia. }
  cbn in Hfr, Hmk, Hmx. rewrite length_seqZ in Hfr, Hmk, Hmx.
  set (k' := Z.to_nat num_to_add) in *.
  assert (Hsplit : free_indices_ s1 = take k' (free_indices_ s1) ++ drop k' (free_indices_ s1))
    by (by rewrite take_drop).
  assert (Hnd := inv_nodup0). rewrite Hsplit in Hnd.
  apply NoDup_app in Hnd as (Hnd1 & Hnd2 & Hnd3).
  assert (Hin : ∀ i, i ∈ free_indices_ s1 ↔
                     i ∈ take k' (free_indices_ s1) ∨ i ∈ drop k' (free_indices_ s1)).
  { intros i. rewrite Hsplit at 1. apply elem_of_app. }
  split; cbn; rewrite ?Hfr, ?Hmk, ?Hmx, ?length_fold_zset; try done.
  - intros i. rewrite zget_fold_zset. case_decide as Hi.
    + split; [|done]. intros Hd. destruct Hi as [Hi _]. by destruct (Hnd2 i).
    + rewrite <- inv_free0, Hin. split; [by right|].
      intros [Ht|?]; [|done]. destruct Hi. split; [done|].
      eapply zget_Some_range, inv_free0, Hin. by left.
  - rewrite length_drop. lia.
  - apply fold_max_bounds; [done|].
    intros i Hi. assert (Hz : zget (mask_ s1) i = Some false).
    { apply inv_free0, Hin. by left. }
    apply zget_Some_range in Hz. lia.
Qed.

End PoolProperties.

(** ** Defrag *)

Lemma scan_down_spec (fuel : nat) (mask_h : list bool) (index f : Z) :
  scan_down fuel mask_h index = Ok f → f ≤ index ∧ zget mask_h f = Some true.
Proof.
  revert index. induction fuel as [|fuel IH]; intros index; cbn.
  - destruct (zget mask_h index) as [[]|] eqn:E; try done. intros [= <-]. split; [lia | done].
  - destruct (zget mask_h index) as [[]|] eqn:E; try done.
    + intros [= <-]. split; [lia | done].
    + intros [? ?]%IH. split; [lia | done].
Qed.

Lemma zget_def_zset {A : Type} (d : A) (l : list A) (i j : Z) (v : A) :
  zget_def d (zset l i v) j =
  if decide (i = j ∧ 0 ≤ i < zlength l) then v else zget_def d l j.
Proof. unfold zget_def. rewrite zget_zset. by case_decide. Qed.

Lemma drop_S_lookup {A : Type} (l : list A) (j : nat) (x : A) (rest : list A) :
  drop j l = x :: rest → l !! j = Some x ∧ drop (S j) l = rest ∧ take (S j) l = take j l ++ [x].
Proof.
  intros H.
  assert (Hx : l !! j = Some x).
  { pose proof (lookup_drop l j 0) as Hd. rewrite H, Nat.add_0_r in Hd. done. }
  split; [done|]. split.
  - apply drop_S in Hx. congruence.
  - by apply take_S_r.
Qed.

Lemma plan_moves_ok (k : nat) (M : list bool) (F : list Z) (X na : Z)
    (st st' : DefragPlan) (j : nat) :
  NoDup F → (∀ i, i ∈ F → zget M i = Some false) →
  plan_ok M F X st j → plan_moves k M na st = Ok st' →
  ∃ j', plan_ok M F X st' j'.
Proof.
  intros HF HFM. revert st j. induction k as [|k IH]; intros st j Hok; cbn.
  - intros [= <-]. eauto.
  - intros (f & Hf & H)%bind_Ok. apply scan_down_spec in Hf as [Hfi Hfa].
    apply zget_Some_range in Hfa as Hfr.
    destruct Hok. case_bool_decide as Hbreak.
    { injection H as <-. exists j. split; cbn; try done; [lia|].
      intros n Hn. destruct (po_active0 n Hn). split; [done | lia]. }
    destruct (dp_free st) as [|to rest] eqn:Efree; [done|].
    symmetry in po_free0. apply drop_S_lookup in po_free0 as (Hto & Hrest & Htake).
    assert (HtoF : to ∈ F) by (apply list_elem_of_lookup; eauto).
    assert (Hto0 : 0 ≤ to) by (apply HFM, zget_Some_range in HtoF; lia).
    assert (Hunset : ¬ zget_def unset_index_ (dp_from_to st) f >= 0).
    { intros Hc. apply po_active0 in Hc. lia. }
    assert (Hfresh : to ∉ take j F).
    { intros Hc. apply list_elem_of_lookup in Hc as [i Hi].
      apply lookup_take_Some in Hi as [Hi Hlt].
      pose proof (NoDup_lookup _ _ _ _ HF Hi Hto). lia. }
    eapply (IH _ (S j)); [|exact H]. clear H IH.
    split; cbn; rewrite ?length_zset.
    + done.
    + apply lookup_lt_Some in Hto. lia.
    + rewrite length_app. cbn. lia.
    + done.
    + lia.
    + apply NoDup_app. split_and!; [done | | apply NoDup_singleton].
      intros n Hn%po_from0 ->%list_elem_of_singleton. done.
    + intros n. rewrite elem_of_app, list_elem_of_singleton, po_from0, zget_def_zset.
      case_decide as Hc.
      * destruct Hc as [-> _]. split; [lia | by right].
      * split; [intros [?| ->]; [done | destruct Hc; lia] | by left].
    + intros n. rewrite zget_def_zset. case_decide as Hc.
      * destruct Hc as [<- _]. intros _. split; [done | lia].
      * intros Hn. destruct (po_active0 n Hn). split; [done | lia].
    + intros i. rewrite Htake, elem_of_app, list_elem_of_singleton, po_to0. split.
      * intros [(n & Hn & <-) | ->].
        -- exists n. rewrite zget_def_zset. case_decide as Hc; [|done].
           destruct Hc as [<- _]. done.
        -- exists f. rewrite zget_def_zset. case_decide as Hc; [lia|].
           destruct Hc. lia.
      * intros (n & Hn & <-). rewrite zget_def_zset in Hn |- *.
        case_decide; [by right | left; eauto].
    + intros n n'. rewrite !zget_def_zset.
      repeat case_decide; intros Hn Heq.
      * lia.
      * destruct Hfresh. apply po_to0. exists n'. split; lia.
      * destruct Hfresh. apply po_to0. exists n. split; [done | lia].
      * by apply po_inj0.
Qed.

Section DefragMask.
Variables (M : list bool) (T : list Z).
Hypothesis T_active : ∀ n, zget_def unset_index_ T n >= 0 → zget M n = Some true.
Hypothesis T_free : ∀ n, zget_def unset_index_ T n >= 0 →
                         zget M (zget_def unset_index_ T n) = Some false.
Hypothesis T_inj : ∀ n n', zget_def unset_index_ T n >= 0 →
                           zget_def unset_index_ T n = zget_def unset_index_ T n' → n = n'.

Lemma defrag_mask_fold (p : nat) :
  let m := fold_left (defrag_mask T) (seqZ 0 (Z.of_nat p)) M in
  length m = length M ∧
  (∀ i, 0 ≤ i < Z.of_nat p → zget_def unset_index_ T i >= 0 → zget m i = Some false) ∧
  (∀ n, 0 ≤ n < Z.of_nat p → zget_def unset_index_ T n >= 0 →
        zget m (zget_def unset_index_ T n) = Some true) ∧
  (∀ i, ¬ (0 ≤ i < Z.of_nat p ∧ zget_def unset_index_ T i >= 0) →
        (∀ n, 0 ≤ n < Z.of_nat p → zget_def unset_index_ T n >= 0 →
              zget_def unset_index_ T n ≠ i) →
        zget m i = zget M i).
Proof.
  induction p as [|p IH].
  - cbn. split_and!; try done; intros; lia.
  - rewrite seqZ_S, fold_left_app. cbn [fold_left]. rewrite Z.add_0_l.
    set (m := fold_left (defrag_mask T) (seqZ 0 (Z.of_nat p)) M) in *.
    cbn zeta in IH. destruct IH as (Hlen & H1 & H2 & H3).
    unfold defrag_mask. case_bool_decide as Hp.
    + set (to := zget_def unset_index_ T (Z.of_nat p)) in *.
      pose proof (T_active _ Hp) as Hpa. pose proof (T_free _ Hp) as Hpf. fold to in Hpf.
      assert (Hne : to ≠ Z.of_nat p) by congruence.
      assert (Hmp : zget m (Z.of_nat p) = Some true).
      { rewrite H3; [done | lia |]. intros n ? Hn Heq.
        apply T_free in Hn. congruence. }
      apply zget_Some_range in Hpa as Hpr. apply zget_Some_range in Hpf as Hfr.
      rewrite (zget_def_Some _ _ _ _ Hmp).
      split_and!.
      * by rewrite !length_zset.
      * intros i Hi Hti. rewrite zget_zset, length_zset. case_decide; [done|].
        rewrite zget_zset_ne; [apply H1; [|done] |].
        -- destruct (decide (i = Z.of_nat p)); [|lia]. subst. lia.
        -- intros <-. apply T_active in Hti. congruence.
      * intros n Hn Htn. rewrite zget_zset, length_zset. case_decide as Hc.
        { destruct Hc as [Hc _]. apply T_free in Htn. congruence. }
        destruct (decide (n = Z.of_nat p)) as [->|].
        -- fold to. apply zget_zset_eq. lia.
        -- rewrite zget_zset_ne; [apply H2; [lia | done] |].
           intros Heq. apply n0. symmetry. by apply T_inj.
      * intros i Hi Hto. rewrite zget_zset, length_zset. case_decide as Hc.
        { destruct Hc as [<- _]. destruct Hi. lia. }
        rewrite zget_zset_ne; [apply H3 |].
        -- intros [? ?]. apply Hi. split; [lia | done].
        -- intros n ? ?. apply Hto; [lia | done].
        -- intros <-. apply (Hto (Z.of_nat p)); [lia | done | done].
    + split_and!; [done | | |].
      * intros i Hi Hti. apply H1; [|done].
        destruct (decide (i = Z.of_nat p)); [subst; done | lia].
      * intros n Hn Htn. apply H2; [|done].
        destruct (decide (n = Z.of_nat p)); [subst; done | lia].
      * intros i Hi Hto. apply H3.
        -- intros [? ?]. apply Hi. split; [lia | done].
        -- intros n ? ?. apply Hto; [lia | done].
Qed.

End DefragMask.

Lemma unset_table (X : Z) (n : Z) :
  zget_def unset_index_
    (fold_left (λ ft n, zset ft n unset_index_) (seqZ 0 (X + 1))
       (replicate (Z.to_nat (X + 1)) 0)) n = unset_index_.
Proof.
  unfold zget_def. rewrite zget_fold_zset. case_decide; [done|].
  rewrite zget_replicate. case_decide as Hr; [|done].
  rewrite length_replicate, elem_of_seqZ0 in *. lia.
Qed.

Lemma NoDup_bounded_length (l : list Z) (n : Z) :
  0 ≤ n → NoDup l → (∀ i, i ∈ l → 0 ≤ i < n) → zlength l ≤ n.
Proof.
  intros Hn Hnd Hb.
  assert (Hsub : l ⊆+ seqZ 0 n).
  { apply NoDup_submseteq; [done|]. intros i Hi. apply elem_of_seqZ0. by apply Hb. }
  apply submseteq_length in Hsub. rewrite length_seqZ in Hsub. lia.
Qed.

Lemma Defrag_inv (s s' : Swarm) : pool_inv s → Defrag s = Ok s' → pool_inv s'.
Proof.
  intros Hs. unfold Defrag. case_bool_decide as Hna; [by intros [= <-]|].
  intros (st & Hplan & [= <-])%bind_Ok. destruct Hs.
  set (T0 := fold_left _ _ (replicate _ 0)) in Hplan.
  assert (Hstart : plan_ok (mask_ s) (free_indices_ s) (max_active_index_ s)
            {| dp_index := max_active_index_ s; dp_free := free_indices_ s;
               dp_new_free := []; dp_from_to := T0 |} 0).
  { split; cbn; try done.
    - lia.
    - unfold T0. rewrite length_fold_zset, length_replicate. lia.
    - apply NoDup_nil_2.
    - intros n. unfold T0. rewrite unset_table. unfold unset_index_.
      split; [by intros ?%elem_of_nil | lia].
    - intros n. unfold T0. rewrite unset_table. unfold unset_index_. lia.
    - intros i. split; [by intros ?%elem_of_nil|].
      intros (n & Hn & _). unfold T0 in Hn. rewrite unset_table in Hn.
      unfold unset_index_ in Hn. lia.
    - intros n n'. unfold T0. rewrite unset_table. unfold unset_index_. lia. }
  eapply plan_moves_ok in Hplan as [j []]; [|done | by intros i ?%inv_free0 | exact Hstart].
  clear Hstart T0.
  assert (Hfree : ∀ n, zget_def unset_index_ (dp_from_to st) n >= 0 →
            zget (mask_ s) (zget_def unset_index_ (dp_from_to st) n) = Some false).
  { intros n Hn. apply inv_free0. eapply (subseteq_take j), po_to0. eauto. }
  assert (Hact : ∀ n, zget_def unset_index_ (dp_from_to st) n >= 0 →
            zget (mask_ s) n = Some true) by (intros n Hn; by apply po_active0).
  destruct (defrag_mask_fold (mask_ s) (dp_from_to st) Hact Hfree po_inj0
              (Z.to_nat (max_active_index_ s + 1))) as (Hlen & H1 & H2 & H3).
  rewrite Z2Nat.id in * by lia.
  set (m := fold_left (defrag_mask (dp_from_to st)) _ (mask_ s)) in *.
  assert (Hrange : ∀ n, zget_def unset_index_ (dp_from_to st) n >= 0 →
            0 ≤ n < max_active_index_ s + 1).
  { intros n Hn. unfold zget_def in Hn.
    destruct (zget (dp_from_to st) n) eqn:E; [|cbn in Hn; unfold unset_index_ in Hn; lia].
    apply zget_Some_range in E. lia. }
  assert (Hperm : list_merge Z.le (merge_sort Z.le (dp_free st))
                    (merge_sort Z.le (dp_new_free st))
                  ≡ₚ drop j (free_indices_ s) ++ dp_new_free st).
  { by rewrite merge_Permutation, !merge_sort_Permutation, po_free0. }
  assert (Hsplit : ∀ i, i ∈ free_indices_ s ↔
                        i ∈ take j (free_indices_ s) ∨ i ∈ drop j (free_indices_ s)).
  { intros i. rewrite <- (take_drop j (free_indices_ s)) at 1. apply elem_of_app. }
  assert (Hnd := inv_nodup0). rewrite <- (take_drop j (free_indices_ s)) in Hnd.
  apply NoDup_app in Hnd as (Hnd1 & Hnd2 & Hnd3).
  split; cbn; try done.
  - lia.
  - rewrite Hperm. apply NoDup_app. split_and!; [done | | done].
    intros i Hi Hi'%po_from0%Hact.
    assert (zget (mask_ s) i = Some false) by (apply inv_free0, Hsplit; by right).
    congruence.
  - intros i. rewrite Hperm, elem_of_app. split.
    + intros [Hi | Hi].
      * rewrite H3; [apply inv_free0, Hsplit; by right | |].
        -- intros [_ Hc%Hact].
           assert (zget (mask_ s) i = Some false) by (apply inv_free0, Hsplit; by right).
           congruence.
        -- intros n _ Hn <-. eapply Hnd2; [|exact Hi]. apply po_to0. eauto.
      * apply po_from0 in Hi. apply H1; [by apply Hrange | done].
    + intros Hi.
      destruct (decide (zget_def unset_index_ (dp_from_to st) i >= 0)) as [Hf|Hf];
        [right; by apply po_from0|].
      destruct (decide (i ∈ take j (free_indices_ s))) as [Ht|Ht].
      { apply po_to0 in Ht as (n & Hn & <-). rewrite H2 in Hi; [done | by apply Hrange | done]. }
      left. rewrite H3 in Hi.
      * apply inv_free0, Hsplit in Hi as [?|?]; done.
      * intros [_ ?]. done.
      * intros n _ Hn <-. apply Ht, po_to0. eauto.
  - rewrite Hperm, length_app, length_drop. lia.
  - assert (zlength (free_indices_ s) ≤ nmax_pool_ s); [|lia].
    apply NoDup_bounded_length; [lia | done |].
    intros i Hi%inv_free0%zget_Some_range. lia.
Qed.

Lemma fold_left_preserves {A B : Type} (P : A → Prop) (f : A → B → A) (l : list B) (a : A) :
  (∀ a b, P a → P (f a b)) → P a → P (fold_left f l a).
Proof. intros Hf. revert a. induction l; cbn; auto. Qed.

(** [Send] changes the pool through the removal marks and
    [RemoveMarkedParticles] only; [Receive] through [AddEmptyParticles]. *)
Lemma Send_inv (pmb : MeshBlock) (s : Swarm) (vb : BoundarySwarm)
    (b : bool) (s' : Swarm) (vb' : BoundarySwarm) :
  pool_inv s → Send pmb s vb = Ok (b, s', vb') → pool_inv s'.
Proof.
  intros Hs. unfold Send. intros ([num msz] & _ & [= _ <- _])%bind_Ok.
  apply RemoveMarkedParticles_inv. destruct Hs. split; cbn; try done.
  rewrite <- inv_marked0. f_equal. unfold pack_buffers.
  apply (fold_left_preserves
           (λ st, length (pl_marked st) = length (marked_for_removal_ s))); [|done].
  intros st n Hst.
  apply (fold_left_preserves
           (λ st, length (pl_marked st) = length (marked_for_removal_ s))); [|done].
  intros st1 m <-. unfold pack_particle. case_bool_decide; [|done].
  destruct (write_values _ _) as [buf1 bi1]. destruct (write_values _ _) as [buf2 bi2]. cbn.
  apply length_zset.
Qed.

Lemma Receive_inv (g : Z → Z) (vbswarm_Receive : BoundarySwarm → BoundarySwarm)
    (pmb : MeshBlock) (s : Swarm) (vb : BoundarySwarm)
    (b : bool) (s' : Swarm) (vb' : BoundarySwarm) :
  pool_inv s → Receive g vbswarm_Receive pmb s vb = Ok (b, s', vb') → pool_inv s'.
Proof.
  intros Hs. unfold Receive. intros ([nr total] & _ & H)%bind_Ok.
  apply bind_Ok in H as (s1 & H1 & H2).
  apply bind_Ok in H2 as ([flags all] & _ & [= _ <- _]).
  case_bool_decide; [|by injection H1 as <-].
  apply bind_Ok in H1 as ([[s2 nm] ni] & Ha & Hu).
  apply bind_Ok in Hu as (st & _ & [= <-]).
  apply set_vars_inv. by eapply AddEmptyParticles_inv.
Qed.

(** ** A pool followed through its operations *)

Lemma reachable_pool0 : reachable double_pool pool0.
Proof. apply (reach_new _ "swarm" {| Type_ := NoType |} 10); [lia | by vm_compute]. Qed.

Lemma reachable_pool1 : reachable double_pool pool1.
Proof.
  apply reach_vars.
  eapply (reach_AddEmptyParticles _ pool0 5); [apply reachable_pool0 | by vm_compute].
Qed.

Lemma reachable_pool3 : reachable double_pool pool3.
Proof. do 2 (apply reach_RemoveMarkedParticles, reach_Mark). apply reachable_pool1. Qed.

Lemma reachable_pool4 : reachable double_pool pool4.
Proof. eapply reach_Defrag; [apply reachable_pool3 | by vm_compute]. Qed.

Lemma reachable_pool5 : reachable double_pool pool5.
Proof.
  eapply (reach_AddEmptyParticles _ pool4 1); [apply reachable_pool4 | by vm_compute].
Qed.

Lemma reachable_pool8 : reachable double_pool pool8.
Proof.
  apply reach_RemoveMarkedParticles. do 3 apply reach_Mark.
  eapply (reach_AddEmptyParticles _ pool6 4); [|by vm_compute].
  apply reach_RemoveMarkedParticles. do 2 apply reach_Mark. apply reachable_pool4.
Qed.

Lemma reachable_pool_c : reachable double_pool pool_c.
Proof.
  do 2 (apply reach_RemoveMarkedParticles, reach_Mark).
  eapply (reach_AddEmptyParticles _ pool0 3); [apply reachable_pool0 | by vm_compute].
Qed.

(** ** The pool across its operations *)

Lemma reachable_inv (g : Z → Z) (s : Swarm) : reachable g s → pool_inv s.
Proof.
  induction 1.
  - by eapply Swarm_new_inv.
  - by eapply AddEmptyParticles_inv.
  - by apply Mark_inv.
  - by apply RemoveMarkedParticles_inv.
  - by eapply Defrag_inv.
  - by eapply setPoolMax_inv.
  - by apply set_vars_inv.
  - by apply set_owner_inv.
  - by eapply Send_inv.
  - by eapply Receive_inv.
Qed.

Lemma elem_of_active_indices (s : Swarm) (i : Z) :
  zlength (mask_ s) = nmax_pool_ s →
  i ∈ active_indices s ↔ zget (mask_ s) i = Some true.
Proof.
  intros Hlen. unfold active_indices. rewrite list_elem_of_filter, elem_of_seqZ0.
  split; [by intros [? _]|]. intros H. split; [done|].
  apply zget_Some_range in H. lia.
Qed.

(** C3. In every state a pool reaches through its public operations, the
    free list and the active slots are disjoint, their union is exactly
    the index range [0, capacity), the free list holds no index twice, and
    the number of active slots plus the number of free slots is the
    capacity; [num_active_] is that number of active slots. *)
Theorem free_active_partition (g : Z → Z) (s : Swarm) :
  reachable g s →
  (∀ i, ¬ (i ∈ free_indices_ s ∧ i ∈ active_indices s)) ∧
  (∀ i, i ∈ free_indices_ s ∨ i ∈ active_indices s ↔ 0 ≤ i < nmax_pool_ s) ∧
  NoDup (free_indices_ s) ∧
  zlength (active_indices s) + zlength (free_indices_ s) = nmax_pool_ s ∧
  num_active_ s = zlength (active_indices s).
Proof.
  intros [] %reachable_inv.
  assert (Hdisj : ∀ i, ¬ (i ∈ free_indices_ s ∧ i ∈ active_indices s)).
  { intros i [Hf%inv_free0 Ha%elem_of_active_indices]; [congruence | done]. }
  assert (Hcover : ∀ i, i ∈ free_indices_ s ∨ i ∈ active_indices s ↔ 0 ≤ i < nmax_pool_ s).
  { intros i. rewrite inv_free0, elem_of_active_indices by done. split.
    - intros [H%zget_Some_range | H%zget_Some_range]; lia.
    - intros Hi. destruct (zget_in_range (mask_ s) i) as [[] Hb]; [lia | by right | by left]. }
  assert (Hperm : free_indices_ s ++ active_indices s ≡ₚ seqZ 0 (nmax_pool_ s)).
  { apply NoDup_Permutation.
    - apply NoDup_app. split_and!; [done | | apply NoDup_filter, NoDup_seqZ].
      intros i ? ?. by apply (Hdisj i).
    - apply NoDup_seqZ.
    - intros i. by rewrite elem_of_app, Hcover, elem_of_seqZ0. }
  apply Permutation_length in Hperm. rewrite length_app, length_seqZ in Hperm.
  split_and!; try done; lia.
Qed.

Lemma free_active_partition_witness :
  reachable double_pool pool5 ∧
  zlength (active_indices pool5) + zlength (free_indices_ pool5) = nmax_pool_ pool5.
Proof.
  split; [apply reachable_pool5|].
  apply (free_active_partition double_pool pool5). apply reachable_pool5.
Defined.

(** C8. A second [RemoveMarkedParticles] right after a first one changes
    nothing: mask, removal flags, free list, [num_active_] and
    [max_active_index_] are those the first call left.  Equivalently, a
    call on a pool without pending marks changes nothing. *)
Theorem RemoveMarkedParticles_idempotent (s : Swarm) :
  RemoveMarkedParticles (RemoveMarkedParticles s) = RemoveMarkedParticles s ∧
  (no_pending_marks s → RemoveMarkedParticles s = s).
Proof.
  split.
  - apply RemoveMarkedParticles_no_pending, RemoveMarkedParticles_clears.
  - apply RemoveMarkedParticles_no_pending.
Qed.

Lemma RemoveMarkedParticles_idempotent_witness :
  no_pending_marks pool_a ∧ RemoveMarkedParticles pool_a = pool_a.
Proof.
  assert (H : no_pending_marks pool_a).
  { intros n Hn. change (max_active_index_ pool_a) with 2 in Hn.
    assert (Hc : n = 0 ∨ n = 1 ∨ n = 2) by lia.
    destruct Hc as [-> | [-> | ->]]; reflexivity. }
  split; [exact H|].
  exact (proj2 (RemoveMarkedParticles_idempotent pool_a) H).
Defined.

Lemma setPoolMax_free (nmax_pool : Z) (s s' : Swarm) :
  setPoolMax nmax_pool s = Ok s' →
  nmax_pool_ s < nmax_pool ∧ nmax_pool_ s' = nmax_pool ∧
  free_indices_ s' = free_indices_ s ++ ((λ n, n + nmax_pool_ s) <$> seqZ 0 (nmax_pool - nmax_pool_ s)).
Proof.
  unfold setPoolMax. case_bool_decide; [|done]. intros [= <-]. cbn.
  rewrite (fold_left_snoc_map (λ n, n + nmax_pool_ s)). split_and!; [lia | done | done].
Qed.

Lemma AddEmptyParticles_enough (g : Z → Z) (num_to_add : Z) (s s1 : Swarm) (k : nat) :
  0 < num_to_add →
  grow_pool g (Z.to_nat num_to_add) num_to_add s = Ok (s1, k) →
  num_to_add ≤ zlength (free_indices_ s1) →
  ∃ new_mask new_indices s',
    AddEmptyParticles g num_to_add s = Ok (s', new_mask, new_indices) ∧
    nmax_pool_ s' = nmax_pool_ s1.
Proof.
  intros Hpos Hg Hlen. unfold AddEmptyParticles.
  rewrite bool_decide_eq_true_2 by lia. rewrite Hg. cbn.
  edestruct (foldM_add_slot (seqZ 0 num_to_add)) as (st' & -> & _); [|cbn; eauto].
  cbn. rewrite length_seqZ. lia.
Qed.

(** C9. With [f] free slots, a request for exactly [f > 0] slots makes no call
    of [increasePoolMax] and leaves the capacity as it is; a request for
    [f + 1] slots makes exactly one call, after which the free list
    holds at least [f + 1] slots and the request is served, whenever
    [increasePoolMax] asks [setPoolMax] for more than the current capacity;
    a request for [n ≤ 0] slots fails the precondition. *)
Theorem AddEmptyParticles_growth (g : Z → Z) (s : Swarm) (f : Z) :
  f = zlength (free_indices_ s) →
  (0 < f →
     grow_pool g (Z.to_nat f) f s = Ok (s, 0%nat) ∧
     ∃ new_mask new_indices s',
       AddEmptyParticles g f s = Ok (s', new_mask, new_indices) ∧
       nmax_pool_ s' = nmax_pool_ s) ∧
  (nmax_pool_ s < g (nmax_pool_ s) →
     ∃ s1, grow_pool g (Z.to_nat (f + 1)) (f + 1) s = Ok (s1, 1%nat) ∧
           setPoolMax (g (nmax_pool_ s)) s = Ok s1 ∧
           nmax_pool_ s1 = g (nmax_pool_ s) ∧
           f + 1 ≤ zlength (free_indices_ s1) ∧
           ∃ new_mask new_indices s',
             AddEmptyParticles g (f + 1) s = Ok (s', new_mask, new_indices) ∧
             nmax_pool_ s' = g (nmax_pool_ s)) ∧
  (∀ n, n ≤ 0 →
     AddEmptyParticles g n s =
     Err (require_failed "Attempting to add fewer than 1 new particles!")).
Proof.
  intros Hf. split_and!.
  - intros Hpos.
    assert (Hg : grow_pool g (Z.to_nat f) f s = Ok (s, 0%nat)).
    { destruct (Z.to_nat f); cbn; rewrite bool_decide_eq_false_2 by lia; done. }
    split; [done|]. eapply AddEmptyParticles_enough; [done | done | lia].
  - intros Hgrow.
    destruct (setPoolMax (g (nmax_pool_ s)) s) as [s1|e] eqn:E1.
    2:{ unfold setPoolMax in E1. rewrite bool_decide_eq_true_2 in E1 by lia. done. }
    destruct (setPoolMax_free _ _ _ E1) as (_ & Hc & Hfr).
    assert (Hlen : f + 1 ≤ zlength (free_indices_ s1)).
    { rewrite Hfr, length_app, length_fmap, length_seqZ. lia. }
    assert (Hg : grow_pool g (Z.to_nat (f + 1)) (f + 1) s = Ok (s1, 1%nat)).
    { replace (Z.to_nat (f + 1)) with (S (Z.to_nat f)) by lia. cbn.
      rewrite bool_decide_eq_true_2 by lia. unfold increasePoolMax. rewrite E1. cbn.
      destruct (Z.to_nat f); cbn; rewrite bool_decide_eq_false_2 by lia; done. }
    exists s1. split_and!; try done.
    rewrite <- Hc. eapply AddEmptyParticles_enough; [lia | done | done].
  - intros n Hn. unfold AddEmptyParticles. rewrite bool_decide_eq_false_2 by lia. done.
Qed.

Lemma AddEmptyParticles_growth_witness :
  5 = zlength (free_indices_ pool1) ∧
  grow_pool double_pool (Z.to_nat 5) 5 pool1 = Ok (pool1, 0%nat) ∧
  ∃ s1, grow_pool double_pool (Z.to_nat (5 + 1)) (5 + 1) pool1 = Ok (s1, 1%nat) ∧
        nmax_pool_ s1 = 20.
Proof.
  assert (Hf : 5 = zlength (free_indices_ pool1)) by reflexivity.
  destruct (AddEmptyParticles_growth double_pool pool1 5 Hf) as (H0 & H1 & _).
  split; [exact Hf|]. split; [apply H0; lia|].
  destruct H1 as (s1 & Hs1 & _ & Hc & _); [vm_compute; reflexivity|].
  exists s1. split; [exact Hs1 | exact Hc].
Defined.

(** C4. [max_active_index_] is not the highest active slot: it is 0, not
    -1, right after construction although no slot is active; after
    [RemoveMarkedParticles] took the top slot 2 off a pool with slots 0
    and 2 active it is 1 although slot 0 is the highest active one; and a
    pool is reached ([pool5]) where it is 2 with 4 active slots, below
    [num_active_ - 1]. *)
Theorem max_active_index_not_highest :
  (∀ lbl md nmax_pool_in s,
     Swarm_new lbl md nmax_pool_in = Ok s →
     max_active_index_ s = 0 ∧ active_indices s = []) ∧
  (reachable double_pool pool_b ∧ active_indices pool_b = [0; 2] ∧
   active_indices pool_c = [0] ∧ max_active_index_ pool_c = 1) ∧
  (reachable double_pool pool5 ∧ active_indices pool5 = [0; 1; 2; 4] ∧
   num_active_ pool5 = 4 ∧ max_active_index_ pool5 = 2).
Proof.
  split_and!.
  - intros lbl md n s. rewrite Swarm_new_eq. intros [= <-]. split; [done|].
    unfold active_indices; cbn.
    induction (seqZ 0 n) as [|i l IH]; [done|].
    rewrite filter_cons_False; [done|].
    rewrite zget_replicate. case_decide; done.
  - apply reach_RemoveMarkedParticles, reach_Mark.
    eapply (reach_AddEmptyParticles _ pool0 3); [apply reachable_pool0 | by vm_compute].
  - by vm_compute.
  - by vm_compute.
  - by vm_compute.
  - apply reachable_pool5.
  - by vm_compute.
  - by vm_compute.
  - by vm_compute.
Qed.

(** C2. [Defrag] on a reached pool whose free list is not in ascending
    order: [pool3] has slots 1, 2, 3 active and the free list 4, 0, 5, ...;
    [Defrag] moves slot 3 to slot 4, the front of the free list, so slots
    1, 2 and 4 are active afterwards, not slots 0, 1, 2, while
    [max_active_index_] is 2.  On the reached pool [pool8] the scan for a
    slot to move leaves the mask below index 0. *)
Theorem Defrag_not_contiguous :
  (reachable double_pool pool3 ∧
   active_indices pool3 = [1; 2; 3] ∧ free_indices_ pool3 = [4; 0; 5; 6; 7; 8; 9] ∧
   num_active_ pool3 = 3 ∧ max_active_index_ pool3 = 3 ∧
   vget 0%Q (realVector_ pool3) 0 3 = inject_Z 103) ∧
  (Defrag pool3 = Ok pool4 ∧
   active_indices pool4 = [1; 2; 4] ∧ free_indices_ pool4 = [0; 3; 5; 6; 7; 8; 9] ∧
   num_active_ pool4 = 3 ∧ max_active_index_ pool4 = 2 ∧
   vget 0%Q (realVector_ pool4) 0 4 = inject_Z 103) ∧
  (reachable double_pool pool8 ∧
   active_indices pool8 = [3; 4] ∧ num_active_ pool8 = 2 ∧ max_active_index_ pool8 = 3 ∧
   Defrag pool8 = Err (out_of_bounds "mask_h below index 0 in Defrag()")).
Proof.
  split_and!; try apply reachable_pool3; try apply reachable_pool8; by vm_compute.
Qed.

(** ** Attribute store *)

(** C5. [Remove] of an integer attribute also removes the real attribute
    stored at the same position: on a new swarm with the integer attribute
    [id], [Remove "id"] succeeds and leaves the real attributes [z] and [y];
    [x] is gone from [realVector_] although it is still a key of
    [realMap_], so that [Remove "x"] then fails as not found while
    [Add "x"] fails as already enrolled.  With four integer attributes,
    removing the fourth reads [realVector_] outside its three elements. *)
Theorem Remove_integer_drops_real :
  (Add "id" {| Type_ := Integer |} pool0 = Ok store_id ∧
   labels (intVector_ store_id) = ["id"] ∧
   labels (realVector_ store_id) = ["x"; "y"; "z"]) ∧
  (∃ s', Remove "id" store_id = Ok s' ∧
         labels (intVector_ s') = [] ∧
         labels (realVector_ s') = ["z"; "y"] ∧
         is_Some (realMap_ s' !! "x") ∧
         Remove "x" s' = Err (invalid_argument "swarm variable not found in Remove()") ∧
         Add "x" {| Type_ := Real |} s' =
           Err (invalid_argument "swarm variable x already enrolled during Add()!")) ∧
  (labels (intVector_ store_abcd) = ["a"; "b"; "c"; "d"] ∧
   Remove "d" store_abcd = Err (out_of_bounds "vector element in Remove()")).
Proof.
  split_and!; try by vm_compute.
  eexists. split_and!; [by vm_compute | by vm_compute | by vm_compute | | by vm_compute | by vm_compute].
  vm_compute. eauto.
Qed.

(** C10, counterexample. [Remove "x"] on a new swarm succeeds and leaves a
    swarm whose real attributes are [z] and [y]: its record layout has no
    field [x]. *)
Lemma coordinates_can_be_removed :
  Swarm_new "swarm" {| Type_ := NoType |} 10 = Ok pool0 ∧
  ∃ s', Remove "x" pool0 = Ok s' ∧
        labels (realVector_ s') = ["z"; "y"] ∧
        ("x" ∉ labels (realVector_ s')) ∧
        GetParticleDataSize s' = 2.
Proof.
  split; [by vm_compute|].
  exists (from_Ok (Remove "x" pool0)). split_and!; try by vm_compute.
  vm_compute. intros H.
  repeat (apply elem_of_cons in H as [H|H]; [done|]). by apply elem_of_nil in H.
Qed.

Lemma Add_vars (lbl : string) (md : Metadata) (s s' : Swarm) :
  Add lbl md s = Ok s' →
  (∃ v, realVector_ s' = realVector_ s ++ v) ∧ nmax_pool_ s' = nmax_pool_ s.
Proof.
  unfold Add. case_bool_decide; [done|].
  destruct (Type_ md); intros [= <-]; cbn; split; try done.
  - exists []. by rewrite app_nil_r.
  - eauto.
Qed.

Lemma Add_all_vars (vars : list (string * Metadata)) (s s' : Swarm) :
  Add_all vars s = Ok s' → ∃ v, realVector_ s' = realVector_ s ++ v.
Proof.
  revert s. induction vars as [|[lbl md] vars IH]; intros s; cbn.
  - intros [= <-]. exists []. by rewrite app_nil_r.
  - intros (s1 & H1 & H2)%bind_Ok. apply Add_vars in H1 as [[v1 H1] _].
    apply IH in H2 as [v2 H2]. exists (v1 ++ v2). by rewrite H2, H1, app_assoc.
Qed.

(** ** Receive: the channel flags *)

Lemma settle_flag_step (pmb : MeshBlock) flags b n flags1 b1 :
  settle_flag pmb (flags, b) n = Ok (flags1, b1) →
  ∃ nb f, zget (neighbor pmb) n = Some nb ∧ zget flags (bufid nb) = Some f ∧
          b1 = (b && bool_decide (f ≠ waiting)) ∧
          flags1 = (if bool_decide (f = arrived) then zset flags (bufid nb) completed
                    else flags).
Proof.
  unfold settle_flag.
  destruct (zget (neighbor pmb) n) as [nb|] eqn:Enb; [|done].
  destruct (zget flags (bufid nb)) as [f|] eqn:Ef; [|done].
  intros H. exists nb, f. split; [done|]. split; [done|].
  case_bool_decide as Ha.
  - injection H as <- <-. subst f. by rewrite bool_decide_eq_true_2, andb_true_r.
  - case_bool_decide as Hw; injection H as <- <-.
    + subst f. by rewrite bool_decide_eq_false_2, andb_false_r by (by intros ?).
    + by rewrite bool_decide_eq_true_2, andb_true_r.
Qed.

Lemma settle_flags_fold (pmb : MeshBlock) (l : list Z) flags b flags' b' :
  foldM (settle_flag pmb) l (flags, b) = Ok (flags', b') →
  (∀ n, n ∈ l → is_Some (channel pmb flags n)) ∧
  (b' = true ↔ b = true ∧ ∀ n, n ∈ l → channel pmb flags n ≠ Some waiting) ∧
  (∀ c, zget flags c ≠ Some arrived → zget flags' c = zget flags c) ∧
  (∀ c n nb, zget flags c = Some arrived →
        n ∈ l → zget (neighbor pmb) n = Some nb → bufid nb = c →
        zget flags' c = Some completed).
Proof.
  revert flags b. induction l as [|n l IH]; intros flags b; cbn.
  - intros [= <- <-]. split_and!.
    + by intros n ?%elem_of_nil.
    + split; [intros ->; split; [done|]; by intros n ?%elem_of_nil | by intros [? _]].
    + done.
    + by intros c n nb _ ?%elem_of_nil.
  - intros ([flags1 b1] & Hstep & Hrest)%bind_Ok.
    apply settle_flag_step in Hstep as (nb & f & Hnb & Hf & Hb1 & Hflags1).
    apply zget_Some_range in Hf as Hrange.
    assert (Hget : ∀ c, zget flags1 c =
                        if decide (f = arrived ∧ bufid nb = c) then Some completed
                        else zget flags c).
    { intros c. rewrite Hflags1. case_bool_decide as Hfa.
      - rewrite zget_zset.
        destruct (decide (bufid nb = c ∧ _)) as [[? ?]|H1];
          destruct (decide (f = arrived ∧ _)) as [[? ?]|H2]; try done.
        + by destruct H2.
        + destruct H1. split; [done | lia].
      - destruct (decide (f = arrived ∧ bufid nb = c)) as [[? ?]|?]; done. }
    clear Hflags1. subst b1.
    apply IH in Hrest as (Hsome & Hb & Hkeep & Hdone). clear IH.
    assert (Hwait : ∀ c, zget flags1 c = Some waiting ↔ zget flags c = Some waiting).
    { intros c. rewrite Hget.
      destruct (decide (f = arrived ∧ bufid nb = c)) as [[-> <-]|?]; [|reflexivity].
      rewrite Hf. split; congruence. }
    assert (Hchan : ∀ n', channel pmb flags1 n' = Some waiting ↔
                          channel pmb flags n' = Some waiting).
    { intros n'. unfold channel. destruct (zget (neighbor pmb) n'); cbn; [apply Hwait | done]. }
    split_and!.
    + intros n' [->|Hn']%elem_of_cons.
      * unfold channel. rewrite Hnb. cbn. by rewrite Hf.
      * destruct (Hsome n' Hn') as [f' Hf']. unfold channel in *.
        destruct (zget (neighbor pmb) n') as [nb'|]; [|done]. cbn in *.
        rewrite Hget in Hf'.
        destruct (decide (f = arrived ∧ bufid nb = bufid nb')) as [[_ Hc]|?]; [|eauto].
        rewrite <- Hc. eauto.
    + rewrite Hb. rewrite andb_true_iff, bool_decide_eq_true. split.
      * intros [[-> Hfw] Hl]. split; [done|].
        intros n' [->|Hn']%elem_of_cons.
        -- unfold channel. rewrite Hnb. cbn. rewrite Hf. congruence.
        -- rewrite <- Hchan. by apply Hl.
      * intros [-> Hl]. split_and!; [done | |].
        -- specialize (Hl n ltac:(left)). unfold channel in Hl. rewrite Hnb in Hl.
           cbn in Hl. rewrite Hf in Hl. congruence.
        -- intros n' Hn'. rewrite Hchan. apply Hl. by right.
    + intros c Hc.
      assert (Hn : ¬ (f = arrived ∧ bufid nb = c)) by (intros [-> <-]; congruence).
      rewrite Hkeep; rewrite Hget, decide_False by done; done.
    + intros c n0 nb0 Hc Hn0 Hnb0 Hb0.
      destruct (decide (f = arrived ∧ bufid nb = c)) as [Hcc|Hne].
      * rewrite Hkeep; rewrite Hget, decide_True by done; done.
      * apply elem_of_cons in Hn0 as [->|Hn0].
        -- rewrite Hnb in Hnb0. injection Hnb0 as <-. destruct Hne. split; [|done].
           rewrite Hb0, Hc in Hf. congruence.
        -- eapply Hdone; [|done..]. rewrite Hget, decide_False by done. done.
Qed.

Section ExchangeProperties.
Variable increase_target : Z → Z.
Variable vbswarm_Receive : BoundarySwarm → BoundarySwarm.

Lemma Receive_flags (pmb : MeshBlock) s vb b s' vb' :
  Receive increase_target vbswarm_Receive pmb s vb = Ok (b, s', vb') →
  foldM (settle_flag pmb) (seqZ 0 (nneighbor pmb))
    (flag (bd_var_ (vbswarm_Receive vb)), true) = Ok (flag (bd_var_ vb'), b).
Proof.
  unfold Receive.
  intros ([received total] & _ & H)%bind_Ok.
  apply bind_Ok in H as (s1 & _ & H).
  apply bind_Ok in H as ([flags b1] & Hflags & [= <- <- <-]). done.
Qed.

(** C6. Whenever [Receive] returns, it returns true exactly when no
    neighbour's channel is waiting (in the status the transport reports); a
    channel that had arrived is completed afterwards, every other channel
    keeps its status. *)
Theorem Receive_result (pmb : MeshBlock) (s : Swarm) (vb : BoundarySwarm)
    (b : bool) (s' : Swarm) (vb' : BoundarySwarm) :
  Receive increase_target vbswarm_Receive pmb s vb = Ok (b, s', vb') →
  let before := flag (bd_var_ (vbswarm_Receive vb)) in
  let after := flag (bd_var_ vb') in
  (b = true ↔ ∀ n, 0 ≤ n < nneighbor pmb → channel pmb before n ≠ Some waiting) ∧
  (∀ n, 0 ≤ n < nneighbor pmb → is_Some (channel pmb before n)) ∧
  (∀ n, 0 ≤ n < nneighbor pmb → channel pmb before n = Some arrived →
        channel pmb after n = Some completed) ∧
  (∀ n, 0 ≤ n < nneighbor pmb → channel pmb before n ≠ Some arrived →
        channel pmb after n = channel pmb before n).
Proof.
  intros H%Receive_flags before after.
  apply settle_flags_fold in H as (Hsome & Hb & Hkeep & Hdone).
  fold before after in Hsome, Hb, Hkeep, Hdone.
  split_and!.
  - rewrite Hb. split.
    + intros [_ Hl] n Hn. by apply Hl, elem_of_seqZ0.
    + intros Hl. split; [done|]. intros n Hn%elem_of_seqZ0. by apply Hl.
  - intros n Hn. by apply Hsome, elem_of_seqZ0.
  - intros n Hn. unfold channel.
    destruct (zget (neighbor pmb) n) as [nb|] eqn:Enb; [|done]. cbn.
    intros Ha. eapply Hdone; [done | by apply elem_of_seqZ0 | done | done].
  - intros n Hn. unfold channel.
    destruct (zget (neighbor pmb) n) as [nb|] eqn:Enb; [|done]. cbn.
    intros Ha. by apply Hkeep.
Qed.

End ExchangeProperties.

(** ** An exchange followed through Send and Receive *)

Lemma Receive_result_witness :
  received_xyz = Ok (false, swarm_of received_xyz, sent_of received_xyz) ∧
  channel pmb_demo (flag (bd_var_ (deliver sent_xyz 1 0 vb_idle))) 0 = Some arrived ∧
  channel pmb_demo (flag (bd_var_ (sent_of received_xyz))) 0 = Some completed.
Proof.
  assert (H : received_xyz = Ok (false, swarm_of received_xyz, sent_of received_xyz))
    by (by vm_compute).
  split; [exact H|]. split; [by vm_compute|].
  destruct (Receive_result double_pool (deliver sent_xyz 1 0) pmb_demo pool0 vb_idle
              _ _ _ H) as (_ & _ & Hdone & _).
  apply Hdone; [cbn; lia | by vm_compute].
Defined.

(** C1. With an integer attribute registered, the round trip does not
    reproduce it.  [Send] writes the record of slot 0 of [sender_id] as
    [x, y, z, id] = [-1, 5, 5, 7]; [Receive] reads the integer attribute [i]
    of record [bid] at [(real_vars_size + bid) * particle_size + i], entry
    12 for this record, outside the 4 delivered entries.  With a receive
    buffer of exactly that size the read leaves the buffer; with a larger
    buffer kept from earlier rounds the particle arrives with [id] 0. *)
Theorem Receive_misreads_integers :
  (labels (realVector_ sender_id) = ["x"; "y"; "z"] ∧
   labels (intVector_ sender_id) = ["id"] ∧
   vget 0 (intVector_ sender_id) 0 0 = 7 ∧
   zget (blockIndex_ sender_id) 0 = Some 1) ∧
  (∃ s', Send pmb_demo sender_id vb_idle = Ok (true, s', sent_id) ∧
         zget (send (bd_var_ sent_id)) 1 = Some [(-1)%Q; 5%Q; 5%Q; 7%Q] ∧
         zget (send_size sent_id) 1 = Some 4) ∧
  Receive double_pool (deliver sent_id 1 0) pmb_demo store_id vb_idle =
    Err (out_of_bounds "bdvar.recv[nid](i)") ∧
  (∃ b r' vb', Receive double_pool (deliver sent_id 1 0) pmb_demo store_id vb_roomy =
                 Ok (b, r', vb') ∧
               active_indices r' = [0] ∧
               vget 0%Q (realVector_ r') 0 0 = 9%Q ∧
               vget 0 (intVector_ r') 0 0 = 0).
Proof.
  split_and!; try by vm_compute.
  - exists (swarm_of (Send pmb_demo sender_id vb_idle)). split_and!; by vm_compute.
  - exists false,
      (swarm_of (Receive double_pool (deliver sent_id 1 0) pmb_demo store_id vb_roomy)),
      (sent_of (Receive double_pool (deliver sent_id 1 0) pmb_demo store_id vb_roomy)).
    split_and!; by vm_compute.
Qed.

(** ** Packs: reading and writing one entry *)

Section Packs.
Context {T : Type}.
Implicit Types (vs : list (ParticleVariable T)) (i j n σ : Z) (x d : T).

Lemma zget_fmap {A B : Type} (f : A → B) (l : list A) (i : Z) :
  zget (f <$> l) i = f <$> zget l i.
Proof. unfold zget. case_decide; [apply list_lookup_fmap | done]. Qed.

Lemma zset_fmap {A B : Type} (f : A → B) (l : list A) (i : Z) (a : A) :
  f <$> zset l i a = zset (f <$> l) i (f a).
Proof. unfold zset. case_decide; [apply list_fmap_insert | done]. Qed.

Lemma shape_vset vs i n x : shape (vset vs i n x) = shape vs.
Proof.
  unfold vset, shape. destruct (zget vs i) as [v|] eqn:E; [|done].
  rewrite zset_fmap. apply zset_same. rewrite zget_fmap, E. cbn -[zset].
  by rewrite length_zset.
Qed.

Lemma shape_length vs vs' : shape vs = shape vs' → length vs = length vs'.
Proof.
  unfold shape. intros H. apply (f_equal length) in H. by rewrite !length_fmap in H.
Qed.

Lemma shape_slot_ok vs vs' i n : shape vs = shape vs' → slot_ok vs i n → slot_ok vs' i n.
Proof.
  intros Hs (v & Hv & Hn).
  assert (H : zget (shape vs') i = Some (label v, length (data v))).
  { rewrite <- Hs. unfold shape. by rewrite zget_fmap, Hv. }
  unfold shape in H. rewrite zget_fmap in H.
  destruct (zget vs' i) as [v'|] eqn:E; cbn in H; [|done]. injection H as _ H.
  exists v'. split; [done | lia].
Qed.

Lemma shape_labels vs vs' : shape vs = shape vs' → label <$> vs = label <$> vs'.
Proof.
  unfold shape. intros H.
  assert (H' : fst <$> ((λ v, (label v, length (data v))) <$> vs)
             = fst <$> ((λ v, (label v, length (data v))) <$> vs')) by (by rewrite H).
  by rewrite <- !list_fmap_compose in H'.
Qed.

Lemma vget_vset_eq d vs i n x : slot_ok vs i n → vget d (vset vs i n x) i n = x.
Proof.
  intros (v & Hv & Hn). unfold vget, vset. rewrite Hv.
  rewrite zget_zset_eq by (apply zget_Some_range in Hv; lia). cbn.
  unfold zget_def. by rewrite zget_zset_eq.
Qed.

Lemma vget_vset_ne d vs i n x j σ :
  i ≠ j ∨ n ≠ σ → vget d (vset vs i n x) j σ = vget d vs j σ.
Proof.
  intros Hne. unfold vget, vset. destruct (zget vs i) as [v|] eqn:Hv; [|done].
  rewrite zget_zset. case_decide as Hc; [|done].
  destruct Hc as [<- _]. rewrite Hv. cbn. unfold zget_def.
  rewrite zget_zset_ne; [done|]. by destruct Hne.
Qed.

End Packs.

Lemma find_label_labels {T : Type} (lbl : string) (vs vs' : list (ParticleVariable T)) k :
  label <$> vs = label <$> vs' → find_label lbl vs k = find_label lbl vs' k.
Proof.
  revert vs' k. induction vs as [|v vs IH]; intros [|v' vs'] k; try done.
  cbn. intros [= Hl Hrest]. rewrite Hl. case_bool_decide; [done|]. by apply IH.
Qed.

Lemma pack_index_labels {T : Type} (lbl : string) (vs vs' : list (ParticleVariable T)) :
  label <$> vs = label <$> vs' → pack_index lbl vs = pack_index lbl vs'.
Proof. intros H. unfold pack_index. by rewrite (find_label_labels _ _ vs'). Qed.

(** ** The periodic fold *)

Lemma shape_apply_periodic pmb ix iy iz n vs :
  shape (apply_periodic pmb ix iy iz n vs) = shape vs.
Proof. unfold apply_periodic. by rewrite !shape_vset. Qed.

Lemma vget_apply_periodic_other pmb ix iy iz n vs j σ :
  n ≠ σ → vget 0%Q (apply_periodic pmb ix iy iz n vs) j σ = vget 0%Q vs j σ.
Proof.
  intros Hne. unfold apply_periodic. rewrite !vget_vset_ne by (by right). done.
Qed.

Lemma vget_apply_periodic_x pmb ix iy iz n vs :
  ix ≠ iy → ix ≠ iz → slot_ok vs ix n →
  vget 0%Q (apply_periodic pmb ix iy iz n vs) ix n
  = periodic_fold (x1min pmb) (x1max pmb) (vget 0%Q vs ix n).
Proof.
  intros Hy Hz Hok. unfold apply_periodic.
  rewrite !(vget_vset_ne _ _ _ _ _ ix) by (left; congruence).
  by rewrite vget_vset_eq.
Qed.

Lemma vget_apply_periodic_y pmb ix iy iz n vs :
  ix ≠ iy → iy ≠ iz → slot_ok vs iy n →
  vget 0%Q (apply_periodic pmb ix iy iz n vs) iy n
  = periodic_fold (x2min pmb) (x2max pmb) (vget 0%Q vs iy n).
Proof.
  intros Hx Hz Hok. unfold apply_periodic.
  rewrite (vget_vset_ne _ _ iz) by (left; congruence).
  rewrite vget_vset_eq by (eapply shape_slot_ok; [symmetry; apply shape_vset | done]).
  by rewrite (vget_vset_ne _ _ ix) by (left; congruence).
Qed.

Lemma vget_apply_periodic_z pmb ix iy iz n vs :
  ix ≠ iz → iy ≠ iz → slot_ok vs iz n →
  vget 0%Q (apply_periodic pmb ix iy iz n vs) iz n
  = periodic_fold (x3min pmb) (x3max pmb) (vget 0%Q vs iz n).
Proof.
  intros Hx Hy Hok. unfold apply_periodic.
  rewrite vget_vset_eq
    by (eapply shape_slot_ok; [symmetry; etrans; apply shape_vset | done]).
  by rewrite !(vget_vset_ne _ _ _ _ _ iz) by (left; congruence).
Qed.

(** Rounding reads the value of its argument, not the fraction that
    denotes it. *)
Lemma round_binary64_comp (p q : Q) : (p == q)%Q → round_binary64 p = round_binary64 q.
Proof. intros H. unfold round_binary64. by rewrite (Qred_complete p q H). Qed.

(** A difference that is a double is not rounded. *)
Lemma double_sub_exact (a b d : Q) : (a - b == d)%Q → binary64 d → (double_sub a b == d)%Q.
Proof. intros H [Hd _]. unfold double_sub. by rewrite (round_binary64_comp _ _ H). Qed.

Lemma double_add_exact (a b d : Q) : (a + b == d)%Q → binary64 d → (double_add a b == d)%Q.
Proof. intros H [Hd _]. unfold double_add. by rewrite (round_binary64_comp _ _ H). Qed.

Lemma periodic_fold_below (lo hi x d : Q) :
  (0 < d)%Q → (x == lo - d)%Q → binary64 d → binary64 (hi - d) →
  (periodic_fold lo hi x == hi - d)%Q.
Proof.
  intros Hd Hx Bd Bh. unfold periodic_fold.
  destruct (Qlt_le_dec x lo) as [H1|H1]; [|lra].
  assert (E1 : (double_sub lo x == d)%Q) by (apply double_sub_exact; [lra | done]).
  assert (E2 : (double_sub hi (double_sub lo x) == hi - d)%Q)
    by (apply double_sub_exact; [lra | done]).
  destruct (Qlt_le_dec hi (double_sub hi (double_sub lo x))) as [H2|H2]; [lra | done].
Qed.

Lemma periodic_fold_above (lo hi x d : Q) :
  (lo <= hi)%Q → (0 < d)%Q → (x == hi + d)%Q → binary64 d → binary64 (lo + d) →
  (periodic_fold lo hi x == lo + d)%Q.
Proof.
  intros Hlh Hd Hx Bd Bl. unfold periodic_fold.
  destruct (Qlt_le_dec x lo) as [H1|H1]; [lra|].
  destruct (Qlt_le_dec hi x) as [H2|H2]; [|lra].
  assert (E1 : (double_sub x hi == d)%Q) by (apply double_sub_exact; [lra | done]).
  apply double_add_exact; [lra | done].
Qed.

Lemma periodic_fold_inside (lo hi x : Q) :
  (lo <= x)%Q → (x <= hi)%Q → periodic_fold lo hi x = x.
Proof.
  intros H1 H2. unfold periodic_fold.
  destruct (Qlt_le_dec x lo); [lra|]. destruct (Qlt_le_dec hi x); [lra | done].
Qed.

(** ** Receive: unpacking *)

Section Unpack.
Variables (pmb : MeshBlock) (recvbufs : list (list Q)).
Variables (new_indices : list Z) (slots : list (Z * Z)).
Variables (psize real_vars_size int_vars_size ix iy iz : Z).

Lemma unpack_reals (nid bid sid : Z) (l : list Z) (vreal vreal1 : list (ParticleVariable Q)) :
  foldM (λ vreal i, x ← read_recv recvbufs nid (bid * psize + i); Ok (vset vreal i sid x))
    l vreal = Ok vreal1 →
  shape vreal1 = shape vreal ∧
  (∀ j σ, j ∉ l ∨ σ ≠ sid → vget 0%Q vreal1 j σ = vget 0%Q vreal j σ) ∧
  (NoDup l → ∀ i, i ∈ l → slot_ok vreal i sid →
     read_recv recvbufs nid (bid * psize + i) = Ok (vget 0%Q vreal1 i sid)).
Proof.
  revert vreal. induction l as [|i l IH]; intros vreal; cbn.
  - intros [= <-]. split_and!; [done | done |]. by intros _ i ?%elem_of_nil.
  - intros (vreal' & Hstep & Hrest)%bind_Ok.
    apply bind_Ok in Hstep as (x & Hx & [= <-]).
    apply IH in Hrest as (Hshape & Hother & Hread). clear IH.
    split_and!.
    + by rewrite Hshape, shape_vset.
    + intros j σ Hj. rewrite Hother, vget_vset_ne; [done | |].
      * destruct Hj as [Hj|Hj]; [left | by right]. intros ->. apply Hj. by left.
      * destruct Hj as [Hj|Hj]; [left | by right]. intros ?. apply Hj. by right.
    + intros [Hi Hnd]%NoDup_cons i0 [->|Hi0]%elem_of_cons Hok.
      * rewrite Hx. f_equal. rewrite Hother by (by left). by rewrite vget_vset_eq.
      * apply Hread; [done | done |]. eapply shape_slot_ok; [|done].
        symmetry. apply shape_vset.
Qed.

Lemma unpack_particle_spec (st st' : UnpackLoop) (n : Z) :
  unpack_particle pmb recvbufs new_indices slots psize real_vars_size int_vars_size
    ix iy iz st n = Ok st' →
  let sid := zget_def 0 new_indices n in
  let nid := (zget_def (0, 0) slots n).1 in
  let bid := (zget_def (0, 0) slots n).2 in
  shape (ul_vreal st') = shape (ul_vreal st) ∧
  (∀ j σ, σ ≠ sid → vget 0%Q (ul_vreal st') j σ = vget 0%Q (ul_vreal st) j σ) ∧
  (∀ i, 0 ≤ i < real_vars_size → slot_ok (ul_vreal st) i sid →
     ∃ x, read_recv recvbufs nid (bid * psize + i) = Ok x ∧
          (i ≠ ix → i ≠ iy → i ≠ iz → vget 0%Q (ul_vreal st') i sid = x) ∧
          (i = ix → ix ≠ iy → ix ≠ iz →
             vget 0%Q (ul_vreal st') i sid = periodic_fold (x1min pmb) (x1max pmb) x) ∧
          (i = iy → ix ≠ iy → iy ≠ iz →
             vget 0%Q (ul_vreal st') i sid = periodic_fold (x2min pmb) (x2max pmb) x) ∧
          (i = iz → ix ≠ iz → iy ≠ iz →
             vget 0%Q (ul_vreal st') i sid = periodic_fold (x3min pmb) (x3max pmb) x)).
Proof.
  unfold unpack_particle. destruct (zget_def (0, 0) slots n) as [nid bid]. cbn [fst snd].
  set (sid := zget_def 0 new_indices n).
  intros (vreal1 & Hreal & H)%bind_Ok.
  apply bind_Ok in H as (vint1 & _ & [= <-]). cbn [ul_vreal].
  apply unpack_reals in Hreal as (Hshape & Hother & Hread).
  split_and!.
  - by rewrite shape_apply_periodic.
  - intros j σ Hσ. rewrite vget_apply_periodic_other by done. apply Hother. by right.
  - intros i Hi Hok.
    assert (Hok1 : slot_ok vreal1 i sid) by (eapply shape_slot_ok; [symmetry|]; done).
    eexists. split; [apply Hread; [apply NoDup_seqZ | by apply elem_of_seqZ0 | done]|].
    split_and!.
    + intros ? ? ?. unfold apply_periodic. by rewrite !vget_vset_ne by (by left).
    + intros -> ? ?. by apply vget_apply_periodic_x.
    + intros -> ? ?. by apply vget_apply_periodic_y.
    + intros -> ? ?. by apply vget_apply_periodic_z.
Qed.

Lemma unpack_fold (l : list Z) (st st' : UnpackLoop) :
  foldM (unpack_particle pmb recvbufs new_indices slots psize real_vars_size int_vars_size
           ix iy iz) l st = Ok st' →
  shape (ul_vreal st') = shape (ul_vreal st) ∧
  (∀ j σ, (∀ n, n ∈ l → zget_def 0 new_indices n ≠ σ) →
          vget 0%Q (ul_vreal st') j σ = vget 0%Q (ul_vreal st) j σ) ∧
  (∀ n, n ∈ l → NoDup l →
     (∀ n', n' ∈ l → n' ≠ n → zget_def 0 new_indices n' ≠ zget_def 0 new_indices n) →
     let sid := zget_def 0 new_indices n in
     let nid := (zget_def (0, 0) slots n).1 in
     let bid := (zget_def (0, 0) slots n).2 in
     ∀ i, 0 ≤ i < real_vars_size → slot_ok (ul_vreal st) i sid →
       ∃ x, read_recv recvbufs nid (bid * psize + i) = Ok x ∧
            (i ≠ ix → i ≠ iy → i ≠ iz → vget 0%Q (ul_vreal st') i sid = x) ∧
            (i = ix → ix ≠ iy → ix ≠ iz →
               vget 0%Q (ul_vreal st') i sid = periodic_fold (x1min pmb) (x1max pmb) x) ∧
            (i = iy → ix ≠ iy → iy ≠ iz →
               vget 0%Q (ul_vreal st') i sid = periodic_fold (x2min pmb) (x2max pmb) x) ∧
            (i = iz → ix ≠ iz → iy ≠ iz →
               vget 0%Q (ul_vreal st') i sid = periodic_fold (x3min pmb) (x3max pmb) x)).
Proof.
  revert st. induction l as [|n0 l IH]; intros st; cbn.
  - intros [= <-]. split_and!; [done | done |]. by intros n ?%elem_of_nil.
  - intros (st1 & Hstep & Hrest)%bind_Ok.
    apply unpack_particle_spec in Hstep as (Hshape1 & Hother1 & Hhere1).
    apply IH in Hrest as (Hshape & Hother & Hhere). clear IH.
    split_and!.
    + by rewrite Hshape.
    + intros j σ Hσ. rewrite Hother, Hother1; [done | |].
      * intros Heq. apply (Hσ n0); [by left | done].
      * intros n Hn. apply Hσ. by right.
    + intros n Hn [Hn0 Hnd]%NoDup_cons Hinj. cbn zeta. intros i Hi Hok.
      destruct (decide (n = n0)) as [->|Hne].
      * destruct (Hhere1 i Hi Hok) as (x & Hx & H0 & H1 & H2 & H3).
        assert (Hkeep : vget 0%Q (ul_vreal st') i (zget_def 0 new_indices n0)
                        = vget 0%Q (ul_vreal st1) i (zget_def 0 new_indices n0)).
        { apply Hother. intros n' Hn'. apply Hinj; [by right|]. by intros ->. }
        exists x. rewrite Hkeep. done.
      * apply elem_of_cons in Hn as [->|Hn]; [done|].
        apply Hhere; [done | done | | done |].
        -- intros n' Hn' ?. apply Hinj; [by right | done].
        -- eapply shape_slot_ok; [|done]. done.
Qed.

End Unpack.

(** ** Receive: the new slots *)

Lemma sized_slot_ok {T : Type} (cap : Z) (vs : list (ParticleVariable T)) (i n : Z) :
  sized cap vs → 0 ≤ i < zlength vs → 0 ≤ n < cap → slot_ok vs i n.
Proof.
  intros Hs Hi Hn. destruct (zget_in_range vs i Hi) as [v Hv]. exists v. split; [done|].
  unfold zget in Hv. case_decide; [|done].
  apply list_elem_of_lookup_2 in Hv. unfold sized in Hs. rewrite Forall_forall in Hs.
  rewrite (Hs v Hv). done.
Qed.

Lemma regrow_sized {T : Type} (d : T) (nmax_old nmax_new : Z) (vs : list (ParticleVariable T)) :
  0 ≤ nmax_new → sized nmax_new (regrow d nmax_old nmax_new <$> vs).
Proof.
  intros Hn. apply Forall_fmap, Forall_forall. intros v _. cbn.
  apply (fold_left_preserves (λ m, zlength m = nmax_new)).
  - intros a b Ha. by rewrite length_zset.
  - rewrite length_replicate. lia.
Qed.

Lemma regrow_labels {T : Type} (d : T) (nmax_old nmax_new : Z) (vs : list (ParticleVariable T)) :
  label <$> (regrow d nmax_old nmax_new <$> vs) = label <$> vs.
Proof. rewrite <- list_fmap_compose. by apply list_fmap_ext. Qed.

Lemma setPoolMax_vars (nmax_pool : Z) (s s' : Swarm) :
  setPoolMax nmax_pool s = Ok s' →
  0 ≤ nmax_pool_ s →
  label <$> realVector_ s' = label <$> realVector_ s ∧
  sized (nmax_pool_ s') (realVector_ s') ∧
  length (intVector_ s') = length (intVector_ s).
Proof.
  unfold setPoolMax. case_bool_decide; [|done]. intros [= <-] ?. cbn.
  split_and!; [apply regrow_labels | apply regrow_sized; lia | by rewrite length_fmap].
Qed.

Section NewSlots.
Variable increase_target : Z → Z.

Lemma grow_pool_vars (fuel : nat) (num_to_add : Z) (s s1 : Swarm) (k : nat) :
  grow_pool increase_target fuel num_to_add s = Ok (s1, k) →
  0 ≤ nmax_pool_ s → sized (nmax_pool_ s) (realVector_ s) →
  label <$> realVector_ s1 = label <$> realVector_ s ∧
  sized (nmax_pool_ s1) (realVector_ s1) ∧
  length (intVector_ s1) = length (intVector_ s) ∧
  nmax_pool_ s ≤ nmax_pool_ s1 ∧
  ∃ extra, free_indices_ s1 = free_indices_ s ++ extra ∧
           ∀ e, e ∈ extra → nmax_pool_ s ≤ e.
Proof.
  revert s k. induction fuel as [|fuel IH]; intros s k; cbn.
  - case_bool_decide; [done|]. intros [= <- <-] ? ?. split_and!; try done.
    exists []. split; [by rewrite app_nil_r | by intros e ?%elem_of_nil].
  - case_bool_decide.
    2:{ intros [= <- <-] ? ?. split_and!; try done.
        exists []. split; [by rewrite app_nil_r | by intros e ?%elem_of_nil]. }
    intros (s' & Hs' & Hk)%bind_Ok Hcap Hsized.
    apply bind_Ok in Hk as ([s2 k2] & Hrec & [= <- <-]).
    unfold increasePoolMax in Hs'.
    destruct (setPoolMax_vars _ _ _ Hs' Hcap) as (Hl & Hsz & Hi).
    destruct (setPoolMax_free _ _ _ Hs') as (Hlt & Hc & Hfr).
    apply IH in Hrec as (Hl2 & Hsz2 & Hi2 & Hc2 & extra & Hfr2 & Hex); [|lia | done].
    split_and!; try congruence; try lia.
    eexists. split; [rewrite Hfr2, Hfr, <- app_assoc; done|].
    intros e [He|He]%elem_of_app.
    + apply list_elem_of_fmap in He as (n & -> & Hn%elem_of_seqZ0). lia.
    + apply Hex in He. lia.
Qed.

Lemma foldM_add_slot_indices (k : nat) (a : Z) (st st' : AddLoop) :
  foldM add_slot (seqZ a (Z.of_nat k)) st = Ok st' →
  0 ≤ a → a + Z.of_nat k ≤ zlength (al_new_indices st) →
  zlength (al_new_indices st') = zlength (al_new_indices st) ∧
  (∀ p, p < a → zget (al_new_indices st') p = zget (al_new_indices st) p) ∧
  (∀ j, (j < k)%nat → zget (al_new_indices st') (a + Z.of_nat j) = al_free st !! j).
Proof.
  revert a st. induction k as [|k IH]; intros a st.
  - cbn. intros [= <-] ? ?. split_and!; [done | done | lia].
  - rewrite seqZ_cons by lia. cbn [foldM].
    intros (st1 & Hstep & Hrest)%bind_Ok Ha Hlen.
    unfold add_slot in Hstep. destruct (al_free st) as [|fi rest] eqn:Efree; [done|].
    injection Hstep as <-.
    replace (Z.pred (Z.of_nat (S k))) with (Z.of_nat k) in Hrest by lia.
    apply IH in Hrest as (Hlen' & Hbelow & Hhere); cbn in *; rewrite ?length_zset; try lia.
    rewrite length_zset in Hlen'.
    split_and!; [done | |].
    + intros p Hp. rewrite Hbelow by lia. by rewrite zget_zset_ne by lia.
    + intros [|j] Hj.
      * rewrite Z.add_0_r, Hbelow by lia. cbn. apply zget_zset_eq. lia.
      * replace (a + Z.of_nat (S j)) with (Z.succ a + Z.of_nat j) by lia.
        rewrite Hhere by lia. done.
Qed.

(** What [Receive] uses of [AddEmptyParticles]: the new slots are pairwise
    different, were not active and are active now; the variables keep their
    labels and have one entry per slot. *)
Lemma AddEmptyParticles_new (num_to_add : Z) (s s' : Swarm) new_mask new_indices :
  pool_inv s → sized (nmax_pool_ s) (realVector_ s) →
  AddEmptyParticles increase_target num_to_add s = Ok (s', new_mask, new_indices) →
  label <$> realVector_ s' = label <$> realVector_ s ∧
  sized (nmax_pool_ s') (realVector_ s') ∧
  length (intVector_ s') = length (intVector_ s) ∧
  (∀ id, 0 ≤ id < num_to_add →
     ∃ sid, zget new_indices id = Some sid ∧ 0 ≤ sid < nmax_pool_ s' ∧
            zget (mask_ s') sid = Some true ∧ zget (mask_ s) sid ≠ Some true) ∧
  (∀ id id', 0 ≤ id < num_to_add → 0 ≤ id' < num_to_add → id ≠ id' →
     zget new_indices id ≠ zget new_indices id').
Proof.
  intros Hinv Hsized. unfold AddEmptyParticles. case_bool_decide as Hpos; [|done].
  intros ([s1 k] & Hg & H)%bind_Ok.
  pose proof (grow_pool_inv _ _ _ _ _ _ Hinv Hg) as [Hinv1 Hlen].
  apply grow_pool_vars in Hg as (Hl & Hsz & Hi & Hc & extra & Hfr & Hex);
    [|destruct Hinv; lia | done].
  apply bind_Ok in H as (st & Hst & [= <- <- <-]). cbn.
  edestruct (foldM_add_slot (seqZ 0 num_to_add)) as (st' & Hst' & _ & Hmk & _);
    [|rewrite Hst in Hst'; injection Hst' as <-].
  { cbn. rewrite length_seqZ. lia. }
  cbn in Hmk. rewrite length_seqZ in Hmk.
  rewrite <- (Z2Nat.id num_to_add) in Hst by lia.
  apply foldM_add_slot_indices in Hst as (_ & _ & Hidx);
    [|lia | cbn; rewrite length_replicate; lia].
  cbn in Hidx.
  assert (Hget : ∀ id, 0 ≤ id < num_to_add →
            zget (al_new_indices st) id = free_indices_ s1 !! Z.to_nat id).
  { intros id Hid. specialize (Hidx (Z.to_nat id) ltac:(lia)).
    rewrite Z.add_0_l, Z2Nat.id in Hidx by lia. done. }
  destruct Hinv1 as [_ Hmask1 _ Hnd1 Hfree1 _ _].
  destruct Hinv as [_ Hmask0 _ _ Hfree0 _ _].
  split_and!; try done.
  - intros id Hid. rewrite Hget by done.
    destruct (lookup_lt_is_Some_2 (free_indices_ s1) (Z.to_nat id)) as [sid Hsid]; [lia|].
    exists sid. split; [done|].
    assert (Hin : sid ∈ free_indices_ s1) by (by eapply list_elem_of_lookup_2).
    apply Hfree1 in Hin as Hfalse. apply zget_Some_range in Hfalse as Hr.
    split_and!; [lia | lia | |].
    + rewrite Hmk, zget_fold_zset. rewrite decide_True; [done|]. split; [|lia].
      apply list_elem_of_lookup. exists (Z.to_nat id).
      apply lookup_take_Some. split; [done | lia].
    + rewrite Hfr in Hin. apply elem_of_app in Hin as [Hin|Hin].
      * apply Hfree0 in Hin. congruence.
      * apply Hex in Hin. intros Hc'%zget_Some_range. lia.
  - intros id id' Hid Hid' Hne. rewrite !Hget by done.
    destruct (lookup_lt_is_Some_2 (free_indices_ s1) (Z.to_nat id)) as [sid Hsid]; [lia|].
    rewrite Hsid. intros Heq. symmetry in Heq.
    pose proof (NoDup_lookup _ _ _ _ Hnd1 Hsid Heq). lia.
Qed.

End NewSlots.

(** ** Receive: counting the records *)

Lemma count_received_step (pmb : MeshBlock) (vb : BoundarySwarm) rec tot n rec1 tot1 :
  count_received pmb vb (rec, tot) n = Ok (rec1, tot1) →
  rec1 = zset rec n (arrivals pmb vb n) ∧ tot1 = tot + arrivals pmb vb n.
Proof.
  unfold count_received, arrivals, channel.
  destruct (zget (neighbor pmb) n) as [nb|]; [|done]. cbn.
  destruct (zget (flag (bd_var_ vb)) (bufid nb)) as [f|]; [|done].
  case_bool_decide as Hf.
  - subst f. unfold zget_def. destruct (zget (recv_size vb) n) as [size|]; [|done]. cbn.
    case_bool_decide; [done|]. case_bool_decide; [|done]. by intros [= <- <-].
  - intros [= <- <-]. destruct f; [|by destruct Hf|]; (split; [done | lia]).
Qed.

Lemma count_received_fold (pmb : MeshBlock) (vb : BoundarySwarm) (l : list Z) rec tot rec' tot' :
  foldM (count_received pmb vb) l (rec, tot) = Ok (rec', tot') →
  NoDup l → (∀ n, n ∈ l → 0 ≤ n < zlength rec) →
  length rec' = length rec ∧
  (∀ n, n ∈ l → zget rec' n = Some (arrivals pmb vb n)) ∧
  (∀ n, n ∉ l → zget rec' n = zget rec n) ∧
  tot' = tot + zsum (arrivals pmb vb <$> l).
Proof.
  revert rec tot. induction l as [|n l IH]; intros rec tot; cbn.
  - intros [= <- <-] _ _. split_and!; [done | by intros n ?%elem_of_nil | done | lia].
  - intros ([rec1 tot1] & Hstep & Hrest)%bind_Ok [Hn Hnd]%NoDup_cons Hr.
    apply count_received_step in Hstep as [-> ->].
    apply IH in Hrest as (Hlen & Hin & Hout & Htot); [|done|].
    2:{ intros n' Hn'. rewrite length_zset. apply Hr. by right. }
    rewrite length_zset in Hlen.
    split_and!; [done | | | rewrite Htot; unfold zsum; cbn; lia].
    + intros n' [->|Hn']%elem_of_cons; [|by apply Hin].
      rewrite Hout by done. apply zget_zset_eq, Hr. by left.
    + intros n' [Hne Hn']%not_elem_of_cons. rewrite Hout by done.
      by rewrite zget_zset_ne.
Qed.

Lemma elem_of_received_slots (maxneighbor : Z) (received : list Z) (nid bid : Z) :
  (nid, bid) ∈ received_slots maxneighbor received ↔
  0 ≤ nid < maxneighbor ∧ 0 ≤ bid < zget_def 0 received nid.
Proof.
  unfold received_slots. rewrite list_elem_of_bind. split.
  - intros (n & Hb & Hn%elem_of_seqZ0). apply list_elem_of_bind in Hb as (m & Hm & Hmm%elem_of_seqZ0).
    apply list_elem_of_singleton in Hm as [= -> ->]. done.
  - intros [Hn Hb]. exists nid. split; [|by apply elem_of_seqZ0].
    apply list_elem_of_bind. exists bid. split; [by apply list_elem_of_singleton|].
    by apply elem_of_seqZ0.
Qed.

Lemma length_received_slots (l : list Z) (f : Z → Z) :
  (∀ n, n ∈ l → 0 ≤ f n) →
  zlength (n ← l; m ← seqZ 0 (f n); [(n, m)]) = zsum (f <$> l).
Proof.
  induction l as [|n l IH]; intros Hf; [done|]. cbn.
  rewrite length_app, Nat2Z.inj_add, IH by (intros; apply Hf; by right).
  f_equal. clear IH.
  assert (Hlen : ∀ (ms : list Z), length (ms ≫= λ m, [(n, m)]) = length ms).
  { induction ms as [|m ms IHm]; [done|]. cbn. by rewrite IHm. }
  rewrite Hlen, length_seqZ. specialize (Hf n ltac:(left)). lia.
Qed.

Lemma zsum_nonneg (l : list Z) : (∀ x, x ∈ l → 0 ≤ x) → 0 ≤ zsum l.
Proof.
  induction l as [|a l IH]; intros H; cbn; [lia|].
  pose proof (H a ltac:(left)). pose proof (IH ltac:(intros; apply H; by right)).
  unfold zsum in *. lia.
Qed.

Lemma zsum_elem (l : list Z) (x : Z) : (∀ y, y ∈ l → 0 ≤ y) → x ∈ l → x ≤ zsum l.
Proof.
  induction l as [|a l IH]; intros H Hx; [by apply elem_of_nil in Hx|].
  pose proof (H a ltac:(left)).
  assert (Hl : ∀ y, y ∈ l → 0 ≤ y) by (intros; apply H; by right).
  pose proof (zsum_nonneg l Hl). cbn. fold (zsum l).
  apply elem_of_cons in Hx as [->|Hx]; [lia|]. specialize (IH Hl Hx). lia.
Qed.

Section ReceiveUnpacks.
Variable increase_target : Z → Z.
Variable vbswarm_Receive : BoundarySwarm → BoundarySwarm.

(** Record [k] of an arrived channel [nid] lands in a slot that was not
    active; every real attribute is read from its place in the record, and
    the three coordinates are folded into the periodic domain. *)
Lemma Receive_unpacks (pmb : MeshBlock) (r : Swarm) (vb : BoundarySwarm)
    (b : bool) (r' : Swarm) (vb' : BoundarySwarm) (nid k : Z) :
  let vbp := vbswarm_Receive vb in
  let psize := GetParticleDataSize r in
  let ix := pack_index "x" (realVector_ r) in
  let iy := pack_index "y" (realVector_ r) in
  let iz := pack_index "z" (realVector_ r) in
  pool_inv r → sized (nmax_pool_ r) (realVector_ r) →
  Receive increase_target vbswarm_Receive pmb r vb = Ok (b, r', vb') →
  0 < particle_size vbp →
  (∀ n size, zget (recv_size vbp) n = Some size → 0 ≤ size) →
  0 ≤ nid < nbmax (bd_var_ vbp) → 0 ≤ k < arrivals pmb vbp nid →
  ∃ sid, zget (mask_ r) sid ≠ Some true ∧ zget (mask_ r') sid = Some true ∧
    ∀ i, 0 ≤ i < zlength (realVector_ r) →
      ∃ x, read_recv (recv (bd_var_ vbp)) nid (k * psize + i) = Ok x ∧
           (i ≠ ix → i ≠ iy → i ≠ iz → vget 0%Q (realVector_ r') i sid = x) ∧
           (i = ix → ix ≠ iy → ix ≠ iz →
              vget 0%Q (realVector_ r') i sid = periodic_fold (x1min pmb) (x1max pmb) x) ∧
           (i = iy → ix ≠ iy → iy ≠ iz →
              vget 0%Q (realVector_ r') i sid = periodic_fold (x2min pmb) (x2max pmb) x) ∧
           (i = iz → ix ≠ iz → iy ≠ iz →
              vget 0%Q (realVector_ r') i sid = periodic_fold (x3min pmb) (x3max pmb) x).
Proof.
  intros vbp psize ix iy iz Hinv Hsized HR Hps Hsizes Hnid Hk.
  unfold Receive in HR. fold vbp in HR.
  apply bind_Ok in HR as ([nrp total] & Hcount & HR).
  apply count_received_fold in Hcount as (Hlen & Hin & _ & Htot);
    [|apply NoDup_seqZ | intros n Hn%elem_of_seqZ0; rewrite length_replicate; lia].
  rewrite Z.add_0_l in Htot.
  assert (Hnonneg : ∀ n, 0 ≤ arrivals pmb vbp n).
  { intros n. unfold arrivals. destruct (channel _ _ n) as [[]|]; try lia.
    apply Z.quot_pos; [|lia]. unfold zget_def.
    destruct (zget (recv_size vbp) n) eqn:E; [by eapply Hsizes | done]. }
  assert (Hnrp : ∀ n, 0 ≤ n < nbmax (bd_var_ vbp) → zget_def 0 nrp n = arrivals pmb vbp n).
  { intros n Hn. unfold zget_def. by rewrite Hin by (by apply elem_of_seqZ0). }
  assert (Htotal : arrivals pmb vbp nid ≤ total).
  { rewrite Htot. apply zsum_elem.
    - intros y (n & -> & _)%list_elem_of_fmap. apply Hnonneg.
    - apply list_elem_of_fmap. exists nid. split; [done | by apply elem_of_seqZ0]. }
  rewrite bool_decide_eq_true_2 in HR by lia.
  apply bind_Ok in HR as (r1 & Hr1 & HR).
  apply bind_Ok in HR as ([flags b1] & _ & [= _ <- _]).
  apply bind_Ok in Hr1 as ([[s1 new_mask] new_indices] & Hadd & Hr1).
  apply bind_Ok in Hr1 as (st & Hunpack & [= <-]).
  apply AddEmptyParticles_new in Hadd as (Hlabels & Hsized1 & Hints & Hnew & Hinj); [|done..].
  set (slots := received_slots (nbmax (bd_var_ vbp)) nrp) in *.
  assert (Hslot : (nid, k) ∈ slots).
  { apply elem_of_received_slots. rewrite Hnrp by done. done. }
  apply list_elem_of_lookup in Hslot as [id Hid].
  assert (Hlenslots : zlength slots = total).
  { unfold slots, received_slots.
    rewrite (length_received_slots _ (λ n, zget_def 0 nrp n)).
    - rewrite Htot. f_equal. apply list_fmap_ext. intros i n Hn.
      apply Hnrp. apply list_elem_of_lookup_2 in Hn. by apply elem_of_seqZ0 in Hn.
    - intros n Hn%elem_of_seqZ0. rewrite Hnrp by done. apply Hnonneg. }
  apply lookup_lt_Some in Hid as Hidlt.
  destruct (Hnew (Z.of_nat id) ltac:(lia)) as (sid & Hsid & Hrange & Hnow & Hbefore).
  exists sid. cbn. split_and!; [done | done |].
  apply unpack_fold in Hunpack as (_ & _ & Hhere).
  specialize (Hhere (Z.of_nat id)). cbn zeta in Hhere.
  assert (Hslots_id : zget_def (0, 0) slots (Z.of_nat id) = (nid, k)).
  { unfold zget_def, zget. rewrite decide_True by lia. by rewrite Nat2Z.id, Hid. }
  assert (Hsid' : zget_def 0 new_indices (Z.of_nat id) = sid).
  { unfold zget_def. by rewrite Hsid. }
  rewrite Hslots_id, Hsid' in Hhere. cbn [fst snd] in Hhere.
  assert (Hgps : GetParticleDataSize s1 = psize).
  { unfold psize, GetParticleDataSize.
    apply (f_equal length) in Hlabels. rewrite !length_fmap in Hlabels. lia. }
  rewrite Hgps in Hhere.
  rewrite !(pack_index_labels _ _ _ Hlabels) in Hhere.
  intros i Hi. apply Hhere.
  - apply elem_of_seqZ0. lia.
  - apply NoDup_seqZ.
  - intros n' Hn'%elem_of_seqZ0 Hne.
    specialize (Hinj n' (Z.of_nat id) Hn' ltac:(lia) Hne).
    destruct (Hnew n' Hn') as (sid' & Hsid'' & _).
    unfold zget_def. rewrite Hsid'', Hsid in *. cbn. congruence.
  - apply (f_equal length) in Hlabels. rewrite !length_fmap in Hlabels. lia.
  - cbn. eapply sized_slot_ok; [done | | done].
    apply (f_equal length) in Hlabels. rewrite !length_fmap in Hlabels. lia.
Qed.

End ReceiveUnpacks.

(** ** Send: tally and rows *)

Section Tally.
Variables (M : list bool) (B : list Z).

Lemma tally_fold (l : list Z) (num0 : list Z) (msz0 : Z) (num : list Z) (msz : Z) :
  foldM (tally_slot M B) l (num0, msz0) = Ok (num, msz) →
  length num = length num0 ∧
  (∀ n, n ∈ l → zget_def false M n = true → 0 ≤ zget_def 0 B n →
        zget_def 0 B n < zlength num0) ∧
  (∀ m, 0 ≤ m →
        zget_def 0 num m = zget_def 0 num0 m + zlength (filter (goes_to M B m) l)) ∧
  ((∀ m, zget_def 0 num0 m ≤ msz0) → ∀ m, zget_def 0 num m ≤ msz).
Proof.
  revert num0 msz0. induction l as [|n l IH]; intros num0 msz0.
  - cbn. intros [= <- <-]. split_and!; try done.
    + by intros n ?%elem_of_nil.
    + intros. lia.
  - cbn [foldM]. intros ([num1 msz1] & Hstep & Hrest)%bind_Ok.
    apply IH in Hrest as (Hlen & Hrange & Hcount & Hmax). clear IH.
    unfold tally_slot in Hstep.
    destruct (zget_def false M n) eqn:Hact.
    2:{ injection Hstep as <- <-. split_and!; try done.
        - intros n' [->|?]%elem_of_cons ? ?; [congruence | by apply Hrange].
        - intros m Hm. rewrite Hcount by done. rewrite filter_cons_False; [done|].
          intros [? _]. congruence. }
    case_bool_decide as Hb.
    2:{ injection Hstep as <- <-. split_and!; try done.
        - intros n' [->|?]%elem_of_cons ? ?; [lia | by apply Hrange].
        - intros m Hm. rewrite Hcount by done. rewrite filter_cons_False; [done|].
          intros [_ ?]. lia. }
    destruct (zget num0 (zget_def 0 B n)) as [c|] eqn:Hc; [|done].
    injection Hstep as <- <-. apply zget_Some_range in Hc as Hcr.
    rewrite length_zset in *.
    split_and!; try done.
    + intros n' [->|?]%elem_of_cons ? ?; [lia | by apply Hrange].
    + intros m Hm. rewrite Hcount by done. rewrite zget_def_zset, filter_cons.
      destruct (decide (goes_to M B m n)) as [[_ Hg]|Hg].
      * rewrite decide_True by (split; [done | lia]).
        unfold zget_def at 1. rewrite <- Hg, Hc. cbn [default from_option id].
        rewrite length_cons, Nat2Z.inj_succ. lia.
      * rewrite decide_False; [done|]. intros [? _]. apply Hg. by split.
    + intros Hle. apply Hmax. intros m. rewrite zget_def_zset.
      pose proof (Hle m) as Hm0. pose proof (Hle (zget_def 0 B n)) as Hb0.
      unfold zget_def in Hb0 at 1. rewrite Hc in Hb0. cbn [default from_option id] in Hb0.
      destruct (decide (zget_def 0 B n = m ∧ _)); case_bool_decide; lia.
Qed.

Lemma index_fold (nb w : nat) (l : list Z) :
  (∀ n, n ∈ l → zget_def false M n = true → 0 ≤ zget_def 0 B n →
        zget_def 0 B n < Z.of_nat nb) →
  (∀ m, 0 ≤ m < Z.of_nat nb → (length (filter (goes_to M B m) l) ≤ w)%nat) →
  let st := fold_left (index_slot M B) l (replicate nb (replicate w 0), replicate nb 0) in
  length st.1 = nb ∧ length st.2 = nb ∧
  ∀ m, 0 ≤ m < Z.of_nat nb →
    length (zget_def [] st.1 m) = w ∧
    zget_def 0 st.2 m = zlength (filter (goes_to M B m) l) ∧
    ∀ j, (j < length (filter (goes_to M B m) l))%nat →
      zget (zget_def [] st.1 m) (Z.of_nat j) = filter (goes_to M B m) l !! j.
Proof.
  induction l as [|n l IH] using rev_ind; intros Hrange Hroom.
  - cbn. rewrite !length_replicate. split_and!; [done | done |].
    intros m Hm. unfold zget_def. rewrite !zget_replicate, !decide_True by lia. cbn.
    rewrite length_replicate. split_and!; [done | done | intros; lia].
  - rewrite fold_left_app. cbn [fold_left].
    destruct IH as (Hl1 & Hl2 & IH).
    { intros n' Hn'. apply Hrange. apply elem_of_app. by left. }
    { intros m Hm. specialize (Hroom m Hm). rewrite filter_app, length_app in Hroom. lia. }
    destruct (fold_left (index_slot M B) l _) as [rows counter]. cbn [fst snd] in *.
    unfold index_slot.
    destruct (zget_def false M n) eqn:Hact.
    2:{ cbn [fst snd]. split_and!; [done | done |]. intros m Hm.
        rewrite filter_app, filter_cons_False, filter_nil, app_nil_r
          by (intros [? _]; congruence). by apply IH. }
    case_bool_decide as Hb.
    2:{ cbn [fst snd]. split_and!; [done | done |]. intros m Hm.
        rewrite filter_app, filter_cons_False, filter_nil, app_nil_r
          by (intros [_ ?]; lia). by apply IH. }
    set (b := zget_def 0 B n) in *. cbn [fst snd].
    assert (Hbr : 0 ≤ b < Z.of_nat nb).
    { split; [lia|]. apply Hrange; [|done | lia]. apply elem_of_app. right. by left. }
    rewrite !length_zset. split_and!; [done | done |]. intros m Hm.
    destruct (IH m Hm) as (Hw & Hc & Hrows).
    destruct (IH b Hbr) as (Hwb & Hcb & Hrowsb).
    rewrite filter_app, !zget_def_zset.
    destruct (decide (b = m)) as [<-|Hne].
    + rewrite !decide_True by lia.
      rewrite filter_cons_True, filter_nil by done.
      rewrite length_zset, length_app. cbn [length].
      specialize (Hroom b Hbr). rewrite filter_app, filter_cons_True, filter_nil in Hroom by done.
      rewrite length_app in Hroom. cbn [length] in Hroom.
      split_and!; [done | lia |]. intros j Hj. rewrite Hcb.
      destruct (decide (j = length (filter (goes_to M B b) l))) as [->|Hj'].
      * rewrite zget_zset_eq by lia. rewrite lookup_app_r by lia.
        by rewrite Nat.sub_diag.
      * rewrite zget_zset_ne by lia. rewrite lookup_app_l by lia. apply Hrowsb. lia.
    + rewrite !decide_False by (intros [? _]; done).
      rewrite filter_cons_False, filter_nil, app_nil_r by (intros [_ ?]; done).
      done.
Qed.

End Tally.

(** ** Send: sizing and packing the buffers *)

Lemma write_values_spec (values : list Q) (buf : list Q) (start : Z) :
  let r := write_values values (buf, start) in
  r.2 = start + zlength values ∧ length r.1 = length buf ∧
  ∀ j, zget r.1 j =
       if decide (start ≤ j < start + zlength values ∧ 0 ≤ j < zlength buf)
       then values !! Z.to_nat (j - start) else zget buf j.
Proof.
  unfold write_values. revert buf start.
  induction values as [|x values IH]; intros buf start; cbn [fold_left].
  - cbn. split_and!; [lia | done |]. intros j. rewrite decide_False; [done | lia].
  - destruct (IH (zset buf start x) (start + 1)) as (H1 & H2 & H3).
    rewrite length_zset in *.
    split_and!; [rewrite H1; cbn [length]; lia | done |].
    intros j. rewrite H3, zget_zset. cbn [length].
    destruct (decide (start + 1 ≤ j < start + 1 + zlength values ∧ 0 ≤ j < zlength buf))
      as [Ha|Ha];
      destruct (decide (start = j ∧ 0 ≤ start < zlength buf)) as [Hb|Hb];
      destruct (decide (start ≤ j < start + Z.of_nat (S (length values))
                        ∧ 0 ≤ j < zlength buf)) as [Hc|Hc];
      try (exfalso; lia).
    + replace (Z.to_nat (j - start)) with (S (Z.to_nat (j - (start + 1)))) by lia. done.
    + destruct Hb as [<- _]. by rewrite Z.sub_diag.
    + done.
Qed.

Lemma size_buffer_fold (num : list Z) (psize : Z) (l : list Z) (st : SizeLoop) :
  let st' := fold_left (size_buffer num psize) l st in
  length (sl_send st') = length (sl_send st) ∧
  length (sl_send_size st') = length (sl_send_size st) ∧
  (∀ m, m ∉ l → zget (sl_send st') m = zget (sl_send st) m) ∧
  (∀ m, m ∈ l → NoDup l → 0 ≤ m < zlength (sl_send st) →
        zget_def 0 num m * psize ≤ zlength (zget_def [] (sl_send st') m)) ∧
  (∀ m, m ∈ l → NoDup l → 0 ≤ m < zlength (sl_send_size st) →
        zget (sl_send_size st') m = Some (zget_def 0 num m * psize)).
Proof.
  revert st. induction l as [|n l IH]; intros st; cbn [fold_left].
  - cbn. split_and!; try done; by intros m ?%elem_of_nil.
  - destruct (IH (size_buffer num psize st n)) as (H1 & H2 & H3 & H4 & H5). clear IH.
    assert (Hlen : length (sl_send (size_buffer num psize st n)) = length (sl_send st)).
    { unfold size_buffer; cbn. case_bool_decide; [by rewrite length_zset | done]. }
    assert (Hlen2 : length (sl_send_size (size_buffer num psize st n))
                    = length (sl_send_size st)).
    { unfold size_buffer; cbn. by rewrite length_zset. }
    cbn zeta. split_and!.
    + by rewrite H1.
    + by rewrite H2.
    + intros m [Hne Hm]%not_elem_of_cons. rewrite H3 by done.
      unfold size_buffer; cbn. case_bool_decide; [|done]. by rewrite zget_zset_ne.
    + intros m Hm [Hn Hnd]%NoDup_cons Hr.
      apply elem_of_cons in Hm as [->|Hm]; [|apply H4; [done | done | lia]].
      unfold zget_def at 2. rewrite H3 by done.
      unfold size_buffer; cbn. case_bool_decide as Hc.
      * rewrite zget_zset_eq by lia. cbn. rewrite length_replicate. lia.
      * fold (zget_def [] (sl_send st) n). lia.
    + intros m Hm [Hn Hnd]%NoDup_cons Hr.
      apply elem_of_cons in Hm as [->|Hm]; [|apply H5; [done | done | lia]].
      assert (Hkeep : ∀ st0, n ∉ l →
                zget (sl_send_size (fold_left (size_buffer num psize) l st0)) n
                = zget (sl_send_size st0) n).
      { clear. intros st0. revert st0. induction l as [|n' l IH]; intros st0 Hn; [done|].
        apply not_elem_of_cons in Hn as [Hne Hn]. cbn [fold_left]. rewrite IH by done.
        unfold size_buffer; cbn. by rewrite zget_zset_ne. }
      rewrite Hkeep by done. unfold size_buffer; cbn. by rewrite zget_zset_eq.
Qed.

Lemma nested_fold {S A B : Type} (F : A → S → B → S) (l1 : list A) (l2 : list B) (st : S) :
  fold_left (λ st n, fold_left (F n) l2 st) l1 st
  = fold_left (λ st p, F p.1 st p.2) (n ← l1; m ← l2; [(n, m)]) st.
Proof.
  revert st. induction l1 as [|n l1 IH]; intros st; [done|].
  cbn [fold_left mbind list_bind]. change (list_bind ?f ?l) with (l ≫= f).
  rewrite fold_left_app, <- IH. f_equal.
  generalize st. clear. induction l2 as [|m l2 IH]; intros st; [done|].
  cbn. apply IH.
Qed.

Section Pack.
Variables (pmb : MeshBlock) (num : list Z) (rows : list (list Z)) (psize : Z).
Variables (vint : list (ParticleVariable Z)) (nrank : list Z) (ix iy iz : Z).

Local Abbreviation step := (pack_step pmb num rows psize vint nrank ix iy iz).

Lemma pack_step_skip (st : PackLoop) (p : Z * Z) : ¬ packed_pair num p → step st p = st.
Proof. intros H. unfold pack_step, pack_particle. by rewrite bool_decide_eq_false_2. Qed.

Lemma pack_step_spec (st : PackLoop) (p : Z * Z) :
  packed_pair num p →
  let st' := step st p in
  let nreal := zlength (pl_vreal st) in
  shape (pl_vreal st') = shape (pl_vreal st) ∧
  length (pl_send st') = length (pl_send st) ∧
  (∀ m, length (zget_def [] (pl_send st') m) = length (zget_def [] (pl_send st) m)) ∧
  (∀ σ i, σ ≠ slot_of rows p → vget 0%Q (pl_vreal st') i σ = vget 0%Q (pl_vreal st) i σ) ∧
  (∀ m j, m ≠ p.2 ∨ ¬ (p.1 * psize ≤ j < p.1 * psize + nreal + zlength vint) →
          zget (zget_def [] (pl_send st') m) j = zget (zget_def [] (pl_send st) m) j) ∧
  (0 ≤ p.2 < zlength (pl_send st) →
   ∀ i, 0 ≤ i < nreal → 0 ≤ p.1 * psize + i < zlength (zget_def [] (pl_send st) p.2) →
        zget (zget_def [] (pl_send st') p.2) (p.1 * psize + i)
        = Some (vget 0%Q (pl_vreal st) i (slot_of rows p))).
Proof.
  intros Hp. destruct p as [n m]. unfold pack_step, pack_particle, packed_pair, slot_of in *.
  cbn [fst snd] in *. rewrite bool_decide_eq_true_2 by done.
  set (sidx := zget_def 0 (zget_def [] rows m) n).
  set (reals := (λ v, zget_def 0%Q (data v) sidx) <$> pl_vreal st).
  set (ints := (λ v, inject_Z (zget_def 0 (data v) sidx)) <$> vint).
  set (buf0 := zget_def [] (pl_send st) m).
  pose proof (write_values_spec reals buf0 (n * psize)) as Hw1.
  destruct (write_values reals (buf0, n * psize)) as [buf1 bi1]. cbn [fst snd] in Hw1.
  destruct Hw1 as (Hbi1 & Hlen1 & Hget1).
  pose proof (write_values_spec ints buf1 bi1) as Hw2.
  destruct (write_values ints (buf1, bi1)) as [buf2 bi2]. cbn [fst snd] in Hw2.
  destruct Hw2 as (Hbi2 & Hlen2 & Hget2).
  cbn [pl_send pl_vreal pl_marked].
  assert (Hlr : length reals = length (pl_vreal st)) by (unfold reals; by rewrite length_fmap).
  assert (Hli : length ints = length vint) by (unfold ints; by rewrite length_fmap).
  split_and!.
  - case_bool_decide; [apply shape_apply_periodic | done].
  - by rewrite length_zset.
  - intros m'. rewrite zget_def_zset.
    destruct (decide (m = m' ∧ _)) as [[<- _]|_]; [|done]. fold buf0. congruence.
  - intros σ i Hσ. case_bool_decide; [|done]. by apply vget_apply_periodic_other.
  - intros m' j Hmj. rewrite zget_def_zset.
    destruct (decide (m = m' ∧ _)) as [[<- _]|_]; [|done]. fold buf0.
    destruct Hmj as [?|Hj]; [done|].
    rewrite Hget2, decide_False by lia. rewrite Hget1, decide_False by lia. done.
  - intros Hm i Hi Hj. rewrite zget_def_zset, decide_True by lia.
    rewrite Hget2, decide_False by lia. rewrite Hget1, decide_True by (fold buf0 in Hj; lia).
    replace (Z.to_nat (n * psize + i - n * psize)) with (Z.to_nat i) by lia.
    unfold reals. rewrite list_lookup_fmap. unfold vget, zget.
    rewrite decide_True by lia.
    destruct (pl_vreal st !! Z.to_nat i) as [v|] eqn:Hv; [done|].
    apply lookup_ge_None in Hv. lia.
Qed.

Lemma pack_fold (l : list (Z * Z)) (st0 : PackLoop) :
  NoDup l →
  (∀ p q, p ∈ l → q ∈ l → packed_pair num p → packed_pair num q →
          slot_of rows p = slot_of rows q → p = q) →
  0 ≤ psize → psize = zlength (pl_vreal st0) + zlength vint →
  let st := fold_left step l st0 in
  shape (pl_vreal st) = shape (pl_vreal st0) ∧
  length (pl_send st) = length (pl_send st0) ∧
  (∀ m, length (zget_def [] (pl_send st) m) = length (zget_def [] (pl_send st0) m)) ∧
  (∀ σ i, (∀ p, p ∈ l → packed_pair num p → slot_of rows p ≠ σ) →
          vget 0%Q (pl_vreal st) i σ = vget 0%Q (pl_vreal st0) i σ) ∧
  (∀ p, p ∈ l → packed_pair num p → 0 ≤ p.1 → 0 ≤ p.2 < zlength (pl_send st0) →
        (p.1 + 1) * psize ≤ zlength (zget_def [] (pl_send st0) p.2) →
        ∀ i, 0 ≤ i < zlength (pl_vreal st0) →
             zget (zget_def [] (pl_send st) p.2) (p.1 * psize + i)
             = Some (vget 0%Q (pl_vreal st0) i (slot_of rows p))).
Proof.
  intros Hnd Hinj Hps0 Hps.
  induction l as [|p l IH] using rev_ind.
  - cbn. split_and!; try done. by intros p ?%elem_of_nil.
  - apply NoDup_app in Hnd as (Hnd & Hfresh & _).
    destruct IH as (Hshape & Hlen & Hlens & Hother & Hrec); [done | |].
    { intros p' q' Hp' Hq'. apply Hinj; apply elem_of_app; by left. }
    rewrite fold_left_app. cbn [fold_left].
    set (st := fold_left step l st0) in *. cbn zeta.
    destruct (decide (p.1 < zget_def 0 num p.2)) as [Hp|Hp].
    2:{ rewrite pack_step_skip by done. split_and!; try done.
        - intros σ i Hσ. apply Hother. intros p' Hp'. apply Hσ. apply elem_of_app. by left.
        - intros q [Hq|Hq%list_elem_of_singleton]%elem_of_app ?; [by apply Hrec | by subst]. }
    destruct (pack_step_spec st p Hp) as (Hs1 & Hl1 & Hls1 & Ho1 & Hk1 & Hr1).
    apply shape_length in Hshape as Hnreal.
    split_and!.
    + by rewrite Hs1.
    + by rewrite Hl1.
    + intros m. by rewrite Hls1.
    + intros σ i Hσ. rewrite Ho1.
      * apply Hother. intros p' Hp'. apply Hσ. apply elem_of_app. by left.
      * intros ->. eapply Hσ; [|done | done]. apply elem_of_app. right. by left.
    + intros q Hq Hqp Hq1 Hq2 Hroom i Hi.
      apply elem_of_app in Hq as [Hq|Hq%list_elem_of_singleton].
      * rewrite Hk1; [by apply Hrec|].
        destruct (decide (q.2 = p.2)) as [Heq|]; [right | by left].
        assert (Hne : q.1 ≠ p.1).
        { intros Heq1. apply (Hfresh q Hq). destruct p, q; cbn in *; subst. by left. }
        rewrite Hnreal. nia.
      * subst q. rewrite Hr1; [| lia | lia |].
        -- f_equal. apply Hother. intros p' Hp' Hpp' Heq.
           assert (p' = p); [|subst; apply (Hfresh p Hp'); by left].
           apply Hinj; [apply elem_of_app; by left | apply elem_of_app; right; by left | done..].
        -- rewrite Hlens. nia.
Qed.

End Pack.

Lemma elem_of_pairs {A B : Type} (l1 : list A) (l2 : list B) (a : A) (b : B) :
  (a, b) ∈ (n ← l1; m ← l2; [(n, m)]) ↔ a ∈ l1 ∧ b ∈ l2.
Proof.
  rewrite list_elem_of_bind. split.
  - intros (n & (m & Heq%list_elem_of_singleton & ?)%list_elem_of_bind & ?).
    injection Heq as -> ->. done.
  - intros [? ?]. exists a. split; [|done]. apply list_elem_of_bind. exists b.
    split; [by apply list_elem_of_singleton | done].
Qed.

Lemma NoDup_pairs {A B : Type} (l1 : list A) (l2 : list B) :
  NoDup l1 → NoDup l2 → NoDup (n ← l1; m ← l2; [(n, m)]).
Proof.
  intros H1 H2. apply NoDup_bind; [| |done].
  - intros n1 n2 [a b] _ _ (m & H3%list_elem_of_singleton & _)%list_elem_of_bind
      (m' & H4%list_elem_of_singleton & _)%list_elem_of_bind. congruence.
  - intros n _. apply NoDup_bind; [| |done].
    + intros m1 m2 [a b] _ _ H3%list_elem_of_singleton H4%list_elem_of_singleton.
      congruence.
    + intros m _. apply NoDup_singleton.
Qed.

Lemma elem_of_destined (s : Swarm) (m n : Z) :
  n ∈ destined s m ↔
  0 ≤ n ≤ max_active_index_ s ∧ zget_def false (mask_ s) n = true ∧
  zget_def 0 (blockIndex_ s) n = m.
Proof.
  unfold destined. rewrite list_elem_of_filter, elem_of_seqZ0. unfold goes_to.
  split; [intros [[? ?] ?] | intros [? [? ?]]]; split_and!; try done; lia.
Qed.

(** What [Send] leaves in the buffer of neighbour [m] for an active slot
    [sidx] that goes there: the record starts at [k * particle_size] for
    some [k] below the number of particles sent to [m], and holds the real
    attributes in the order of [realVector_], with the values they had when
    [Send] was called. *)
Lemma Send_packs (pmb : MeshBlock) (s : Swarm) (vb : BoundarySwarm)
    (b : bool) (s' : Swarm) (vb' : BoundarySwarm) (sidx m : Z) :
  Send pmb s vb = Ok (b, s', vb') →
  nbmax (bd_var_ vb) ≤ zlength (send (bd_var_ vb)) →
  nbmax (bd_var_ vb) ≤ zlength (send_size vb) →
  0 ≤ sidx ≤ max_active_index_ s →
  zget_def false (mask_ s) sidx = true →
  zget_def 0 (blockIndex_ s) sidx = m → 0 ≤ m →
  let psize := GetParticleDataSize s in
  ∃ k count sbuf,
    0 ≤ k < count ∧ 0 ≤ m < nbmax (bd_var_ vb) ∧
    zget (send (bd_var_ vb')) m = Some sbuf ∧
    zget (send_size vb') m = Some (count * psize) ∧
    count * psize ≤ zlength sbuf ∧
    particle_size vb' = psize ∧
    ∀ i, 0 ≤ i < zlength (realVector_ s) →
         zget sbuf (k * psize + i) = Some (vget 0%Q (realVector_ s) i sidx).
Proof.
  intros HS Hsend Hsizes Hsidx Hact Hdest Hm psize.
  unfold Send in HS. apply bind_Ok in HS as ([num msz] & Htally & [= _ _ <-]).
  fold psize. unfold tally in Htally.
  apply tally_fold in Htally as (Hlen & Hrange & Hcount & Hmax).
  rewrite length_replicate in *.
  assert (Hnum : ∀ m', 0 ≤ m' → zget_def 0 num m' = zlength (destined s m')).
  { intros m' Hm'. rewrite Hcount by done. unfold zget_def. rewrite zget_replicate.
    by case_decide. }
  assert (Hle : ∀ m', zget_def 0 num m' ≤ msz).
  { apply Hmax. intros m'. unfold zget_def. rewrite zget_replicate. by case_decide. }
  assert (Hin : sidx ∈ destined s m) by (by apply elem_of_destined).
  assert (Hmr : 0 ≤ m < nbmax (bd_var_ vb)).
  { split; [done|]. specialize (Hrange sidx). rewrite Hdest in Hrange.
    assert (m < Z.of_nat (Z.to_nat (nbmax (bd_var_ vb)))); [|lia].
    apply Hrange; [apply elem_of_seqZ0; lia | done | done]. }
  apply list_elem_of_lookup in Hin as [k Hk]. apply lookup_lt_Some in Hk as Hklt.
  set (msz' := Z.max 1 msz) in *.
  (* the rows *)
  destruct (index_fold (mask_ s) (blockIndex_ s) (Z.to_nat (nbmax (bd_var_ vb)))
              (Z.to_nat msz') (seqZ 0 (max_active_index_ s + 1))) as (_ & _ & Hrows).
  { done. }
  { intros m' Hm'. specialize (Hle m'). rewrite Hnum in Hle by lia.
    unfold destined in Hle. lia. }
  fold (index_rows s (nbmax (bd_var_ vb)) msz') in Hrows.
  set (rows := index_rows s (nbmax (bd_var_ vb)) msz') in *.
  assert (Hrow : ∀ m' j, 0 ≤ m' < nbmax (bd_var_ vb) → (j < length (destined s m'))%nat →
            zget (zget_def [] rows m') (Z.of_nat j) = destined s m' !! j).
  { intros m' j Hm' Hj. apply Hrows; [lia | done]. }
  clear Hrows.
  (* the buffers *)
  set (st0 := {| sl_send := send (bd_var_ vb); sl_send_size := send_size vb; sl_sent := 0 |}).
  destruct (size_buffer_fold num psize (seqZ 0 (nbmax (bd_var_ vb))) st0)
    as (Hsl & Hsl2 & _ & Hroom & Hsize).
  set (sz := fold_left (size_buffer num psize) (seqZ 0 (nbmax (bd_var_ vb))) st0) in *.
  (* the packing *)
  unfold pack_buffers. rewrite nested_fold.
  set (pairs := n ← seqZ 0 (msz' + 1); m0 ← seqZ 0 (nbmax (bd_var_ vb)); [(n, m0)]).
  set (nrank := _ <$> seqZ 0 (nbmax (bd_var_ vb))).
  set (st1 := {| pl_send := sl_send sz; pl_marked := marked_for_removal_ s;
                 pl_vreal := realVector_ s |}).
  assert (Hslot : ∀ p, p ∈ pairs → packed_pair num p →
            destined s p.2 !! Z.to_nat p.1 = Some (slot_of rows p)).
  { intros [n m0] [Hn%elem_of_seqZ0 Hm0%elem_of_seqZ0]%elem_of_pairs Hp.
    unfold packed_pair, slot_of in *. cbn [fst snd] in *. rewrite Hnum in Hp by lia.
    destruct (lookup_lt_is_Some_2 (destined s m0) (Z.to_nat n)) as [σ Hσ]; [lia|].
    rewrite Hσ. f_equal. symmetry. apply zget_def_Some.
    rewrite <- (Z2Nat.id n) by lia. rewrite Hrow by lia. done. }
  destruct (pack_fold pmb num rows psize (intVector_ s) nrank
              (pack_index "x" (realVector_ s)) (pack_index "y" (realVector_ s))
              (pack_index "z" (realVector_ s)) pairs st1)
    as (_ & Hpl & Hlens & _ & Hrec).
  { apply NoDup_pairs; apply NoDup_seqZ. }
  { intros [n1 m1] [n2 m2] Hp Hq Hpp Hqp Heq.
    pose proof (Hslot _ Hp Hpp) as H1. pose proof (Hslot _ Hq Hqp) as H2.
    rewrite Heq in H1. cbn [fst snd] in *.
    assert (Hm12 : m1 = m2).
    { pose proof H1 as H1'. pose proof H2 as H2'.
      apply list_elem_of_lookup_2, elem_of_destined in H1' as (_ & _ & E1).
      apply list_elem_of_lookup_2, elem_of_destined in H2' as (_ & _ & E2). congruence. }
    subst m2.
    assert (Hnd : NoDup (destined s m1)) by (apply NoDup_filter, NoDup_seqZ).
    pose proof (NoDup_lookup _ _ _ _ Hnd H1 H2) as Hn12.
    apply elem_of_pairs in Hp as [Hp%elem_of_seqZ0 _].
    apply elem_of_pairs in Hq as [Hq%elem_of_seqZ0 _].
    f_equal; lia. }
  { unfold psize, GetParticleDataSize. lia. }
  { done. }
  set (packed := fold_left _ pairs st1) in *.
  cbn [set_send send bd_var_ send_size particle_size].
  assert (Hmlen : 0 ≤ m < zlength (pl_send packed)).
  { rewrite Hpl. unfold st1. cbn [pl_send]. rewrite Hsl. unfold st0. cbn [sl_send]. lia. }
  destruct (zget_in_range _ _ Hmlen) as [sbuf Hsbuf].
  exists (Z.of_nat k), (zlength (destined s m)), sbuf.
  assert (Hp : (Z.of_nat k, m) ∈ pairs).
  { apply elem_of_pairs. split; apply elem_of_seqZ0; [|done].
    specialize (Hle m). rewrite Hnum in Hle by done. unfold msz'. lia. }
  assert (Hpp : packed_pair num (Z.of_nat k, m)).
  { unfold packed_pair. cbn. rewrite Hnum by done. lia. }
  assert (Hso : slot_of rows (Z.of_nat k, m) = sidx).
  { pose proof (Hslot _ Hp Hpp) as H1. cbn [fst snd] in H1.
    rewrite Nat2Z.id, Hk in H1. congruence. }
  specialize (Hroom m ltac:(by apply elem_of_seqZ0) (NoDup_seqZ _ _) ltac:(cbn; lia)).
  rewrite Hnum in Hroom by done.
  split_and!; try done; try lia.
  - rewrite Hsize; [by rewrite Hnum | by apply elem_of_seqZ0 | apply NoDup_seqZ | cbn; lia].
  - specialize (Hlens m).
    rewrite (zget_def_Some _ _ _ _ Hsbuf) in Hlens. rewrite Hlens. done.
  - intros i Hi. specialize (Hrec (Z.of_nat k, m) Hp Hpp). cbn [fst snd] in Hrec.
    rewrite Hso in Hrec. rewrite (zget_def_Some _ _ _ _ Hsbuf) in Hrec.
    assert (Hps0 : 0 ≤ psize) by (unfold psize, GetParticleDataSize; lia).
    apply Hrec; [lia | | | done].
    + unfold st1. cbn [pl_send]. rewrite Hsl. unfold st0. cbn [sl_send]. lia.
    + unfold st1. cbn [pl_send]. nia.
Qed.

(** ** Send and Receive return *)

Lemma is_Ok_bind {A B : Type} (r : Result A) (k : A → Result B) :
  is_Ok r → (∀ a, r = Ok a → is_Ok (k a)) → is_Ok (r ≫= k).
Proof. intros [a ->] Hk. by apply Hk. Qed.

Lemma foldM_returns {A B : Type} (P : B → Prop) (f : B → A → Result B) (l : list A) (b : B) :
  P b → (∀ b a, a ∈ l → P b → ∃ b', f b a = Ok b' ∧ P b') →
  ∃ b', foldM f l b = Ok b' ∧ P b'.
Proof.
  revert b. induction l as [|a l IH]; intros b Hb Hstep; cbn; [by exists b|].
  destruct (Hstep b a) as (b1 & -> & Hb1); [by left | done |]. cbn.
  apply IH; [done|]. intros b2 a2 Ha2. apply Hstep. by right.
Qed.

Lemma foldM_is_Ok {A B : Type} (P : B → Prop) (f : B → A → Result B) (l : list A) (b : B) :
  P b → (∀ b a, a ∈ l → P b → ∃ b', f b a = Ok b' ∧ P b') → is_Ok (foldM f l b).
Proof. intros Hb Hstep. destruct (foldM_returns P f l b Hb Hstep) as (b' & -> & _). by eexists. Qed.

(** [Send] returns when every active slot names a neighbour below [nbmax]
    (or the block itself). *)
Lemma Send_returns (pmb : MeshBlock) (s : Swarm) (vb : BoundarySwarm) :
  (∀ n, 0 ≤ n ≤ max_active_index_ s → zget_def false (mask_ s) n = true →
        zget_def 0 (blockIndex_ s) n < nbmax (bd_var_ vb)) →
  is_Ok (Send pmb s vb).
Proof.
  intros Hdest. unfold Send, tally.
  destruct (foldM_returns (λ st, length st.1 = Z.to_nat (nbmax (bd_var_ vb)))
              (tally_slot (mask_ s) (blockIndex_ s)) (seqZ 0 (max_active_index_ s + 1))
              (replicate (Z.to_nat (nbmax (bd_var_ vb))) 0, 0))
    as ([num msz] & -> & _).
  - cbn. by rewrite length_replicate.
  - intros [num msz] n Hn%elem_of_seqZ0 Hlen. cbn in Hlen. unfold tally_slot.
    destruct (zget_def false (mask_ s) n) eqn:Em; [|by eexists].
    case_bool_decide as Hb; [|by eexists].
    destruct (zget_in_range num (zget_def 0 (blockIndex_ s) n)) as [c ->].
    { specialize (Hdest n ltac:(lia) Em). lia. }
    eexists. split; [done|]. cbn. by rewrite length_zset.
  - cbn. by eexists.
Qed.

Section Returns.
Variable increase_target : Z → Z.
Variable vbswarm_Receive : BoundarySwarm → BoundarySwarm.
Hypothesis increase_target_grows : ∀ c, c < increase_target c.

Lemma grow_pool_returns (fuel : nat) (num_to_add : Z) (s : Swarm) :
  zlength (mask_ s) = nmax_pool_ s →
  zlength (marked_for_removal_ s) = nmax_pool_ s →
  num_to_add - zlength (free_indices_ s) ≤ Z.of_nat fuel →
  is_Ok (grow_pool increase_target fuel num_to_add s).
Proof.
  revert s. induction fuel as [|fuel IH]; intros s Hm Hr Hf; cbn.
  - case_bool_decide; [lia | by eexists].
  - case_bool_decide; [|by eexists].
    unfold increasePoolMax.
    destruct (setPoolMax (increase_target (nmax_pool_ s)) s) as [s1|e] eqn:E1; cbn.
    + destruct (setPoolMax_pool _ _ _ Hm Hr E1) as (? & Hc & Hm1 & Hr1 & Hf1 & _).
      destruct (IH s1) as [[s2 k2] ->]; [| | |by eexists].
      * rewrite Hm1, Hc, length_app, length_replicate. lia.
      * rewrite Hr1, Hc, length_app, length_replicate. lia.
      * rewrite Hf1, length_app, length_seqZ. lia.
    + unfold setPoolMax in E1. case_bool_decide as Hg; [done|].
      specialize (increase_target_grows (nmax_pool_ s)). lia.
Qed.

Lemma AddEmptyParticles_returns (num_to_add : Z) (s : Swarm) :
  pool_inv s → 0 < num_to_add → is_Ok (AddEmptyParticles increase_target num_to_add s).
Proof.
  intros Hinv Hpos.
  destruct (grow_pool_returns (Z.to_nat num_to_add) num_to_add s) as [[s1 k] Hg].
  - by destruct Hinv.
  - by destruct Hinv.
  - lia.
  - pose proof (grow_pool_inv _ _ _ _ _ _ Hinv Hg) as [_ Hfree].
    destruct (AddEmptyParticles_enough increase_target num_to_add s s1 k Hpos Hg Hfree)
      as (nm & ni & s' & -> & _). by eexists.
Qed.

(** [Receive] returns on a swarm without integer attributes when the
    neighbours and their flags are in range, the record size is the
    receiver's, and every arrived channel announces a whole number of
    records that its buffer holds. *)
Lemma Receive_returns (pmb : MeshBlock) (r : Swarm) (vb : BoundarySwarm) :
  let vbp := vbswarm_Receive vb in
  pool_inv r → sized (nmax_pool_ r) (realVector_ r) → intVector_ r = [] →
  nbmax (bd_var_ vbp) ≤ zlength (neighbor pmb) →
  nneighbor pmb ≤ zlength (neighbor pmb) →
  Forall (λ nb, 0 ≤ bufid nb < zlength (flag (bd_var_ vbp))) (neighbor pmb) →
  particle_size vbp = GetParticleDataSize r → 0 < particle_size vbp →
  (∀ n, 0 ≤ n < nbmax (bd_var_ vbp) →
        channel pmb (flag (bd_var_ vbp)) n = Some arrived →
        ∃ count buf, 0 ≤ count ∧
          zget (recv_size vbp) n = Some (count * particle_size vbp) ∧
          zget (recv (bd_var_ vbp)) n = Some buf ∧
          count * particle_size vbp ≤ zlength buf) →
  is_Ok (Receive increase_target vbswarm_Receive pmb r vb).
Proof.
  intros vbp Hinv Hsized Hints Hnb Hnn Hbuf Hps Hpos Harr.
  assert (Hflag : ∀ n nb, zget (neighbor pmb) n = Some nb →
            ∀ flags : list BoundaryStatus,
              length flags = length (flag (bd_var_ vbp)) → is_Some (zget flags (bufid nb))).
  { intros n nb Hn flags Hlen. apply zget_in_range. rewrite Hlen.
    unfold zget in Hn. case_decide; [|done].
    apply list_elem_of_lookup_2 in Hn. rewrite Forall_forall in Hbuf. by apply Hbuf. }
  assert (Hroom : ∀ n, 0 ≤ n < nbmax (bd_var_ vbp) →
            0 ≤ arrivals pmb vbp n ∧
            ∀ bid i, 0 ≤ bid < arrivals pmb vbp n → 0 ≤ i < particle_size vbp →
                     is_Ok (read_recv (recv (bd_var_ vbp)) n (bid * particle_size vbp + i))).
  { intros n Hn. unfold arrivals.
    destruct (channel pmb (flag (bd_var_ vbp)) n) as [[]|] eqn:Ech; try (split; [done | lia]).
    destruct (Harr n Hn Ech) as (count & buf & Hc & Hsize & Hb & Hfit).
    unfold zget_def. rewrite Hsize. cbn [default from_option id].
    rewrite Z.quot_mul by lia. split; [done|]. intros bid i Hbid Hi.
    unfold read_recv. rewrite Hb.
    destruct (zget_in_range buf (bid * particle_size vbp + i)) as [x ->]; [nia | by eexists]. }
  unfold Receive. fold vbp.
  (* the count *)
  apply is_Ok_bind.
  { apply (foldM_is_Ok (λ _, True)); [done|].
    intros [rec tot] n Hn%elem_of_seqZ0 _. unfold count_received.
    destruct (zget_in_range (neighbor pmb) n) as [nb Enb]; [lia|]. rewrite Enb.
    destruct (Hflag n nb Enb _ eq_refl) as [f Ef]. rewrite Ef.
    case_bool_decide as Hf; [|by eexists]. subst f.
    destruct (Harr n Hn) as (count & buf & Hc & -> & _).
    { unfold channel. by rewrite Enb. }
    rewrite bool_decide_eq_false_2 by lia.
    rewrite bool_decide_eq_true_2 by (apply Z.rem_mul; lia). by eexists. }
  intros [nrp total] Hcount.
  apply count_received_fold in Hcount as (Hlen & Hin & _ & Htot);
    [|apply NoDup_seqZ | intros n Hn%elem_of_seqZ0; rewrite length_replicate; lia].
  rewrite Z.add_0_l in Htot.
  assert (Hcounts : ∀ n, 0 ≤ n < nbmax (bd_var_ vbp) → zget_def 0 nrp n = arrivals pmb vbp n).
  { intros n Hn. unfold zget_def. by rewrite Hin by (by apply elem_of_seqZ0). }
  apply is_Ok_bind.
  2:{ (* the flags *)
    intros s1 _. apply is_Ok_bind; [|intros [flags b] _; by eexists].
    apply (foldM_is_Ok (λ st, length st.1 = length (flag (bd_var_ vbp)))); [done|].
    intros [flags b] n Hn%elem_of_seqZ0 Hl. cbn in Hl. unfold settle_flag.
    destruct (zget_in_range (neighbor pmb) n) as [nb Enb]; [lia|]. rewrite Enb.
    destruct (Hflag n nb Enb flags Hl) as [f ->].
    repeat case_bool_decide; eexists; (split; [done|]); cbn; by rewrite ?length_zset. }
  case_bool_decide as Htotal; [|by eexists].
  (* the new slots *)
  apply is_Ok_bind; [apply AddEmptyParticles_returns; [done | lia]|].
  intros [[s1 nm] ni] Hadd.
  apply (AddEmptyParticles_new increase_target) in Hadd
    as (Hlabels & _ & Hints1 & _ & _); [|done..].
  assert (Hreals : length (realVector_ s1) = length (realVector_ r)).
  { by rewrite <- (length_fmap label (realVector_ s1)), Hlabels, length_fmap. }
  rewrite Hints in Hints1. cbn in Hints1.
  assert (Hpsize : GetParticleDataSize s1 = particle_size vbp).
  { rewrite Hps. unfold GetParticleDataSize. by rewrite Hreals, Hints1, Hints. }
  assert (Hnreal : zlength (realVector_ s1) = particle_size vbp).
  { rewrite <- Hpsize. unfold GetParticleDataSize. rewrite Hints1. lia. }
  set (slots := received_slots (nbmax (bd_var_ vbp)) nrp).
  assert (Hslots : zlength slots = total).
  { unfold slots, received_slots.
    rewrite (length_received_slots _ (zget_def 0 nrp)).
    - rewrite Htot. f_equal. apply list_fmap_ext. intros i n Hn.
      apply Hcounts. apply list_elem_of_lookup_2 in Hn. by apply elem_of_seqZ0 in Hn.
    - intros n Hn%elem_of_seqZ0. rewrite Hcounts by done. by apply Hroom. }
  (* the records *)
  apply is_Ok_bind; [|intros st _; by eexists].
  apply (foldM_is_Ok (λ _, True)); [done|].
  intros st n Hn%elem_of_seqZ0 _. unfold unpack_particle. fold slots.
  destruct (zget_in_range slots n) as [[nid bid] Hslot]; [lia|].
  rewrite (zget_def_Some _ _ _ _ Hslot).
  assert (Hmem : (nid, bid) ∈ slots).
  { unfold zget in Hslot. case_decide; [|done]. by eapply list_elem_of_lookup_2. }
  apply elem_of_received_slots in Hmem as [Hnid Hbid]. rewrite Hcounts in Hbid by done.
  rewrite Hints1, Hpsize, Hnreal.
  destruct (foldM_returns (λ _, True)
              (λ vreal i, x ← read_recv (recv (bd_var_ vbp)) nid (bid * particle_size vbp + i);
                          Ok (vset vreal i (zget_def 0 ni n) x))
              (seqZ 0 (particle_size vbp)) (ul_vreal st)) as (vreal & -> & _); [done | |].
  { intros vreal i Hi%elem_of_seqZ0 _.
    destruct (Hroom nid Hnid) as [_ Hread]. destruct (Hread bid i Hbid Hi) as [x ->].
    by eexists. }
  cbn. by eexists.
Qed.

End Returns.

(** ** The periodic exchange *)

Lemma zget_take {A : Type} (l : list A) (n : nat) (i : Z) :
  i < Z.of_nat n → zget (take n l) i = zget l i.
Proof.
  intros Hi. unfold zget. destruct (decide (0 ≤ i)); [|done].
  apply lookup_take_lt. lia.
Qed.

(** Closed goals are settled by evaluation, without a look at the context. *)
Ltac evaluate :=
  vm_compute; repeat split;
  first [reflexivity | let H := fresh in intros H; discriminate H].

Section PeriodicExchange.
Variable increase_target : Z → Z.
Variable vbswarm_Receive : BoundarySwarm → BoundarySwarm.

(** C7, amended. A particle in the active slot [sidx] that [Send] packs for
    neighbour [m] is, once the transport has delivered the message on
    channel [nid] of a peer that holds the same attributes, unpacked by
    [Receive] into a slot [sid] that was not active, with each coordinate
    folded once towards the periodic domain, in the arithmetic of [double]:
    a coordinate below the minimum arrives as [max - (min - x)] and one
    above the maximum as [min + (x - max)], each sum and difference rounded
    to the nearest double.  A particle sent at [x = x1min - d], for instance
    with [d] a tenth of the width, arrives with [x = x1max - d] when [d] and
    [x1max - d] are doubles, so that nothing is rounded (and within the
    rounding otherwise); one sent at [x = x1max + d] arrives with
    [x = x1min + d] when [d] and [x1min + d] are doubles; likewise for [y]
    and [z].  The bounds of the domain and the coordinates sent are doubles
    of moderate size, so that no sum overflows.
    The record carries the coordinates as they were when [Send] was called:
    [Send] folds the sender's own slot after it has written the record, and
    then removes that slot.  The fold on arrival is the one [Receive]
    applies to every record it unpacks, whatever the rank of the sender. *)
Theorem periodic_exchange (pmb_s pmb_r : MeshBlock) (s r : Swarm)
    (vb_s vb_r : BoundarySwarm) (b : bool) (s' : Swarm) (vb_s' : BoundarySwarm)
    (b' : bool) (r' : Swarm) (vb_r' : BoundarySwarm) (sidx m nid : Z) :
  let vbp := vbswarm_Receive vb_r in
  let nreal := zlength (realVector_ s) in
  let ix := pack_index "x" (realVector_ s) in
  let iy := pack_index "y" (realVector_ s) in
  let iz := pack_index "z" (realVector_ s) in
  let sent i := vget 0%Q (realVector_ s) i sidx in
  Send pmb_s s vb_s = Ok (b, s', vb_s') →
  nbmax (bd_var_ vb_s) ≤ zlength (send (bd_var_ vb_s)) →
  nbmax (bd_var_ vb_s) ≤ zlength (send_size vb_s) →
  0 ≤ sidx ≤ max_active_index_ s →
  zget_def false (mask_ s) sidx = true →
  zget_def 0 (blockIndex_ s) sidx = m → 0 ≤ m →
  0 ≤ ix < nreal → 0 ≤ iy < nreal → 0 ≤ iz < nreal →
  ix ≠ iy → ix ≠ iz → iy ≠ iz →
  label <$> realVector_ r = label <$> realVector_ s →
  length (intVector_ r) = length (intVector_ s) →
  pool_inv r → sized (nmax_pool_ r) (realVector_ r) →
  delivered vb_s' m vbp nid →
  channel pmb_r (flag (bd_var_ vbp)) nid = Some arrived →
  0 ≤ nid < nbmax (bd_var_ vbp) →
  Forall (λ size, 0 ≤ size) (recv_size vbp) →
  Forall moderate [x1min pmb_r; x1max pmb_r; x2min pmb_r; x2max pmb_r;
                   x3min pmb_r; x3max pmb_r; sent ix; sent iy; sent iz] →
  Receive increase_target vbswarm_Receive pmb_r r vb_r = Ok (b', r', vb_r') →
  ∃ sid,
    zget (mask_ r) sid ≠ Some true ∧ zget (mask_ r') sid = Some true ∧
    let got i := vget 0%Q (realVector_ r') i sid in
    got ix = periodic_fold (x1min pmb_r) (x1max pmb_r) (sent ix) ∧
    got iy = periodic_fold (x2min pmb_r) (x2max pmb_r) (sent iy) ∧
    got iz = periodic_fold (x3min pmb_r) (x3max pmb_r) (sent iz) ∧
    (∀ d, 0 < d → sent ix == x1min pmb_r - d →
          binary64 d → binary64 (x1max pmb_r - d) → got ix == x1max pmb_r - d)%Q ∧
    (∀ d, 0 < d → sent iy == x2min pmb_r - d →
          binary64 d → binary64 (x2max pmb_r - d) → got iy == x2max pmb_r - d)%Q ∧
    (∀ d, 0 < d → sent iz == x3min pmb_r - d →
          binary64 d → binary64 (x3max pmb_r - d) → got iz == x3max pmb_r - d)%Q ∧
    (∀ d, x1min pmb_r <= x1max pmb_r → 0 < d → sent ix == x1max pmb_r + d →
          binary64 d → binary64 (x1min pmb_r + d) → got ix == x1min pmb_r + d)%Q ∧
    (∀ d, x2min pmb_r <= x2max pmb_r → 0 < d → sent iy == x2max pmb_r + d →
          binary64 d → binary64 (x2min pmb_r + d) → got iy == x2min pmb_r + d)%Q ∧
    (∀ d, x3min pmb_r <= x3max pmb_r → 0 < d → sent iz == x3max pmb_r + d →
          binary64 d → binary64 (x3min pmb_r + d) → got iz == x3min pmb_r + d)%Q.
Proof.
  intros vbp nreal ix iy iz sent HS Hsend Hsizes Hsidx Hact Hdest Hm Hix Hiy Hiz
    Hxy Hxz Hyz Hlabels Hints Hinv Hsized (Hps & Hsize & Hbuf) Hflag Hnid Hrecv _ HR.
  destruct (Send_packs _ _ _ _ _ _ _ _ HS Hsend Hsizes Hsidx Hact Hdest Hm)
    as (k & count & sbuf & Hk & _ & Hsbuf & Hcount & Hroom & Hpsize & Hrec).
  assert (Hlen : length (realVector_ r) = length (realVector_ s)).
  { by rewrite <- (length_fmap label (realVector_ r)), Hlabels, length_fmap. }
  assert (Hsame : GetParticleDataSize r = GetParticleDataSize s).
  { unfold GetParticleDataSize. by rewrite Hlen, Hints. }
  assert (Hpos : 0 < GetParticleDataSize s).
  { unfold GetParticleDataSize. fold nreal. lia. }
  rewrite Hpsize in Hps. rewrite Hcount in Hsize.
  assert (Harr : arrivals pmb_r vbp nid = count).
  { unfold arrivals. rewrite Hflag, Hps. unfold zget_def. rewrite Hsize. cbn.
    by apply Z.quot_mul; lia. }
  destruct (Receive_unpacks increase_target vbswarm_Receive pmb_r r vb_r b' r' vb_r' nid k)
    as (sid & Hfree & Hnew & Hvals); try done.
  { fold vbp. lia. }
  { fold vbp. intros n size Hn. unfold zget in Hn. destruct (decide (0 ≤ n)); [|done].
    by eapply (Forall_lookup_1 _ _ _ _ Hrecv). }
  { fold vbp. lia. }
  fold vbp in Hvals. rewrite Hsame, Hlen in Hvals.
  rewrite !(pack_index_labels _ _ _ Hlabels) in Hvals. fold ix iy iz nreal in Hvals.
  assert (Hread : ∀ i, 0 ≤ i < nreal →
    read_recv (recv (bd_var_ vbp)) nid (k * GetParticleDataSize s + i) = Ok (sent i)).
  { intros i Hi. specialize (Hrec i Hi).
    unfold zget_def in Hbuf. rewrite Hcount, Hsbuf in Hbuf. cbn [default from_option] in Hbuf.
    assert (Hlt : k * GetParticleDataSize s + i <
                  Z.of_nat (Z.to_nat (count * GetParticleDataSize s))).
    { assert (i < GetParticleDataSize s) by (unfold GetParticleDataSize; fold nreal; lia).
      rewrite Z2Nat.id by nia. nia. }
    unfold read_recv.
    destruct (zget (recv (bd_var_ vbp)) nid) as [rbuf|] eqn:Erbuf.
    - cbn [default from_option id] in Hbuf.
      rewrite <- (zget_take rbuf (Z.to_nat (count * GetParticleDataSize s))) by done.
      rewrite Hbuf, zget_take by done. by rewrite Hrec.
    - cbn [default from_option id] in Hbuf.
      rewrite <- (zget_take sbuf (Z.to_nat (count * GetParticleDataSize s))) in Hrec by done.
      rewrite <- Hbuf in Hrec. unfold zget in Hrec. destruct (decide _); [|done].
      by rewrite take_nil in Hrec. }
  assert (Hgx : vget 0%Q (realVector_ r') ix sid =
                periodic_fold (x1min pmb_r) (x1max pmb_r) (sent ix)).
  { destruct (Hvals ix Hix) as (x & Hx & _ & Hfold & _). rewrite Hread in Hx by done.
    injection Hx as <-. by apply Hfold. }
  assert (Hgy : vget 0%Q (realVector_ r') iy sid =
                periodic_fold (x2min pmb_r) (x2max pmb_r) (sent iy)).
  { destruct (Hvals iy Hiy) as (x & Hx & _ & _ & Hfold & _). rewrite Hread in Hx by done.
    injection Hx as <-. by apply Hfold. }
  assert (Hgz : vget 0%Q (realVector_ r') iz sid =
                periodic_fold (x3min pmb_r) (x3max pmb_r) (sent iz)).
  { destruct (Hvals iz Hiz) as (x & Hx & _ & _ & _ & Hfold). rewrite Hread in Hx by done.
    injection Hx as <-. by apply Hfold. }
  exists sid. split; [done|]. split; [done|]. intros got. unfold got.
  rewrite Hgx, Hgy, Hgz. split_and!; try done.
  - intros d Hd Hx B1 B2. by apply periodic_fold_below.
  - intros d Hd Hx B1 B2. by apply periodic_fold_below.
  - intros d Hd Hx B1 B2. by apply periodic_fold_below.
  - intros d Hle Hd Hx B1 B2. by apply periodic_fold_above.
  - intros d Hle Hd Hx B1 B2. by apply periodic_fold_above.
  - intros d Hle Hd Hx B1 B2. by apply periodic_fold_above.
Qed.
End PeriodicExchange.

(** The exact form of C7 fails.  In the domain [0, 10 * (2^50 + 1)] the
    particle of slot 0 of [sender_wide] is at [x = x1min - d] with [d] a
    tenth of the width, on its way to a neighbour of the same rank.  [Send]
    and [Receive] return, and the particle arrives in slot 0 of the peer
    with [x = x1max - d - 1]: the difference [x1max - d] is not a double
    and is rounded to the even neighbour. *)
Lemma wraparound_is_rounded :
  let lo := x1min pmb_wide in
  let hi := x1max pmb_wide in
  let d := ((1 # 10) * (hi - lo))%Q in
  let sent := vget 0%Q (realVector_ sender_wide) 0 0 in
  let got := vget 0%Q (realVector_ (swarm_of received_wide)) 0 0 in
  binary64 lo ∧ binary64 hi ∧ binary64 sent ∧ (sent == lo - d)%Q ∧
  zget (mask_ sender_wide) 0 = Some true ∧
  zget (blockIndex_ sender_wide) 0 = Some 1 ∧
  snb_rank <$> zget (neighbor pmb_wide) 1 = Some (my_rank pmb_wide) ∧
  is_Ok (Send pmb_wide sender_wide vb_idle) ∧ is_Ok received_wide ∧
  zget (mask_ pool0) 0 = Some false ∧
  zget (mask_ (swarm_of received_wide)) 0 = Some true ∧
  (got == hi - d - 1)%Q ∧ ¬ (got == hi - d)%Q.
Proof.
  cbv zeta. split_and!; try evaluate.
  - eexists. vm_compute. reflexivity.
  - eexists. vm_compute. reflexivity.
Qed.

(** The particle of slot 0 of [sender_xyz], at [x = -1] in the domain
    [0, 10], arrives on the peer [pool0] with [x = 9]. *)
Lemma periodic_exchange_witness :
  vget 0%Q (realVector_ sender_xyz) 0 0 = (-1)%Q ∧
  zget (blockIndex_ sender_xyz) 0 = Some 1 ∧
  ∃ sid, zget (mask_ pool0) sid ≠ Some true ∧
         zget (mask_ (swarm_of received_xyz)) sid = Some true ∧
         (vget 0%Q (realVector_ (swarm_of received_xyz)) 0 sid == 9)%Q.
Proof.
  split; [by vm_compute|]. split; [by vm_compute|].
  destruct (periodic_exchange double_pool (deliver sent_xyz 1 0) pmb_demo pmb_demo
              sender_xyz pool0 vb_idle vb_idle
              true (swarm_of (Send pmb_demo sender_xyz vb_idle)) sent_xyz
              false (swarm_of received_xyz) (sent_of received_xyz) 0 1 0)
    as (sid & Hfree & Hnew & _ & _ & _ & Hx & _);
    try lazymatch goal with |- Forall _ _ => fail | |- _ => evaluate end.
  - apply (Swarm_new_inv "swarm" {| Type_ := NoType |} 10); [lia | by vm_compute].
  - unfold sized. repeat constructor.
  - change (Forall (λ size, 0 ≤ size) [3; 0]). repeat constructor; lia.
  - repeat (apply Forall_cons_2; [evaluate|]). apply Forall_nil_2.
  - exists sid. split; [done|]. split; [done|].
    change (vget 0%Q (realVector_ (swarm_of received_xyz)) 0 sid == 10 - 1)%Q.
    apply Hx; evaluate.
Defined.

(** * Properties of the rest of swarm.cpp *)

(** ** SetupPersistentMPI: the neighbour indices *)

Lemma get3_set3 (t : list (list (list Z))) (k j i v k' j' i' : Z) :
  is_Some (get3 t k j i) →
  get3 (set3 t k j i v) k' j' i' =
  if decide (k = k' ∧ j = j' ∧ i = i') then Some v else get3 t k' j' i'.
Proof.
  unfold get3, set3. intros [x Hx].
  destruct (zget t k) as [p|] eqn:Ep; [|done]. cbn in Hx.
  destruct (zget p j) as [r|] eqn:Er; [|done]. cbn in Hx.
  apply zget_Some_range in Ep as Hk. apply zget_Some_range in Er as Hj.
  apply zget_Some_range in Hx as Hi.
  rewrite zget_zset. case_decide as Hkk.
  - destruct Hkk as [<- _]. cbn. rewrite zget_zset. case_decide as Hjj.
    + destruct Hjj as [<- _]. cbn. rewrite zget_zset. case_decide as Hii.
      * destruct Hii as [<- _]. by rewrite decide_True.
      * rewrite decide_False by (intros (_ & _ & <-); apply Hii; split; [done | lia]).
        by rewrite Ep; cbn; rewrite Er.
    + rewrite decide_False by (intros (_ & <- & _); apply Hjj; split; [done | lia]).
      by rewrite Ep.
  - rewrite decide_False by (intros (<- & _ & _); apply Hkk; split; [done | lia]). done.
Qed.

Local Abbreviation assign n := (fold_left (λ h '(ck, cj, ci), set3 h ck cj ci n)).

Lemma set3_is_Some (t : list (list (list Z))) (k j i v k' j' i' : Z) :
  is_Some (get3 t k j i) → is_Some (get3 t k' j' i') →
  is_Some (get3 (set3 t k j i v) k' j' i').
Proof. intros H H'. rewrite get3_set3 by done. by case_decide. Qed.

Lemma assign_is_Some (cells : list (Z * Z * Z)) (n : Z) (t : list (list (list Z))) (k' j' i' : Z) :
  (∀ k j i, (k, j, i) ∈ cells → is_Some (get3 t k j i)) →
  is_Some (get3 t k' j' i') → is_Some (get3 (assign n cells t) k' j' i').
Proof.
  revert t. induction cells as [|[[k j] i] cells IH]; intros t Hin H'; [done|].
  cbn [fold_left]. apply IH.
  - intros a b c Hc. apply set3_is_Some; apply Hin; [by left | by right].
  - apply set3_is_Some; [apply Hin; by left | done].
Qed.

Lemma get3_assign (cells : list (Z * Z * Z)) (n : Z) (t : list (list (list Z))) (k' j' i' : Z) :
  (∀ k j i, (k, j, i) ∈ cells → is_Some (get3 t k j i)) →
  get3 (assign n cells t) k' j' i' =
  if decide ((k', j', i') ∈ cells) then Some n else get3 t k' j' i'.
Proof.
  revert t. induction cells as [|[[k j] i] cells IH]; intros t Hin.
  - cbn. rewrite decide_False; [done | by intros ?%elem_of_nil].
  - cbn [fold_left]. rewrite IH.
    2:{ intros a b c Hc. apply set3_is_Some; apply Hin; [by left | by right]. }
    rewrite get3_set3 by (apply Hin; by left).
    destruct (decide ((k', j', i') ∈ cells)) as [Hc|Hc].
    + rewrite decide_True; [done | by right].
    + case_decide as Heq.
      * destruct Heq as (-> & -> & ->). rewrite decide_True; [done | by left].
      * rewrite decide_False; [done|].
        intros [[= -> -> ->]|?]%elem_of_cons; [by apply Heq | done].
Qed.

Lemma clamp_test (o c : Z) :
  c = -1 ∨ c = 0 ∨ c = 1 → bool_decide (o = c) = bool_decide (clamp o = c).
Proof.
  intros Hc. apply bool_decide_ext. unfold clamp. repeat case_bool_decide; lia.
Qed.

Lemma clamp_cases (o : Z) : clamp o = -1 ∨ clamp o = 0 ∨ clamp o = 1 ∨ clamp o = 2.
Proof. unfold clamp. repeat case_bool_decide; lia. Qed.

Lemma neighbor_cells_clamp (ndim i j k : Z) :
  neighbor_cells ndim i j k = neighbor_cells ndim (clamp i) (clamp j) (clamp k).
Proof.
  unfold neighbor_cells.
  rewrite !(clamp_test i (-1)), !(clamp_test i 0), !(clamp_test i 1) by lia.
  rewrite !(clamp_test j (-1)), !(clamp_test j 0), !(clamp_test j 1) by lia.
  rewrite !(clamp_test k (-1)), !(clamp_test k 0), !(clamp_test k 1) by lia.
  done.
Qed.

Lemma names_cell_clamp (ndim : Z) (a b c : Z) (k j i : Z) :
  names_cell ndim {| ox1 := a; ox2 := b; ox3 := c |} (k, j, i) =
  names_cell ndim {| ox1 := clamp a; ox2 := clamp b; ox3 := clamp c |} (k, j, i).
Proof.
  unfold names_cell. cbn [ox1 ox2 ox3].
  repeat case_bool_decide; try done; exfalso;
    unfold clamp, bucket_offset in *; repeat case_bool_decide; lia.
Qed.

Ltac split_clamp o :=
  destruct (clamp_cases o) as [-> | [-> | [-> | ->]]].

Ltac split_bucket k H :=
  assert (k = 0 ∨ k = 1 ∨ k = 2 ∨ k = 3) as [-> | [-> | [-> | ->]]] by lia; clear H.

Lemma neighbor_cells_range (ndim a b c : Z) :
  Forall (λ cell, 0 ≤ cell.1.1 < 4 ∧ 0 ≤ cell.1.2 < 4 ∧ 0 ≤ cell.2 < 4)
    (neighbor_cells ndim a b c).
Proof.
  rewrite neighbor_cells_clamp. unfold neighbor_cells.
  destruct (decide (ndim = 1)) as [-> | H1].
  { split_clamp a; repeat constructor; cbn; lia. }
  rewrite (bool_decide_eq_false_2 (ndim = 1)) by done.
  destruct (decide (ndim = 2)) as [-> | H2].
  { split_clamp a; split_clamp b; repeat constructor; cbn; lia. }
  rewrite (bool_decide_eq_false_2 (ndim = 2)) by done.
  destruct (decide (ndim = 3)) as [-> | H3].
  { split_clamp a; split_clamp b; split_clamp c; repeat constructor; cbn; lia. }
  rewrite (bool_decide_eq_false_2 (ndim = 3)) by done. constructor.
Qed.

Lemma elem_of_neighbor_cells (ndim : Z) (nb : NeighborIndexes) (k j i : Z) :
  0 ≤ k < 4 → 0 ≤ j < 4 → 0 ≤ i < 4 →
  bool_decide ((k, j, i) ∈ neighbor_cells ndim (ox1 nb) (ox2 nb) (ox3 nb)) =
  names_cell ndim nb (k, j, i).
Proof.
  intros Hk Hj Hi. destruct nb as [a b c]. cbn [ox1 ox2 ox3].
  rewrite neighbor_cells_clamp, names_cell_clamp.
  split_bucket k Hk; split_bucket j Hj; split_bucket i Hi.
  all: destruct (decide (ndim = 1)) as [-> | H1];
    [split_clamp a; by vm_compute|].
  all: destruct (decide (ndim = 2)) as [-> | H2];
    [split_clamp a; split_clamp b; by vm_compute|].
  all: destruct (decide (ndim = 3)) as [-> | H3];
    [split_clamp a; split_clamp b; split_clamp c; by vm_compute|].
  all: unfold neighbor_cells, names_cell;
    rewrite !(bool_decide_eq_false_2 (ndim = 1)), !(bool_decide_eq_false_2 (ndim = 2)),
      !(bool_decide_eq_false_2 (ndim = 3)) by done; done.
Qed.

Lemma assign_app (n : Z) (c1 c2 : list (Z * Z * Z)) (t : list (list (list Z))) :
  assign n (c1 ++ c2) t = assign n c2 (assign n c1 t).
Proof. apply fold_left_app. Qed.

Lemma triple_loop (lk lj li : list Z) (v : Z) (t : list (list (list Z))) :
  fold_left (λ h k, fold_left (λ h j, fold_left (λ h i, set3 h k j i v) li h) lj h) lk t =
  assign v (k ← lk; j ← lj; i ← li; [(k, j, i)]) t.
Proof.
  revert t. induction lk as [|k lk IHk]; intros t; [done|].
  cbn [fold_left mbind list_bind]. change (list_bind ?f ?l) with (l ≫= f).
  rewrite assign_app, <- IHk. f_equal. clear IHk.
  revert t. induction lj as [|j lj IHj]; intros t; [done|].
  cbn [fold_left mbind list_bind]. change (list_bind ?f ?l) with (l ≫= f).
  rewrite assign_app, <- IHj. f_equal. clear IHj.
  revert t. induction li as [|i li IHi]; intros t; [done|].
  cbn. apply IHi.
Qed.

Lemma elem_of_triples (lk lj li : list Z) (k j i : Z) :
  (k, j, i) ∈ (k ← lk; j ← lj; i ← li; [(k, j, i)]) ↔ k ∈ lk ∧ j ∈ lj ∧ i ∈ li.
Proof.
  rewrite list_elem_of_bind. split.
  - intros (k0 & (j0 & (i0 & Heq%list_elem_of_singleton & ?)%list_elem_of_bind & ?)%list_elem_of_bind & ?).
    injection Heq as -> -> ->. done.
  - intros (? & ? & ?). exists k. split; [|done]. apply list_elem_of_bind. exists j.
    split; [|done]. apply list_elem_of_bind. exists i.
    split; [by apply list_elem_of_singleton | done].
Qed.

(** The first loops of [SetupPersistentMPI]: the cells of the block itself
    are set to [this_block_], the others are left as they are. *)
Lemma interior_loop (ndim : Z) (t : list (list (list Z))) (k j i : Z) :
  cube t → 0 ≤ k < 4 → 0 ≤ j < 4 → 0 ≤ i < 4 →
  let '(kmin, kmax, jmin, jmax) :=
    if bool_decide (ndim < 3) then
      if bool_decide (ndim < 2) then (0, 4, 0, 4) else (0, 4, 1, 3)
    else (1, 3, 1, 3) in
  let t' := fold_left
      (λ h k, fold_left
                (λ h j, fold_left (λ h i, set3 h k j i this_block_) (seqZ 1 (3 - 1)) h)
                (seqZ jmin (jmax - jmin)) h)
      (seqZ kmin (kmax - kmin)) t in
  cube t' ∧
  get3 t' k j i = if interior_cell ndim (k, j, i) then Some this_block_ else get3 t k j i.
Proof.
  intros Hc Hk Hj Hi.
  assert (Hgen : ∀ kmin kmax jmin jmax,
    0 ≤ kmin → kmax ≤ 4 → 0 ≤ jmin → jmax ≤ 4 →
    let t' := assign this_block_
                (k ← seqZ kmin (kmax - kmin); j ← seqZ jmin (jmax - jmin);
                 i ← seqZ 1 (3 - 1); [(k, j, i)]) t in
    cube t' ∧
    get3 t' k j i = if bool_decide (kmin ≤ k < kmax ∧ jmin ≤ j < jmax ∧ 1 ≤ i < 3)
                    then Some this_block_ else get3 t k j i).
  { intros kmin kmax jmin jmax ? ? ? ? t'.
    assert (Hin : ∀ a b c, (a, b, c) ∈ (k ← seqZ kmin (kmax - kmin); j ← seqZ jmin (jmax - jmin);
                                         i ← seqZ 1 (3 - 1); [(k, j, i)]) →
                           is_Some (get3 t a b c)).
    { intros a b c (Ha & Hb & Hc')%elem_of_triples.
      apply elem_of_seqZ in Ha, Hb, Hc'. apply Hc; lia. }
    split.
    - intros a b c ? ? ?. apply assign_is_Some; [done | by apply Hc].
    - unfold t'. rewrite get3_assign by done.
      case_decide as Hm; case_bool_decide as Hb; try done; exfalso.
      + apply elem_of_triples in Hm as (Ha & Hb' & Hc'). apply elem_of_seqZ in Ha, Hb', Hc'. lia.
      + apply Hm, elem_of_triples. rewrite !elem_of_seqZ. lia. }
  unfold interior_cell.
  repeat case_bool_decide; rewrite triple_loop;
    (destruct (Hgen 0 4 0 4) as [Hc' ->]; [lia..|]) ||
    (destruct (Hgen 0 4 1 3) as [Hc' ->]; [lia..|]) ||
    (destruct (Hgen 1 3 1 3) as [Hc' ->]; [lia..|]);
    (split; [done|]); repeat case_bool_decide; try done; lia.
Qed.

Lemma index_neighbor_spec (ndim : Z) (ni : list NeighborIndexes)
    (t t' : list (list (list Z))) (n : Z) :
  cube t → index_neighbor ndim ni t n = Ok t' →
  ∃ nb, zget ni n = Some nb ∧ cube t' ∧
        ∀ k j i, 0 ≤ k < 4 → 0 ≤ j < 4 → 0 ≤ i < 4 →
          get3 t' k j i = if names_cell ndim nb (k, j, i) then Some n else get3 t k j i.
Proof.
  intros Hc. unfold index_neighbor. destruct (zget ni n) as [nb|]; [|done].
  intros [= <-]. exists nb. split; [done|].
  assert (Hin : ∀ a b c, (a, b, c) ∈ neighbor_cells ndim (ox1 nb) (ox2 nb) (ox3 nb) →
                         is_Some (get3 t a b c)).
  { intros a b c Hm. pose proof (neighbor_cells_range ndim (ox1 nb) (ox2 nb) (ox3 nb)) as Hr.
    rewrite Forall_forall in Hr. apply Hr in Hm. cbn in Hm. apply Hc; lia. }
  split.
  - intros a b c ? ? ?. apply assign_is_Some; [done | by apply Hc].
  - intros k j i Hk Hj Hi. rewrite get3_assign by done.
    rewrite <- elem_of_neighbor_cells by done.
    case_decide; case_bool_decide; done.
Qed.

Lemma index_neighbors_fold (ndim : Z) (ni : list NeighborIndexes) (l : list Z)
    (t t' : list (list (list Z))) :
  cube t → foldM (index_neighbor ndim ni) l t = Ok t' →
  cube t' ∧
  ∀ k j i, 0 ≤ k < 4 → 0 ≤ j < 4 → 0 ≤ i < 4 →
    ((∀ n nb, n ∈ l → zget ni n = Some nb → names_cell ndim nb (k, j, i) = false) →
     get3 t' k j i = get3 t k j i) ∧
    (∀ l1 n l2 nb, l = l1 ++ n :: l2 → zget ni n = Some nb →
       names_cell ndim nb (k, j, i) = true →
       (∀ m nb', m ∈ l2 → zget ni m = Some nb' → names_cell ndim nb' (k, j, i) = false) →
       get3 t' k j i = Some n).
Proof.
  revert t. induction l as [|n l IH]; intros t Hc; cbn.
  - intros [= <-]. split; [done|]. intros k j i _ _ _. split; [done|].
    intros [|] ? ? ? ?; done.
  - intros (t1 & H1 & H)%bind_Ok.
    apply index_neighbor_spec in H1 as (nb & Hnb & Hc1 & Hget); [|done].
    destruct (IH t1 Hc1 H) as [Hc' Hrest]. split; [done|].
    intros k j i Hk Hj Hi. destruct (Hrest k j i Hk Hj Hi) as [Hnone Hlast].
    split.
    + intros Hno. rewrite Hnone by (intros m nb' ? ?; eapply Hno; [by right | done]).
      rewrite Hget by done.
      assert (E : names_cell ndim nb (k, j, i) = false) by (apply (Hno n); [by left | done]).
      by rewrite E.
    + intros l1 n0 l2 nb0 Heq Hnb0 Hname Hafter. destruct l1 as [|n1 l1].
      * injection Heq as <- <-. rewrite Hnone by done. rewrite Hget by done.
        assert (nb0 = nb) as -> by congruence.
        assert (E : names_cell ndim nb (k, j, i) = true) by done. by rewrite E.
      * injection Heq as <- ->. by eapply Hlast.
Qed.

Lemma require_periodic_fold (mesh_bcs : list BoundaryFlag) (l : list Z) :
  (∀ n, n ∈ l → is_Some (zget mesh_bcs n)) →
  (foldM (require_periodic mesh_bcs) l () = Ok () ∧
   ∀ n, n ∈ l → zget mesh_bcs n = Some periodic) ∨
  (foldM (require_periodic mesh_bcs) l () =
     Err (require_failed "Only periodic boundaries supported right now!") ∧
   ∃ n, n ∈ l ∧ zget mesh_bcs n = Some non_periodic).
Proof.
  induction l as [|n l IH]; intros Hin; cbn [foldM].
  - left. split; [done|]. by intros n ?%elem_of_nil.
  - destruct (Hin n) as [f Hn]; [by left|].
    assert (E : require_periodic mesh_bcs () n =
                match f with
                | periodic => Ok ()
                | non_periodic =>
                    Err (require_failed "Only periodic boundaries supported right now!")
                end) by (unfold require_periodic; by rewrite Hn).
    rewrite E. destruct f; cbn [mbind Result_bind].
    + destruct IH as [[-> Hall] | [-> (m & Hm & Hb)]].
      * intros m Hm. apply Hin. by right.
      * left. split; [done|]. intros m [->|Hm]%elem_of_cons; [done | by apply Hall].
      * right. split; [done|]. exists m. split; [by right | done].
    + right. split; [done|]. exists n. split; [by left | done].
Qed.

Lemma index_neighbors_error (ndim : Z) (ni : list NeighborIndexes) (l : list Z)
    (t : list (list (list Z))) (e : Error) :
  foldM (index_neighbor ndim ni) l t = Err e → e = out_of_bounds "pmb->pbval->neighbor[n]".
Proof.
  revert t. induction l as [|n l IH]; intros t; cbn [foldM]; [done|].
  destruct (index_neighbor ndim ni t n) as [t1|e1] eqn:E; cbn [mbind Result_bind]; [apply IH|].
  intros [= <-]. unfold index_neighbor in E. destruct (zget ni n); [done | by injection E].
Qed.

Lemma index_neighbors_returns (ndim : Z) (ni : list NeighborIndexes) (l : list Z)
    (t : list (list (list Z))) :
  (∀ n, n ∈ l → is_Some (zget ni n)) → is_Ok (foldM (index_neighbor ndim ni) l t).
Proof.
  revert t. induction l as [|n l IH]; intros t Hin; cbn [foldM]; [by eexists|].
  destruct (index_neighbor ndim ni t n) as [t1|e1] eqn:E; cbn [mbind Result_bind].
  - apply IH. intros m Hm. apply Hin. by right.
  - unfold index_neighbor in E. destruct (Hin n) as [nb Hnb]; [by left|]. by rewrite Hnb in E.
Qed.

(** [SetupPersistentMPI] in two steps: the cells of the block itself, then
    the loop over the neighbours. *)
Lemma SetupPersistentMPI_steps (ndim : Z) (mesh_bcs : list BoundaryFlag) (nneighbor : Z)
    (neighbor_ni : list NeighborIndexes) (neighborIndices_h h : list (list (list Z))) :
  cube neighborIndices_h →
  SetupPersistentMPI ndim mesh_bcs nneighbor neighbor_ni neighborIndices_h = Ok h →
  ∃ h1, cube h1 ∧
        (∀ k j i, 0 ≤ k < 4 → 0 ≤ j < 4 → 0 ≤ i < 4 →
           get3 h1 k j i = if interior_cell ndim (k, j, i) then Some this_block_
                           else get3 neighborIndices_h k j i) ∧
        foldM (index_neighbor ndim neighbor_ni) (seqZ 0 nneighbor) h1 = Ok h.
Proof.
  intros Hc. unfold SetupPersistentMPI. intros ([] & _ & H)%bind_Ok.
  pose proof (interior_loop ndim neighborIndices_h) as Hint.
  destruct (if bool_decide (ndim < 3) then _ else _) as [[[kmin kmax] jmin] jmax].
  cbn zeta in Hint, H. eexists. split_and!; [| |exact H].
  - by destruct (Hint 0 0 0 Hc) as [? _].
  - intros k j i Hk Hj Hi. by destruct (Hint k j i Hc Hk Hj Hi) as [_ ?].
Qed.

(** X1. [SetupPersistentMPI] refuses a mesh with a boundary that is not
    periodic: with [2 * ndim] boundary flags at hand it fails with "Only
    periodic boundaries supported right now!" exactly when one of them is
    not periodic; when all are periodic and every neighbour below
    [nneighbor] exists it returns. *)
Theorem SetupPersistentMPI_periodic (ndim : Z) (mesh_bcs : list BoundaryFlag) (nneighbor : Z)
    (neighbor_ni : list NeighborIndexes) (neighborIndices_h : list (list (list Z))) :
  0 ≤ ndim → 2 * ndim ≤ zlength mesh_bcs →
  (SetupPersistentMPI ndim mesh_bcs nneighbor neighbor_ni neighborIndices_h =
     Err (require_failed "Only periodic boundaries supported right now!") ↔
   ∃ n, 0 ≤ n < 2 * ndim ∧ zget mesh_bcs n = Some non_periodic) ∧
  ((∀ n, 0 ≤ n < 2 * ndim → zget mesh_bcs n = Some periodic) →
   nneighbor ≤ zlength neighbor_ni →
   is_Ok (SetupPersistentMPI ndim mesh_bcs nneighbor neighbor_ni neighborIndices_h)).
Proof.
  intros Hd Hlen. unfold SetupPersistentMPI.
  destruct (require_periodic_fold mesh_bcs (seqZ 0 (2 * ndim)))
    as [[-> Hall] | [-> (m & Hm & Hb)]].
  { intros n Hn%elem_of_seqZ0. apply zget_in_range. lia. }
  - cbn [mbind Result_bind]. split.
    + split.
      * destruct (if bool_decide (ndim < 3) then _ else _) as [[[kmin kmax] jmin] jmax].
        intros He%index_neighbors_error. done.
      * intros (n & Hn & Hb). rewrite Hall in Hb by (by apply elem_of_seqZ0). done.
    + intros _ Hnn.
      destruct (if bool_decide (ndim < 3) then _ else _) as [[[kmin kmax] jmin] jmax].
      apply index_neighbors_returns. intros n Hn%elem_of_seqZ0. apply zget_in_range. lia.
  - cbn [mbind Result_bind]. split.
    + split; [|done]. intros _. exists m. split; [by apply elem_of_seqZ0 | done].
    + intros Hall. rewrite Hall in Hb by (by apply elem_of_seqZ0). done.
Qed.

(** X2. The table [SetupPersistentMPI] leaves, cell by cell, in one, two or
    three dimensions: a cell holds the last neighbour whose offsets are those
    of its buckets; a cell that no neighbour names holds [this_block_] when
    it is a cell of the block itself and keeps what the host mirror held
    otherwise. *)
Theorem SetupPersistentMPI_table (ndim : Z) (mesh_bcs : list BoundaryFlag) (nneighbor : Z)
    (neighbor_ni : list NeighborIndexes) (neighborIndices_h h : list (list (list Z))) :
  cube neighborIndices_h →
  SetupPersistentMPI ndim mesh_bcs nneighbor neighbor_ni neighborIndices_h = Ok h →
  ∀ k j i, 0 ≤ k < 4 → 0 ≤ j < 4 → 0 ≤ i < 4 →
    (∀ n nb, 0 ≤ n < nneighbor → zget neighbor_ni n = Some nb →
       names_cell ndim nb (k, j, i) = true →
       (∀ m nb', n < m < nneighbor → zget neighbor_ni m = Some nb' →
                 names_cell ndim nb' (k, j, i) = false) →
       get3 h k j i = Some n) ∧
    ((∀ n nb, 0 ≤ n < nneighbor → zget neighbor_ni n = Some nb →
              names_cell ndim nb (k, j, i) = false) →
     get3 h k j i = if interior_cell ndim (k, j, i) then Some this_block_
                    else get3 neighborIndices_h k j i).
Proof.
  intros Hc (h1 & Hc1 & Hget1 & H)%SetupPersistentMPI_steps k j i Hk Hj Hi; [|done].
  apply index_neighbors_fold in H as [_ Hfold]; [|done].
  destruct (Hfold k j i Hk Hj Hi) as [Hnone Hlast]. split.
  - intros n nb Hn Hnb Hname Hafter.
    apply (Hlast (seqZ 0 n) n (seqZ (n + 1) (nneighbor - (n + 1))) nb); try done.
    + replace nneighbor with (n + (1 + (nneighbor - (n + 1)))) at 1 by lia.
      rewrite seqZ_app, (seqZ_cons (0 + n)) by lia. do 3 f_equal; lia.
    + intros m nb' Hm%elem_of_seqZ. apply Hafter. lia.
  - intros Hno. rewrite Hnone; [by apply Hget1|].
    intros n nb Hn%elem_of_seqZ0. by apply Hno.
Qed.

Lemma SetupPersistentMPI_periodic_witness :
  SetupPersistentMPI 3 (replicate 5 periodic ++ [non_periodic]) 26 offsets_3d
    neighborIndices_new =
  Err (require_failed "Only periodic boundaries supported right now!").
Proof.
  destruct (SetupPersistentMPI_periodic 3 (replicate 5 periodic ++ [non_periodic]) 26
              offsets_3d neighborIndices_new) as [[_ H] _]; [lia | cbn; lia |].
  apply H. exists 5. split; [lia | reflexivity].
Defined.

Lemma cube_new : cube neighborIndices_new.
Proof.
  intros k j i Hk Hj Hi.
  assert (k = 0 ∨ k = 1 ∨ k = 2 ∨ k = 3) as [-> | [-> | [-> | ->]]] by lia;
  assert (j = 0 ∨ j = 1 ∨ j = 2 ∨ j = 3) as [-> | [-> | [-> | ->]]] by lia;
  assert (i = 0 ∨ i = 1 ∨ i = 2 ∨ i = 3) as [-> | [-> | [-> | ->]]] by lia;
  by eexists.
Qed.

Lemma SetupPersistentMPI_table_witness :
  zget offsets_3d 25 = Some {| ox1 := 1; ox2 := 1; ox3 := 1 |} ∧
  get3 table_3d 3 3 3 = Some 25.
Proof.
  split; [reflexivity|].
  refine (proj1 (SetupPersistentMPI_table 3 (replicate 6 periodic) 26 offsets_3d
                   neighborIndices_new table_3d cube_new _ 3 3 3 _ _ _)
            25 {| ox1 := 1; ox2 := 1; ox3 := 1 |} _ _ _ _);
    try lia; reflexivity.
Defined.

(** X3. In three dimensions, when no two neighbours have the same offsets:
    the cells with an inner bucket on every axis hold [this_block_], and
    the cell of any other bucket triple holds the neighbour whose offsets
    are those of the three buckets. *)
Theorem neighbor_of_buckets_3d (mesh_bcs : list BoundaryFlag) (nneighbor : Z)
    (neighbor_ni : list NeighborIndexes) (neighborIndices_h h : list (list (list Z))) :
  cube neighborIndices_h →
  SetupPersistentMPI 3 mesh_bcs nneighbor neighbor_ni neighborIndices_h = Ok h →
  (∀ n m nb, 0 ≤ n < nneighbor → 0 ≤ m < nneighbor →
             zget neighbor_ni n = Some nb → zget neighbor_ni m = Some nb → n = m) →
  ∀ k j i, 0 ≤ k < 4 → 0 ≤ j < 4 → 0 ≤ i < 4 →
    (1 ≤ k ≤ 2 → 1 ≤ j ≤ 2 → 1 ≤ i ≤ 2 → get3 h k j i = Some this_block_) ∧
    (∀ n, 0 ≤ n < nneighbor →
          zget neighbor_ni n = Some {| ox1 := bucket_offset i; ox2 := bucket_offset j;
                                       ox3 := bucket_offset k |} →
          ¬ (1 ≤ k ≤ 2 ∧ 1 ≤ j ≤ 2 ∧ 1 ≤ i ≤ 2) →
          get3 h k j i = Some n).
Proof.
  intros Hc (h1 & Hc1 & Hget1 & H)%SetupPersistentMPI_steps Hdistinct k j i Hk Hj Hi; [|done].
  apply index_neighbors_fold in H as [_ Hfold]; [|done].
  destruct (Hfold k j i Hk Hj Hi) as [Hnone Hlast].
  assert (Hname : ∀ nb, names_cell 3 nb (k, j, i) = true ↔
            nb = {| ox1 := bucket_offset i; ox2 := bucket_offset j; ox3 := bucket_offset k |} ∧
            ¬ (1 ≤ k ≤ 2 ∧ 1 ≤ j ≤ 2 ∧ 1 ≤ i ≤ 2)).
  { intros [a b c]. unfold names_cell. cbn [ox1 ox2 ox3].
    rewrite (bool_decide_eq_true_2 (3 = 3)) by done. rewrite bool_decide_eq_true. split.
    - intros (-> & -> & -> & Hnz). split; [done|]. intros Hin. apply Hnz.
      unfold bucket_offset. repeat case_bool_decide; lia.
    - intros [[= -> -> ->] Hout]. split_and!; try done. intros (H1 & H2 & H3). apply Hout.
      unfold bucket_offset in *. repeat case_bool_decide; lia. }
  split.
  - intros Hk' Hj' Hi'. rewrite Hnone.
    + rewrite Hget1 by done. unfold interior_cell. by rewrite bool_decide_eq_true_2 by lia.
    + intros n nb Hn Hnb. apply not_true_is_false. intros [_ Hout]%Hname. apply Hout. lia.
  - intros n Hn Hnb Hout.
    apply (Hlast (seqZ 0 n) n (seqZ (n + 1) (nneighbor - (n + 1)))
             {| ox1 := bucket_offset i; ox2 := bucket_offset j; ox3 := bucket_offset k |});
      try done.
    + replace nneighbor with (n + (1 + (nneighbor - (n + 1)))) at 1 by lia.
      rewrite seqZ_app, (seqZ_cons (0 + n)) by lia. do 3 f_equal; lia.
    + by apply Hname.
    + intros m nb' Hm%elem_of_seqZ Hnb'. apply not_true_is_false. intros [-> _]%Hname.
      assert (n = m) by (eapply (Hdistinct n m); [lia | lia | exact Hnb | exact Hnb']). lia.
Qed.

Lemma neighbor_of_buckets_3d_witness :
  get3 table_3d 1 2 1 = Some this_block_ ∧
  zget offsets_3d 9 = Some {| ox1 := -1; ox2 := -1; ox3 := 0 |} ∧
  get3 table_3d 2 0 0 = Some 9.
Proof.
  assert (Hd : ∀ n m nb, 0 ≤ n < 26 → 0 ≤ m < 26 →
             zget offsets_3d n = Some nb → zget offsets_3d m = Some nb → n = m).
  { intros n m nb Hn Hm H1 H2.
    assert (Hnd : NoDup offsets_3d).
    { apply (bool_decide_unpack _). by vm_compute. }
    unfold zget in H1, H2. rewrite decide_True in H1 by lia. rewrite decide_True in H2 by lia.
    pose proof (NoDup_lookup _ _ _ _ Hnd H1 H2). lia. }
  pose proof (neighbor_of_buckets_3d (replicate 6 periodic) 26 offsets_3d neighborIndices_new
                table_3d cube_new eq_refl Hd) as H.
  split; [|split; [reflexivity|]].
  - destruct (H 1 2 1) as [Hin _]; [lia..|]. apply Hin; lia.
  - destruct (H 2 0 0) as [_ Hout]; [lia..|]. apply Hout; [lia | reflexivity | lia].
Defined.

(** ** The attribute store *)

Lemma push_front_rev {A : Type} (l acc : list A) :
  fold_left (λ vars v, v :: vars) (reverse l) acc = l ++ acc.
Proof.
  revert acc. induction l as [|x l IH] using rev_ind; intros acc.
  - done.
  - rewrite reverse_snoc. cbn. rewrite IH, <- app_assoc. done.
Qed.

(** X4. [MakeVarListAll_] lists the variables in the order of the vector it
    is given, [realVector_] or [intVector_] as it stands, although it walks
    the vector backwards and pushes every variable to the front. *)
Theorem MakeVarListAll_order {T : Type} (variables : list (ParticleVariable T)) :
  MakeVarListAll_ variables = variables.
Proof. unfold MakeVarListAll_. rewrite push_front_rev. apply app_nil_r. Qed.

(** *** Add *)

Lemma Add_Ok_inv (lbl : string) (md : Metadata) (s s' : Swarm) :
  Add lbl md s = Ok s' →
  intMap_ s !! lbl = None ∧ realMap_ s !! lbl = None ∧
  ((Type_ md = Integer ∧
    s' = set_vars s (intVector_ s ++ [make_ParticleVariable 0 lbl (nmax_pool_ s) md])
           (realVector_ s)
           (<[lbl := ptr_of (make_ParticleVariable 0 lbl (nmax_pool_ s) md)]> (intMap_ s))
           (realMap_ s)) ∨
   (Type_ md = Real ∧
    s' = set_vars s (intVector_ s)
           (realVector_ s ++ [make_ParticleVariable 0%Q lbl (nmax_pool_ s) md])
           (intMap_ s)
           (<[lbl := ptr_of (make_ParticleVariable 0%Q lbl (nmax_pool_ s) md)]> (realMap_ s)))).
Proof.
  unfold Add. case_bool_decide as Hdup; [done|].
  assert (intMap_ s !! lbl = None ∧ realMap_ s !! lbl = None) as [Hi Hr].
  { split; apply eq_None_not_Some; intros ?; apply Hdup; [by left | by right]. }
  destruct (Type_ md) eqn:E; intros [= <-]; split_and!; try done; [left | right]; done.
Qed.

Lemma Add_Ok_intro (lbl : string) (md : Metadata) (s : Swarm) :
  intMap_ s !! lbl = None → realMap_ s !! lbl = None →
  Type_ md = Integer ∨ Type_ md = Real → is_Ok (Add lbl md s).
Proof.
  intros Hi Hr Ht. unfold Add. rewrite bool_decide_eq_false_2.
  - destruct Ht as [-> | ->]; by eexists.
  - rewrite Hi, Hr. intros [[? ?] | [? ?]]; done.
Qed.

Lemma Add_Err_inv (lbl : string) (md : Metadata) (s : Swarm) (e : Error) :
  Add lbl md s = Err e →
  (e = invalid_argument ("swarm variable " +:+ lbl +:+ " already enrolled during Add()!") ∧
   (is_Some (intMap_ s !! lbl) ∨ is_Some (realMap_ s !! lbl))) ∨
  (e = invalid_argument ("swarm variable " +:+ lbl +:+ " does not have a valid type during Add()") ∧
   intMap_ s !! lbl = None ∧ realMap_ s !! lbl = None ∧
   Type_ md ≠ Integer ∧ Type_ md ≠ Real).
Proof.
  unfold Add. case_bool_decide as Hdup.
  - intros [= <-]. by left.
  - assert (intMap_ s !! lbl = None ∧ realMap_ s !! lbl = None) as [Hi Hr].
    { split; apply eq_None_not_Some; intros ?; apply Hdup; [by left | by right]. }
    destruct (Type_ md) eqn:E; intros [= <-]; right; split_and!; done.
Qed.

Lemma Add_maps (lbl : string) (md : Metadata) (s s' : Swarm) (l : string) :
  Add lbl md s = Ok s' →
  (intMap_ s' !! l = None ∧ realMap_ s' !! l = None) ↔
  (l ≠ lbl ∧ intMap_ s !! l = None ∧ realMap_ s !! l = None).
Proof.
  intros (Hi & Hr & [[_ ->] | [_ ->]])%Add_Ok_inv; cbn.
  - rewrite lookup_insert_None. split; [intros [[? ?] ?] | intros (? & ? & ?)]; done.
  - rewrite lookup_insert_None. split; [intros [? [? ?]] | intros (? & ? & ?)]; done.
Qed.

Lemma Add_labelArray_Ok_iff (labelArray : list string) (md : Metadata) (s : Swarm) :
  is_Ok (Add_labelArray labelArray md s) ↔
  labelArray = [] ∨
  ((Type_ md = Integer ∨ Type_ md = Real) ∧ NoDup labelArray ∧
   ∀ l, l ∈ labelArray → intMap_ s !! l = None ∧ realMap_ s !! l = None).
Proof.
  revert s. induction labelArray as [|lbl ls IH]; intros s.
  - split; [by left | by eexists].
  - unfold Add_labelArray. cbn [foldM]. fold (Add_labelArray ls md). split.
    + intros [s' (s1 & H1 & H2)%bind_Ok]. right.
      pose proof (Add_Ok_inv _ _ _ _ H1) as (Hi & Hr & Ht).
      assert (Htype : Type_ md = Integer ∨ Type_ md = Real)
        by (destruct Ht as [[? _] | [? _]]; [by left | by right]).
      split; [done|].
      destruct (proj1 (IH s1) (ex_intro _ s' H2)) as [-> | (_ & Hnd & Hfresh)].
      * split; [apply NoDup_singleton|]. by intros l ->%list_elem_of_singleton.
      * split.
        -- apply NoDup_cons. split; [|done]. intros Hin.
           apply Hfresh, (Add_maps _ _ _ _ _ H1) in Hin as [? _]. done.
        -- intros l [-> | Hin]%elem_of_cons; [done|].
           apply Hfresh, (Add_maps _ _ _ _ _ H1) in Hin as (_ & ? & ?). done.
    + intros [? | (Htype & [Hnin Hnd]%NoDup_cons & Hfresh)]; [done|].
      destruct (Add_Ok_intro lbl md s) as [s1 H1]; [apply Hfresh; by left.. | done |].
      rewrite H1. cbn [mbind Result_bind]. apply IH. right. split_and!; try done.
      intros l Hl. apply (Add_maps _ _ _ _ _ H1). split; [by intros -> |].
      apply Hfresh. by right.
Qed.

Lemma Add_labelArray_vectors (labelArray : list string) (md : Metadata) (s s' : Swarm) :
  Add_labelArray labelArray md s = Ok s' →
  nmax_pool_ s' = nmax_pool_ s ∧
  (Type_ md = Real →
   intVector_ s' = intVector_ s ∧
   realVector_ s' =
     realVector_ s ++ ((λ l, make_ParticleVariable 0%Q l (nmax_pool_ s) md) <$> labelArray)) ∧
  (Type_ md = Integer →
   realVector_ s' = realVector_ s ∧
   intVector_ s' =
     intVector_ s ++ ((λ l, make_ParticleVariable 0 l (nmax_pool_ s) md) <$> labelArray)).
Proof.
  revert s. induction labelArray as [|lbl ls IH]; intros s.
  - intros [= <-]. split_and!; [done | |]; intros _; by rewrite app_nil_r.
  - unfold Add_labelArray. cbn [foldM]. fold (Add_labelArray ls md).
    intros (s1 & H1 & H2)%bind_Ok. apply IH in H2 as (Hcap & Hreal & Hint).
    apply Add_Ok_inv in H1 as (_ & _ & [[Ht ->] | [Ht ->]]); cbn in *.
    + split_and!; [done | congruence |]. intros _. destruct (Hint Ht) as [-> ->].
      by rewrite <- app_assoc.
    + split_and!; [done | | congruence]. intros _. destruct (Hreal Ht) as [-> ->].
      by rewrite <- app_assoc.
Qed.

(** *** Remove *)

Lemma find_label_found {T : Type} (lbl : string) (v : list (ParticleVariable T)) (idx i : Z) :
  find_label lbl v idx = (true, i) →
  ∃ pre x post, v = pre ++ x :: post ∧ label x = lbl ∧ (lbl ∉ labels pre) ∧
                i = idx + zlength pre.
Proof.
  revert idx. induction v as [|y v IH]; intros idx; cbn; [done|].
  case_bool_decide as Hy.
  - intros [= <-]. exists [], y, v. split_and!; try done; [by intros ?%elem_of_nil | cbn; lia].
  - intros (pre & x & post & -> & Hx & Hpre & ->)%IH.
    exists (y :: pre), x, post. split_and!; try done.
    + intros [? | ?]%elem_of_cons; [congruence | done].
    + cbn [length]. lia.
Qed.

Lemma find_label_missing {T : Type} (lbl : string) (v : list (ParticleVariable T)) (idx i : Z) :
  find_label lbl v idx = (false, i) → lbl ∉ labels v.
Proof.
  revert idx. induction v as [|y v IH]; intros idx; cbn; [by intros _ ?%elem_of_nil|].
  case_bool_decide as Hy; [done|].
  intros H%IH Hin. apply elem_of_cons in Hin as [? | ?]; [congruence | done].
Qed.

Lemma find_label_fst {T : Type} (lbl : string) (v : list (ParticleVariable T)) (idx : Z) :
  (find_label lbl v idx).1 = bool_decide (lbl ∈ labels v).
Proof.
  destruct (find_label lbl v idx) as [[] i] eqn:E; cbn; symmetry.
  - apply find_label_found in E as (pre & x & post & -> & <- & _).
    apply bool_decide_eq_true_2. unfold labels. rewrite fmap_app, elem_of_app. right. by left.
  - apply find_label_missing in E. by apply bool_decide_eq_false_2.
Qed.

Lemma swap_pop_spec {T : Type} (pre : list T) (x : T) (post : list T) :
  ∃ v', swap_pop (pre ++ x :: post) (zlength pre) = Ok v' ∧ v' ≡ₚ pre ++ post ∧
        (post = [] → v' = pre).
Proof.
  unfold swap_pop.
  assert (Hget : zget (pre ++ x :: post) (zlength pre) = Some x).
  { unfold zget. rewrite decide_True by lia. rewrite Nat2Z.id. by apply list_lookup_middle. }
  rewrite Hget.
  destruct post as [|y post _] using rev_ind.
  - rewrite last_snoc. eexists. split; [done|]. rewrite app_nil_r.
    case_bool_decide.
    + rewrite zset_same by done. rewrite removelast_last. done.
    + rewrite removelast_last. done.
  - assert (Hlast : last (pre ++ x :: post ++ [y]) = Some y).
    { replace (pre ++ x :: post ++ [y]) with ((pre ++ x :: post) ++ [y])
        by (by rewrite <- app_assoc). apply last_snoc. }
    assert (Hset : zset (pre ++ x :: post ++ [y]) (zlength pre) y = pre ++ y :: post ++ [y]).
    { unfold zset. rewrite decide_True by lia. rewrite Nat2Z.id.
      rewrite insert_app_r_alt by lia. by rewrite Nat.sub_diag. }
    rewrite Hlast, Hset. eexists. split; [done|].
    rewrite bool_decide_eq_true_2 by (rewrite length_app; cbn; rewrite length_app; cbn; lia).
    replace (pre ++ y :: post ++ [y]) with ((pre ++ y :: post) ++ [y])
      by (by rewrite <- app_assoc).
    rewrite removelast_last. split; [|by intros [_ ?]%app_eq_nil].
    apply Permutation_app_head. apply Permutation_cons_append.
Qed.

Lemma swap_pop_Err {T : Type} (v : list T) (idx : Z) (e : Error) :
  swap_pop v idx = Err e → e = out_of_bounds "vector element in Remove()".
Proof. unfold swap_pop. destruct (zget v idx), (last v); by intros [= <-]. Qed.

Lemma Remove_real_Ok (lbl : string) (s : Swarm) :
  lbl ∉ labels (intVector_ s) → lbl ∈ labels (realVector_ s) →
  ∃ s' pre v post,
    Remove lbl s = Ok s' ∧
    realVector_ s = pre ++ v :: post ∧ label v = lbl ∧ (lbl ∉ labels pre) ∧
    realVector_ s' ≡ₚ pre ++ post ∧ (post = [] → realVector_ s' = pre) ∧
    s' = set_vars s (intVector_ s) (realVector_ s') (intMap_ s) (delete lbl (realMap_ s)).
Proof.
  intros Hint Hreal. unfold Remove.
  pose proof (find_label_fst lbl (intVector_ s) 0) as Hfi.
  destruct (find_label lbl (intVector_ s) 0) as [fi idx]. cbn in Hfi.
  rewrite bool_decide_eq_false_2 in Hfi by done. subst fi. cbn [mbind Result_bind].
  pose proof (find_label_fst lbl (realVector_ s) 0) as Hfr.
  destruct (find_label lbl (realVector_ s) 0) as [fr idr] eqn:Er. cbn in Hfr.
  rewrite bool_decide_eq_true_2 in Hfr by done. subst fr.
  apply find_label_found in Er as (pre & v & post & Hv & Hl & Hpre & ->).
  rewrite Hv, Z.add_0_l.
  destruct (swap_pop_spec pre v post) as (v' & -> & Hperm & Hlast). cbn.
  eexists _, pre, v, post. split_and!; done.
Qed.

(** X5. [Remove] of a label that only a real attribute carries removes that
    attribute and nothing else: the other real attributes stay, with their
    data, in an order that may differ; the integer attributes, their map
    and the pool are untouched; the label leaves the map of the real
    attributes. *)
Theorem Remove_real_only (lbl : string) (s : Swarm) :
  lbl ∉ labels (intVector_ s) → lbl ∈ labels (realVector_ s) →
  ∃ s' pre v post,
    Remove lbl s = Ok s' ∧
    realVector_ s = pre ++ v :: post ∧ label v = lbl ∧ (lbl ∉ labels pre) ∧
    realVector_ s' ≡ₚ pre ++ post ∧
    s' = set_vars s (intVector_ s) (realVector_ s') (intMap_ s) (delete lbl (realMap_ s)).
Proof.
  intros Hint Hreal.
  destruct (Remove_real_Ok lbl s Hint Hreal)
    as (s' & pre & v & post & H & Hv & Hl & Hpre & Hperm & _ & Hs').
  by exists s', pre, v, post.
Qed.

Lemma Remove_real_only_witness :
  ∃ s', Remove "y" store_w_id = Ok s' ∧
        labels (realVector_ s') = ["x"; "w"; "z"] ∧ labels (intVector_ s') = ["id"].
Proof.
  destruct (Remove_real_only "y" store_w_id) as (s' & pre & v & post & H & _).
  - vm_compute. intros Hc. apply elem_of_cons in Hc as [Hc|Hc]; [done|]. by apply elem_of_nil in Hc.
  - vm_compute. right. by left.
  - exists s'. split; [exact H|].
    assert (Hs : Remove "y" store_w_id = Ok (from_Ok (Remove "y" store_w_id))) by (by vm_compute).
    rewrite Hs in H. injection H as <-. split; by vm_compute.
Defined.

(** X6. [Remove] fails as "not found" exactly when no variable of the two
    vectors carries the label. *)
Theorem Remove_not_found (lbl : string) (s : Swarm) :
  Remove lbl s = Err (invalid_argument "swarm variable not found in Remove()") ↔
  (lbl ∉ labels (intVector_ s)) ∧ (lbl ∉ labels (realVector_ s)).
Proof.
  split.
  - intros H. destruct (decide (lbl ∈ labels (intVector_ s))) as [Hi|Hi].
    + exfalso. unfold Remove in H.
      pose proof (find_label_fst lbl (intVector_ s) 0) as Hfi.
      destruct (find_label lbl (intVector_ s) 0) as [fi idx]. cbn in Hfi.
      rewrite bool_decide_eq_true_2 in Hfi by done. subst fi.
      destruct (swap_pop (intVector_ s) idx) as [iv|e] eqn:E1; cbn in H;
        [|by apply swap_pop_Err in E1 as ->].
      destruct (swap_pop (realVector_ s) idx) as [rv|e] eqn:E2; cbn in H;
        [done | by apply swap_pop_Err in E2 as ->].
    + split; [done|]. intros Hr.
      destruct (Remove_real_Ok lbl s Hi Hr) as (s' & ? & ? & ? & H' & _). congruence.
  - intros [Hi Hr]. unfold Remove.
    pose proof (find_label_fst lbl (intVector_ s) 0) as Hfi.
    destruct (find_label lbl (intVector_ s) 0) as [fi idx]. cbn in Hfi.
    rewrite bool_decide_eq_false_2 in Hfi by done. subst fi. cbn [mbind Result_bind].
    pose proof (find_label_fst lbl (realVector_ s) 0) as Hfr.
    destruct (find_label lbl (realVector_ s) 0) as [fr idr]. cbn in Hfr.
    rewrite bool_decide_eq_false_2 in Hfr by done. subst fr. done.
Qed.

(** *** The maps and the vectors *)

Lemma labels_app {T : Type} (a b : list (ParticleVariable T)) :
  labels (a ++ b) = labels a ++ labels b.
Proof. apply fmap_app. Qed.

Lemma remap_lookup {T : Type} (m : gmap string VarPtr) (vs : list (ParticleVariable T))
    (l : string) :
  is_Some (remap m vs !! l) ↔ is_Some (m !! l) ∨ l ∈ labels vs.
Proof.
  unfold remap. revert m. induction vs as [|v vs IH]; intros m; cbn.
  - split; [by left | by intros [? | ?%elem_of_nil]].
  - rewrite IH, lookup_insert_is_Some, elem_of_cons.
    unfold labels. destruct (decide (label v = l)); intuition congruence.
Qed.

Lemma store_ok_new (lbl : string) (md : Metadata) (nmax_pool_in : Z) (s : Swarm) :
  Swarm_new lbl md nmax_pool_in = Ok s → store_ok s.
Proof.
  rewrite Swarm_new_eq. intros [= <-]. split; cbn.
  - apply (bool_decide_unpack _). by vm_compute.
  - intros l. rewrite lookup_empty. split; [by intros [? ?] | by intros ?%elem_of_nil].
  - intros l. rewrite !lookup_insert_is_Some, lookup_empty, !elem_of_cons, elem_of_nil.
    assert (¬ is_Some (@None VarPtr)) by (by intros [? ?]).
    destruct (decide ("z" = l)), (decide ("y" = l)), (decide ("x" = l)); subst;
      intuition (try congruence; try discriminate).
Qed.

Lemma store_ok_Add (lbl : string) (md : Metadata) (s s' : Swarm) :
  store_ok s → Add lbl md s = Ok s' → store_ok s'.
Proof.
  intros [Hnd Hi Hr] (Hin & Hrn & Hs')%Add_Ok_inv.
  assert (Hfi : lbl ∉ labels (intVector_ s)) by (rewrite <- Hi, Hin; by intros [? ?]).
  assert (Hfr : lbl ∉ labels (realVector_ s)) by (rewrite <- Hr, Hrn; by intros [? ?]).
  assert (Hone : ∀ (T : Type) (d : T), labels [make_ParticleVariable d lbl (nmax_pool_ s) md] = [lbl])
    by done.
  destruct Hs' as [[_ ->] | [_ ->]]; split; cbn -[labels]; rewrite ?labels_app, ?Hone; try done.
  - rewrite <- app_assoc. cbn. apply NoDup_app in Hnd as (H1 & H2 & H3).
    apply NoDup_app. split_and!; [done | |].
    + intros l Hl [-> | ?]%elem_of_cons; [done | by eapply H2].
    + apply NoDup_cons. done.
  - intros l. rewrite lookup_insert_is_Some, elem_of_app, list_elem_of_singleton, Hi.
    destruct (decide (lbl = l)); intuition congruence.
  - rewrite app_assoc. apply NoDup_app. split_and!; [done | | apply NoDup_singleton].
    intros l [?|?]%elem_of_app ->%list_elem_of_singleton; done.
  - intros l. rewrite lookup_insert_is_Some, elem_of_app, list_elem_of_singleton, Hr.
    destruct (decide (lbl = l)); intuition congruence.
Qed.

Lemma store_ok_setPoolMax (nmax_pool : Z) (s s' : Swarm) :
  store_ok s → setPoolMax nmax_pool s = Ok s' → store_ok s'.
Proof.
  intros [Hnd Hi Hr]. unfold setPoolMax. case_bool_decide; [|done]. intros [= <-].
  assert (Hli : labels (regrow 0 (nmax_pool_ s) nmax_pool <$> intVector_ s) = labels (intVector_ s))
    by apply regrow_labels.
  assert (Hlr : labels (regrow 0%Q (nmax_pool_ s) nmax_pool <$> realVector_ s)
                = labels (realVector_ s)) by apply regrow_labels.
  split; cbn -[labels remap regrow]; rewrite ?Hli, ?Hlr; try done.
  - intros l. rewrite remap_lookup, Hli, Hi. tauto.
  - intros l. rewrite remap_lookup, Hlr, Hr. tauto.
Qed.

Lemma store_ok_Remove_real (lbl : string) (s s' : Swarm) :
  store_ok s → lbl ∈ labels (realVector_ s) → Remove lbl s = Ok s' → store_ok s'.
Proof.
  intros [Hnd Hi Hr] Hreal H.
  assert (Hint : lbl ∉ labels (intVector_ s)).
  { intros Hc. apply NoDup_app in Hnd as (_ & Hd & _). by apply (Hd lbl). }
  destruct (Remove_real_Ok lbl s Hint Hreal)
    as (s1 & pre & v & post & H1 & Hv & Hl & Hpre & Hperm & _ & Hs1).
  assert (s1 = s') as <- by congruence. clear H H1.
  assert (Hlab : labels (realVector_ s1) ≡ₚ labels pre ++ labels post).
  { unfold labels. by rewrite Hperm, fmap_app. }
  rewrite Hv, labels_app in Hnd, Hr. cbn in Hnd, Hr. rewrite Hl in Hnd, Hr.
  assert (Hnd' : NoDup (labels (intVector_ s) ++ labels pre ++ labels post)).
  { apply NoDup_app in Hnd as (H1 & H2 & H3). apply NoDup_app in H3 as (H4 & H5 & H6).
    apply NoDup_cons in H6 as [H6 H7].
    apply NoDup_app. split_and!; [done | |].
    - intros l Hl1 [?|?]%elem_of_app; apply (H2 l Hl1), elem_of_app; [by left | right; by right].
    - apply NoDup_app. split_and!; [done | | done].
      intros l Hl1 Hl2. apply (H5 l Hl1). by right. }
  rewrite Hs1. split; cbn.
  - by rewrite Hlab.
  - done.
  - intros l. rewrite Hlab, lookup_delete_is_Some, Hr, !elem_of_app, elem_of_cons.
    apply NoDup_app in Hnd as (_ & _ & H3). apply NoDup_app in H3 as (_ & H5 & H6).
    apply NoDup_cons in H6 as [H6 _].
    split.
    + intros [Hne [? | [? | ?]]]; [by left | done | by right].
    + intros [Hin | Hin]; (split; [intros <-; by (apply (H5 lbl); [|left]) || done|]);
        [by left | right; by right].
Qed.

(** X7. [Add] of an array of labels succeeds exactly when the array is
    empty, or the metadata kind is Integer or Real, no label occurs twice in
    the array and none is enrolled in either map.  The attributes are then
    appended to the vector of their kind in the order of the array, each
    with one zero entry per slot of the pool; the other vector is untouched. *)
Theorem Add_labelArray_registers (labelArray : list string) (md : Metadata) (s : Swarm) :
  (is_Ok (Add_labelArray labelArray md s) ↔
   labelArray = [] ∨
   ((Type_ md = Integer ∨ Type_ md = Real) ∧ NoDup labelArray ∧
    ∀ l, l ∈ labelArray → intMap_ s !! l = None ∧ realMap_ s !! l = None)) ∧
  (∀ s', Add_labelArray labelArray md s = Ok s' →
     nmax_pool_ s' = nmax_pool_ s ∧
     (Type_ md = Real →
      intVector_ s' = intVector_ s ∧
      realVector_ s' =
        realVector_ s ++
        ((λ l, make_ParticleVariable 0%Q l (nmax_pool_ s) md) <$> labelArray)) ∧
     (Type_ md = Integer →
      realVector_ s' = realVector_ s ∧
      intVector_ s' =
        intVector_ s ++
        ((λ l, make_ParticleVariable 0 l (nmax_pool_ s) md) <$> labelArray))).
Proof.
  split.
  - apply Add_labelArray_Ok_iff.
  - intros s'. apply Add_labelArray_vectors.
Qed.

(** X8. The maps and the vectors of the attribute store stay in agreement:
    they agree in a new swarm, and [Add], [setPoolMax] and [Remove] of the
    label of a real attribute keep the agreement. *)
Theorem store_agreement :
  (∀ lbl md nmax_pool_in s, Swarm_new lbl md nmax_pool_in = Ok s → store_ok s) ∧
  (∀ lbl md s s', store_ok s → Add lbl md s = Ok s' → store_ok s') ∧
  (∀ labelArray md s s', store_ok s → Add_labelArray labelArray md s = Ok s' → store_ok s') ∧
  (∀ nmax_pool s s', store_ok s → setPoolMax nmax_pool s = Ok s' → store_ok s') ∧
  (∀ lbl s s', store_ok s → lbl ∈ labels (realVector_ s) → Remove lbl s = Ok s' →
               store_ok s').
Proof.
  split_and!.
  - apply store_ok_new.
  - apply store_ok_Add.
  - intros labelArray md. induction labelArray as [|l ls IH]; intros s s' Hs.
    + by intros [= <-].
    + unfold Add_labelArray. cbn [foldM]. fold (Add_labelArray ls md).
      intros (s1 & H1 & H2)%bind_Ok. eapply IH; [|exact H2]. by eapply store_ok_Add.
  - apply store_ok_setPoolMax.
  - apply store_ok_Remove_real.
Qed.

(** X9. [Remove] undoes [Add] of a real attribute: on a swarm whose maps and
    vectors agree, removing the label just added gives back the swarm as it
    was. *)
Theorem Add_Remove_real (lbl : string) (md : Metadata) (s s1 : Swarm) :
  store_ok s → Type_ md = Real → Add lbl md s = Ok s1 → Remove lbl s1 = Ok s.
Proof.
  intros [Hnd Hi Hr] Ht (Hin & Hrn & [[Hc _] | [_ ->]])%Add_Ok_inv; [congruence|].
  assert (Hfi : lbl ∉ labels (intVector_ s)) by (rewrite <- Hi, Hin; by intros [? ?]).
  assert (Hfr : lbl ∉ labels (realVector_ s)) by (rewrite <- Hr, Hrn; by intros [? ?]).
  set (var := make_ParticleVariable 0%Q lbl (nmax_pool_ s) md).
  destruct (Remove_real_Ok lbl (set_vars s (intVector_ s) (realVector_ s ++ [var]) (intMap_ s)
                                  (<[lbl := ptr_of var]> (realMap_ s))))
    as (s' & pre & v & post & H & Hv & Hl & Hpre & _ & Hlast & Hs').
  { done. }
  { cbn -[labels]. rewrite labels_app, elem_of_app. right. by left. }
  rewrite H. f_equal. cbn -[labels] in Hv.
  assert (Hpost : post = []).
  { destruct post as [|y post _] using rev_ind; [done|]. exfalso.
    replace (pre ++ v :: post ++ [y]) with ((pre ++ v :: post) ++ [y]) in Hv
      by (by rewrite <- app_assoc).
    apply app_inj_tail in Hv as [Hv _].
    apply Hfr. rewrite Hv, labels_app, elem_of_app. right. rewrite <- Hl. by left. }
  subst post. apply app_inj_tail in Hv as [<- _].
  rewrite Hs', (Hlast eq_refl). cbn.
  rewrite delete_insert_eq, delete_id by done. by destruct s.
Qed.

Lemma Add_Remove_real_witness :
  ∃ s1, Add "w" {| Type_ := Real |} pool0 = Ok s1 ∧ Remove "w" s1 = Ok pool0.
Proof.
  exists (from_Ok (Add "w" {| Type_ := Real |} pool0)).
  assert (H : Add "w" {| Type_ := Real |} pool0 = Ok (from_Ok (Add "w" {| Type_ := Real |} pool0)))
    by (by vm_compute).
  split; [exact H|].
  apply (Add_Remove_real "w" {| Type_ := Real |} pool0); [|done | exact H].
  apply (store_ok_new "swarm" {| Type_ := NoType |} 10). by vm_compute.
Defined.

(** X10. [AllocateCopy] copies the label, the metadata and the capacity only:
    the new swarm has the three coordinates as its only attributes, whatever
    was added to the swarm it is made from, and no active particle. *)
Theorem AllocateCopy_fresh (allocComms : bool) (s : Swarm) :
  ∃ s', AllocateCopy allocComms s = Ok s' ∧
        label_ s' = label_ s ∧ m_ s' = m_ s ∧ nmax_pool_ s' = nmax_pool_ s ∧
        intVector_ s' = [] ∧ realVector_ s' = coordinate_vars (nmax_pool_ s) ∧
        num_active_ s' = 0 ∧ active_indices s' = [] ∧
        free_indices_ s' = seqZ 0 (nmax_pool_ s).
Proof.
  unfold AllocateCopy. rewrite Swarm_new_eq. eexists. split; [done|]. cbn.
  split_and!; try done.
  unfold active_indices. cbn.
  induction (seqZ 0 (nmax_pool_ s)) as [|i l IH]; [done|].
  rewrite filter_cons_False; [done|].
  rewrite zget_replicate. case_decide; done.
Qed.

(** ** The pool: what growth, allocation and removal keep *)

Lemma zget_def_fold_zset_with {A : Type} (d : A) (f : Z → A) (idx : list Z) (l : list A) (j : Z) :
  zget_def d (fold_left (λ nd m, zset nd m (f m)) idx l) j =
  if decide (j ∈ idx ∧ 0 ≤ j < zlength l) then f j else zget_def d l j.
Proof.
  revert l. induction idx as [|a idx IH]; intros l.
  - cbn. rewrite decide_False; [done|]. intros [H%elem_of_nil _]. done.
  - cbn [fold_left]. rewrite IH, length_zset, zget_def_zset.
    destruct (decide (j ∈ idx ∧ 0 ≤ j < zlength l)) as [[Hin Hr]|Hn].
    + rewrite decide_True; [done|]. split; [by right | done].
    + destruct (decide (a = j ∧ 0 ≤ a < zlength l)) as [[-> Hr]|Hn'].
      * rewrite decide_True; [done|]. split; [by left | done].
      * rewrite decide_False; [done|].
        intros [[->|Hin]%elem_of_cons Hr]; [apply Hn' | apply Hn]; done.
Qed.

Lemma regrow_data {T : Type} (d : T) (nmax_old nmax_new : Z) (v : ParticleVariable T) (n : Z) :
  nmax_old ≤ nmax_new →
  zget_def d (data (regrow d nmax_old nmax_new v)) n =
  if decide (0 ≤ n < nmax_old) then zget_def d (data v) n else d.
Proof.
  intros Hle. cbn. rewrite zget_def_fold_zset_with, length_replicate.
  destruct (decide (0 ≤ n < nmax_old)) as [Hn|Hn].
  - rewrite decide_True; [done|]. split; [by apply elem_of_seqZ0 | lia].
  - rewrite decide_False by (intros [H%elem_of_seqZ0 _]; lia).
    unfold zget_def. rewrite zget_replicate. by case_decide.
Qed.

Lemma vget_regrow {T : Type} (d : T) (nmax_old nmax_new : Z)
    (vs : list (ParticleVariable T)) (i n : Z) :
  nmax_old ≤ nmax_new →
  vget d (regrow d nmax_old nmax_new <$> vs) i n =
  if decide (0 ≤ n < nmax_old) then vget d vs i n else d.
Proof.
  intros Hle. unfold vget. rewrite zget_fmap.
  destruct (zget vs i) as [v|]; cbn.
  - by apply regrow_data.
  - by case_decide.
Qed.

Lemma filter_ext_in {A : Type} (P Q : A → Prop) `{!∀ x, Decision (P x)}
    `{!∀ x, Decision (Q x)} (l : list A) :
  (∀ x, x ∈ l → P x ↔ Q x) → filter P l = filter Q l.
Proof.
  induction l as [|a l IH]; intros Hext; [done|].
  rewrite !filter_cons, IH by (intros; apply Hext; by right).
  destruct (decide (P a)) as [Hp|Hp], (decide (Q a)) as [Hq|Hq]; try done;
    exfalso; [apply Hq | apply Hp]; apply (Hext a); (by left) || done.
Qed.

Lemma filter_none {A : Type} (P : A → Prop) `{!∀ x, Decision (P x)} (l : list A) :
  (∀ x, x ∈ l → ¬ P x) → filter P l = [].
Proof.
  induction l as [|a l IH]; intros Hno; [done|].
  rewrite filter_cons_False by (apply Hno; by left). apply IH. intros; apply Hno; by right.
Qed.

Lemma zget_resize_to {A : Type} (d : A) (n : Z) (l : list A) (i : Z) :
  zget (resize_to d n l) i = if decide (0 ≤ i < n) then Some (zget_def d l i) else None.
Proof.
  unfold resize_to, zget_def, zget.
  destruct (decide (0 ≤ i)) as [Hi|Hi]; [|by rewrite decide_False by lia].
  destruct (decide (0 ≤ i < n)) as [Hn|Hn].
  - destruct (decide (Z.to_nat i < length l)%nat) as [Hl|Hl].
    + rewrite lookup_app_l by (rewrite length_take; lia).
      rewrite lookup_take_lt by lia.
      destruct (lookup_lt_is_Some_2 l (Z.to_nat i) Hl) as [x ->]. done.
    + rewrite lookup_app_r by (rewrite length_take; lia).
      rewrite length_take, lookup_replicate_2 by (rewrite ?length_take; lia).
      rewrite (lookup_ge_None_2 l) by lia. done.
  - apply lookup_ge_None_2. rewrite length_app, length_take, length_replicate. lia.
Qed.

Lemma length_resize_to {A : Type} (d : A) (n : Z) (l : list A) :
  0 ≤ n → zlength (resize_to d n l) = n.
Proof. intros Hn. unfold resize_to. rewrite length_app, length_take, length_replicate. lia. Qed.

(** What [setPoolMax] keeps, slot by slot. *)
Lemma setPoolMax_slots (nmax_pool : Z) (s s' : Swarm) :
  pool_inv s → setPoolMax nmax_pool s = Ok s' →
  nmax_pool_ s < nmax_pool_ s' ∧ nmax_pool_ s' = nmax_pool ∧
  free_indices_ s' = free_indices_ s ++ seqZ (nmax_pool_ s) (nmax_pool_ s' - nmax_pool_ s) ∧
  num_active_ s' = num_active_ s ∧ max_active_index_ s' = max_active_index_ s ∧
  (∀ i, zget (mask_ s') i = Some true ↔ zget (mask_ s) i = Some true) ∧
  (∀ i, 0 ≤ i < nmax_pool_ s → zget (marked_for_removal_ s') i = zget (marked_for_removal_ s) i) ∧
  (∀ i, 0 ≤ i < zlength (blockIndex_ s) → i < nmax_pool_ s' →
        zget (blockIndex_ s') i = zget (blockIndex_ s) i) ∧
  zlength (blockIndex_ s') = nmax_pool_ s' ∧
  labels (realVector_ s') = labels (realVector_ s) ∧
  labels (intVector_ s') = labels (intVector_ s) ∧
  sized (nmax_pool_ s') (realVector_ s') ∧ sized (nmax_pool_ s') (intVector_ s') ∧
  (∀ i n, vget 0%Q (realVector_ s') i n =
          if decide (0 ≤ n < nmax_pool_ s) then vget 0%Q (realVector_ s) i n else 0%Q) ∧
  (∀ i n, vget 0 (intVector_ s') i n =
          if decide (0 ≤ n < nmax_pool_ s) then vget 0 (intVector_ s) i n else 0).
Proof.
  intros Hinv H.
  destruct (setPoolMax_pool _ _ _ (inv_mask _ Hinv) (inv_marked _ Hinv) H)
    as (Hlt & Hcap & Hmask & Hmarked & Hfree & Hna & Hmx).
  pose proof (inv_cap _ Hinv) as Hpos. pose proof (inv_mask _ Hinv) as Hlm.
  pose proof (inv_marked _ Hinv) as Hlr.
  unfold setPoolMax in H. case_bool_decide as Hgt; [|done].
  injection H as Hs'.
  split; [lia|]. split; [done|]. split; [by rewrite Hfree, Hcap|].
  split; [done|]. split; [done|]. rewrite Hcap. split_and!.
  - intros i. rewrite Hmask. destruct (decide (i < zlength (mask_ s))).
    + by rewrite zget_app_l.
    + rewrite zget_app_r by lia. rewrite zget_replicate.
      split; [by case_decide|]. intros Hc%zget_Some_range. lia.
  - intros i Hi. rewrite Hmarked. by rewrite zget_app_l by lia.
  - intros i Hi Hi'. rewrite <- Hs'. cbn. rewrite zget_resize_to, decide_True by lia.
    unfold zget_def. by destruct (zget_in_range (blockIndex_ s) i Hi) as [x ->].
  - rewrite <- Hs'. cbn. apply length_resize_to. lia.
  - rewrite <- Hs'. cbn. apply regrow_labels.
  - rewrite <- Hs'. cbn. apply regrow_labels.
  - rewrite <- Hs'. cbn. apply regrow_sized. lia.
  - rewrite <- Hs'. cbn. apply regrow_sized. lia.
  - intros i n. rewrite <- Hs'. cbn. apply vget_regrow. lia.
  - intros i n. rewrite <- Hs'. cbn. apply vget_regrow. lia.
Qed.

Lemma active_indices_same (s s' : Swarm) :
  nmax_pool_ s ≤ nmax_pool_ s' → zlength (mask_ s) = nmax_pool_ s →
  (∀ i, zget (mask_ s') i = Some true ↔ zget (mask_ s) i = Some true) →
  active_indices s' = active_indices s.
Proof.
  intros Hle Hlen Hm. unfold active_indices.
  destruct (decide (0 ≤ nmax_pool_ s)) as [H0|H0].
  - replace (nmax_pool_ s') with (nmax_pool_ s + (nmax_pool_ s' - nmax_pool_ s)) by lia.
    rewrite seqZ_app, filter_app by lia.
    rewrite (filter_none _ (seqZ (0 + nmax_pool_ s) _)), app_nil_r.
    + apply filter_ext_in. intros i _. apply Hm.
    + intros i Hi%elem_of_seqZ. rewrite Hm. intros Hc%zget_Some_range. lia.
  - lia.
Qed.

(** X11. [setPoolMax] fails exactly when the requested capacity is not above
    the current one.  Otherwise the pool has the requested capacity, the new
    slots join the free list at its end in ascending order, and nothing else
    moves: the same slots are active, [num_active_] and [max_active_index_]
    are unchanged, every attribute keeps its label and its value in every
    old slot and holds zero in the new ones. *)
Theorem setPoolMax_grows (nmax_pool : Z) (s : Swarm) :
  (setPoolMax nmax_pool s = Err (require_failed "Must request larger pool size!") ↔
   nmax_pool ≤ nmax_pool_ s) ∧
  (pool_inv s → ∀ s', setPoolMax nmax_pool s = Ok s' →
     nmax_pool_ s' = nmax_pool ∧
     free_indices_ s' = free_indices_ s ++ seqZ (nmax_pool_ s) (nmax_pool - nmax_pool_ s) ∧
     active_indices s' = active_indices s ∧
     num_active_ s' = num_active_ s ∧ max_active_index_ s' = max_active_index_ s ∧
     labels (realVector_ s') = labels (realVector_ s) ∧
     labels (intVector_ s') = labels (intVector_ s) ∧
     sized nmax_pool (realVector_ s') ∧ sized nmax_pool (intVector_ s') ∧
     (∀ i n, 0 ≤ n < nmax_pool_ s →
             vget 0%Q (realVector_ s') i n = vget 0%Q (realVector_ s) i n ∧
             vget 0 (intVector_ s') i n = vget 0 (intVector_ s) i n) ∧
     (∀ i n, nmax_pool_ s ≤ n < nmax_pool →
             vget 0%Q (realVector_ s') i n = 0%Q ∧ vget 0 (intVector_ s') i n = 0)).
Proof.
  split.
  - unfold setPoolMax. case_bool_decide; split; try done; lia.
  - intros Hinv s' H.
    destruct (setPoolMax_slots _ _ _ Hinv H)
      as (Hlt & Hcap & Hfree & Hna & Hmx & Hmask & _ & _ & _ & Hlr & Hli & Hsr & Hsi & Hvr & Hvi).
    rewrite Hcap in *.
    split_and!; try done.
    + apply active_indices_same; [lia | apply Hinv | done].
    + intros i n Hn. by rewrite Hvr, Hvi, !decide_True by done.
    + intros i n Hn. by rewrite Hvr, Hvi, !decide_False by lia.
Qed.

Section Allocation.
Variable increase_target : Z → Z.

(** What the growth loop of [AddEmptyParticles] keeps. *)
Lemma grow_pool_slots (fuel : nat) (num_to_add : Z) (s s1 : Swarm) (k : nat) :
  pool_inv s → grow_pool increase_target fuel num_to_add s = Ok (s1, k) →
  nmax_pool_ s ≤ nmax_pool_ s1 ∧
  free_indices_ s1 = free_indices_ s ++ seqZ (nmax_pool_ s) (nmax_pool_ s1 - nmax_pool_ s) ∧
  num_active_ s1 = num_active_ s ∧ max_active_index_ s1 = max_active_index_ s ∧
  (∀ i, zget (mask_ s1) i = Some true ↔ zget (mask_ s) i = Some true) ∧
  (∀ i, 0 ≤ i < zlength (blockIndex_ s) → i < nmax_pool_ s →
        zget (blockIndex_ s1) i = zget (blockIndex_ s) i) ∧
  (zlength (blockIndex_ s) = nmax_pool_ s → zlength (blockIndex_ s1) = nmax_pool_ s1) ∧
  labels (realVector_ s1) = labels (realVector_ s) ∧
  labels (intVector_ s1) = labels (intVector_ s) ∧
  (∀ i n, 0 ≤ n < nmax_pool_ s →
          vget 0%Q (realVector_ s1) i n = vget 0%Q (realVector_ s) i n ∧
          vget 0 (intVector_ s1) i n = vget 0 (intVector_ s) i n) ∧
  (num_to_add ≤ zlength (free_indices_ s) → s1 = s).
Proof.
  revert s k. induction fuel as [|fuel IH]; intros s k Hinv; cbn [grow_pool].
  - case_bool_decide; [done|]. intros [= <- <-].
    rewrite Z.sub_diag. cbn. rewrite app_nil_r. split_and!; done || lia.
  - case_bool_decide as Hlt.
    2:{ intros [= <- <-]. rewrite Z.sub_diag. cbn. rewrite app_nil_r.
        split_and!; done || lia. }
    intros (s0 & H0 & Hk)%bind_Ok.
    apply bind_Ok in Hk as ([s2 k2] & H2 & [= <- <-]).
    unfold increasePoolMax in H0.
    pose proof (setPoolMax_inv _ _ _ Hinv H0) as Hinv0.
    destruct (setPoolMax_slots _ _ _ Hinv H0)
      as (Hlt0 & _ & Hfree0 & Hna0 & Hmx0 & Hmask0 & _ & Hb0 & Hbl0 & Hlr0 & Hli0 & _ & _ & Hvr0 & Hvi0).
    destruct (IH _ _ Hinv0 H2)
      as (Hle & Hfree & Hna & Hmx & Hmask & Hb & Hbl & Hlr & Hli & Hv & _).
    split_and!; try lia.
    + rewrite Hfree, Hfree0, <- app_assoc. f_equal.
      replace (nmax_pool_ s2 - nmax_pool_ s)
        with ((nmax_pool_ s0 - nmax_pool_ s) + (nmax_pool_ s2 - nmax_pool_ s0)) by lia.
      rewrite seqZ_app by lia. do 2 f_equal. lia.
    + intros i. by rewrite Hmask, Hmask0.
    + intros i Hi Hi'. rewrite Hb by lia. apply Hb0; lia.
    + by rewrite Hlr, Hlr0.
    + by rewrite Hli, Hli0.
    + intros i n Hn. destruct (Hv i n ltac:(lia)) as [-> ->].
      by rewrite Hvr0, Hvi0, !decide_True by done.
Qed.

Lemma list_eq_zget {A : Type} (l1 l2 : list A) :
  length l1 = length l2 → (∀ i, 0 ≤ i < zlength l1 → zget l1 i = zget l2 i) → l1 = l2.
Proof.
  intros Hlen H. apply list_eq. intros j.
  destruct (decide (j < length l1)%nat) as [Hj|Hj].
  - specialize (H (Z.of_nat j) ltac:(lia)). unfold zget in H.
    rewrite !decide_True in H by lia. by rewrite !Nat2Z.id in H.
  - rewrite !lookup_ge_None_2 by lia. done.
Qed.

(** What [AddEmptyParticles] does to the slots. *)
Lemma AddEmptyParticles_slots (num_to_add : Z) (s s' : Swarm)
    (new_mask : list bool) (new_indices : list Z) :
  pool_inv s →
  AddEmptyParticles increase_target num_to_add s = Ok (s', new_mask, new_indices) →
  let pool := free_indices_ s ++ seqZ (nmax_pool_ s) (nmax_pool_ s' - nmax_pool_ s) in
  0 < num_to_add ≤ zlength pool ∧ nmax_pool_ s ≤ nmax_pool_ s' ∧
  (num_to_add ≤ zlength (free_indices_ s) → nmax_pool_ s' = nmax_pool_ s) ∧
  new_indices = take (Z.to_nat num_to_add) pool ∧
  free_indices_ s' = drop (Z.to_nat num_to_add) pool ∧
  NoDup new_indices ∧
  num_active_ s' = num_active_ s + num_to_add ∧
  max_active_index_ s' = fold_left Z.max new_indices (max_active_index_ s) ∧
  (∀ i, i ∈ new_indices → zget (mask_ s) i ≠ Some true ∧ 0 ≤ i < nmax_pool_ s') ∧
  (∀ i, zget (mask_ s') i = Some true ↔ zget (mask_ s) i = Some true ∨ i ∈ new_indices) ∧
  (∀ i, zget new_mask i = Some true ↔ i ∈ new_indices) ∧
  (zlength (blockIndex_ s) = nmax_pool_ s →
   ∀ i, i ∈ new_indices → zget (blockIndex_ s') i = Some this_block_) ∧
  (∀ i, i ∉ new_indices → 0 ≤ i < zlength (blockIndex_ s) → i < nmax_pool_ s →
        zget (blockIndex_ s') i = zget (blockIndex_ s) i) ∧
  (∀ i n, 0 ≤ n < nmax_pool_ s →
          vget 0%Q (realVector_ s') i n = vget 0%Q (realVector_ s) i n ∧
          vget 0 (intVector_ s') i n = vget 0 (intVector_ s) i n) ∧
  labels (realVector_ s') = labels (realVector_ s) ∧
  labels (intVector_ s') = labels (intVector_ s).
Proof.
  intros Hinv. unfold AddEmptyParticles. case_bool_decide as Hpos; [|done].
  intros ([s1 k] & Hg & H)%bind_Ok.
  pose proof (grow_pool_inv _ _ _ _ _ _ Hinv Hg) as [Hinv1 Hlen].
  destruct (grow_pool_slots _ _ _ _ _ Hinv Hg)
    as (Hle & Hfree & Hna & Hmx & Hmask & Hb & Hbl & Hlr & Hli & Hv & Hsame).
  apply bind_Ok in H as (st & Hst & [= <- <- <-]). cbn.
  edestruct (foldM_add_slot (seqZ 0 num_to_add)) as (st' & Hst' & Hfr' & Hmk & Hnm & Hbi & Hmax);
    [|rewrite Hst in Hst'; injection Hst' as <-].
  { cbn. rewrite length_seqZ. lia. }
  cbn in Hfr', Hmk, Hnm, Hbi, Hmax. rewrite length_seqZ in Hfr', Hmk, Hnm, Hbi, Hmax.
  rewrite <- (Z2Nat.id num_to_add) in Hst by lia.
  apply foldM_add_slot_indices in Hst as (Hlidx & _ & Hidx);
    [|lia | cbn; rewrite length_replicate; lia].
  cbn in Hidx, Hlidx. rewrite length_replicate in Hlidx.
  set (taken := take (Z.to_nat num_to_add) (free_indices_ s1)) in *.
  assert (Hnew : al_new_indices st = taken).
  { apply list_eq_zget.
    - unfold taken. rewrite length_take. lia.
    - intros i Hi. specialize (Hidx (Z.to_nat i) ltac:(lia)).
      rewrite Z.add_0_l, Z2Nat.id in Hidx by lia. rewrite Hidx.
      unfold taken, zget. rewrite decide_True by lia.
      by rewrite lookup_take_lt by lia. }
  rewrite Hnew. rewrite <- Hfree.
  destruct Hinv1 as [_ Hmask1 _ Hnd1 Hfree1 _ _].
  assert (Htk : ∀ i, i ∈ taken → i ∈ free_indices_ s1).
  { intros i Hi. rewrite <- (take_drop (Z.to_nat num_to_add) (free_indices_ s1)).
    apply elem_of_app. by left. }
  assert (Hrange : ∀ i, i ∈ taken → 0 ≤ i < nmax_pool_ s1).
  { intros i Hi%Htk%Hfree1%zget_Some_range. lia. }
  split_and!; try done; try lia.
  - intros Hn. by rewrite (Hsame Hn).
  - unfold taken. rewrite <- (take_drop (Z.to_nat num_to_add) (free_indices_ s1)) in Hnd1.
    by apply NoDup_app in Hnd1 as [? _].
  - by rewrite Hmax, Hmx.
  - intros i Hi. split; [|by apply Hrange].
    rewrite <- Hmask. apply Htk, Hfree1 in Hi. congruence.
  - intros i. rewrite Hmk, zget_fold_zset, <- Hmask. fold taken.
    destruct (decide (i ∈ taken ∧ 0 ≤ i < zlength (mask_ s1))) as [[Hi Hr]|Hn].
    + split; [by right | done].
    + split; [by left|]. intros [?|Hi]; [done|]. exfalso. apply Hn. split; [done|].
      rewrite Hmask1. by apply Hrange.
  - intros i. rewrite Hnm, zget_fold_zset, length_replicate. fold taken.
    destruct (decide (i ∈ taken ∧ 0 ≤ i < Z.of_nat (Z.to_nat (nmax_pool_ s1)))) as [[Hi Hr]|Hn].
    + done.
    + rewrite zget_replicate. split; [by case_decide|].
      intros Hi. exfalso. apply Hn. split; [done|]. apply Hrange in Hi. lia.
  - intros Hlb i Hi. rewrite Hbi, zget_fold_zset. fold taken.
    rewrite decide_True; [done|]. split; [done|]. rewrite (Hbl Hlb). by apply Hrange.
  - intros i Hi Hr Hr'. rewrite Hbi, zget_fold_zset. fold taken.
    rewrite decide_False by (by intros [? _]). by apply Hb.
Qed.

(** X12. [AddEmptyParticles] hands out the first [num_to_add] entries of the
    free list, the slots of a growth standing behind the old free list in
    ascending order.  The slots handed out are pairwise different and were
    not active; afterwards exactly they and the slots active before are
    active, the returned mask marks exactly them, they belong to this block,
    and [num_active_] has grown by [num_to_add].  No attribute value of an
    old slot and no label changes. *)
Theorem AddEmptyParticles_allocates (num_to_add : Z) (s s' : Swarm)
    (new_mask : list bool) (new_indices : list Z) :
  pool_inv s →
  AddEmptyParticles increase_target num_to_add s = Ok (s', new_mask, new_indices) →
  let pool := free_indices_ s ++ seqZ (nmax_pool_ s) (nmax_pool_ s' - nmax_pool_ s) in
  0 < num_to_add ≤ zlength pool ∧ nmax_pool_ s ≤ nmax_pool_ s' ∧
  (num_to_add ≤ zlength (free_indices_ s) → nmax_pool_ s' = nmax_pool_ s) ∧
  new_indices = take (Z.to_nat num_to_add) pool ∧
  free_indices_ s' = drop (Z.to_nat num_to_add) pool ∧
  NoDup new_indices ∧
  num_active_ s' = num_active_ s + num_to_add ∧
  max_active_index_ s' = fold_left Z.max new_indices (max_active_index_ s) ∧
  (∀ i, i ∈ new_indices → zget (mask_ s) i ≠ Some true ∧ 0 ≤ i < nmax_pool_ s') ∧
  (∀ i, zget (mask_ s') i = Some true ↔ zget (mask_ s) i = Some true ∨ i ∈ new_indices) ∧
  (∀ i, zget new_mask i = Some true ↔ i ∈ new_indices) ∧
  (zlength (blockIndex_ s) = nmax_pool_ s →
   ∀ i, i ∈ new_indices → zget (blockIndex_ s') i = Some this_block_) ∧
  (∀ i, i ∉ new_indices → 0 ≤ i < zlength (blockIndex_ s) → i < nmax_pool_ s →
        zget (blockIndex_ s') i = zget (blockIndex_ s) i) ∧
  (∀ i n, 0 ≤ n < nmax_pool_ s →
          vget 0%Q (realVector_ s') i n = vget 0%Q (realVector_ s) i n ∧
          vget 0 (intVector_ s') i n = vget 0 (intVector_ s) i n) ∧
  labels (realVector_ s') = labels (realVector_ s) ∧
  labels (intVector_ s') = labels (intVector_ s).
Proof. apply AddEmptyParticles_slots. Qed.

End Allocation.

Lemma AddEmptyParticles_allocates_witness :
  ∃ s' new_mask,
    AddEmptyParticles double_pool 3 pool0 = Ok (s', new_mask, [0; 1; 2]) ∧
    num_active_ s' = 3 ∧ free_indices_ s' = [3; 4; 5; 6; 7; 8; 9].
Proof.
  destruct (AddEmptyParticles double_pool 3 pool0) as [[[s' new_mask] new_indices]|e] eqn:E;
    [|by vm_compute in E].
  assert (Hinv : pool_inv pool0).
  { apply (Swarm_new_inv "swarm" {| Type_ := NoType |} 10); [lia | by vm_compute]. }
  pose proof (AddEmptyParticles_allocates double_pool 3 pool0 s' new_mask new_indices Hinv E)
    as (_ & _ & Hcap & Hnew & Hfree & _ & Hna & _).
  rewrite Hcap in Hnew, Hfree by (vm_compute; congruence).
  exists s', new_mask. rewrite Hnew, Hfree, Hna. split_and!; reflexivity.
Defined.

(** *** RemoveMarkedParticles *)

Lemma remove_slot_eq (s : Swarm) (n : Z) :
  remove_slot s n =
  if pending s n then
    set_pool s (nmax_pool_ s) (zset (mask_ s) n false) (zset (marked_for_removal_ s) n false)
      (neighbor_send_index_ s) (blockIndex_ s) (n :: free_indices_ s) (num_active_ s - 1)
      (if bool_decide (n = max_active_index_ s) then max_active_index_ s - 1
       else max_active_index_ s)
  else s.
Proof.
  unfold pending, remove_slot.
  destruct (zget_def false (mask_ s) n), (zget_def false (marked_for_removal_ s) n); done.
Qed.

Lemma zget_def_range (l : list bool) (n : Z) :
  zget_def false l n = true → 0 ≤ n < zlength l.
Proof. intros H%zget_def_true. by eapply zget_Some_range. Qed.

Lemma pending_remove_slot (s : Swarm) (n m : Z) :
  pending (remove_slot s n) m = if decide (m = n) then false else pending s m.
Proof.
  rewrite remove_slot_eq. destruct (pending s n) eqn:E.
  - unfold pending in *. cbn. apply andb_true_iff in E as [E1%zget_def_range E2%zget_def_range].
    rewrite !zget_def_zset. destruct (decide (m = n)) as [->|Hne].
    + by rewrite !decide_True by done.
    + by rewrite !decide_False by (intros [? _]; congruence).
  - destruct (decide (m = n)) as [->|]; done.
Qed.

Lemma fold_remove_slot_desc (k : nat) (s : Swarm) :
  let s' := fold_left remove_slot (reverse (seqZ 0 (Z.of_nat k))) s in
  let gone := filter (λ n, pending s n = true) (seqZ 0 (Z.of_nat k)) in
  free_indices_ s' = gone ++ free_indices_ s ∧
  num_active_ s' = num_active_ s - zlength gone ∧
  (∀ n, zget (mask_ s') n = if decide (n ∈ gone) then Some false else zget (mask_ s) n) ∧
  (∀ n, zget (marked_for_removal_ s') n =
        if decide (n ∈ gone) then Some false else zget (marked_for_removal_ s) n) ∧
  s' = set_pool s (nmax_pool_ s) (mask_ s') (marked_for_removal_ s')
         (neighbor_send_index_ s) (blockIndex_ s) (free_indices_ s')
         (num_active_ s') (max_active_index_ s').
Proof.
  revert s. induction k as [|k IH]; intros s.
  - rewrite seqZ_nil by lia. cbn.
    split_and!; [done | lia | | | by destruct s];
      intros n; by rewrite decide_False by apply not_elem_of_nil.
  - cbn zeta. rewrite seqZ_S, reverse_app. cbn [reverse rev_append app fold_left].
    rewrite Z.add_0_l. change (rev_append [] [Z.of_nat k]) with [Z.of_nat k].
    cbn [app fold_left].
    pose proof (IH (remove_slot s (Z.of_nat k))) as IH'. cbn zeta in IH'.
    set (s' := fold_left remove_slot (reverse (seqZ 0 (Z.of_nat k)))
                 (remove_slot s (Z.of_nat k))) in *.
    set (gone := filter (λ n, pending s n = true) (seqZ 0 (Z.of_nat k) ++ [Z.of_nat k])).
    destruct IH' as (Hfree & Hna & Hmask & Hmarked & Hframe).
    assert (Hgone1 : filter (λ n, pending (remove_slot s (Z.of_nat k)) n = true)
                       (seqZ 0 (Z.of_nat k)) =
                     filter (λ n, pending s n = true) (seqZ 0 (Z.of_nat k))).
    { apply filter_ext_in. intros n Hn%elem_of_seqZ0. rewrite pending_remove_slot.
      by rewrite decide_False by lia. }
    rewrite Hgone1 in Hfree, Hna, Hmask, Hmarked.
    set (gone0 := filter (λ n, pending s n = true) (seqZ 0 (Z.of_nat k))) in *.
    assert (Hk0 : Z.of_nat k ∉ gone0).
    { unfold gone0. rewrite list_elem_of_filter, elem_of_seqZ0. lia. }
    assert (Hgone : gone = gone0 ++ (if pending s (Z.of_nat k) then [Z.of_nat k] else [])).
    { unfold gone, gone0. rewrite filter_app. f_equal.
      destruct (pending s (Z.of_nat k)) eqn:E.
      - by rewrite filter_cons_True.
      - rewrite filter_cons_False; [done|]. by rewrite E. }
    rewrite remove_slot_eq in Hfree, Hna, Hmask, Hmarked, Hframe.
    destruct (pending s (Z.of_nat k)) eqn:E.
    + cbn in Hfree, Hna, Hmask, Hmarked, Hframe.
      unfold pending in E. apply andb_true_iff in E as [E1%zget_def_range E2%zget_def_range].
      rewrite Hgone. split_and!.
      * by rewrite Hfree, <- app_assoc.
      * rewrite Hna, length_app. cbn. lia.
      * intros n. rewrite Hmask, zget_zset.
        destruct (decide (n ∈ gone0)) as [Hn|Hn].
        -- rewrite decide_True; [done|]. apply elem_of_app. by left.
        -- destruct (decide (Z.of_nat k = n ∧ 0 ≤ Z.of_nat k < zlength (mask_ s))) as [[<- _]|Hn'].
           ++ rewrite decide_True; [done|]. apply elem_of_app. right. by left.
           ++ rewrite decide_False; [done|].
              intros [?|Hc%list_elem_of_singleton]%elem_of_app; [done|]. subst n. by apply Hn'.
      * intros n. rewrite Hmarked, zget_zset.
        destruct (decide (n ∈ gone0)) as [Hn|Hn].
        -- rewrite decide_True; [done|]. apply elem_of_app. by left.
        -- destruct (decide (Z.of_nat k = n ∧ 0 ≤ Z.of_nat k < zlength (marked_for_removal_ s)))
             as [[<- _]|Hn'].
           ++ rewrite decide_True; [done|]. apply elem_of_app. right. by left.
           ++ rewrite decide_False; [done|].
              intros [?|Hc%list_elem_of_singleton]%elem_of_app; [done|]. subst n. by apply Hn'.
      * exact Hframe.
    + rewrite Hgone, app_nil_r. split_and!; done.
Qed.

Lemma fold_remove_slot_max_above (k : nat) (s : Swarm) :
  Z.of_nat k ≤ max_active_index_ s →
  max_active_index_ (fold_left remove_slot (reverse (seqZ 0 (Z.of_nat k))) s) =
  max_active_index_ s.
Proof.
  revert s. induction k as [|k IH]; intros s Hk; [done|].
  rewrite seqZ_S, reverse_app. cbn [reverse rev_append app fold_left].
  rewrite Z.add_0_l. change (rev_append [] [Z.of_nat k]) with [Z.of_nat k].
  cbn [app fold_left].
  assert (Hm : max_active_index_ (remove_slot s (Z.of_nat k)) = max_active_index_ s).
  { rewrite remove_slot_eq. destruct (pending s (Z.of_nat k)); [|done].
    cbn. by rewrite bool_decide_eq_false_2 by lia. }
  rewrite IH; [done | lia].
Qed.

Lemma fold_remove_slot_max_top (k : nat) (s : Swarm) :
  max_active_index_ s = Z.of_nat k - 1 →
  let top := max_active_index_ (fold_left remove_slot (reverse (seqZ 0 (Z.of_nat k))) s) in
  -1 ≤ top ≤ max_active_index_ s ∧
  (∀ n, top < n ≤ max_active_index_ s → pending s n = true) ∧
  (0 ≤ top → pending s top = false).
Proof.
  revert s. induction k as [|k IH]; intros s Hk.
  - rewrite seqZ_nil by lia. cbn. split_and!; lia.
  - rewrite seqZ_S, reverse_app. cbn [reverse rev_append app fold_left].
    rewrite Z.add_0_l. change (rev_append [] [Z.of_nat k]) with [Z.of_nat k].
    cbn [app fold_left].
    destruct (pending s (Z.of_nat k)) eqn:E.
    + assert (Hm : max_active_index_ (remove_slot s (Z.of_nat k)) = Z.of_nat k - 1).
      { rewrite remove_slot_eq, E. cbn. rewrite bool_decide_eq_true_2 by lia. lia. }
      destruct (IH _ Hm) as (Hr & Hab & Hat). rewrite Hm in Hr, Hab.
      split_and!; try lia.
      * intros n Hn. destruct (decide (n = Z.of_nat k)) as [->|Hne]; [done|].
        specialize (Hab n ltac:(lia)). rewrite pending_remove_slot in Hab.
        by rewrite decide_False in Hab by done.
      * intros H0. specialize (Hat H0). rewrite pending_remove_slot in Hat.
        by rewrite decide_False in Hat by lia.
    + rewrite remove_slot_id by done. rewrite fold_remove_slot_max_above by lia.
      split_and!; try lia. intros _.
      by replace (max_active_index_ s) with (Z.of_nat k) by lia.
Qed.

(** X13. [RemoveMarkedParticles] removes exactly the slots up to
    [max_active_index_] that are active and marked: they become inactive and
    unmarked and stand, in ascending order, in front of the old free list;
    [num_active_] drops by their number and no other slot, mark or member
    changes.  [max_active_index_] moves down past the removed slots at the
    top and stops at the first slot that was not removed, active or not. *)
Theorem RemoveMarkedParticles_removes (s : Swarm) :
  let s' := RemoveMarkedParticles s in
  let gone := filter (λ n, pending s n = true) (seqZ 0 (max_active_index_ s + 1)) in
  free_indices_ s' = gone ++ free_indices_ s ∧
  num_active_ s' = num_active_ s - zlength gone ∧
  (∀ n, zget (mask_ s') n = if decide (n ∈ gone) then Some false else zget (mask_ s) n) ∧
  (∀ n, zget (marked_for_removal_ s') n =
        if decide (n ∈ gone) then Some false else zget (marked_for_removal_ s) n) ∧
  s' = set_pool s (nmax_pool_ s) (mask_ s') (marked_for_removal_ s')
         (neighbor_send_index_ s) (blockIndex_ s) (free_indices_ s')
         (num_active_ s') (max_active_index_ s') ∧
  (-1 ≤ max_active_index_ s →
   -1 ≤ max_active_index_ s' ≤ max_active_index_ s ∧
   (∀ n, max_active_index_ s' < n ≤ max_active_index_ s → n ∈ gone) ∧
   (0 ≤ max_active_index_ s' → max_active_index_ s' ∉ gone)).
Proof.
  intros s' gone. unfold s', gone, RemoveMarkedParticles.
  destruct (decide (-1 ≤ max_active_index_ s)) as [Hm|Hm].
  - rewrite <- (Z2Nat.id (max_active_index_ s + 1)) by lia.
    destruct (fold_remove_slot_desc (Z.to_nat (max_active_index_ s + 1)) s)
      as (H1 & H2 & H3 & H4 & H5).
    split_and!; try done. intros _.
    destruct (fold_remove_slot_max_top (Z.to_nat (max_active_index_ s + 1)) s)
      as (Hr & Hab & Hat); [lia|].
    split_and!; try lia.
    + intros n Hn. rewrite list_elem_of_filter, elem_of_seqZ0. split; [by apply Hab | lia].
    + intros H0. rewrite list_elem_of_filter. intros [Hc _]. rewrite (Hat H0) in Hc. done.
  - rewrite seqZ_nil by lia. cbn. split_and!; try done; try lia. by destruct s.
Qed.

(** ** Defrag with a free list in ascending order *)







Section DefragCount.
Variables (M : list bool) (F : list Z) (A cap : Z).
Hypothesis M_len : zlength M = cap.
Hypothesis F_nodup : NoDup F.
Hypothesis F_free : ∀ i, i ∈ F ↔ zget M i = Some false.
Hypothesis F_count : A + zlength F = cap.
Hypothesis F_sorted : Sorted Z.le F.

Local Abbreviation act := (filter (λ i, zget M i = Some true) (seqZ 0 cap)).
Local Abbreviation high := (filter (λ i, A ≤ i) act).
Local Abbreviation low := (filter (λ i, i < A) F).








Variable X : Z.
Hypothesis X_top : ∀ n, zget M n = Some true → n ≤ X.
Hypothesis X_range : -1 ≤ X < cap.

Local Abbreviation moved st n := (zget_def unset_index_ (dp_from_to st) n >= 0).



End DefragCount.



Section DefragVars.
Context {V : Type}.
Variables (d : V) (T : list Z) (cap : Z).
Hypothesis T_range : ∀ n, zget_def unset_index_ T n >= 0 → 0 ≤ zget_def unset_index_ T n < cap.
Hypothesis T_apart : ∀ n n', zget_def unset_index_ T n >= 0 → zget_def unset_index_ T n' >= 0 →
                             zget_def unset_index_ T n ≠ n'.
Hypothesis T_inj : ∀ n n', zget_def unset_index_ T n >= 0 →
                           zget_def unset_index_ T n = zget_def unset_index_ T n' → n = n'.


End DefragVars.




(** ** The exchange: bounds, frame and round trip *)

(** *** Send: the neighbour of every particle is in bounds *)

Lemma tally_error (M : list bool) (B : list Z) (l : list Z) (st : list Z * Z) (e : Error) :
  foldM (tally_slot M B) l st = Err e →
  e = out_of_bounds "num_particles_to_send_h(blockIndex_h(n))".
Proof.
  revert st. induction l as [|n l IH]; intros st; [done|]. cbn [foldM].
  destruct (tally_slot M B st n) as [st1|e1] eqn:E; cbn [mbind Result_bind].
  - apply IH.
  - intros [= <-]. unfold tally_slot in E. destruct st as [num msz].
    destruct (zget_def false M n); [|done]. case_bool_decide; [|done].
    destruct (zget num (zget_def 0 B n)); [done|]. by injection E as <-.
Qed.

Lemma pool_inv_place (n : Z) (x y z : Q) (dest : Z) (s : Swarm) :
  pool_inv s → pool_inv (place n x y z dest s).
Proof.
  intros H. unfold place.
  apply (set_owner_inv (set_vars s _ _ _ _)). by apply set_vars_inv.
Qed.

(** X16. On a swarm and a boundary in good order, [Send] returns exactly
    when the block index of every active slot up to [max_active_index_] is
    below [nbmax]; otherwise it fails on the count of a neighbour that does
    not exist.  When it returns, it returns true.  Good order is what the
    other accesses of [Send] need: the slot bookkeeping of the pool, a block
    index and a value of every attribute for every slot, the coordinates
    [x], [y] and [z] among the real attributes, and a neighbour, a send
    buffer and a send size for each of the [nbmax > 0] channels. *)
Theorem Send_in_bounds (pmb : MeshBlock) (s : Swarm) (vb : BoundarySwarm) :
  pool_inv s →
  zlength (blockIndex_ s) = nmax_pool_ s →
  sized (nmax_pool_ s) (realVector_ s) → sized (nmax_pool_ s) (intVector_ s) →
  "x" ∈ labels (realVector_ s) → "y" ∈ labels (realVector_ s) →
  "z" ∈ labels (realVector_ s) →
  0 < nbmax (bd_var_ vb) ≤ zlength (neighbor pmb) →
  nbmax (bd_var_ vb) ≤ zlength (send (bd_var_ vb)) →
  nbmax (bd_var_ vb) ≤ zlength (send_size vb) →
  (is_Ok (Send pmb s vb) ↔
   ∀ n, 0 ≤ n ≤ max_active_index_ s → zget_def false (mask_ s) n = true →
        zget_def 0 (blockIndex_ s) n < nbmax (bd_var_ vb)) ∧
  (∀ e, Send pmb s vb = Err e →
        e = out_of_bounds "num_particles_to_send_h(blockIndex_h(n))") ∧
  (∀ b s' vb', Send pmb s vb = Ok (b, s', vb') → b = true).
Proof.
  intros _ _ _ _ _ _ _ [Hnb _] _ _. split_and!.
  - split; [|apply Send_returns].
    intros [[[b s'] vb'] HS] n Hn Hact.
    unfold Send in HS. apply bind_Ok in HS as ([num msz] & Htally & _).
    unfold tally in Htally. apply tally_fold in Htally as (_ & Hrange & _).
    rewrite length_replicate in Hrange.
    destruct (decide (0 ≤ zget_def 0 (blockIndex_ s) n)) as [Hb|Hb]; [|lia].
    specialize (Hrange n ltac:(apply elem_of_seqZ0; lia) Hact Hb). lia.
  - intros e. unfold Send.
    destruct (tally s (nbmax (bd_var_ vb))) as [[num msz]|e1] eqn:E; [done|].
    cbn [mbind Result_bind]. intros [= <-]. by eapply tally_error.
  - intros b s' vb'. unfold Send. intros ([num msz] & _ & [= <- _ _])%bind_Ok. done.
Qed.

Lemma Send_in_bounds_witness :
  max_active_index_ sender_xyz = 1 ∧ nbmax (bd_var_ vb_idle) = 2 ∧
  is_Ok (Send pmb_demo sender_xyz vb_idle).
Proof.
  split; [reflexivity|]. split; [reflexivity|].
  destruct (Send_in_bounds pmb_demo sender_xyz vb_idle) as [[_ H] _].
  - apply pool_inv_place, pool_inv_place.
    apply (AddEmptyParticles_inv double_pool 2 pool0 _ [true; true; false; false; false;
             false; false; false; false; false] [0; 1]).
    + apply (Swarm_new_inv "swarm" {| Type_ := NoType |} 10); [lia | evaluate].
    + evaluate.
  - evaluate.
  - unfold sized. repeat constructor.
  - unfold sized. repeat constructor.
  - apply (bool_decide_unpack _). evaluate.
  - apply (bool_decide_unpack _). evaluate.
  - apply (bool_decide_unpack _). evaluate.
  - evaluate.
  - evaluate.
  - evaluate.
  - apply H. intros n Hn _. change (max_active_index_ sender_xyz) with 1 in Hn.
    assert (n = 0 ∨ n = 1) as [-> | ->] by lia; evaluate.
Defined.

(** *** A record sent and received *)

Section RoundTrip.
Variable increase_target : Z → Z.
Variable vbswarm_Receive : BoundarySwarm → BoundarySwarm.

(** X17. Round trip of the real attributes.  A particle in the active slot
    [sidx] that [Send] packs for neighbour [m] is, once the transport has
    delivered the message on channel [nid] of a peer that holds the same
    attributes, unpacked by [Receive] into one slot that was not active;
    there every real attribute other than a coordinate has the value it had
    in the sender's slot when [Send] was called, and so has every coordinate
    that lay inside the periodic domain. *)
Theorem real_attributes_round_trip (pmb_s pmb_r : MeshBlock) (s r : Swarm)
    (vb_s vb_r : BoundarySwarm) (b : bool) (s' : Swarm) (vb_s' : BoundarySwarm)
    (b' : bool) (r' : Swarm) (vb_r' : BoundarySwarm) (sidx m nid : Z) :
  let vbp := vbswarm_Receive vb_r in
  let nreal := zlength (realVector_ s) in
  let ix := pack_index "x" (realVector_ s) in
  let iy := pack_index "y" (realVector_ s) in
  let iz := pack_index "z" (realVector_ s) in
  let sent i := vget 0%Q (realVector_ s) i sidx in
  Send pmb_s s vb_s = Ok (b, s', vb_s') →
  nbmax (bd_var_ vb_s) ≤ zlength (send (bd_var_ vb_s)) →
  nbmax (bd_var_ vb_s) ≤ zlength (send_size vb_s) →
  0 ≤ sidx ≤ max_active_index_ s →
  zget_def false (mask_ s) sidx = true →
  zget_def 0 (blockIndex_ s) sidx = m → 0 ≤ m →
  0 ≤ ix < nreal → 0 ≤ iy < nreal → 0 ≤ iz < nreal →
  ix ≠ iy → ix ≠ iz → iy ≠ iz →
  label <$> realVector_ r = label <$> realVector_ s →
  length (intVector_ r) = length (intVector_ s) →
  pool_inv r → sized (nmax_pool_ r) (realVector_ r) →
  delivered vb_s' m vbp nid →
  channel pmb_r (flag (bd_var_ vbp)) nid = Some arrived →
  0 ≤ nid < nbmax (bd_var_ vbp) →
  Forall (λ size, 0 ≤ size) (recv_size vbp) →
  Receive increase_target vbswarm_Receive pmb_r r vb_r = Ok (b', r', vb_r') →
  ∃ sid,
    zget (mask_ r) sid ≠ Some true ∧ zget (mask_ r') sid = Some true ∧
    let got i := vget 0%Q (realVector_ r') i sid in
    (∀ i, 0 ≤ i < nreal → i ≠ ix → i ≠ iy → i ≠ iz → got i = sent i) ∧
    ((x1min pmb_r <= sent ix)%Q → (sent ix <= x1max pmb_r)%Q → got ix = sent ix) ∧
    ((x2min pmb_r <= sent iy)%Q → (sent iy <= x2max pmb_r)%Q → got iy = sent iy) ∧
    ((x3min pmb_r <= sent iz)%Q → (sent iz <= x3max pmb_r)%Q → got iz = sent iz).
Proof.
  intros vbp nreal ix iy iz sent HS Hsend Hsizes Hsidx Hact Hdest Hm Hix Hiy Hiz
    Hxy Hxz Hyz Hlabels Hints Hinv Hsized (Hps & Hsize & Hbuf) Hflag Hnid Hrecv HR.
  destruct (Send_packs _ _ _ _ _ _ _ _ HS Hsend Hsizes Hsidx Hact Hdest Hm)
    as (k & count & sbuf & Hk & _ & Hsbuf & Hcount & Hroom & Hpsize & Hrec).
  assert (Hlen : length (realVector_ r) = length (realVector_ s)).
  { by rewrite <- (length_fmap label (realVector_ r)), Hlabels, length_fmap. }
  assert (Hsame : GetParticleDataSize r = GetParticleDataSize s).
  { unfold GetParticleDataSize. by rewrite Hlen, Hints. }
  assert (Hpos : 0 < GetParticleDataSize s).
  { unfold GetParticleDataSize. fold nreal. lia. }
  rewrite Hpsize in Hps. rewrite Hcount in Hsize.
  assert (Harr : arrivals pmb_r vbp nid = count).
  { unfold arrivals. rewrite Hflag, Hps. unfold zget_def. rewrite Hsize. cbn.
    by apply Z.quot_mul; lia. }
  destruct (Receive_unpacks increase_target vbswarm_Receive pmb_r r vb_r b' r' vb_r' nid k)
    as (sid & Hfree & Hnew & Hvals); try done.
  { fold vbp. lia. }
  { fold vbp. intros n size Hn. unfold zget in Hn. destruct (decide (0 ≤ n)); [|done].
    by eapply (Forall_lookup_1 _ _ _ _ Hrecv). }
  { fold vbp. lia. }
  fold vbp in Hvals. rewrite Hsame, Hlen in Hvals.
  rewrite !(pack_index_labels _ _ _ Hlabels) in Hvals. fold ix iy iz nreal in Hvals.
  assert (Hread : ∀ i, 0 ≤ i < nreal →
    read_recv (recv (bd_var_ vbp)) nid (k * GetParticleDataSize s + i) = Ok (sent i)).
  { intros i Hi. specialize (Hrec i Hi).
    unfold zget_def in Hbuf. rewrite Hcount, Hsbuf in Hbuf. cbn [default from_option] in Hbuf.
    assert (Hlt : k * GetParticleDataSize s + i <
                  Z.of_nat (Z.to_nat (count * GetParticleDataSize s))).
    { assert (i < GetParticleDataSize s) by (unfold GetParticleDataSize; fold nreal; lia).
      rewrite Z2Nat.id by nia. nia. }
    unfold read_recv.
    destruct (zget (recv (bd_var_ vbp)) nid) as [rbuf|] eqn:Erbuf.
    - cbn [default from_option id] in Hbuf.
      rewrite <- (zget_take rbuf (Z.to_nat (count * GetParticleDataSize s))) by done.
      rewrite Hbuf, zget_take by done. by rewrite Hrec.
    - cbn [default from_option id] in Hbuf.
      rewrite <- (zget_take sbuf (Z.to_nat (count * GetParticleDataSize s))) in Hrec by done.
      rewrite <- Hbuf in Hrec. unfold zget in Hrec. destruct (decide _); [|done].
      by rewrite take_nil in Hrec. }
  exists sid. split; [done|]. split; [done|]. intros got. unfold got. split_and!.
  - intros i Hi Hnx Hny Hnz.
    destruct (Hvals i Hi) as (x & Hx & Hplain & _). rewrite Hread in Hx by done.
    injection Hx as <-. by apply Hplain.
  - intros Hlo Hhi.
    destruct (Hvals ix Hix) as (x & Hx & _ & Hfold & _). rewrite Hread in Hx by done.
    injection Hx as <-. rewrite Hfold by done. by apply periodic_fold_inside.
  - intros Hlo Hhi.
    destruct (Hvals iy Hiy) as (x & Hx & _ & _ & Hfold & _). rewrite Hread in Hx by done.
    injection Hx as <-. rewrite Hfold by done. by apply periodic_fold_inside.
  - intros Hlo Hhi.
    destruct (Hvals iz Hiz) as (x & Hx & _ & _ & _ & Hfold). rewrite Hread in Hx by done.
    injection Hx as <-. rewrite Hfold by done. by apply periodic_fold_inside.
Qed.

End RoundTrip.

(** The particle of slot 0 of [sender_w] arrives on the peer [store_w] with
    [w = 42] and [x = 2]. *)
Lemma real_attributes_round_trip_witness :
  labels (realVector_ sender_w) = ["x"; "y"; "z"; "w"] ∧
  vget 0%Q (realVector_ sender_w) 3 0 = 42%Q ∧
  ∃ sid, zget (mask_ store_w) sid ≠ Some true ∧
         zget (mask_ (swarm_of received_w)) sid = Some true ∧
         vget 0%Q (realVector_ (swarm_of received_w)) 3 sid = 42%Q ∧
         vget 0%Q (realVector_ (swarm_of received_w)) 0 sid = 2%Q.
Proof.
  split; [evaluate|]. split; [evaluate|].
  destruct (real_attributes_round_trip double_pool (deliver sent_w 1 0) pmb_demo pmb_demo
              sender_w store_w vb_idle vb_idle
              true (swarm_of (Send pmb_demo sender_w vb_idle)) sent_w
              false (swarm_of received_w) (sent_of received_w) 0 1 0)
    as (sid & Hfree & Hnew & Hw & Hx & _); try evaluate.
  - apply (reachable_inv double_pool).
    apply (reach_vars double_pool pool0), reachable_pool0.
  - unfold sized. repeat constructor.
  - change (Forall (λ size, 0 ≤ size) [4; 0]). repeat constructor; lia.
  - exists sid. split; [exact Hfree|]. split; [exact Hnew|]. split.
    + change 42%Q with (vget 0%Q (realVector_ sender_w) 3 0). apply Hw; evaluate.
    + change 2%Q with (vget 0%Q (realVector_ sender_w) (pack_index "x" (realVector_ sender_w)) 0).
      change 0 with (pack_index "x" (realVector_ sender_w)) at 2. apply Hx; evaluate.
Defined.

(** *** Receive: the particles already there *)

Section UnpackInts.
Variables (pmb : MeshBlock) (recvbufs : list (list Q)).
Variables (new_indices : list Z) (slots : list (Z * Z)).
Variables (psize real_vars_size int_vars_size ix iy iz : Z).

Lemma unpack_ints (nid bid sid : Z) (l : list Z) (vint vint1 : list (ParticleVariable Z)) :
  foldM (λ vint i, x ← read_recv recvbufs nid ((real_vars_size + bid) * psize + i);
                   Ok (vset vint i sid (Qtrunc x)))
    l vint = Ok vint1 →
  shape vint1 = shape vint ∧
  (∀ j σ, σ ≠ sid → vget 0 vint1 j σ = vget 0 vint j σ).
Proof.
  revert vint. induction l as [|i l IH]; intros vint; cbn.
  - by intros [= <-].
  - intros (vint' & Hstep & Hrest)%bind_Ok.
    apply bind_Ok in Hstep as (x & Hx & [= <-]).
    apply IH in Hrest as (Hshape & Hother). clear IH. split.
    + by rewrite Hshape, shape_vset.
    + intros j σ Hσ. rewrite Hother, vget_vset_ne; [done | by right | done].
Qed.

Lemma unpack_particle_ints (st st' : UnpackLoop) (n : Z) :
  unpack_particle pmb recvbufs new_indices slots psize real_vars_size int_vars_size
    ix iy iz st n = Ok st' →
  shape (ul_vint st') = shape (ul_vint st) ∧
  (∀ j σ, σ ≠ zget_def 0 new_indices n → vget 0 (ul_vint st') j σ = vget 0 (ul_vint st) j σ).
Proof.
  unfold unpack_particle. destruct (zget_def (0, 0) slots n) as [nid bid].
  intros (vreal1 & _ & H)%bind_Ok.
  apply bind_Ok in H as (vint1 & Hint & [= <-]). cbn [ul_vint].
  by apply unpack_ints in Hint.
Qed.

Lemma unpack_fold_ints (l : list Z) (st st' : UnpackLoop) :
  foldM (unpack_particle pmb recvbufs new_indices slots psize real_vars_size int_vars_size
           ix iy iz) l st = Ok st' →
  shape (ul_vint st') = shape (ul_vint st) ∧
  (∀ j σ, (∀ n, n ∈ l → zget_def 0 new_indices n ≠ σ) →
          vget 0 (ul_vint st') j σ = vget 0 (ul_vint st) j σ).
Proof.
  revert st. induction l as [|n0 l IH]; intros st; cbn.
  - by intros [= <-].
  - intros (st1 & Hstep & Hrest)%bind_Ok.
    apply unpack_particle_ints in Hstep as (Hshape1 & Hother1).
    apply IH in Hrest as (Hshape & Hother). clear IH. split.
    + by rewrite Hshape.
    + intros j σ Hσ. rewrite Hother, Hother1; [done | |].
      * intros Heq. apply (Hσ n0); [by left | done].
      * intros n Hn. apply Hσ. by right.
Qed.

End UnpackInts.

Section ReceiveFrame.
Variable increase_target : Z → Z.
Variable vbswarm_Receive : BoundarySwarm → BoundarySwarm.

(** X18. [Receive] leaves the particles that are already there alone: a slot
    that was active is active afterwards and keeps every attribute value,
    and no label changes.  When the records of the arrived channels number
    [total > 0], [num_active_] grows by [total]; when no record has arrived,
    the swarm is unchanged. *)
Theorem Receive_keeps_particles (pmb : MeshBlock) (r : Swarm) (vb : BoundarySwarm)
    (b : bool) (r' : Swarm) (vb' : BoundarySwarm) :
  let vbp := vbswarm_Receive vb in
  let total := zsum (arrivals pmb vbp <$> seqZ 0 (nbmax (bd_var_ vbp))) in
  pool_inv r →
  Receive increase_target vbswarm_Receive pmb r vb = Ok (b, r', vb') →
  (total ≤ 0 → r' = r) ∧
  (0 < total → num_active_ r' = num_active_ r + total) ∧
  labels (realVector_ r') = labels (realVector_ r) ∧
  labels (intVector_ r') = labels (intVector_ r) ∧
  (∀ n, zget (mask_ r) n = Some true →
        zget (mask_ r') n = Some true ∧
        ∀ i, vget 0%Q (realVector_ r') i n = vget 0%Q (realVector_ r) i n ∧
             vget 0 (intVector_ r') i n = vget 0 (intVector_ r) i n).
Proof.
  intros vbp total Hinv HR. unfold Receive in HR. fold vbp in HR.
  apply bind_Ok in HR as ([nrp tot] & Hcount & HR).
  apply count_received_fold in Hcount as (_ & _ & _ & Htot);
    [|apply NoDup_seqZ | intros n Hn%elem_of_seqZ0; rewrite length_replicate; lia].
  rewrite Z.add_0_l in Htot. fold total in Htot. subst tot.
  apply bind_Ok in HR as (r1 & Hr1 & HR).
  apply bind_Ok in HR as ([flags b1] & _ & [= _ <- _]).
  case_bool_decide as Htotal.
  - apply bind_Ok in Hr1 as ([[s1 new_mask] new_indices] & Hadd & Hr1).
    apply bind_Ok in Hr1 as (st & Hunpack & [= <-]).
    pose proof (AddEmptyParticles_slots _ _ _ _ _ _ Hinv Hadd) as Hslots. cbn zeta in Hslots.
    destruct Hslots as (Hrange & _ & _ & Hni & _ & _ & Hna & _ & Hfresh & Hmask & _ & _ & _ &
                        Hvals & Hlr & Hli).
    apply unpack_fold in Hunpack as Hreal. destruct Hreal as (Hshr & Hkeepr & _).
    apply unpack_fold_ints in Hunpack as (Hshi & Hkeepi).
    cbn [ul_vreal ul_vint] in *. cbn.
    split_and!; [lia | lia | | |].
    + rewrite <- Hlr. exact (shape_labels _ _ Hshr).
    + rewrite <- Hli. exact (shape_labels _ _ Hshi).
    + intros n Hn. split; [apply Hmask; by left|]. intros i.
      apply zget_Some_range in Hn as Hr. rewrite (inv_mask _ Hinv) in Hr.
      assert (Hnew : ∀ id, id ∈ seqZ 0 total → zget_def 0 new_indices id ≠ n).
      { intros id Hid%elem_of_seqZ0 Heq.
        assert (Hlen : zlength new_indices = total).
        { rewrite Hni, length_take. lia. }
        destruct (zget_in_range new_indices id) as [x Hx]; [lia|].
        unfold zget_def in Heq. rewrite Hx in Heq. cbn in Heq. subst x.
        unfold zget in Hx. case_decide; [|done].
        apply list_elem_of_lookup_2, Hfresh in Hx as [Hx _]. done. }
      rewrite Hkeepr, Hkeepi by done. by apply Hvals.
  - injection Hr1 as <-. split_and!; try done; lia.
Qed.

End ReceiveFrame.

Lemma Receive_keeps_particles_witness :
  num_active_ store_w = 0 ∧ num_active_ (swarm_of received_w) = 1 ∧
  labels (realVector_ (swarm_of received_w)) = ["x"; "y"; "z"; "w"].
Proof.
  split; [reflexivity|].
  destruct (Receive_keeps_particles double_pool (deliver sent_w 1 0) pmb_demo store_w vb_idle
              false (swarm_of received_w) (sent_of received_w))
    as (_ & Hna & Hl & _).
  - apply (reachable_inv double_pool).
    apply (reach_vars double_pool pool0), reachable_pool0.
  - by vm_compute.
  - split; [|exact Hl]. rewrite Hna by (by vm_compute). reflexivity.
Defined.

(** *** Send: the particles that leave *)

Lemma zsum_fmap_add {A : Type} (g h : A → Z) (l : list A) :
  zsum ((λ m, g m + h m) <$> l) = zsum (g <$> l) + zsum (h <$> l).
Proof. induction l as [|a l IH]; cbn; [done|]. unfold zsum in *. cbn. lia. Qed.

Lemma zsum_indicator (c : Z) (k : nat) :
  zsum ((λ m, if decide (c = m) then 1 else 0) <$> seqZ 0 (Z.of_nat k)) =
  if decide (0 ≤ c < Z.of_nat k) then 1 else 0.
Proof.
  induction k as [|k IH].
  - rewrite seqZ_nil by lia. cbn. by rewrite decide_False by lia.
  - rewrite seqZ_S, fmap_app. unfold zsum in *. rewrite foldr_app. cbn.
    rewrite Z.add_0_l, Z.add_0_r.
    assert (Hshift : ∀ (l : list Z) (a : Z), foldr Z.add a l = a + foldr Z.add 0 l).
    { clear. induction l as [|x l IH]; intros a; cbn; [lia|]. rewrite IH. lia. }
    rewrite Hshift, IH. repeat case_decide; lia.
Qed.

Lemma partition_count (M : list bool) (B : list Z) (l : list Z) (k : nat) :
  (∀ n, n ∈ l → zget_def false M n = true → 0 ≤ zget_def 0 B n →
        zget_def 0 B n < Z.of_nat k) →
  zsum ((λ m, zlength (filter (goes_to M B m) l)) <$> seqZ 0 (Z.of_nat k)) =
  zlength (filter (λ n, zget_def false M n = true ∧ 0 ≤ zget_def 0 B n) l).
Proof.
  induction l as [|a l IH]; intros Hr.
  - cbn. induction (seqZ 0 (Z.of_nat k)) as [|m ms IHm]; [done|]. cbn. unfold zsum in *. cbn. lia.
  - assert (Hone : ∀ m, zlength (filter (goes_to M B m) (a :: l)) =
              (if decide (goes_to M B m a) then 1 else 0) +
              zlength (filter (goes_to M B m) l)).
    { intros m. rewrite filter_cons. destruct (decide (goes_to M B m a)); cbn [length]; lia. }
    rewrite (list_fmap_ext _ _ (seqZ 0 (Z.of_nat k)) (λ _ m _, Hone m)).
    rewrite zsum_fmap_add, IH by (intros; apply Hr; [by right | done..]).
    rewrite filter_cons.
    destruct (decide (zget_def false M a = true ∧ 0 ≤ zget_def 0 B a)) as [[Ea Hb]|Hn].
    + rewrite (list_fmap_ext _ (λ m, if decide (zget_def 0 B a = m) then 1 else 0)
                 (seqZ 0 (Z.of_nat k))).
      2:{ intros _ m _. unfold goes_to.
          destruct (decide (zget_def false M a = true ∧ zget_def 0 B a = m)) as [[_ Hm]|Hm].
          - by rewrite decide_True.
          - rewrite decide_False; [done|]. intros ?. by apply Hm. }
      rewrite zsum_indicator.
      rewrite decide_True; [cbn [length]; lia|]. split; [done|].
      apply Hr; [by left | done | done].
    + destruct (decide (zget_def false M a = true)) as [Ea|Ea].
      * rewrite (list_fmap_ext _ (λ m, if decide (zget_def 0 B a = m) then 1 else 0)
                   (seqZ 0 (Z.of_nat k))).
        2:{ intros _ m _. unfold goes_to.
            destruct (decide (zget_def false M a = true ∧ zget_def 0 B a = m)) as [[_ Hm]|Hm].
            - by rewrite decide_True.
            - rewrite decide_False; [done|]. intros ?. by apply Hm. }
        rewrite zsum_indicator. rewrite decide_False; [lia|]. intros [? _]. by apply Hn.
      * rewrite (list_fmap_ext _ (λ _, 0) (seqZ 0 (Z.of_nat k))).
        2:{ intros _ m _. rewrite decide_False; [done|]. by intros [? _]. }
        assert (Hz : ∀ ms : list Z, zsum ((λ _, 0) <$> ms) = 0).
        { clear. induction ms as [|m ms IH]; [done|]. unfold zsum in *. cbn. lia. }
        rewrite Hz. lia.
Qed.

Lemma sl_sent_fold (num : list Z) (psize : Z) (l : list Z) (st : SizeLoop) :
  sl_sent (fold_left (size_buffer num psize) l st) =
  sl_sent st + zsum (zget_def 0 num <$> l).
Proof.
  revert st. induction l as [|n l IH]; intros st; cbn [fold_left].
  - cbn. lia.
  - rewrite IH. unfold size_buffer, zsum. cbn. lia.
Qed.

Section PackMarks.
Variables (pmb : MeshBlock) (num : list Z) (rows : list (list Z)) (psize : Z).
Variables (vint : list (ParticleVariable Z)) (nrank : list Z) (ix iy iz : Z).

Local Abbreviation step := (pack_step pmb num rows psize vint nrank ix iy iz).

Lemma pack_step_marked (st : PackLoop) (p : Z * Z) :
  packed_pair num p →
  pl_marked (step st p) = zset (pl_marked st) (slot_of rows p) true.
Proof.
  intros Hp. destruct p as [n m]. unfold pack_step, pack_particle, packed_pair, slot_of in *.
  cbn [fst snd] in *. rewrite bool_decide_eq_true_2 by done.
  destruct (write_values _ _) as [buf1 bi1]. destruct (write_values _ _) as [buf2 bi2].
  done.
Qed.

Lemma pack_fold_marked (l : list (Z * Z)) (st0 : PackLoop) :
  let st := fold_left step l st0 in
  length (pl_marked st) = length (pl_marked st0) ∧
  (∀ p, p ∈ l → packed_pair num p → 0 ≤ slot_of rows p < zlength (pl_marked st0) →
        zget (pl_marked st) (slot_of rows p) = Some true) ∧
  (∀ σ, (∀ p, p ∈ l → packed_pair num p → slot_of rows p ≠ σ) →
        zget (pl_marked st) σ = zget (pl_marked st0) σ).
Proof.
  induction l as [|q l IH] using rev_ind.
  - cbn. split_and!; [done | by intros p ?%elem_of_nil | done].
  - cbn zeta in *. rewrite fold_left_app. cbn [fold_left].
    set (st := fold_left step l st0) in *. destruct IH as (Hlen & Hin & Hout).
    destruct (decide (q.1 < zget_def 0 num q.2)) as [Hq|Hq].
    + rewrite pack_step_marked by done. split_and!.
      * by rewrite length_zset.
      * intros p Hp Hpp Hr. rewrite zget_zset.
        case_decide as Hc; [done|].
        apply elem_of_app in Hp as [Hp|Hp%list_elem_of_singleton]; [by apply Hin|].
        subst p. exfalso. apply Hc. split; [done|]. rewrite Hlen. done.
      * intros σ Hσ. rewrite zget_zset_ne.
        -- apply Hout. intros p Hp. apply Hσ. apply elem_of_app. by left.
        -- apply Hσ; [|done]. apply elem_of_app. right. by apply list_elem_of_singleton.
    + rewrite pack_step_skip by done. split_and!.
      * done.
      * intros p Hp Hpp Hr.
        apply elem_of_app in Hp as [Hp|Hp%list_elem_of_singleton]; [by apply Hin|].
        subst p. done.
      * intros σ Hσ. apply Hout. intros p Hp. apply Hσ. apply elem_of_app. by left.
Qed.

End PackMarks.

Lemma seqZ_to_nat (m n : Z) : seqZ m n = seqZ m (Z.of_nat (Z.to_nat n)).
Proof. unfold seqZ. by rewrite Nat2Z.id. Qed.

(** X19. [Send] takes the particles it sends out of the swarm.  On a pool
    without pending marks, the slots that leave are the active slots up to
    [max_active_index_] whose block index names a neighbour:
    [num_particles_sent_] is their number, [num_active_] drops by it, they
    become inactive and stand, in ascending order, in front of the old free
    list.  Every other slot keeps its state and its real attributes; the
    integer attributes and the block indices are untouched. *)
Theorem Send_removes_sent (pmb : MeshBlock) (s : Swarm) (vb : BoundarySwarm)
    (b : bool) (s' : Swarm) (vb' : BoundarySwarm) :
  pool_inv s → no_pending_marks s →
  Send pmb s vb = Ok (b, s', vb') →
  let sent := filter (λ n, zget_def false (mask_ s) n = true ∧
                           0 ≤ zget_def 0 (blockIndex_ s) n)
                (seqZ 0 (max_active_index_ s + 1)) in
  num_particles_sent_ s' = zlength sent ∧
  num_active_ s' = num_active_ s - zlength sent ∧
  free_indices_ s' = sent ++ free_indices_ s ∧
  (∀ n, zget (mask_ s') n = if decide (n ∈ sent) then Some false else zget (mask_ s) n) ∧
  (∀ n i, n ∉ sent → vget 0%Q (realVector_ s') i n = vget 0%Q (realVector_ s) i n) ∧
  intVector_ s' = intVector_ s ∧ blockIndex_ s' = blockIndex_ s ∧
  nmax_pool_ s' = nmax_pool_ s.
Proof.
  intros Hinv Hnp HS sent.
  unfold Send in HS. apply bind_Ok in HS as ([num msz] & Htally & HS).
  injection HS as _ Hs' _.
  unfold tally in Htally. apply tally_fold in Htally as (Hlen & Hrange & Hcount & Hmax).
  rewrite length_replicate in *.
  assert (Hnum : ∀ m', 0 ≤ m' → zget_def 0 num m' = zlength (destined s m')).
  { intros m' Hm'. rewrite Hcount by done. unfold zget_def. rewrite zget_replicate.
    by case_decide. }
  assert (Hle : ∀ m', zget_def 0 num m' ≤ msz).
  { apply Hmax. intros m'. unfold zget_def. rewrite zget_replicate. by case_decide. }
  set (psize := GetParticleDataSize s) in *.
  set (msz' := Z.max 1 msz) in *.
  destruct (index_fold (mask_ s) (blockIndex_ s) (Z.to_nat (nbmax (bd_var_ vb)))
              (Z.to_nat msz') (seqZ 0 (max_active_index_ s + 1))) as (_ & _ & Hrows).
  { done. }
  { intros m' Hm'. specialize (Hle m'). rewrite Hnum in Hle by lia.
    unfold destined in Hle. lia. }
  fold (index_rows s (nbmax (bd_var_ vb)) msz') in Hrows.
  set (rows := index_rows s (nbmax (bd_var_ vb)) msz') in *.
  assert (Hrow : ∀ m' j, 0 ≤ m' < nbmax (bd_var_ vb) → (j < length (destined s m'))%nat →
            zget (zget_def [] rows m') (Z.of_nat j) = destined s m' !! j).
  { intros m' j Hm' Hj. apply Hrows; [lia | done]. }
  clear Hrows.
  set (st0 := {| sl_send := send (bd_var_ vb); sl_send_size := send_size vb; sl_sent := 0 |})
    in *.
  set (sz := fold_left (size_buffer num psize) (seqZ 0 (nbmax (bd_var_ vb))) st0) in *.
  unfold pack_buffers in Hs'. rewrite nested_fold in Hs'.
  set (pairs := n ← seqZ 0 (msz' + 1); m0 ← seqZ 0 (nbmax (bd_var_ vb)); [(n, m0)]) in *.
  set (nrank := _ <$> seqZ 0 (nbmax (bd_var_ vb))) in *.
  set (st1 := {| pl_send := sl_send sz; pl_marked := marked_for_removal_ s;
                 pl_vreal := realVector_ s |}) in *.
  assert (Hslot : ∀ p, p ∈ pairs → packed_pair num p →
            destined s p.2 !! Z.to_nat p.1 = Some (slot_of rows p)).
  { intros [n m0] [Hn%elem_of_seqZ0 Hm0%elem_of_seqZ0]%elem_of_pairs Hp.
    unfold packed_pair, slot_of in *. cbn [fst snd] in *. rewrite Hnum in Hp by lia.
    destruct (lookup_lt_is_Some_2 (destined s m0) (Z.to_nat n)) as [σ Hσ]; [lia|].
    rewrite Hσ. f_equal. symmetry. apply zget_def_Some.
    rewrite <- (Z2Nat.id n) by lia. rewrite Hrow by lia. done. }
  assert (Hpacked_sent : ∀ p, p ∈ pairs → packed_pair num p → slot_of rows p ∈ sent).
  { intros [n m0] Hp Hpp. pose proof (Hslot _ Hp Hpp) as H1. cbn [fst snd] in H1.
    apply list_elem_of_lookup_2, elem_of_destined in H1 as (Hr & Ha & Hb).
    apply elem_of_pairs in Hp as [_ Hm0%elem_of_seqZ0]. unfold sent.
    rewrite list_elem_of_filter, elem_of_seqZ0. split; [split; [done | lia] | lia]. }
  assert (Hsent_packed : ∀ n, n ∈ sent →
            ∃ p, p ∈ pairs ∧ packed_pair num p ∧ slot_of rows p = n).
  { intros n [[Ha Hb] Hn%elem_of_seqZ0]%list_elem_of_filter.
    set (m := zget_def 0 (blockIndex_ s) n) in *.
    assert (Hmr : m < nbmax (bd_var_ vb)).
    { assert (m < Z.of_nat (Z.to_nat (nbmax (bd_var_ vb)))); [|lia].
      apply Hrange; [by apply elem_of_seqZ0 | done | done]. }
    assert (Hin : n ∈ destined s m) by (apply elem_of_destined; split_and!; (lia || done)).
    apply list_elem_of_lookup in Hin as [k Hk]. apply lookup_lt_Some in Hk as Hklt.
    assert (Hp : (Z.of_nat k, m) ∈ pairs).
    { apply elem_of_pairs. split; apply elem_of_seqZ0; [|lia].
      specialize (Hle m). rewrite Hnum in Hle by done. unfold msz'. lia. }
    assert (Hpp : packed_pair num (Z.of_nat k, m)).
    { unfold packed_pair. cbn. rewrite Hnum by done. lia. }
    exists (Z.of_nat k, m). split; [done|]. split; [done|].
    pose proof (Hslot _ Hp Hpp) as H1. cbn [fst snd] in H1.
    rewrite Nat2Z.id, Hk in H1. congruence. }
  destruct (pack_fold pmb num rows psize (intVector_ s) nrank
              (pack_index "x" (realVector_ s)) (pack_index "y" (realVector_ s))
              (pack_index "z" (realVector_ s)) pairs st1)
    as (_ & _ & _ & Hframe & _).
  { apply NoDup_pairs; apply NoDup_seqZ. }
  { intros [n1 m1] [n2 m2] Hp Hq Hpp Hqp Heq.
    pose proof (Hslot _ Hp Hpp) as H1. pose proof (Hslot _ Hq Hqp) as H2.
    rewrite Heq in H1. cbn [fst snd] in *.
    assert (Hm12 : m1 = m2).
    { pose proof H1 as H1'. pose proof H2 as H2'.
      apply list_elem_of_lookup_2, elem_of_destined in H1' as (_ & _ & E1).
      apply list_elem_of_lookup_2, elem_of_destined in H2' as (_ & _ & E2). congruence. }
    subst m2.
    assert (Hnd : NoDup (destined s m1)) by (apply NoDup_filter, NoDup_seqZ).
    pose proof (NoDup_lookup _ _ _ _ Hnd H1 H2) as Hn12.
    apply elem_of_pairs in Hp as [Hp%elem_of_seqZ0 _].
    apply elem_of_pairs in Hq as [Hq%elem_of_seqZ0 _].
    f_equal; lia. }
  { unfold psize, GetParticleDataSize. lia. }
  { done. }
  destruct (pack_fold_marked pmb num rows psize (intVector_ s) nrank
              (pack_index "x" (realVector_ s)) (pack_index "y" (realVector_ s))
              (pack_index "z" (realVector_ s)) pairs st1) as (Hmlen & Hmin & Hmout).
  fold (pack_step pmb num rows psize (intVector_ s) nrank
          (pack_index "x" (realVector_ s)) (pack_index "y" (realVector_ s))
          (pack_index "z" (realVector_ s))) in Hs'.
  set (packed := fold_left _ pairs st1) in *.
  cbn [pl_marked pl_vreal st1] in Hmlen, Hmin, Hmout, Hframe.
  match type of Hs' with RemoveMarkedParticles ?x = _ => set (s2 := x) in * end.
  assert (Hgone : filter (λ n, pending s2 n = true) (seqZ 0 (max_active_index_ s + 1)) = sent).
  { apply filter_ext_in. intros n Hn%elem_of_seqZ0. unfold pending, s2. cbn.
    rewrite andb_true_iff. split.
    - intros [Ha Hm]. split; [done|].
      destruct (decide (0 ≤ zget_def 0 (blockIndex_ s) n)) as [|Hneg]; [done|]. exfalso.
      unfold zget_def in Hm. rewrite Hmout in Hm.
      + specialize (Hnp n ltac:(lia)). rewrite Ha in Hnp. cbn in Hnp.
        unfold zget_def in Hnp. by rewrite Hnp in Hm.
      + intros p Hp Hpp <-. apply Hpacked_sent in Hp; [|done].
        apply list_elem_of_filter in Hp as [[_ ?] _]. done.
    - intros [Ha Hb]. split; [done|].
      destruct (Hsent_packed n) as (p & Hp & Hpp & <-).
      { apply list_elem_of_filter. split; [done | by apply elem_of_seqZ0]. }
      unfold zget_def. rewrite Hmin; [done | done | done |].
      apply zget_def_true, zget_Some_range in Ha.
      rewrite (inv_marked _ Hinv), <- (inv_mask _ Hinv). done. }
  unfold RemoveMarkedParticles in Hs'.
  change (max_active_index_ s2) with (max_active_index_ s) in Hs'.
  destruct (decide (-1 ≤ max_active_index_ s)) as [Hm1|Hm1]; [|destruct Hinv; lia].
  rewrite seqZ_to_nat in Hs'.
  destruct (fold_remove_slot_desc (Z.to_nat (max_active_index_ s + 1)) s2)
    as (Hfree & Hna & Hmask & _ & Hst).
  rewrite Hs' in Hfree, Hna, Hmask, Hst.
  rewrite <- seqZ_to_nat, Hgone in Hfree, Hna, Hmask.
  split_and!.
  - rewrite Hst. cbn [num_particles_sent_ set_pool]. unfold s2. cbn [num_particles_sent_].
    unfold sz. rewrite sl_sent_fold. cbn [sl_sent st0]. rewrite Z.add_0_l.
    rewrite seqZ_to_nat.
    rewrite (list_fmap_ext _ (λ m, zlength (filter (goes_to (mask_ s) (blockIndex_ s) m)
                                              (seqZ 0 (max_active_index_ s + 1))))
               (seqZ 0 (Z.of_nat (Z.to_nat (nbmax (bd_var_ vb)))))).
    2:{ intros _ m Hm%list_elem_of_lookup_2%elem_of_seqZ0. apply Hnum. lia. }
    by apply partition_count.
  - done.
  - done.
  - done.
  - intros n i Hn. rewrite Hst. cbn [realVector_ set_pool]. unfold s2. cbn [realVector_ set_vars].
    apply Hframe. intros p Hp Hpp <-. by apply Hn, Hpacked_sent.
  - rewrite Hst. done.
  - rewrite Hst. done.
  - rewrite Hst. done.
Qed.

(** Of the two particles of [sender_xyz], the one of slot 0 leaves. *)
Lemma Send_removes_sent_witness :
  active_indices sender_xyz = [0; 1] ∧
  ∃ s' vb', Send pmb_demo sender_xyz vb_idle = Ok (true, s', vb') ∧
            num_particles_sent_ s' = 1 ∧ num_active_ s' = 1 ∧
            free_indices_ s' = [0; 2; 3; 4; 5; 6; 7; 8; 9].
Proof.
  split; [by vm_compute|].
  assert (E : Send pmb_demo sender_xyz vb_idle =
              Ok (true, swarm_of (Send pmb_demo sender_xyz vb_idle), sent_xyz))
    by (by vm_compute).
  destruct (Send_removes_sent pmb_demo sender_xyz vb_idle true
              (swarm_of (Send pmb_demo sender_xyz vb_idle)) sent_xyz)
    as (Hsent & Hna & Hfree & _).
  - apply pool_inv_place, pool_inv_place.
    apply (AddEmptyParticles_inv double_pool 2 pool0 _ [true; true; false; false; false;
             false; false; false; false; false] [0; 1]).
    + apply (Swarm_new_inv "swarm" {| Type_ := NoType |} 10); [lia | by vm_compute].
    + by vm_compute.
  - intros n Hn. change (max_active_index_ sender_xyz) with 1 in Hn.
    assert (n = 0 ∨ n = 1) as [-> | ->] by lia; by vm_compute.
  - exact E.
  - eexists _, _. split; [exact E|]. rewrite Hsent, Hna, Hfree. split_and!; by vm_compute.
Defined.

(** *** Send: the layout of a record *)

Section PackInts.
Variables (pmb : MeshBlock) (num : list Z) (rows : list (list Z)) (psize : Z).
Variables (vint : list (ParticleVariable Z)) (nrank : list Z) (ix iy iz : Z).

Local Abbreviation step := (pack_step pmb num rows psize vint nrank ix iy iz).

Lemma pack_step_ints (st : PackLoop) (p : Z * Z) :
  packed_pair num p →
  let st' := step st p in
  let nreal := zlength (pl_vreal st) in
  0 ≤ p.2 < zlength (pl_send st) →
  ∀ i, 0 ≤ i < zlength vint →
       0 ≤ p.1 * psize + nreal + i < zlength (zget_def [] (pl_send st) p.2) →
       zget (zget_def [] (pl_send st') p.2) (p.1 * psize + nreal + i)
       = Some (inject_Z (vget 0 vint i (slot_of rows p))).
Proof.
  intros Hp. destruct p as [n m]. unfold pack_step, pack_particle, packed_pair, slot_of in *.
  cbn [fst snd] in *. rewrite bool_decide_eq_true_2 by done.
  set (sidx := zget_def 0 (zget_def [] rows m) n).
  set (reals := (λ v, zget_def 0%Q (data v) sidx) <$> pl_vreal st).
  set (ints := (λ v, inject_Z (zget_def 0 (data v) sidx)) <$> vint).
  set (buf0 := zget_def [] (pl_send st) m).
  pose proof (write_values_spec reals buf0 (n * psize)) as Hw1.
  destruct (write_values reals (buf0, n * psize)) as [buf1 bi1]. cbn [fst snd] in Hw1.
  destruct Hw1 as (Hbi1 & Hlen1 & Hget1).
  pose proof (write_values_spec ints buf1 bi1) as Hw2.
  destruct (write_values ints (buf1, bi1)) as [buf2 bi2]. cbn [fst snd] in Hw2.
  destruct Hw2 as (Hbi2 & Hlen2 & Hget2).
  cbn [pl_send pl_vreal pl_marked].
  assert (Hlr : length reals = length (pl_vreal st)) by (unfold reals; by rewrite length_fmap).
  assert (Hli : length ints = length vint) by (unfold ints; by rewrite length_fmap).
  intros Hm i Hi Hj. rewrite zget_def_zset, decide_True by lia.
  rewrite Hget2, decide_True by lia.
  replace (Z.to_nat (n * psize + zlength (pl_vreal st) + i - bi1)) with (Z.to_nat i) by lia.
  unfold ints. rewrite list_lookup_fmap. unfold vget, zget.
  rewrite decide_True by lia.
  destruct (vint !! Z.to_nat i) as [v|] eqn:Hv; [done|].
  apply lookup_ge_None in Hv. lia.
Qed.

Lemma pack_fold_ints (l : list (Z * Z)) (st0 : PackLoop) :
  NoDup l →
  (∀ p q, p ∈ l → q ∈ l → packed_pair num p → packed_pair num q →
          slot_of rows p = slot_of rows q → p = q) →
  0 ≤ psize → psize = zlength (pl_vreal st0) + zlength vint →
  let st := fold_left step l st0 in
  ∀ p, p ∈ l → packed_pair num p → 0 ≤ p.1 → 0 ≤ p.2 < zlength (pl_send st0) →
       (p.1 + 1) * psize ≤ zlength (zget_def [] (pl_send st0) p.2) →
       ∀ i, 0 ≤ i < zlength vint →
            zget (zget_def [] (pl_send st) p.2) (p.1 * psize + zlength (pl_vreal st0) + i)
            = Some (inject_Z (vget 0 vint i (slot_of rows p))).
Proof.
  intros Hnd Hinj Hps0 Hps.
  induction l as [|p l IH] using rev_ind.
  - cbn. by intros p ?%elem_of_nil.
  - apply NoDup_app in Hnd as (Hnd & Hfresh & _).
    assert (Hinj' : ∀ p' q', p' ∈ l → q' ∈ l → packed_pair num p' → packed_pair num q' →
              slot_of rows p' = slot_of rows q' → p' = q').
    { intros p' q' Hp' Hq'. apply Hinj; apply elem_of_app; by left. }
    specialize (IH Hnd Hinj').
    destruct (pack_fold pmb num rows psize vint nrank ix iy iz l st0 Hnd Hinj' Hps0 Hps)
      as (Hshape & Hlen & Hlens & _ & _).
    rewrite fold_left_app. cbn [fold_left].
    set (st := fold_left step l st0) in *. cbn zeta in *.
    apply shape_length in Hshape as Hnreal.
    destruct (decide (p.1 < zget_def 0 num p.2)) as [Hp|Hp].
    2:{ rewrite pack_step_skip by done.
        intros q [Hq|Hq%list_elem_of_singleton]%elem_of_app ?; [by apply IH | by subst]. }
    destruct (pack_step_spec pmb num rows psize vint nrank ix iy iz st p Hp)
      as (_ & _ & _ & _ & Hk1 & _).
    intros q Hq Hqp Hq1 Hq2 Hroom i Hi.
    apply elem_of_app in Hq as [Hq|Hq%list_elem_of_singleton].
    + rewrite Hk1; [by apply IH|].
      destruct (decide (q.2 = p.2)) as [Heq|]; [right | by left].
      assert (Hne : q.1 ≠ p.1).
      { intros Heq1. apply (Hfresh q Hq). destruct p, q; cbn in *; subst. by left. }
      rewrite Hnreal. nia.
    + subst q. rewrite <- Hnreal.
      apply (pack_step_ints st p Hp); [lia | done |]. rewrite Hlens, Hnreal. nia.
Qed.

End PackInts.

(** X20. The record [Send] writes for a particle: the particles that go to
    neighbour [m] are packed in ascending order of their slots, the record
    of the [k]-th of them starts at [k * particle_size], and it holds the
    real attributes in the order of [realVector_] followed by the integer
    attributes, converted, in the order of [intVector_], with the values
    they had when [Send] was called. *)
Theorem Send_record_layout (pmb : MeshBlock) (s : Swarm) (vb : BoundarySwarm)
    (b : bool) (s' : Swarm) (vb' : BoundarySwarm) (sidx m : Z) :
  Send pmb s vb = Ok (b, s', vb') →
  nbmax (bd_var_ vb) ≤ zlength (send (bd_var_ vb)) →
  nbmax (bd_var_ vb) ≤ zlength (send_size vb) →
  0 ≤ sidx ≤ max_active_index_ s →
  zget_def false (mask_ s) sidx = true →
  zget_def 0 (blockIndex_ s) sidx = m → 0 ≤ m →
  let psize := GetParticleDataSize s in
  let nreal := zlength (realVector_ s) in
  let count := zlength (destined s m) in
  ∃ (k : nat) sbuf,
    destined s m !! k = Some sidx ∧
    psize = nreal + zlength (intVector_ s) ∧
    particle_size vb' = psize ∧
    zget (send_size vb') m = Some (count * psize) ∧
    zget (send (bd_var_ vb')) m = Some sbuf ∧
    count * psize ≤ zlength sbuf ∧
    (∀ i, 0 ≤ i < nreal →
          zget sbuf (Z.of_nat k * psize + i) = Some (vget 0%Q (realVector_ s) i sidx)) ∧
    (∀ i, 0 ≤ i < zlength (intVector_ s) →
          zget sbuf (Z.of_nat k * psize + nreal + i) =
          Some (inject_Z (vget 0 (intVector_ s) i sidx))).
Proof.
  intros HS Hsend Hsizes Hsidx Hact Hdest Hm psize nreal count.
  unfold Send in HS. apply bind_Ok in HS as ([num msz] & Htally & [= _ _ <-]).
  fold psize. unfold tally in Htally.
  apply tally_fold in Htally as (Hlen & Hrange & Hcount & Hmax).
  rewrite length_replicate in *.
  assert (Hnum : ∀ m', 0 ≤ m' → zget_def 0 num m' = zlength (destined s m')).
  { intros m' Hm'. rewrite Hcount by done. unfold zget_def. rewrite zget_replicate.
    by case_decide. }
  assert (Hle : ∀ m', zget_def 0 num m' ≤ msz).
  { apply Hmax. intros m'. unfold zget_def. rewrite zget_replicate. by case_decide. }
  assert (Hin : sidx ∈ destined s m) by (by apply elem_of_destined).
  assert (Hmr : 0 ≤ m < nbmax (bd_var_ vb)).
  { split; [done|]. specialize (Hrange sidx). rewrite Hdest in Hrange.
    assert (m < Z.of_nat (Z.to_nat (nbmax (bd_var_ vb)))); [|lia].
    apply Hrange; [apply elem_of_seqZ0; lia | done | done]. }
  apply list_elem_of_lookup in Hin as [k Hk]. apply lookup_lt_Some in Hk as Hklt.
  set (msz' := Z.max 1 msz) in *.
  destruct (index_fold (mask_ s) (blockIndex_ s) (Z.to_nat (nbmax (bd_var_ vb)))
              (Z.to_nat msz') (seqZ 0 (max_active_index_ s + 1))) as (_ & _ & Hrows).
  { done. }
  { intros m' Hm'. specialize (Hle m'). rewrite Hnum in Hle by lia.
    unfold destined in Hle. lia. }
  fold (index_rows s (nbmax (bd_var_ vb)) msz') in Hrows.
  set (rows := index_rows s (nbmax (bd_var_ vb)) msz') in *.
  assert (Hrow : ∀ m' j, 0 ≤ m' < nbmax (bd_var_ vb) → (j < length (destined s m'))%nat →
            zget (zget_def [] rows m') (Z.of_nat j) = destined s m' !! j).
  { intros m' j Hm' Hj. apply Hrows; [lia | done]. }
  clear Hrows.
  set (st0 := {| sl_send := send (bd_var_ vb); sl_send_size := send_size vb; sl_sent := 0 |}).
  destruct (size_buffer_fold num psize (seqZ 0 (nbmax (bd_var_ vb))) st0)
    as (Hsl & Hsl2 & _ & Hroom & Hsize).
  set (sz := fold_left (size_buffer num psize) (seqZ 0 (nbmax (bd_var_ vb))) st0) in *.
  unfold pack_buffers. rewrite nested_fold.
  set (pairs := n ← seqZ 0 (msz' + 1); m0 ← seqZ 0 (nbmax (bd_var_ vb)); [(n, m0)]).
  set (nrank := _ <$> seqZ 0 (nbmax (bd_var_ vb))).
  set (st1 := {| pl_send := sl_send sz; pl_marked := marked_for_removal_ s;
                 pl_vreal := realVector_ s |}).
  assert (Hslot : ∀ p, p ∈ pairs → packed_pair num p →
            destined s p.2 !! Z.to_nat p.1 = Some (slot_of rows p)).
  { intros [n m0] [Hn%elem_of_seqZ0 Hm0%elem_of_seqZ0]%elem_of_pairs Hp.
    unfold packed_pair, slot_of in *. cbn [fst snd] in *. rewrite Hnum in Hp by lia.
    destruct (lookup_lt_is_Some_2 (destined s m0) (Z.to_nat n)) as [σ Hσ]; [lia|].
    rewrite Hσ. f_equal. symmetry. apply zget_def_Some.
    rewrite <- (Z2Nat.id n) by lia. rewrite Hrow by lia. done. }
  assert (Hnd : NoDup pairs) by (apply NoDup_pairs; apply NoDup_seqZ).
  assert (Hinj : ∀ p q, p ∈ pairs → q ∈ pairs → packed_pair num p → packed_pair num q →
            slot_of rows p = slot_of rows q → p = q).
  { intros [n1 m1] [n2 m2] Hp Hq Hpp Hqp Heq.
    pose proof (Hslot _ Hp Hpp) as H1. pose proof (Hslot _ Hq Hqp) as H2.
    rewrite Heq in H1. cbn [fst snd] in *.
    assert (Hm12 : m1 = m2).
    { pose proof H1 as H1'. pose proof H2 as H2'.
      apply list_elem_of_lookup_2, elem_of_destined in H1' as (_ & _ & E1).
      apply list_elem_of_lookup_2, elem_of_destined in H2' as (_ & _ & E2). congruence. }
    subst m2.
    assert (Hndd : NoDup (destined s m1)) by (apply NoDup_filter, NoDup_seqZ).
    pose proof (NoDup_lookup _ _ _ _ Hndd H1 H2) as Hn12.
    apply elem_of_pairs in Hp as [Hp%elem_of_seqZ0 _].
    apply elem_of_pairs in Hq as [Hq%elem_of_seqZ0 _].
    f_equal; lia. }
  assert (Hps0 : 0 ≤ psize) by (unfold psize, GetParticleDataSize; lia).
  assert (Hps : psize = zlength (pl_vreal st1) + zlength (intVector_ s)) by done.
  destruct (pack_fold pmb num rows psize (intVector_ s) nrank
              (pack_index "x" (realVector_ s)) (pack_index "y" (realVector_ s))
              (pack_index "z" (realVector_ s)) pairs st1 Hnd Hinj Hps0 Hps)
    as (_ & Hpl & Hlens & _ & Hrec).
  pose proof (pack_fold_ints pmb num rows psize (intVector_ s) nrank
                (pack_index "x" (realVector_ s)) (pack_index "y" (realVector_ s))
                (pack_index "z" (realVector_ s)) pairs st1 Hnd Hinj Hps0 Hps) as Hreci.
  cbn zeta in Hreci.
  set (packed := fold_left _ pairs st1) in *.
  cbn [set_send send bd_var_ send_size particle_size].
  assert (Hmlen : 0 ≤ m < zlength (pl_send packed)).
  { rewrite Hpl. unfold st1. cbn [pl_send]. rewrite Hsl. unfold st0. cbn [sl_send]. lia. }
  destruct (zget_in_range _ _ Hmlen) as [sbuf Hsbuf].
  exists k, sbuf.
  assert (Hp : (Z.of_nat k, m) ∈ pairs).
  { apply elem_of_pairs. split; apply elem_of_seqZ0; [|done].
    specialize (Hle m). rewrite Hnum in Hle by done. unfold msz'. lia. }
  assert (Hpp : packed_pair num (Z.of_nat k, m)).
  { unfold packed_pair. cbn. rewrite Hnum by done. lia. }
  assert (Hso : slot_of rows (Z.of_nat k, m) = sidx).
  { pose proof (Hslot _ Hp Hpp) as H1. cbn [fst snd] in H1.
    rewrite Nat2Z.id, Hk in H1. congruence. }
  specialize (Hroom m ltac:(by apply elem_of_seqZ0) (NoDup_seqZ _ _) ltac:(cbn; lia)).
  rewrite Hnum in Hroom by done.
  assert (Hst1len : 0 ≤ m < zlength (pl_send st1)).
  { unfold st1. cbn [pl_send]. rewrite Hsl. unfold st0. cbn [sl_send]. lia. }
  assert (Hst1room : (Z.of_nat k + 1) * psize ≤ zlength (zget_def [] (pl_send st1) m)).
  { unfold st1. cbn [pl_send]. fold count in Hroom. unfold count in *. nia. }
  split_and!; try done.
  - rewrite Hsize; [by rewrite Hnum | by apply elem_of_seqZ0 | apply NoDup_seqZ | cbn; lia].
  - specialize (Hlens m).
    rewrite (zget_def_Some _ _ _ _ Hsbuf) in Hlens. rewrite Hlens. done.
  - intros i Hi. specialize (Hrec (Z.of_nat k, m) Hp Hpp). cbn [fst snd] in Hrec.
    rewrite Hso in Hrec. rewrite (zget_def_Some _ _ _ _ Hsbuf) in Hrec.
    apply Hrec; [lia | done | done | done].
  - intros i Hi. specialize (Hreci (Z.of_nat k, m) Hp Hpp). cbn [fst snd] in Hreci.
    rewrite Hso in Hreci. rewrite (zget_def_Some _ _ _ _ Hsbuf) in Hreci.
    apply Hreci; [lia | done | done | done].
Qed.

(** The record of the particle of slot 0 of [sender_id]: [x], [y], [z],
    then [id]. *)
Lemma Send_record_layout_witness :
  vget 0 (intVector_ sender_id) 0 0 = 7 ∧
  ∃ sbuf, zget (send (bd_var_ sent_id)) 1 = Some sbuf ∧
          zget sbuf 0 = Some (-1)%Q ∧ zget sbuf 3 = Some (inject_Z 7).
Proof.
  split; [reflexivity|].
  destruct (Send_record_layout pmb_demo sender_id vb_idle true
              (swarm_of (Send pmb_demo sender_id vb_idle)) sent_id 0 1)
    as (k & sbuf & Hk & _ & _ & _ & Hsbuf & _ & Hr & Hi); try evaluate.
  assert (k = 0%nat) as ->.
  { change (destined sender_id 1) with [0] in Hk.
    destruct k as [|k]; [reflexivity|]. destruct k; discriminate Hk. }
  exists sbuf. split; [exact Hsbuf|]. split.
  - apply (Hr 0). evaluate.
  - apply (Hi 0). evaluate.
Defined.

(** ** The coordinates stay in front *)

Lemma take_3_length {A : Type} (l : list A) (a b c : A) :
  take 3 l = [a; b; c] → (3 ≤ length l)%nat.
Proof.
  intros H. apply (f_equal length) in H. rewrite length_take in H. cbn [length] in H. lia.
Qed.

Lemma swap_pop_prefix {T : Type} (pre : list T) (x : T) (post : list T) :
  ∃ tl, swap_pop (pre ++ x :: post) (zlength pre) = Ok (pre ++ tl).
Proof.
  destruct (swap_pop_spec pre x post) as (v' & Hv & _ & Hnil). rewrite Hv.
  destruct post as [|y post _] using rev_ind.
  - exists []. by rewrite app_nil_r, Hnil.
  - exists (y :: post). f_equal. revert Hv. unfold swap_pop.
    assert (Hget : zget (pre ++ x :: post ++ [y]) (zlength pre) = Some x).
    { unfold zget. rewrite decide_True by lia. rewrite Nat2Z.id. by apply list_lookup_middle. }
    assert (Hlast : last (pre ++ x :: post ++ [y]) = Some y).
    { replace (pre ++ x :: post ++ [y]) with ((pre ++ x :: post) ++ [y])
        by (by rewrite <- app_assoc). apply last_snoc. }
    rewrite Hget, Hlast.
    rewrite bool_decide_eq_true_2 by (rewrite length_app; cbn; rewrite length_app; cbn; lia).
    unfold zset. rewrite decide_True by lia. rewrite Nat2Z.id.
    rewrite insert_app_r_alt by lia. rewrite Nat.sub_diag. cbn.
    replace (pre ++ y :: post ++ [y]) with ((pre ++ y :: post) ++ [y])
      by (by rewrite <- app_assoc).
    rewrite removelast_last. by intros [= <-].
Qed.

(** [Remove] of a label that no integer attribute carries leaves the real
    attributes in front of the one it removes where they are. *)
Lemma Remove_keeps_prefix (lbl : string) (s s' : Swarm) (k : nat) :
  lbl ∉ labels (intVector_ s) → lbl ∉ take k (labels (realVector_ s)) →
  Remove lbl s = Ok s' →
  take k (labels (realVector_ s')) = take k (labels (realVector_ s)).
Proof.
  intros Hint Hk. unfold Remove.
  pose proof (find_label_fst lbl (intVector_ s) 0) as Hfi.
  destruct (find_label lbl (intVector_ s) 0) as [fi idx]. cbn in Hfi.
  rewrite bool_decide_eq_false_2 in Hfi by done. subst fi. cbn [mbind Result_bind].
  destruct (find_label lbl (realVector_ s) 0) as [[] idr] eqn:Er; [|done].
  apply find_label_found in Er as (pre & v & post & Hv & Hl & Hpre & ->).
  rewrite Hv, Z.add_0_l.
  destruct (swap_pop_prefix pre v post) as (tl & ->). cbn. intros [= <-]. cbn.
  assert (Hle : (k ≤ length pre)%nat).
  { destruct (decide (k ≤ length pre)%nat) as [|Hgt]; [done|]. exfalso. apply Hk.
    rewrite Hv. unfold labels. rewrite fmap_app, fmap_cons, Hl.
    apply elem_of_take. exists (length pre). split; [|lia].
    rewrite <- (length_fmap label pre). by apply list_lookup_middle. }
  unfold labels. rewrite !fmap_app.
  rewrite !take_app_le by (rewrite length_fmap; lia). done.
Qed.

Lemma Add_labelArray_app (labelArray : list string) (md : Metadata) (s s' : Swarm) :
  Add_labelArray labelArray md s = Ok s' → ∃ v, realVector_ s' = realVector_ s ++ v.
Proof.
  unfold Add_labelArray. revert s. induction labelArray as [|l la IH]; intros s; cbn.
  - intros [= <-]. exists []. by rewrite app_nil_r.
  - intros (s1 & H1 & H2)%bind_Ok. apply Add_vars in H1 as [[v1 H1] _].
    destruct (IH s1 H2) as [v2 Hv2]. exists (v1 ++ v2). by rewrite Hv2, H1, app_assoc.
Qed.

Lemma setPoolMax_labels (nmax_pool : Z) (s s' : Swarm) :
  setPoolMax nmax_pool s = Ok s' → labels (realVector_ s') = labels (realVector_ s).
Proof.
  unfold setPoolMax. case_bool_decide; [|done]. intros [= <-]. cbn. apply regrow_labels.
Qed.

Lemma RemoveMarkedParticles_vars (s : Swarm) :
  realVector_ (RemoveMarkedParticles s) = realVector_ s.
Proof.
  unfold RemoveMarkedParticles.
  apply (fold_left_preserves (λ a, realVector_ a = realVector_ s)); [|done].
  intros a n Ha. unfold remove_slot.
  destruct (zget_def false (mask_ a) n); [|done].
  destruct (zget_def false (marked_for_removal_ a) n); done.
Qed.

Lemma Defrag_labels (s s' : Swarm) :
  Defrag s = Ok s' → labels (realVector_ s') = labels (realVector_ s).
Proof.
  unfold Defrag. case_bool_decide; [by intros [= <-]|].
  intros (st & _ & [= <-])%bind_Ok. cbn.
  apply (fold_left_preserves (λ vs, labels vs = labels (realVector_ s))); [|done].
  intros vs n <-. unfold defrag_vars. case_bool_decide; [|done].
  unfold labels. rewrite <- list_fmap_compose. by apply list_fmap_ext.
Qed.

Lemma Send_labels (pmb : MeshBlock) (s : Swarm) (vb : BoundarySwarm)
    (b : bool) (s' : Swarm) (vb' : BoundarySwarm) :
  Send pmb s vb = Ok (b, s', vb') → labels (realVector_ s') = labels (realVector_ s).
Proof.
  unfold Send. intros ([num msz] & _ & [= _ <- _])%bind_Ok.
  rewrite RemoveMarkedParticles_vars. cbn. unfold pack_buffers.
  apply (fold_left_preserves (λ st, labels (pl_vreal st) = labels (realVector_ s))); [|done].
  intros st n Hst.
  apply (fold_left_preserves (λ st, labels (pl_vreal st) = labels (realVector_ s))); [|done].
  intros st1 m <-. unfold pack_particle. case_bool_decide; [|done].
  destruct (write_values _ _) as [buf1 bi1]. destruct (write_values _ _) as [buf2 bi2]. cbn.
  case_bool_decide; [|done]. apply shape_labels, shape_apply_periodic.
Qed.

Section Coordinates.
Variable increase_target : Z → Z.
Variable vbswarm_Receive : BoundarySwarm → BoundarySwarm.

Lemma grow_pool_labels (fuel : nat) (num_to_add : Z) (s s1 : Swarm) (k : nat) :
  grow_pool increase_target fuel num_to_add s = Ok (s1, k) →
  labels (realVector_ s1) = labels (realVector_ s).
Proof.
  revert s k. induction fuel as [|fuel IH]; intros s k; cbn; case_bool_decide; try done.
  - by intros [= <- _].
  - intros (s2 & H2 & H3)%bind_Ok. apply setPoolMax_labels in H2.
    destruct (grow_pool increase_target fuel num_to_add s2) as [[s3 k3]|] eqn:E; [|done].
    cbn in H3. injection H3 as <- _. by rewrite (IH _ _ E).
  - by intros [= <- _].
Qed.

Lemma AddEmptyParticles_labels (num_to_add : Z) (s s' : Swarm) new_mask new_indices :
  AddEmptyParticles increase_target num_to_add s = Ok (s', new_mask, new_indices) →
  labels (realVector_ s') = labels (realVector_ s).
Proof.
  unfold AddEmptyParticles. case_bool_decide; [|done].
  intros ([s1 k] & H1 & H2)%bind_Ok. apply bind_Ok in H2 as (st & _ & [= <- _ _]). cbn.
  by eapply grow_pool_labels.
Qed.

Lemma Receive_labels (pmb : MeshBlock) (s : Swarm) (vb : BoundarySwarm)
    (b : bool) (s' : Swarm) (vb' : BoundarySwarm) :
  Receive increase_target vbswarm_Receive pmb s vb = Ok (b, s', vb') →
  labels (realVector_ s') = labels (realVector_ s).
Proof.
  unfold Receive. intros ([nr total] & _ & H)%bind_Ok.
  apply bind_Ok in H as (s1 & H1 & H2).
  apply bind_Ok in H2 as ([flags all] & _ & [= _ <- _]).
  case_bool_decide; [|by injection H1 as <-].
  apply bind_Ok in H1 as ([[s2 nm] ni] & Ha & Hu).
  apply bind_Ok in Hu as (st & Hf & [= <-]). cbn.
  apply AddEmptyParticles_labels in Ha. rewrite <- Ha.
  apply unpack_fold in Hf as [Hshape _]. by apply shape_labels.
Qed.

(** Every step of a history keeps the first three real attributes. *)
Lemma coordinates_stay (s0 s : Swarm) :
  take 3 (labels (realVector_ s0)) = ["x"; "y"; "z"] →
  evolves increase_target vbswarm_Receive s0 s →
  take 3 (labels (realVector_ s)) = ["x"; "y"; "z"].
Proof.
  intros H0. induction 1 as [|s lbl md s' _ IH HA|s la md s' _ IH HA|s lbl s' _ IH Hc Hi HR
    |s n s' _ IH HP|s n s' nm ni _ IH HA|s n _ IH|s _ IH|s s' _ IH HD
    |s pmb vb b s' vb' _ IH HS|s pmb vb b s' vb' _ IH HR|s i n x _ IH|s i n x _ IH
    |s bidx _ IH].
  - done.
  - apply Add_vars in HA as [[v ->] _]. unfold labels in *. rewrite fmap_app.
    rewrite take_app_le; [done|]. by eapply take_3_length.
  - apply Add_labelArray_app in HA as [v ->]. unfold labels in *. rewrite fmap_app.
    rewrite take_app_le; [done|]. by eapply take_3_length.
  - rewrite (Remove_keeps_prefix lbl s s' 3); [done | done | by rewrite IH | done].
  - by rewrite (setPoolMax_labels _ _ _ HP).
  - by rewrite (AddEmptyParticles_labels _ _ _ _ _ HA).
  - done.
  - by rewrite RemoveMarkedParticles_vars.
  - by rewrite (Defrag_labels _ _ HD).
  - by rewrite (Send_labels _ _ _ _ _ _ HS).
  - by rewrite (Receive_labels _ _ _ _ _ _ HR).
  - cbn. unfold labels in *. by rewrite (shape_labels _ _ (shape_vset _ _ _ _)).
  - done.
  - done.
Qed.

(** C10, amended. Every new swarm holds the three real attributes [x], [y]
    and [z], in this order and nothing else; [Add] of one of these labels on
    it fails as already enrolled, whatever the metadata; the record of the
    new swarm has these three fields, and they stay the first three real
    fields of the record of every swarm that comes from it as long as no
    coordinate is removed: through [Add], [Remove] of another real
    attribute, [setPoolMax], [AddEmptyParticles], the removal marks,
    [RemoveMarkedParticles], [Defrag], [Send], [Receive] and writes to
    attribute values. *)
Theorem new_swarm_coordinates (lbl : string) (md : Metadata) (nmax_pool_in : Z) :
  ∃ s, Swarm_new lbl md nmax_pool_in = Ok s ∧
       realVector_ s = coordinate_vars nmax_pool_in ∧
       labels (realVector_ s) = ["x"; "y"; "z"] ∧
       Forall (λ v, Type_ (metadata v) = Real) (realVector_ s) ∧
       intVector_ s = [] ∧ GetParticleDataSize s = 3 ∧
       (∀ l md', l ∈ ["x"; "y"; "z"] →
          Add l md' s =
          Err (invalid_argument ("swarm variable " +:+ l +:+ " already enrolled during Add()!"))) ∧
       (∀ vars s', Add_all vars s = Ok s' →
          take 3 (labels (realVector_ s')) = ["x"; "y"; "z"] ∧
          3 ≤ GetParticleDataSize s') ∧
       (∀ s', evolves increase_target vbswarm_Receive s s' →
          take 3 (labels (realVector_ s')) = ["x"; "y"; "z"] ∧
          3 ≤ GetParticleDataSize s').
Proof.
  eexists. split; [apply Swarm_new_eq|]. cbn. split_and!; try done.
  - repeat constructor.
  - intros l md' Hl. unfold Add; cbn. rewrite bool_decide_eq_true_2; [done|].
    right. repeat (apply elem_of_cons in Hl as [->|Hl]; [by vm_compute; eauto|]).
    by apply elem_of_nil in Hl.
  - intros vars s' [v Hv]%Add_all_vars. cbn in Hv. unfold GetParticleDataSize, labels.
    rewrite Hv. cbn. split; [done | lia].
  - intros s' Hev. apply coordinates_stay in Hev; [|done]. split; [done|].
    apply take_3_length in Hev. unfold labels in Hev. rewrite length_fmap in Hev.
    unfold GetParticleDataSize. lia.
Qed.

End Coordinates.

(** A history of [pool0]: an integer and two real attributes are added, the
    pool grows, two particles are allocated, one is marked and removed, the
    real attribute [v] is removed, and the swarm is defragmented; [x], [y]
    and [z] are still the first real attributes. *)
Lemma new_swarm_coordinates_witness :
  ∃ s', evolves double_pool id pool0 s' ∧
        labels (realVector_ s') = ["x"; "y"; "z"; "w"] ∧
        take 3 (labels (realVector_ s')) = ["x"; "y"; "z"].
Proof.
  destruct (new_swarm_coordinates double_pool id "swarm" {| Type_ := NoType |} 10)
    as (s & Hs & _ & _ & _ & _ & _ & _ & _ & Hev).
  assert (Hs0 : Swarm_new "swarm" {| Type_ := NoType |} 10 = Ok pool0) by evaluate.
  rewrite Hs0 in Hs. injection Hs as <-.
  pose (s1 := from_Ok (Add "id" {| Type_ := Integer |} pool0)).
  pose (s2 := from_Ok (Add_labelArray ["v"; "w"] {| Type_ := Real |} s1)).
  pose (s3 := from_Ok (setPoolMax 12 s2)).
  pose (s4 := from_Ok ('(s, _, _) ← AddEmptyParticles double_pool 2 s3; Ok s)).
  pose (s5 := RemoveMarkedParticles (MarkParticleForRemoval 0 s4)).
  pose (s6 := from_Ok (Remove "v" s5)).
  pose (s7 := from_Ok (Defrag s6)).
  assert (H7 : evolves double_pool id pool0 s7).
  { apply (ev_Defrag _ _ _ s6); [|evaluate].
    apply (ev_Remove _ _ _ s5 "v"); [| | |evaluate].
    - apply ev_RemoveMarkedParticles, ev_Mark.
      apply (ev_AddEmptyParticles _ _ _ s3 2 _
               (match AddEmptyParticles double_pool 2 s3 with
                | Ok (_, new_mask, _) => new_mask
                | Err _ => []
                end)
               (match AddEmptyParticles double_pool 2 s3 with
                | Ok (_, _, new_indices) => new_indices
                | Err _ => []
                end));
        [|evaluate].
      apply (ev_setPoolMax _ _ _ s2 12); [|evaluate].
      apply (ev_Add_labelArray _ _ _ s1 ["v"; "w"] {| Type_ := Real |}); [|evaluate].
      apply (ev_Add _ _ _ pool0 "id" {| Type_ := Integer |}); [|evaluate].
      apply ev_start.
    - intros Hin. repeat (apply elem_of_cons in Hin as [Hin|Hin]; [discriminate Hin|]).
      by apply elem_of_nil in Hin.
    - change (labels (intVector_ s5)) with ["id"]. intros Hin.
      apply elem_of_cons in Hin as [Hin|Hin]; [discriminate Hin|].
      by apply elem_of_nil in Hin. }
  exists s7. split; [exact H7|]. split; [evaluate|]. apply (Hev s7 H7).
Defined.
